(** * BoardingLab: the boarding simulator, its layout, the priority contract
      and the optimizer's fitness, embedded from the JavaScript sources.

    Conventions of the embedding.
    - JavaScript numbers that the code only ever uses as integers (rows,
      aisle cells, counters, seeds) are [Z] or [nat]; quotients such as the
      value returned by [RandomGenerator.next] or a fitness are exact
      rationals [Q].  The doubles computed by the engine are the nearest
      doubles to these rationals; every integer derived from them
      ([nextInt]) is the same, because [seed * k / m] is at least [1/m] away
      from any integer while the rounding error stays below [2^-40].
    - A JavaScript [Map] whose iteration order is observable
      ([Simulation.passengerStates]) is an association list in insertion
      order; the maps of [Aircraft], which are only read and written by key,
      are [gmap]s.  A [Map] value is [Some v] when the key is present and
      [None] when [get] answers [undefined]; the JavaScript [null] stored
      in a seat or an aisle cell is the inner [None].
    - Objects that are mutated in place and shared (the run-state of a
      passenger, held both by the map and by the queue) live in one store
      and are referred to by their key.
    - A [TypeError] raised by the engine is the [None] of [option]. *)

From Stdlib Require Import ZArith QArith Qround Ascii String Lia.
From stdpp Require Import gmap strings list fin_maps sorting.

Local Open Scope Z_scope.

(* ===================================================================== *)
(** * Part I: definitions                                                 *)
(* ===================================================================== *)

(** ** Array.prototype.sort

    ECMAScript requires [sort] to be stable.  For a consistent comparator
    the result is therefore determined; it is computed here by a stable
    insertion sort.  [after x y] is [comparator(x, y) > 0]. *)

Section Sort.
Context {A : Type} (after : A -> A -> bool).

Fixpoint sort_insert (x : A) (l : list A) : list A :=
  match l with
  | [] => [x]
  | y :: l' => if after x y then y :: sort_insert x l' else x :: l
  end.

Definition array_sort (l : list A) : list A := foldr sort_insert [] l.
End Sort.

(** ** Passenger.js *)

Module WalkSpeed.
Inductive t := SLOW | NORMAL | FAST.
End WalkSpeed.

Module CarryOnSize.
Inductive t := NONE | SMALL | LARGE.
End CarryOnSize.

Module ComplianceLevel.
Inductive t := STRICT | NORMAL | OPPORTUNISTIC.
End ComplianceLevel.

Module SeatClass.
Inductive t := window | middle | aisle.
End SeatClass.

(** [column.charCodeAt(0) - 'A'.charCodeAt(0)]; [None] is the [NaN] of an
    empty label. *)
Definition columnIndex (column : string) : option Z :=
  match column with
  | EmptyString => None
  | String c _ => Some (Z.of_N (N_of_ascii c) - 65)
  end.

(** [String.fromCharCode('A'.charCodeAt(0) + i)].  Labels are byte strings
    in this model, which is exact for [0 <= 65 + i < 256]. *)
Definition fromCharCode (n : Z) : string :=
  String (ascii_of_N (Z.to_N (n mod 256))) EmptyString.

Module Passenger.
Record t := mk {
  id : nat;
  row : Z;
  column : string;
  walkSpeed : WalkSpeed.t;
  carryOnSize : CarryOnSize.t;
  compliance : ComplianceLevel.t;
  groupId : option nat;
}.

Definition SPEED_MULTIPLIERS (w : WalkSpeed.t) : Q :=
  match w with
  | WalkSpeed.SLOW => 7 # 10
  | WalkSpeed.NORMAL => 1
  | WalkSpeed.FAST => 13 # 10
  end.

Definition STOW_TIMES (c : CarryOnSize.t) : Z :=
  match c with
  | CarryOnSize.NONE => 0
  | CarryOnSize.SMALL => 3
  | CarryOnSize.LARGE => 8
  end.

Definition speedMultiplier (p : t) : Q := SPEED_MULTIPLIERS (walkSpeed p).
Definition stowTime (p : t) : Z := STOW_TIMES (carryOnSize p).

Definition seatClass (p : t) : SeatClass.t :=
  match columnIndex (column p) with
  | Some 0 | Some 5 => SeatClass.window
  | Some 1 | Some 4 => SeatClass.middle
  | _ => SeatClass.aisle
  end.

(** [NaN < 3] is false and [NaN - 3] is [NaN]. *)
Definition seatsToPass (p : t) : option Z :=
  match columnIndex (column p) with
  | Some i => Some (if i <? 3 then 2 - i else i - 3)
  | None => None
  end.

(** The frozen view handed to a priority function by [toContext]. *)
Record view := mkView {
  v_id : nat;
  v_row : Z;
  v_column : string;
  v_seatClass : SeatClass.t;
  v_walkSpeed : WalkSpeed.t;
  v_carryOnSize : CarryOnSize.t;
  v_compliance : ComplianceLevel.t;
  v_groupId : option nat;
  v_seatsToPass : option Z;
}.

Definition toContext (p : t) : view :=
  mkView (id p) (row p) (column p) (seatClass p) (walkSpeed p)
         (carryOnSize p) (compliance p) (groupId p) (seatsToPass p).

Definition seat (p : t) : Z * string := (row p, column p).
End Passenger.

(** ** RandomGenerator.js *)

Module RandomGenerator.
Record t := mk { seed : Z; initialSeed : Z }.

Definition new (s : Z) : t := mk s s.
Definition reset (g : t) : t := mk (initialSeed g) (initialSeed g).
Definition setSeed (s : Z) (g : t) : t := mk s s.

Definition a : Z := 48271.
Definition m : Z := 2147483647.

(** [this.seed = (a * this.seed) % m; return this.seed / m].  The
    JavaScript [%] truncates towards zero: it is [Z.rem].  The product
    is exact in a double as long as it stays within [2^53]: this is the
    range of seeds on which the definition is the code, and the
    statements on the generator stay within it.  Beyond it the
    code rounds the product, and for a seed large enough the product is
    [Infinity] and every draw [NaN].  After one draw the seed lies below
    [m] and every later product is exact. *)
Definition next (g : t) : Q * t :=
  let s := Z.rem (a * seed g) m in
  (Qmake s 2147483647, mk s (initialSeed g)).

(** [Math.floor(this.next() * (max - min + 1)) + min].  The code rounds
    the quotient [seed / m] and its product with the width to doubles.
    As [m] is prime, the exact product is an integer or at least [1 / m]
    away from one, and up to a width of [2^20] the rounding error stays
    below that distance: there the floor of the code is the floor taken
    here.  What is stated of the values of [nextInt], [pick] and
    [shuffle] is stated within that bound on the width, with [min] and
    [max] integers a double holds exactly. *)
Definition nextInt (min max : Z) (g : t) : Z * t :=
  let '(x, g') := next g in
  (Qfloor (x * inject_Z (max - min + 1)) + min, g').

(** [array[i]]: [undefined] ([None]) outside the array. *)
Definition array_get {A} (array : list A) (i : Z) : option A :=
  if i <? 0 then None else array !! Z.to_nat i.

Definition pick {A} (array : list A) (g : t) : option A * t :=
  let '(i, g') := nextInt 0 (Z.of_nat (length array) - 1) g in
  (array_get array i, g').

(** [[array[i], array[j]] = [array[j], array[i]]].  Both indices lie in
    the array whenever the seed is not negative; the model stops
    ([None]) otherwise. *)
Definition swap {A} (i : nat) (j : Z) (array : list A) : option (list A) :=
  x ← array !! i;
  y ← array_get array j;
  Some (<[Z.to_nat j := x]> (<[i := y]> array)).

Fixpoint shuffle_from {A} (i : nat) (array : list A) (g : t)
  : option (list A * t) :=
  match i with
  | O => Some (array, g)
  | S i' =>
      let '(j, g') := nextInt 0 (Z.of_nat i) g in
      array' ← swap i j array;
      shuffle_from i' array' g'
  end.

(** [for (let i = array.length - 1; i > 0; i--)] *)
Definition shuffle {A} (array : list A) (g : t) : option (list A * t) :=
  shuffle_from (length array - 1)%nat array g.
End RandomGenerator.

(** [generatePassengers({ count, rows, columns, rng })] *)

Definition allSeats (rows : Z) (columns : list string) : list (Z * string) :=
  r ← seqZ 1 rows; (fun c => (r, c)) <$> columns.

Definition walkSpeedChoices : list WalkSpeed.t :=
  [WalkSpeed.SLOW; WalkSpeed.NORMAL; WalkSpeed.NORMAL; WalkSpeed.NORMAL;
   WalkSpeed.FAST].
Definition carryOnChoices : list CarryOnSize.t :=
  [CarryOnSize.NONE; CarryOnSize.SMALL; CarryOnSize.SMALL; CarryOnSize.SMALL;
   CarryOnSize.LARGE].
Definition complianceChoices : list ComplianceLevel.t :=
  [ComplianceLevel.STRICT; ComplianceLevel.NORMAL; ComplianceLevel.NORMAL;
   ComplianceLevel.NORMAL; ComplianceLevel.OPPORTUNISTIC].

(** The callback of [selectedSeats.map((seat, index) => ...)], with the
    generator threaded through the successive calls. *)
Fixpoint makePassengers (index : nat) (selectedSeats : list (Z * string))
    (g : RandomGenerator.t) : option (list Passenger.t * RandomGenerator.t) :=
  match selectedSeats with
  | [] => Some ([], g)
  | seat :: rest =>
      let '(w, g1) := RandomGenerator.pick walkSpeedChoices g in
      let '(c, g2) := RandomGenerator.pick carryOnChoices g1 in
      let '(k, g3) := RandomGenerator.pick complianceChoices g2 in
      walkSpeed ← w;
      carryOnSize ← c;
      compliance ← k;
      '(ps, g4) ← makePassengers (S index) rest g3;
      Some (Passenger.mk (index + 1)%nat seat.1 seat.2 walkSpeed carryOnSize
              compliance None :: ps, g4)
  end.

Definition generatePassengers (count : nat) (rows : Z) (columns : list string)
    (rng : RandomGenerator.t) : option (list Passenger.t * RandomGenerator.t) :=
  '(shuffled, g) ← RandomGenerator.shuffle (allSeats rows columns) rng;
  makePassengers 0 (take count shuffled) g.


(** ** Aircraft.js *)

Module Aircraft.
Record Config := mkConfig {
  cfg_rows : Z;
  cfg_columns : list string;
  cfg_aislePosition : Z;
  cfg_binCapacityPerRow : Z;
  cfg_boardingDoor : string;
}.

Definition DEFAULT_CONFIG : Config :=
  mkConfig 30 ["A"; "B"; "C"; "D"; "E"; "F"]%string 3 6 "front".

(** The three maps of the object.  [rows], [columns] and [aislePosition]
    are copied from the frozen configuration by the constructor and never
    assigned again; they are read from [config] here. *)
Record t := mk {
  config : Config;
  binCapacity : gmap Z Z;
  seats : gmap (Z * string) (option Passenger.t);
  aisle : gmap Z (option Passenger.t);
}.

Definition rows (a : t) : Z := cfg_rows (config a).
Definition columns (a : t) : list string := cfg_columns (config a).
Definition aislePosition (a : t) : Z := cfg_aislePosition (config a).

(** The seat key [`${row}-${column}`] is the pair: the decimal rendering
    of an integer holds no ['-'] after its first character, so the
    template is injective on pairs. *)

(** [for (let row = 1; row <= rows; row++) binCapacity.set(row, cap)] *)
Definition fillBins (rows cap : Z) (m : gmap Z Z) : gmap Z Z :=
  foldl (fun m r => <[r := cap]> m) m (seqZ 1 rows).

Definition fillSeats (rows : Z) (columns : list string)
    (m : gmap (Z * string) (option Passenger.t))
  : gmap (Z * string) (option Passenger.t) :=
  foldl (fun m r => foldl (fun m c => <[(r, c) := None]> m) m columns)
        m (seqZ 1 rows).

(** [for (let row = 0; row <= rows; row++) aisle.set(row, null)] *)
Definition fillAisle (rows : Z) (m : gmap Z (option Passenger.t))
  : gmap Z (option Passenger.t) :=
  foldl (fun m r => <[r := None]> m) m (seqZ 0 (rows + 1)).

Definition new (cfg : Config) : t :=
  mk cfg
     (fillBins (cfg_rows cfg) (cfg_binCapacityPerRow cfg) ∅)
     (fillSeats (cfg_rows cfg) (cfg_columns cfg) ∅)
     (fillAisle (cfg_rows cfg) ∅).

Definition reset (a : t) : t :=
  mk (config a)
     (fillBins (rows a) (cfg_binCapacityPerRow (config a)) (binCapacity a))
     (fillSeats (rows a) (columns a) (seats a))
     (fillAisle (rows a) (aisle a)).

Definition totalSeats (a : t) : Z := rows a * Z.of_nat (length (columns a)).

(** [this.seats.get(key) !== null]: an absent key answers [undefined],
    which is not [null]. *)
Definition isSeatOccupied (a : t) (row : Z) (column : string) : bool :=
  match seats a !! (row, column) with
  | Some None => false
  | _ => true
  end.

Definition getPassengerInSeat (a : t) (row : Z) (column : string)
  : option (option Passenger.t) := seats a !! (row, column).

Definition seatPassenger (p : Passenger.t) (a : t) : t :=
  mk (config a) (binCapacity a)
     (<[(Passenger.row p, Passenger.column p) := Some p]> (seats a))
     (aisle a).

Definition isAisleOccupied (a : t) (row : Z) : bool :=
  match aisle a !! row with
  | Some None => false
  | _ => true
  end.

Definition getPassengerInAisle (a : t) (row : Z)
  : option (option Passenger.t) := aisle a !! row.

Definition placeInAisle (p : Passenger.t) (row : Z) (a : t) : t :=
  mk (config a) (binCapacity a) (seats a) (<[row := Some p]> (aisle a)).

Definition removeFromAisle (row : Z) (a : t) : t :=
  mk (config a) (binCapacity a) (seats a) (<[row := None]> (aisle a)).

Definition required (c : CarryOnSize.t) : Z :=
  match c with CarryOnSize.SMALL => 1 | _ => 2 end.

(** [undefined >= required] is false. *)
Definition hasBinCapacity (a : t) (row : Z) (c : CarryOnSize.t) : bool :=
  match c with
  | CarryOnSize.NONE => true
  | _ => match binCapacity a !! row with
         | Some current => required c <=? current
         | None => false
         end
  end.

Definition useBinCapacity (row : Z) (c : CarryOnSize.t) (a : t) : bool * t :=
  match c with
  | CarryOnSize.NONE => (true, a)
  | _ => match binCapacity a !! row with
         | Some current =>
             if required c <=? current
             then (true, mk (config a)
                            (<[row := current - required c]> (binCapacity a))
                            (seats a) (aisle a))
             else (false, a)
         | None => (false, a)
         end
  end.

Fixpoint findNearest (a : t) (startRow : Z) (c : CarryOnSize.t)
    (offsets : list Z) : option Z :=
  match offsets with
  | [] => None
  | offset :: rest =>
      let rowAbove := startRow - offset in
      let rowBelow := startRow + offset in
      if (1 <=? rowAbove) && hasBinCapacity a rowAbove c then Some rowAbove
      else if (rowBelow <=? rows a) && hasBinCapacity a rowBelow c
           then Some rowBelow
           else findNearest a startRow c rest
  end.

Definition findNearestBinCapacity (a : t) (startRow : Z) (c : CarryOnSize.t)
  : option Z := findNearest a startRow c (seqZ 0 (rows a + 1)).

(** The indices visited by the two loops of [getBlockingSeats]: from
    [aislePosition - 1] down to [targetIndex + 1] on the left, from
    [aislePosition] up to [targetIndex - 1] on the right.  With a [NaN]
    target index both comparisons are false: right side, empty loop. *)
Definition blockingIndices (aislePosition : Z) (targetIndex : option Z)
  : list Z :=
  match targetIndex with
  | Some ti =>
      if ti <? aislePosition
      then reverse (seqZ (ti + 1) (aislePosition - 1 - ti))
      else seqZ aislePosition (ti - aislePosition)
  | None => []
  end.

Definition getBlockingSeats (a : t) (row : Z) (targetColumn : string)
  : list string :=
  filter (fun col => isSeatOccupied a row col = true)
         ((fun i => fromCharCode (65 + i))
            <$> blockingIndices (aislePosition a) (columnIndex targetColumn)).

Definition getSeatedCount (a : t) : nat :=
  length (filter (fun kv => kv.2 <> None) (map_to_list (seats a))).
End Aircraft.

(** ** Simulation.js *)

Module PassengerState.
Inductive t := WAITING | WALKING | STOWING | SHUFFLING | SEATING | SEATED.

Definition eqb (x y : t) : bool :=
  match x, y with
  | WAITING, WAITING | WALKING, WALKING | STOWING, STOWING
  | SHUFFLING, SHUFFLING | SEATING, SEATING | SEATED, SEATED => true
  | _, _ => false
  end.
End PassengerState.

Module EventType.
Inductive t :=
| ENTER | MOVE | STOW_START | STOW_END | SHUFFLE_START | SHUFFLE_END
| SEAT | AISLE_BLOCKED | BIN_FULL.
End EventType.

#[global] Instance PassengerState_eq_dec : EqDecision PassengerState.t.
Proof. solve_decision. Defined.
#[global] Instance EventType_eq_dec : EqDecision EventType.t.
Proof. solve_decision. Defined.

(** A [Map] iterated in insertion order: [set] on a present key replaces the
    value in place, on a fresh key appends. *)
Section InsertionOrderedMap.
Context {V : Type}.

Fixpoint assoc_get (k : nat) (m : list (nat * V)) : option V :=
  match m with
  | [] => None
  | (k', v) :: m' => if decide (k = k') then Some v else assoc_get k m'
  end.

Fixpoint assoc_set (k : nat) (v : V) (m : list (nat * V)) : list (nat * V) :=
  match m with
  | [] => [(k, v)]
  | (k', v') :: m' =>
      if decide (k = k') then (k, v) :: m' else (k', v') :: assoc_set k v m'
  end.
End InsertionOrderedMap.

Module Simulation.
Import PassengerState.

(** The mutable per-passenger object stored in [passengerStates]. *)
Record RunState := mkRunState {
  passenger : Passenger.t;
  state : PassengerState.t;
  aisleRow : Z;
  stowRemaining : Z;
  shuffleRemaining : Z;
  waitTime : Z;
  enteredAt : Z;
  seatedAt : Z;
}.

Definition set_state (x : PassengerState.t) (ps : RunState) : RunState :=
  mkRunState (passenger ps) x (aisleRow ps) (stowRemaining ps)
    (shuffleRemaining ps) (waitTime ps) (enteredAt ps) (seatedAt ps).
Definition set_aisleRow (x : Z) (ps : RunState) : RunState :=
  mkRunState (passenger ps) (state ps) x (stowRemaining ps)
    (shuffleRemaining ps) (waitTime ps) (enteredAt ps) (seatedAt ps).
Definition set_stowRemaining (x : Z) (ps : RunState) : RunState :=
  mkRunState (passenger ps) (state ps) (aisleRow ps) x
    (shuffleRemaining ps) (waitTime ps) (enteredAt ps) (seatedAt ps).
Definition set_shuffleRemaining (x : Z) (ps : RunState) : RunState :=
  mkRunState (passenger ps) (state ps) (aisleRow ps) (stowRemaining ps)
    x (waitTime ps) (enteredAt ps) (seatedAt ps).
Definition set_waitTime (x : Z) (ps : RunState) : RunState :=
  mkRunState (passenger ps) (state ps) (aisleRow ps) (stowRemaining ps)
    (shuffleRemaining ps) x (enteredAt ps) (seatedAt ps).
Definition set_enteredAt (x : Z) (ps : RunState) : RunState :=
  mkRunState (passenger ps) (state ps) (aisleRow ps) (stowRemaining ps)
    (shuffleRemaining ps) (waitTime ps) x (seatedAt ps).
Definition set_seatedAt (x : Z) (ps : RunState) : RunState :=
  mkRunState (passenger ps) (state ps) (aisleRow ps) (stowRemaining ps)
    (shuffleRemaining ps) (waitTime ps) (enteredAt ps) x.

(** The kind-specific payload spread into an event. *)
Inductive EventData :=
| NoData
| AtRow (row : Z)
| FromTo (from to : Z)
| Blocked (row blockedBy : Z)
| Shuffle (row : Z) (blocking : list string)
| Seat (row : Z) (column : string).

Record Event := mkEvent {
  step_of : Z;
  type : EventType.t;
  passengerId : nat;
  passengerRow : Z;
  passengerColumn : string;
  data : EventData;
}.

(** [queue] holds references to run-state objects: the key of the object
    in [passengerStates], or [None] for the [undefined] that
    [passengerStates.get] answers on an unknown id. *)
Record t := mk {
  aircraft : Aircraft.t;
  originalPassengers : list Passenger.t;
  currentStep : Z;
  isComplete : bool;
  events : list Event;
  passengerStates : list (nat * RunState);
  queue : list (option nat);
}.

Definition set_aircraft (a : Aircraft.t) (s : t) : t :=
  mk a (originalPassengers s) (currentStep s) (isComplete s) (events s)
     (passengerStates s) (queue s).
Definition set_currentStep (n : Z) (s : t) : t :=
  mk (aircraft s) (originalPassengers s) n (isComplete s) (events s)
     (passengerStates s) (queue s).
Definition set_isComplete (b : bool) (s : t) : t :=
  mk (aircraft s) (originalPassengers s) (currentStep s) b (events s)
     (passengerStates s) (queue s).
Definition set_events (e : list Event) (s : t) : t :=
  mk (aircraft s) (originalPassengers s) (currentStep s) (isComplete s) e
     (passengerStates s) (queue s).
Definition set_queue (q : list (option nat)) (s : t) : t :=
  mk (aircraft s) (originalPassengers s) (currentStep s) (isComplete s)
     (events s) (passengerStates s) q.

(** Writing a field of the run-state object [ps]: the object sits in the
    map under its passenger's id. *)
Definition put (ps : RunState) (s : t) : t :=
  mk (aircraft s) (originalPassengers s) (currentStep s) (isComplete s)
     (events s)
     (assoc_set (Passenger.id (passenger ps)) ps (passengerStates s))
     (queue s).

Definition initialRunState (p : Passenger.t) : RunState :=
  mkRunState p WAITING (-1) 0 0 0 (-1) (-1).

Definition reset (s : t) : t :=
  mk (Aircraft.reset (aircraft s)) (originalPassengers s) 0 false []
     (foldl (fun m p => assoc_set (Passenger.id p) (initialRunState p) m)
            [] (originalPassengers s))
     [].

(** [new Simulation({ passengers, aircraft })] *)
Definition new (passengers : list Passenger.t) (aircraft : Aircraft.t) : t :=
  reset (mk aircraft passengers 0 false [] [] []).

Definition setBoardingOrder (orderedIds : list nat) (s : t) : t :=
  set_queue
    ((fun id => match assoc_get id (passengerStates s) with
                | Some _ => Some id
                | None => None
                end) <$> orderedIds) s.

Definition recordEvent (ty : EventType.t) (p : Passenger.t) (d : EventData)
    (s : t) : t :=
  set_events
    (events s ++ [mkEvent (currentStep s) ty (Passenger.id p)
                    (Passenger.row p) (Passenger.column p) d]) s.

Definition inAisle (ps : RunState) : bool :=
  negb (eqb (state ps) WAITING) && negb (eqb (state ps) SEATED)
  && (0 <=? aisleRow ps).

(** [inAisle.sort((a, b) => b.aisleRow - a.aisleRow)] over the values of
    the map in insertion order; the result lists the objects by key. *)
Definition getAislePassengersSorted (s : t) : list nat :=
  fst <$> array_sort (fun a b => 0 <? aisleRow b.2 - aisleRow a.2)
            (filter (fun kv => inAisle kv.2 = true) (passengerStates s)).

Definition startSeating (ps : RunState) (s : t) : t :=
  let p := passenger ps in
  let blocking :=
    Aircraft.getBlockingSeats (aircraft s) (Passenger.row p)
      (Passenger.column p) in
  if (0 <? length blocking)%nat
  then recordEvent EventType.SHUFFLE_START p
         (Shuffle (aisleRow ps) blocking)
         (put (set_shuffleRemaining (Z.of_nat (length blocking) * 3)
                 (set_state SHUFFLING ps)) s)
  else put (set_state SEATING ps) s.

Definition processWalking (ps : RunState) (s : t) : t :=
  let p := passenger ps in
  let aisleRow := aisleRow ps in
  let targetRow := Passenger.row p in
  if aisleRow =? targetRow then
    match Passenger.carryOnSize p with
    | CarryOnSize.NONE => startSeating ps s
    | size =>
        let s1 :=
          recordEvent EventType.STOW_START p (AtRow aisleRow)
            (put (set_stowRemaining (Passenger.stowTime p)
                    (set_state STOWING ps)) s) in
        if Aircraft.hasBinCapacity (aircraft s1) aisleRow size then s1
        else recordEvent EventType.BIN_FULL p (AtRow aisleRow) s1
    end
  else
    let nextRow := aisleRow + 1 in
    if (nextRow <=? Aircraft.rows (aircraft s))
       && negb (Aircraft.isAisleOccupied (aircraft s) nextRow)
    then
      recordEvent EventType.MOVE p (FromTo aisleRow nextRow)
        (put (set_aisleRow nextRow ps)
           (set_aircraft
              (Aircraft.placeInAisle p nextRow
                 (Aircraft.removeFromAisle aisleRow (aircraft s))) s))
    else
      recordEvent EventType.AISLE_BLOCKED p (Blocked aisleRow nextRow)
        (put (set_waitTime (waitTime ps + 1) ps) s).

Definition processStowing (ps : RunState) (s : t) : t :=
  let ps1 := set_stowRemaining (stowRemaining ps - 1) ps in
  if stowRemaining ps1 <=? 0 then
    let a :=
      (Aircraft.useBinCapacity (aisleRow ps1)
         (Passenger.carryOnSize (passenger ps1)) (aircraft s)).2 in
    startSeating ps1
      (recordEvent EventType.STOW_END (passenger ps1) (AtRow (aisleRow ps1))
         (put ps1 (set_aircraft a s)))
  else put (set_waitTime (waitTime ps1 + 1) ps1) s.

Definition processShuffling (ps : RunState) (s : t) : t :=
  let ps1 :=
    set_waitTime (waitTime ps + 1)
      (set_shuffleRemaining (shuffleRemaining ps - 1) ps) in
  if shuffleRemaining ps1 <=? 0 then
    put (set_state SEATING ps1)
      (recordEvent EventType.SHUFFLE_END (passenger ps1)
         (AtRow (aisleRow ps1)) s)
  else put ps1 s.

Definition processSeating (ps : RunState) (s : t) : t :=
  let p := passenger ps in
  recordEvent EventType.SEAT p (Seat (Passenger.row p) (Passenger.column p))
    (put (set_seatedAt (currentStep s) (set_state SEATED ps))
       (set_aircraft
          (Aircraft.seatPassenger p
             (Aircraft.removeFromAisle (aisleRow ps) (aircraft s))) s)).

(** [_processPassengerInAisle(ps)]: the object is read when its turn
    comes, under the reference [k] taken by the sort. *)
Definition processPassengerInAisle (s : t) (k : nat) : t :=
  match assoc_get k (passengerStates s) with
  | Some ps =>
      match state ps with
      | WALKING => processWalking ps s
      | STOWING => processStowing ps s
      | SHUFFLING => processShuffling ps s
      | SEATING => processSeating ps s
      | WAITING | SEATED => s
      end
  | None => s
  end.

(** [ps.state = ...] on the [undefined] shifted from the queue raises a
    [TypeError]. *)
Definition tryAddFromQueue (s : t) : option t :=
  match queue s with
  | [] => Some s
  | r :: rest =>
      if Aircraft.isAisleOccupied (aircraft s) 0 then Some s
      else
        k ← r;
        ps ← assoc_get k (passengerStates s);
        let ps' :=
          set_enteredAt (currentStep s)
            (set_aisleRow 0 (set_state WALKING ps)) in
        Some (recordEvent EventType.ENTER (passenger ps') NoData
                (put ps'
                   (set_aircraft
                      (Aircraft.placeInAisle (passenger ps') 0 (aircraft s))
                      (set_queue rest s))))
  end.

Definition allSeated (s : t) : bool :=
  forallb (fun kv => eqb (state kv.2) SEATED) (passengerStates s).

Definition checkCompletion (s : t) : t :=
  if allSeated s then set_isComplete true s else s.

(** The state left by [step()]; its return value is [stepReturn]. *)
Definition step (s : t) : option t :=
  if isComplete s then Some s
  else
    let s1 := set_currentStep (currentStep s + 1) s in
    let aislePassengers := getAislePassengersSorted s1 in
    let s2 := foldl processPassengerInAisle s1 aislePassengers in
    s3 ← tryAddFromQueue s2;
    Some (checkCompletion s3).

Definition stepReturn (s : t) : option bool :=
  if isComplete s then Some false
  else s' ← step s; Some (negb (isComplete s')).

Fixpoint steps (n : nat) (s : t) : option t :=
  match n with
  | O => Some s
  | S n' => s' ← step s; steps n' s'
  end.

(** [while (!this.isComplete && this.currentStep < maxSteps) this.step()]:
    a step that runs adds one to [currentStep], so the loop body runs at
    most [maxSteps - currentStep] times. *)
Fixpoint runLoop (fuel : nat) (s : t) : option t :=
  match fuel with
  | O => Some s
  | S fuel' => if isComplete s then Some s else s' ← step s; runLoop fuel' s'
  end.

Definition runToCompletion (maxSteps : Z) (s : t) : option (Z * t) :=
  s' ← runLoop (Z.to_nat (maxSteps - currentStep s)) s;
  Some (currentStep s', s').

Record SnapshotEntry := mkEntry {
  e_id : nat;
  e_row : Z;
  e_column : string;
  e_state : PassengerState.t;
  e_aisleRow : Z;
  e_waitTime : Z;
}.

Record Snapshot := mkSnapshot {
  snap_step : Z;
  snap_isComplete : bool;
  passengersInAisle : list SnapshotEntry;
  passengersSeated : list SnapshotEntry;
  passengersWaiting : list SnapshotEntry;
  queueLength : nat;
  seatedCount : nat;
  totalPassengers : nat;
}.

Definition entry (ps : RunState) : SnapshotEntry :=
  mkEntry (Passenger.id (passenger ps)) (Passenger.row (passenger ps))
    (Passenger.column (passenger ps)) (state ps) (aisleRow ps) (waitTime ps).

Definition getSnapshot (s : t) : Snapshot :=
  let all := snd <$> passengerStates s in
  let seated := filter (fun ps => eqb (state ps) SEATED = true) all in
  let waiting := filter (fun ps => eqb (state ps) WAITING = true) all in
  let inAisle :=
    filter (fun ps => eqb (state ps) SEATED = false
                      /\ eqb (state ps) WAITING = false) all in
  mkSnapshot (currentStep s) (isComplete s) (entry <$> inAisle)
    (entry <$> seated) (entry <$> waiting) (length (queue s))
    (length seated) (length (passengerStates s)).

Definition getEvents (s : t) : list Event := events s.
End Simulation.


(** ** AlgorithmRunner.js *)

Module AlgorithmRunner.
Record ValidationResult := mkValidationResult {
  isValid : bool;
  errors : list string;
  warnings : list string;
}.

Definition success (warnings : list string) : ValidationResult :=
  mkValidationResult true [] warnings.
Definition failure (errors warnings : list string) : ValidationResult :=
  mkValidationResult false errors warnings.

Record Context := mkContext {
  totalRows : Z;
  totalPassengers : nat;
  columns : list string;
}.

(** What a call of a user-supplied function can hand back. *)
Inductive value :=
| Num (q : Q)
| NaN
| Infinity (negative : bool)
| Undefined
| Null
| Bool (b : bool)
| Str (s : string)
| Obj (ref : nat)
| Fun (ref : nat).

Definition typeof (v : value) : string :=
  match v with
  | Num _ | NaN | Infinity _ => "number"
  | Undefined => "undefined"
  | Null | Obj _ => "object"
  | Bool _ => "boolean"
  | Str _ => "string"
  | Fun _ => "function"
  end.

(** [result1 === result2] *)
Definition strictEquals (x y : value) : bool :=
  match x, y with
  | Num p, Num q => Qeq_bool p q
  | Infinity a, Infinity b => Bool.eqb a b
  | Undefined, Undefined | Null, Null => true
  | Bool a, Bool b => Bool.eqb a b
  | Str a, Str b => bool_decide (a = b)
  | Obj a, Obj b | Fun a, Fun b => bool_decide (a = b)
  | _, _ => false
  end.

(** A call either returns or throws.  [Throw message] is a thrown object
    whose [message] is the string [message], such as
    [new Error(message)]: [message] is what [e.message] hands to the
    handlers.  A thrown [null] or [undefined], on which the handler's own
    [e.message] raises a [TypeError], is not among these outcomes: what
    is stated of functions that throw is stated of functions that throw
    an object with a message. *)
Inductive outcome :=
| Return (v : value)
| Throw (message : string).

(** A statement either completes or lets an exception escape. *)
Inductive completion (A : Type) :=
| Normal (a : A)
| Abrupt (message : string).
Arguments Normal {A} a.
Arguments Abrupt {A} message.

Section Validation.
(** The world a JavaScript function may read and write: a priority
    function need not be pure, which is why the validation calls it
    twice.  [now] is [performance.now()]. *)
Context {World : Type}.
Variable now : World -> Q * World.

Definition function : Type :=
  Passenger.view -> Context -> World -> outcome * World.

(** The first argument of [validateAlgorithm]: any value, possibly a
    function. *)
Inductive candidate :=
| NotAFunction (v : value)
| Function (f : function).

(** The sampling loop; every [break] leaves exactly one message. *)
Fixpoint sampleLoop (f : function) (context : Context) (startTime : Q)
    (testPassengers : list Passenger.view) (w : World)
  : list string * World :=
  match testPassengers with
  | [] => ([], w)
  | passenger :: rest =>
      let '(o, w1) := f passenger context w in
      match o with
      | Throw message => (["Execution error: " +:+ message], w1)
      | Return result =>
          match result with
          | Num _ =>
              let '(t, w2) := now w1 in
              if negb (Qle_bool (t - startTime) 100)
              then (["Execution time exceeded limit"], w2)
              else sampleLoop f context startTime rest w2
          | NaN => (["Priority function returned NaN"], w1)
          | Infinity _ => (["Priority function returned Infinity"], w1)
          | _ =>
              (["Priority function returned " +:+ typeof result
                  +:+ ", expected number"], w1)
          end
      end
  end.

(** The determinism loop calls the function outside any [try]. *)
Fixpoint determinismLoop (f : function) (context : Context)
    (testPassengers : list Passenger.view) (w : World)
  : completion (list string) * World :=
  match testPassengers with
  | [] => (Normal [], w)
  | passenger :: rest =>
      let '(o1, w1) := f passenger context w in
      match o1 with
      | Throw message => (Abrupt message, w1)
      | Return result1 =>
          let '(o2, w2) := f passenger context w1 in
          match o2 with
          | Throw message => (Abrupt message, w2)
          | Return result2 =>
              if strictEquals result1 result2
              then determinismLoop f context rest w2
              else (Normal ["Priority function is not deterministic"], w2)
          end
      end
  end.

Definition validateAlgorithm (priorityFn : candidate)
    (testPassengers : list Passenger.view) (context : Context) (w : World)
  : completion ValidationResult * World :=
  match priorityFn with
  | NotAFunction _ => (Normal (failure ["Priority must be a function"] []), w)
  | Function f =>
      let '(startTime, w0) := now w in
      let '(errors, w1) := sampleLoop f context startTime testPassengers w0 in
      match errors with
      | [] =>
          let '(c, w2) :=
            determinismLoop f context (take 5 testPassengers) w1 in
          match c with
          | Abrupt message => (Abrupt message, w2)
          | Normal [] => (Normal (success []), w2)
          | Normal errors => (Normal (failure errors []), w2)
          end
      | _ => (Normal (failure errors []), w1)
      end
  end.

(** [Algorithm.validate]: [getPriorityFn] hands back the compiled
    function or throws the compilation error; the whole body sits in a
    [try] whose handler answers [failure([e.message])]. *)
Definition validate (compiled : string + function)
    (testPassengers : list Passenger.view) (context : Context) (w : World)
  : ValidationResult * World :=
  match compiled with
  | inl error => (failure [error] [], w)
  | inr fn =>
      match validateAlgorithm (Function fn) testPassengers context w with
      | (Normal r, w') => (r, w')
      | (Abrupt message, w') => (failure [message] [], w')
      end
  end.
End Validation.

(** Priorities that passed the contract are finite numbers; they are
    rationals here.  [(a, b) => b.priority - a.priority] puts [a] after
    [b] when the difference is positive. *)
Definition byPriority {K} (a b : K * Q) : bool := negb (Qle_bool (b.2 - a.2) 0).

Definition runAlgorithm (priorityFn : Passenger.view -> Context -> Q)
    (passengers : list Passenger.t) (context : Context) : list nat :=
  let withPriority :=
    (fun p => (Passenger.id p, priorityFn (Passenger.toContext p) context))
      <$> passengers in
  fst <$> array_sort byPriority withPriority.
End AlgorithmRunner.

(** ** GeneticOptimizer.js *)

Module GeneticOptimizer.
Section Optimizer.
(** A genome and the factory [algorithm.createPriorityFn(weights)]; the
    optimizer calls the function on the passenger object itself, with
    an empty context. *)
Context {Weights : Type}.
Variable createPriorityFn : Weights -> Passenger.t -> Q.

(** The seeds and the passenger count of [optimize]. *)
Definition scenarioSeeds : list Z := (fun i => 12345 + i) <$> seqZ 0 3.
Definition scenarioCount : nat := 114.

Definition testScenarios (aircraft : Aircraft.t)
  : option (list (list Passenger.t)) :=
  mapM (fun seed =>
          fst <$> generatePassengers scenarioCount (Aircraft.rows aircraft)
                    (Aircraft.columns aircraft) (RandomGenerator.new seed))
       scenarioSeeds.

(** The body of the loop of [_evaluateFitness].  The simulation is
    built on [this.aircraft]: the object of the optimizer, which the
    simulation mutates and which the next scenario receives. *)
Definition runScenario (priorityFn : Passenger.t -> Q)
    (passengers : list Passenger.t) (aircraft : Aircraft.t)
  : option (Z * Aircraft.t) :=
  let info := (fun p => (Passenger.id p, priorityFn p)) <$> passengers in
  let orderedIds := fst <$> array_sort AlgorithmRunner.byPriority info in
  let sim :=
    Simulation.setBoardingOrder orderedIds
      (Simulation.new passengers aircraft) in
  '(steps, sim') ← Simulation.runToCompletion 5000 sim;
  Some (steps, Simulation.aircraft sim').

Fixpoint runScenarios (priorityFn : Passenger.t -> Q)
    (testScenarios : list (list Passenger.t)) (totalTime : Z)
    (aircraft : Aircraft.t) : option (Z * Aircraft.t) :=
  match testScenarios with
  | [] => Some (totalTime, aircraft)
  | passengers :: rest =>
      '(steps, aircraft') ← runScenario priorityFn passengers aircraft;
      runScenarios priorityFn rest (totalTime + steps) aircraft'
  end.

(** [return totalTime / testScenarios.length].  [optimize] hands over the
    three scenarios it generated.  On an empty list the code divides 0
    by 0 and answers [NaN]; the quotient taken here is meant for a list
    that is not empty. *)
Definition evaluateFitness (weights : Weights)
    (testScenarios : list (list Passenger.t)) (aircraft : Aircraft.t)
  : option (Q * Aircraft.t) :=
  '(totalTime, aircraft') ←
    runScenarios (createPriorityFn weights) testScenarios 0 aircraft;
  Some (Qdiv (inject_Z totalTime)
          (inject_Z (Z.of_nat (length testScenarios))),
        aircraft').

(** [evaluatedPop.sort((a, b) => a.fitness - b.fitness)] *)
Definition byFitness (a b : Weights * Q) : bool :=
  negb (Qle_bool (a.2 - b.2) 0).

Definition sortPopulation (evaluatedPop : list (Weights * Q))
  : list (Weights * Q) := array_sort byFitness evaluatedPop.

(** [if (!bestSolution || top.fitness < bestSolution.fitness)
      bestSolution = top], where [top] is [evaluatedPop[0]]. *)
Definition updateBest (bestSolution : option (Weights * Q))
    (top : Weights * Q) : Weights * Q :=
  match bestSolution with
  | None => top
  | Some best => if negb (Qle_bool best.2 top.2) then top else best
  end.
End Optimizer.
End GeneticOptimizer.

(** ** The concrete scenario of the specification *)

Module Scenario.
Definition P1 : Passenger.t :=
  Passenger.mk 1 1 "A" WalkSpeed.NORMAL CarryOnSize.NONE
    ComplianceLevel.NORMAL None.
Definition P2 : Passenger.t :=
  Passenger.mk 2 1 "D" WalkSpeed.NORMAL CarryOnSize.NONE
    ComplianceLevel.NORMAL None.

(** The same two passengers, in a hurry and less disciplined. *)
Definition P1fast : Passenger.t :=
  Passenger.mk 1 1 "A" WalkSpeed.FAST CarryOnSize.NONE
    ComplianceLevel.OPPORTUNISTIC (Some 7%nat).
Definition P2slow : Passenger.t :=
  Passenger.mk 2 1 "D" WalkSpeed.SLOW CarryOnSize.NONE
    ComplianceLevel.STRICT None.

Definition layout : Aircraft.Config :=
  Aircraft.mkConfig 1 ["A"; "B"; "C"; "D"; "E"; "F"]%string 3 6 "front".

Definition initial : Simulation.t :=
  Simulation.setBoardingOrder [1; 2]%nat
    (Simulation.new [P1; P2] (Aircraft.new layout)).

(** What a tick leaves: the completion flag and, per passenger, its state
    and aisle cell. *)
Definition view (s : Simulation.t)
  : Z * bool * list (nat * PassengerState.t * Z) :=
  (Simulation.currentStep s, Simulation.isComplete s,
   (fun kv => (kv.1, Simulation.state kv.2, Simulation.aisleRow kv.2))
     <$> Simulation.passengerStates s).

Definition after (n : nat) := view <$> Simulation.steps n initial.

(** The state left by [n] ticks. *)
Definition tick (n : nat) : Simulation.t :=
  default initial (Simulation.steps n initial).

Definition ev (step : Z) (ty : EventType.t) (p : Passenger.t)
    (d : Simulation.EventData) : Simulation.Event :=
  Simulation.mkEvent step ty (Passenger.id p) (Passenger.row p)
    (Passenger.column p) d.
End Scenario.

(** ** Predicates used by the statements *)

(** The order a boarding sequence has to respect: higher priority first,
    and the lower id first among equal priorities. *)
Definition priorityOf (priorityFn : Passenger.view -> AlgorithmRunner.Context -> Q)
    (context : AlgorithmRunner.Context) (p : Passenger.t) : Q :=
  priorityFn (Passenger.toContext p) context.

Definition boardsBefore (priorityFn : Passenger.view -> AlgorithmRunner.Context -> Q)
    (context : AlgorithmRunner.Context) (a b : Passenger.t) : Prop :=
  (priorityOf priorityFn context b < priorityOf priorityFn context a)%Q
  \/ ((priorityOf priorityFn context a == priorityOf priorityFn context b)%Q
      /\ (Passenger.id a < Passenger.id b)%nat).

(** [n] successive calls of [next()]. *)
Fixpoint draws (n : nat) (g : RandomGenerator.t) : RandomGenerator.t :=
  match n with
  | O => g
  | S n' => draws n' (RandomGenerator.next g).2
  end.

(** The comparator of [runAlgorithm], read on passengers. *)
Definition laterByPriority (priorityFn : Passenger.view -> AlgorithmRunner.Context -> Q)
    (context : AlgorithmRunner.Context) (a b : Passenger.t) : bool :=
  negb (Qle_bool (priorityOf priorityFn context b - priorityOf priorityFn context a) 0).

(** The methods of [Aircraft] that write to the object, as the steps of an
    arbitrary use of a layout. *)
Module LayoutOp.
Inductive t :=
| Reset
| SeatPassenger (p : Passenger.t)
| PlaceInAisle (p : Passenger.t) (row : Z)
| RemoveFromAisle (row : Z)
| UseBinCapacity (row : Z) (size : CarryOnSize.t).

Definition run (a : Aircraft.t) (op : t) : Aircraft.t :=
  match op with
  | Reset => Aircraft.reset a
  | SeatPassenger p => Aircraft.seatPassenger p a
  | PlaceInAisle p row => Aircraft.placeInAisle p row a
  | RemoveFromAisle row => Aircraft.removeFromAisle row a
  | UseBinCapacity row size => (Aircraft.useBinCapacity row size a).2
  end.

Definition runAll (ops : list t) (a : Aircraft.t) : Aircraft.t :=
  foldl run a ops.
End LayoutOp.

(** What every use of a layout built from [cfg] maintains. *)
Definition binsWithinBounds (cfg : Aircraft.Config) (a : Aircraft.t) : Prop :=
  Aircraft.config a = cfg
  /\ forall row, 1 <= row <= Aircraft.cfg_rows cfg ->
       exists c, Aircraft.binCapacity a !! row = Some c
                 /\ 0 <= c <= Aircraft.cfg_binCapacityPerRow cfg.

(** ** Run-states, reachable states and what they maintain *)

(** The four states in which a passenger stands in the aisle. *)
Definition occupiesAisle (ps : Simulation.RunState) : bool :=
  match Simulation.state ps with
  | PassengerState.WAITING | PassengerState.SEATED => false
  | _ => true
  end.

(** The effect of handling one run-state object: its fields, the layout
    and the log change, nothing else. *)
Definition updated (s : Simulation.t) (ps' : Simulation.RunState)
    (a' : Aircraft.t) (evs : list Simulation.Event) : Simulation.t :=
  Simulation.mk a' (Simulation.originalPassengers s) (Simulation.currentStep s)
    (Simulation.isComplete s) (Simulation.events s ++ evs)
    (assoc_set (Passenger.id (Simulation.passenger ps')) ps'
       (Simulation.passengerStates s))
    (Simulation.queue s).

(** Every state the engine goes through, between two ticks or in the
    middle of one: the start of a run, the increment of the step counter,
    the handling of a passenger of the aisle, the admission from the
    queue, the completion check. *)
Inductive Reachable : Simulation.t -> Prop :=
| Reachable_start passengers aircraft orderedIds :
    Reachable (Simulation.setBoardingOrder orderedIds
                 (Simulation.new passengers aircraft))
| Reachable_tick s :
    Reachable s ->
    Reachable (Simulation.set_currentStep (Simulation.currentStep s + 1) s)
| Reachable_process s k :
    Reachable s -> Reachable (Simulation.processPassengerInAisle s k)
| Reachable_admit s s' :
    Reachable s -> Simulation.tryAddFromQueue s = Some s' -> Reachable s'
| Reachable_check s :
    Reachable s -> Reachable (Simulation.checkCompletion s).

(** Two run-states of different passengers never name the same seat. *)
Definition seatsDistinct (s : Simulation.t) : Prop :=
  forall k1 k2 ps1 ps2,
     assoc_get k1 (Simulation.passengerStates s) = Some ps1 ->
     assoc_get k2 (Simulation.passengerStates s) = Some ps2 ->
    Passenger.seat (Simulation.passenger ps1)
    = Passenger.seat (Simulation.passenger ps2) ->
    k1 = k2.

(** The same on a passenger list. *)
Definition noSharedSeat (passengers : list Passenger.t) : Prop :=
  forall p q, p ∈ passengers -> q ∈ passengers ->
    Passenger.seat p = Passenger.seat q -> Passenger.id p = Passenger.id q.

(** The log holds a BIN_FULL event of passenger [k] at [row]. *)
Definition binFullLogged (k : nat) (row : Z) (evs : list Simulation.Event)
  : Prop :=
  exists e, e ∈ evs /\ Simulation.type e = EventType.BIN_FULL
            /\ Simulation.passengerId e = k
            /\ Simulation.data e = Simulation.AtRow row.

(** The bin space a bag takes: one unit when small, two when large. *)
Definition binUnits (size : CarryOnSize.t) : Z :=
  match size with
  | CarryOnSize.NONE => 0
  | CarryOnSize.SMALL => 1
  | CarryOnSize.LARGE => 2
  end.

(** Stowing happens at the passenger's own row and only with a bag: every
    STOWING run-state of the store stands there and carries one. *)
Definition stowsAtItsRow (m : list (nat * Simulation.RunState)) : Prop :=
  forall k ps,
    assoc_get k m = Some ps ->
    Simulation.state ps = PassengerState.STOWING ->
    Simulation.aisleRow ps = Passenger.row (Simulation.passenger ps)
    /\ Passenger.carryOnSize (Simulation.passenger ps) <> CarryOnSize.NONE.

Record Inv (s : Simulation.t) : Prop := mkInv {
  inv_keys : forall k ps,
    assoc_get k (Simulation.passengerStates s) = Some ps ->
    Passenger.id (Simulation.passenger ps) = k;
  inv_cell : forall k ps,
    assoc_get k (Simulation.passengerStates s) = Some ps ->
    occupiesAisle ps = true ->
    Aircraft.aisle (Simulation.aircraft s) !! Simulation.aisleRow ps
    = Some (Some (Simulation.passenger ps));
  inv_row : forall k ps,
    assoc_get k (Simulation.passengerStates s) = Some ps ->
    occupiesAisle ps = true -> 0 <= Simulation.aisleRow ps;
  inv_seat : seatsDistinct s -> forall k ps,
    assoc_get k (Simulation.passengerStates s) = Some ps ->
    Simulation.state ps = PassengerState.SEATED ->
    Aircraft.seats (Simulation.aircraft s)
      !! Passenger.seat (Simulation.passenger ps)
    = Some (Some (Simulation.passenger ps));
  inv_binfull : forall k ps,
    assoc_get k (Simulation.passengerStates s) = Some ps ->
    Simulation.state ps = PassengerState.STOWING ->
    Aircraft.hasBinCapacity (Simulation.aircraft s) (Simulation.aisleRow ps)
      (Passenger.carryOnSize (Simulation.passenger ps)) = false ->
    binFullLogged k (Simulation.aisleRow ps) (Simulation.events s);
}.

(** Who is in the store, in iteration order. *)
Definition roster (s : Simulation.t) : list (nat * Passenger.t) :=
  (fun kv => (kv.1, Simulation.passenger kv.2))
    <$> Simulation.passengerStates s.

(** What the handling of the passengers of the aisle leaves alone: the
    passenger list, the queue, the step counter, the completion flag, the
    configuration of the layout and the roster; the log only grows, by
    events of the current step that are not admissions. *)
Definition evolves (s s' : Simulation.t) : Prop :=
  Simulation.originalPassengers s' = Simulation.originalPassengers s
  /\ Simulation.queue s' = Simulation.queue s
  /\ Simulation.currentStep s' = Simulation.currentStep s
  /\ Simulation.isComplete s' = Simulation.isComplete s
  /\ Aircraft.config (Simulation.aircraft s')
     = Aircraft.config (Simulation.aircraft s)
  /\ roster s' = roster s
       /\ exists evs,
            Simulation.events s' = Simulation.events s ++ evs
       /\ Forall (fun e => Simulation.type e <> EventType.ENTER
                           /\ Simulation.step_of e = Simulation.currentStep s)
                 evs.

(** Every entry of the queue refers to a run-state of the store. *)
Definition queueValid (s : Simulation.t) : Prop :=
  Forall (fun r => exists k, r = Some k
                     /\ is_Some (assoc_get k (Simulation.passengerStates s)))
         (Simulation.queue s).

(** The run-state of a passenger that has just been admitted at [step]. *)
Definition admitted (step : Z) (ps : Simulation.RunState) : Simulation.RunState :=
  Simulation.set_enteredAt step
    (Simulation.set_aisleRow 0 (Simulation.set_state PassengerState.WALKING ps)).

Definition enterEvent (step : Z) (p : Passenger.t) : Simulation.Event :=
  Simulation.mkEvent step EventType.ENTER (Passenger.id p) (Passenger.row p)
    (Passenger.column p) Simulation.NoData.

(** The state after the admission of the run-state [ps] stored under [k],
    the queue becoming [rest]. *)
Definition afterAdmission (s : Simulation.t) (k : nat)
    (ps : Simulation.RunState) (rest : list (option nat)) : Simulation.t :=
  Simulation.mk
    (Aircraft.placeInAisle (Simulation.passenger ps) 0 (Simulation.aircraft s))
    (Simulation.originalPassengers s) (Simulation.currentStep s)
    (Simulation.isComplete s)
    (Simulation.events s
       ++ [enterEvent (Simulation.currentStep s) (Simulation.passenger ps)])
    (assoc_set k (admitted (Simulation.currentStep s) ps)
       (Simulation.passengerStates s))
    rest.

(** A layout without any bin capacity and a passenger with a small bag. *)
Module FullBins.
Definition P : Passenger.t :=
  Passenger.mk 1 1 "C" WalkSpeed.NORMAL CarryOnSize.SMALL
    ComplianceLevel.NORMAL None.

Definition layout : Aircraft.Config :=
  Aircraft.mkConfig 1 ["A"; "B"; "C"; "D"; "E"; "F"]%string 3 0 "front".

Definition initial : Simulation.t :=
  Simulation.setBoardingOrder [1]%nat
    (Simulation.new [P] (Aircraft.new layout)).

(** The state left by [n] ticks. *)
Definition tick (n : nat) : Simulation.t :=
  default initial (Simulation.steps n initial).

(** The run-state of [P] after five ticks: one stow tick left. *)
Definition stowing : Simulation.RunState :=
  Simulation.mkRunState P PassengerState.STOWING 1 1 0 2 1 (-1).
End FullBins.

(** The same passenger where the bin of the row holds six units. *)
Module RoomyBins.
Definition layout : Aircraft.Config :=
  Aircraft.mkConfig 1 ["A"; "B"; "C"; "D"; "E"; "F"]%string 3 6 "front".

Definition initial : Simulation.t :=
  Simulation.setBoardingOrder [1]%nat
    (Simulation.new [FullBins.P] (Aircraft.new layout)).

(** The state left by [n] ticks. *)
Definition tick (n : nat) : Simulation.t :=
  default initial (Simulation.steps n initial).
End RoomyBins.


(** ** Forgetting walk speed, compliance and group *)

(** The passenger with its walk speed, compliance and group replaced by
    fixed values: what is left is the id, the seat and the carry-on. *)
Definition anonymous (p : Passenger.t) : Passenger.t :=
  Passenger.mk (Passenger.id p) (Passenger.row p) (Passenger.column p)
    WalkSpeed.NORMAL (Passenger.carryOnSize p) ComplianceLevel.NORMAL None.

Definition anonymousRunState (ps : Simulation.RunState) : Simulation.RunState :=
  Simulation.mkRunState (anonymous (Simulation.passenger ps))
    (Simulation.state ps) (Simulation.aisleRow ps) (Simulation.stowRemaining ps)
    (Simulation.shuffleRemaining ps) (Simulation.waitTime ps)
    (Simulation.enteredAt ps) (Simulation.seatedAt ps).

Definition anonymousEntry (kv : nat * Simulation.RunState)
  : nat * Simulation.RunState := (kv.1, anonymousRunState kv.2).

Definition anonymousSlot (x : option Passenger.t) : option Passenger.t :=
  anonymous <$> x.

Definition anonymousAircraft (a : Aircraft.t) : Aircraft.t :=
  Aircraft.mk (Aircraft.config a) (Aircraft.binCapacity a)
    (anonymousSlot <$> Aircraft.seats a)
    (anonymousSlot <$> Aircraft.aisle a).

Definition anonymousSimulation (s : Simulation.t) : Simulation.t :=
  Simulation.mk (anonymousAircraft (Simulation.aircraft s))
    (anonymous <$> Simulation.originalPassengers s)
    (Simulation.currentStep s) (Simulation.isComplete s) (Simulation.events s)
    (anonymousEntry <$> Simulation.passengerStates s)
    (Simulation.queue s).

(** The run-states of [m'] are those of [m], none of them more than one
    aisle cell further, and only the one stored under [k] may differ. *)
Definition oneCellAhead (k : nat) (m m' : list (nat * Simulation.RunState))
  : Prop :=
  forall k' ps,
    assoc_get k' m = Some ps ->
    exists ps', assoc_get k' m' = Some ps'
                /\ (k' <> k -> ps' = ps)
                /\ Simulation.aisleRow ps' <= Simulation.aisleRow ps + 1.

(** ** Priority functions used by the statements *)

(** A function that answers [1] the first time it is called and throws
    afterwards:
    [let n = 0; (p, c) => { if (n++ > 0) throw new Error("boom"); return 1; }].
    Its world is the counter [n]. *)
Definition throwsOnSecondCall : @AlgorithmRunner.function nat :=
  fun _ _ n =>
    (if (n =? 0)%nat then AlgorithmRunner.Return (AlgorithmRunner.Num 1)
     else AlgorithmRunner.Throw "boom", S n).

(** A clock that stands still. *)
Definition frozenClock {World} (w : World) : Q * World := (0%Q, w).

(** A function without state: its answer depends on its arguments only. *)
Definition pureFunction {World}
    (g : Passenger.view -> AlgorithmRunner.Context -> AlgorithmRunner.outcome)
  : @AlgorithmRunner.function World :=
  fun passenger context w => (g passenger context, w).

(** The answers the contract accepts: finite numbers. *)
Definition finiteNumber (o : AlgorithmRunner.outcome) : Prop :=
  exists q, o = AlgorithmRunner.Return (AlgorithmRunner.Num q).

Definition sampleView : Passenger.view :=
  Passenger.mkView 1 15 "C" SeatClass.aisle WalkSpeed.NORMAL CarryOnSize.SMALL
    ComplianceLevel.NORMAL None (Some 0).

Definition sampleContext : AlgorithmRunner.Context :=
  AlgorithmRunner.mkContext 30 150 ["A"; "B"; "C"; "D"; "E"; "F"]%string.

(** ** Layouts and the optimizer *)

(** The seat of [p] is a seat of the layout. *)
Definition seatInGrid (cfg : Aircraft.Config) (p : Passenger.t) : Prop :=
  1 <= Passenger.row p <= Aircraft.cfg_rows cfg
  /\ Passenger.column p ∈ Aircraft.cfg_columns cfg.

(** The maps of the layout hold no key besides those the constructor
    creates. *)
Definition withinGrid (a : Aircraft.t) : Prop :=
  (forall r, is_Some (Aircraft.binCapacity a !! r) -> 1 <= r <= Aircraft.rows a)
  /\ (forall r c, is_Some (Aircraft.seats a !! (r, c)) ->
        1 <= r <= Aircraft.rows a /\ c ∈ Aircraft.columns a)
  /\ (forall r, is_Some (Aircraft.aisle a !! r) -> 0 <= r <= Aircraft.rows a).

Definition gridOK (s : Simulation.t) : Prop :=
  withinGrid (Simulation.aircraft s)
  /\ Forall (seatInGrid (Aircraft.config (Simulation.aircraft s)))
       (Simulation.originalPassengers s).

(** The steps a scenario takes on a layout constructed for it alone. *)
Definition freshRun (priorityFn : Passenger.t -> Q)
    (passengers : list Passenger.t) (cfg : Aircraft.Config) : option Z :=
  fst <$> GeneticOptimizer.runScenario priorityFn passengers (Aircraft.new cfg).

Definition averageOnFreshLayouts (priorityFn : Passenger.t -> Q)
    (testScenarios : list (list Passenger.t)) (cfg : Aircraft.Config)
  : option Q :=
  steps ← mapM (fun passengers => freshRun priorityFn passengers cfg)
            testScenarios;
  Some (Qdiv (inject_Z (foldr Z.add 0 steps))
          (inject_Z (Z.of_nat (length testScenarios)))).

(** What "a fresh layout for every evaluation" would mean for the layout
    the optimizer holds: an evaluation leaves it as it was. *)
Definition evaluationLeavesLayout {Weights}
    (createPriorityFn : Weights -> Passenger.t -> Q) : Prop :=
  forall weights testScenarios aircraft fitness aircraft',
    GeneticOptimizer.evaluateFitness createPriorityFn weights testScenarios
      aircraft = Some (fitness, aircraft') ->
    aircraft' = aircraft.

(** Back-to-front with a weight: the priority is the row times the
    weight. *)
Definition byRow (weight : Z) (p : Passenger.t) : Q :=
  inject_Z (Passenger.row p * weight).

(** The optimizer on the one-row layout of the concrete scenario. *)
Module SharedLayout.
Definition aircraft : Aircraft.t := Aircraft.new Scenario.layout.

(** The three scenarios [optimize] generates for it. *)
Definition scenarios : list (list Passenger.t) :=
  default [] (GeneticOptimizer.testScenarios aircraft).
End SharedLayout.

(** No run-state is queued twice, and the queued run-states are WAITING. *)
Definition queueWaiting (s : Simulation.t) : Prop :=
  NoDup (omap id (Simulation.queue s))
  /\ forall k ps,
       Some k ∈ Simulation.queue s ->
       assoc_get k (Simulation.passengerStates s) = Some ps ->
       Simulation.state ps = PassengerState.WAITING.


(** ** Further predicates on layouts *)

(** The operation writes inside the grid of [cfg] only. *)
Definition opInGrid (cfg : Aircraft.Config) (op : LayoutOp.t) : Prop :=
  match op with
  | LayoutOp.SeatPassenger p => seatInGrid cfg p
  | LayoutOp.PlaceInAisle _ row | LayoutOp.RemoveFromAisle row =>
      0 <= row <= Aircraft.cfg_rows cfg
  | LayoutOp.Reset | LayoutOp.UseBinCapacity _ _ => True
  end.

(** In the search of [findNearestBinCapacity], the offset [o] yields
    nothing: neither the row above nor the row below qualifies. *)
Definition noBinAt (a : Aircraft.t) (startRow : Z) (c : CarryOnSize.t)
    (o : Z) : Prop :=
  ~ (1 <= startRow - o /\ Aircraft.hasBinCapacity a (startRow - o) c = true)
  /\ ~ (startRow + o <= Aircraft.rows a
        /\ Aircraft.hasBinCapacity a (startRow + o) c = true).

(** The offset [o] yields [r]: the row above if it qualifies, the row
    below otherwise. *)
Definition binAt (a : Aircraft.t) (startRow : Z) (c : CarryOnSize.t)
    (o r : Z) : Prop :=
  Aircraft.hasBinCapacity a r c = true
  /\ ((r = startRow - o /\ 1 <= r)
      \/ (r = startRow + o /\ r <= Aircraft.rows a
          /\ ~ (1 <= startRow - o
                /\ Aircraft.hasBinCapacity a (startRow - o) c = true))).

(** ** algorithms/presets *)

Module Presets.
(** backToFront.js: [return passenger.row]. *)
Definition backToFront (passenger : Passenger.view)
    (context : AlgorithmRunner.Context) : Q :=
  inject_Z (Passenger.v_row passenger).

(** windowMiddleAisle.js: [seatPriority[passenger.seatClass] +
    passenger.row]. *)
Definition seatPriority (c : SeatClass.t) : Z :=
  match c with
  | SeatClass.window => 300
  | SeatClass.middle => 200
  | SeatClass.aisle => 100
  end.

Definition windowMiddleAisle (passenger : Passenger.view)
    (context : AlgorithmRunner.Context) : Q :=
  inject_Z (seatPriority (Passenger.v_seatClass passenger)
            + Passenger.v_row passenger).

(** steffen.js: [seatScores[passenger.seatClass] + parityScore +
    passenger.row], with [parityScore = (passenger.row % 2 === 0) ? 500 : 0]. *)
Definition seatScores (c : SeatClass.t) : Z :=
  match c with
  | SeatClass.window => 3000
  | SeatClass.middle => 2000
  | SeatClass.aisle => 1000
  end.

Definition parityScore (row : Z) : Z := if Z.rem row 2 =? 0 then 500 else 0.

Definition steffen (passenger : Passenger.view)
    (context : AlgorithmRunner.Context) : Q :=
  inject_Z (seatScores (Passenger.v_seatClass passenger)
            + parityScore (Passenger.v_row passenger)
            + Passenger.v_row passenger).

(** weightedHeuristic.js.  The parameters are integers, as the defaults
    are and as the optimizer produces them; an absent parameter is [None]
    and [??] replaces it by the default. *)
Record Weights := mkWeights {
  rowWeight : option Z;
  seatWeight : option Z;
  luggageWeight : option Z;
}.




(** A JavaScript number: finite, [NaN] or an infinity. *)
Inductive number :=
| Finite (q : Q)
| NaN
| Infinite (negative : bool).

(** [x - y] *)
Definition minus (x y : number) : number :=
  match x, y with
  | Finite p, Finite q => Finite (p - q)
  | NaN, _ | _, NaN => NaN
  | Infinite s, Infinite s' => if Bool.eqb s s' then NaN else Infinite s
  | Infinite s, Finite _ => Infinite s
  | Finite _, Infinite s => Infinite (negb s)
  end.

(** [x > 0] *)
Definition positive (x : number) : bool :=
  match x with
  | Finite q => negb (Qle_bool q 0)
  | NaN => false
  | Infinite negative => negb negative
  end.

(** zoneBased.js, on the row of the passenger, with [params.numZones]
    ([None] when the parameter is absent) and [context.totalRows] ([None]
    when the context has no such field).  Both are integers when
    present.
    - [params.numZones || 5] replaces an absent parameter and 0 by 5;
    - [Math.ceil(totalRows / numZones)] is [- ((- totalRows) / numZones)]
      in integer division; it is [NaN] without [totalRows];
    - when it is zero, the division [(row - 1) / rowsPerZone] answers
      [NaN] for row 1 and an infinity otherwise, negative when exactly
      one of [row - 1] and the zero is: the zero is [-0] when the
      quotient [totalRows / numZones] is negative or is [-0] itself. *)
Definition zoneBased (numZones : option Z) (row : Z) (totalRows : option Z)
  : number :=
  let numZones :=
    match numZones with
    | Some n => if n =? 0 then 5 else n
    | None => 5
    end in
  match totalRows with
  | None => NaN
  | Some totalRows =>
      let rowsPerZone := - ((- totalRows) / numZones) in
      if rowsPerZone =? 0 then
        if row - 1 =? 0 then NaN
        else
          let negativeZero :=
            if totalRows =? 0 then numZones <? 0 else true in
          Infinite (xorb (row - 1 <? 0) negativeZero)
      else Finite (inject_Z ((row - 1) / rowsPerZone * 1000 + row))
  end.
End Presets.

(** [(a, b) => b.priority - a.priority] on numbers of any kind: [sort]
    reads a [NaN] answered by the comparator as 0. *)
Definition byNumber {K} (a b : K * Presets.number) : bool :=
  Presets.positive (Presets.minus b.2 a.2).

(** The boarding order as the application and the optimizer compute it:
    [passengers.map(p => ({ id: p.id, priority: ... }))], sorted by
    descending priority, then [map(p => p.id)]. *)
Definition orderByNumber (priority : Passenger.t -> Presets.number)
    (passengers : list Passenger.t) : list nat :=
  fst <$> array_sort byNumber
            ((fun p => (Passenger.id p, priority p)) <$> passengers).

(** ** Orders the presets are meant to produce *)

(** Window before middle before aisle. *)
Definition classRank (c : SeatClass.t) : Z :=
  match c with
  | SeatClass.window => 3
  | SeatClass.middle => 2
  | SeatClass.aisle => 1
  end.

(** Rows towards the back first, the lower id first on one row. *)
Definition backFirst (a b : Passenger.t) : Prop :=
  Passenger.row b < Passenger.row a
  \/ (Passenger.row a = Passenger.row b
      /\ (Passenger.id a < Passenger.id b)%nat).

(** Seat class first, then the row. *)
Definition classThenBackFirst (a b : Passenger.t) : Prop :=
  classRank (Passenger.seatClass b) < classRank (Passenger.seatClass a)
  \/ (Passenger.seatClass a = Passenger.seatClass b /\ backFirst a b).

(** The six stages of the Steffen method: seat class first, even rows
    before odd rows within a class, then the row. *)
Definition evenRow (p : Passenger.t) : bool := Z.even (Passenger.row p).

Definition steffenStages (a b : Passenger.t) : Prop :=
  classRank (Passenger.seatClass b) < classRank (Passenger.seatClass a)
  \/ (Passenger.seatClass a = Passenger.seatClass b
      /\ ((evenRow a = true /\ evenRow b = false)
          \/ (evenRow a = evenRow b /\ backFirst a b))).

(** ** The handling of a passenger of the aisle, case by case *)

(** The event [_recordEvent(type, passenger, data)] pushes at [step]. *)
Definition logged (step : Z) (ty : EventType.t) (p : Passenger.t)
    (d : Simulation.EventData) : Simulation.Event :=
  Simulation.mkEvent step ty (Passenger.id p) (Passenger.row p)
    (Passenger.column p) d.

(** [_startSeating] on the run-state [ps] before the layout [a]: the new
    run-state and the event logged at [step], if any. *)
Inductive startsSeating (a : Aircraft.t) (step : Z) (ps : Simulation.RunState)
  : Simulation.RunState -> list Simulation.Event -> Prop :=
| startsSeating_shuffle blocking :
    blocking = Aircraft.getBlockingSeats a
                 (Passenger.row (Simulation.passenger ps))
                 (Passenger.column (Simulation.passenger ps)) ->
    blocking <> [] ->
    startsSeating a step ps
      (Simulation.set_shuffleRemaining (Z.of_nat (length blocking) * 3)
         (Simulation.set_state PassengerState.SHUFFLING ps))
      [logged step EventType.SHUFFLE_START (Simulation.passenger ps)
         (Simulation.Shuffle (Simulation.aisleRow ps) blocking)]
| startsSeating_direct :
    Aircraft.getBlockingSeats a
      (Passenger.row (Simulation.passenger ps))
      (Passenger.column (Simulation.passenger ps)) = [] ->
    startsSeating a step ps
      (Simulation.set_state PassengerState.SEATING ps) [].

(** [handles s ps ps' a' evs]: handling the run-state [ps] in the state
    [s] rewrites it to [ps'], leaves the layout [a'] and logs [evs]. *)
Inductive handles (s : Simulation.t) (ps : Simulation.RunState)
  : Simulation.RunState -> Aircraft.t -> list Simulation.Event -> Prop :=
| handles_stow_start :
    let p := Simulation.passenger ps in
    let row := Simulation.aisleRow ps in
    Simulation.state ps = PassengerState.WALKING ->
    row = Passenger.row p ->
    Passenger.carryOnSize p <> CarryOnSize.NONE ->
    handles s ps
      (Simulation.set_stowRemaining (Passenger.stowTime p)
         (Simulation.set_state PassengerState.STOWING ps))
      (Simulation.aircraft s)
      (logged (Simulation.currentStep s) EventType.STOW_START p
         (Simulation.AtRow row)
       :: if Aircraft.hasBinCapacity (Simulation.aircraft s) row
               (Passenger.carryOnSize p)
          then []
          else [logged (Simulation.currentStep s) EventType.BIN_FULL p
                  (Simulation.AtRow row)])
| handles_arrive_without_bag ps' evs :
    let p := Simulation.passenger ps in
    Simulation.state ps = PassengerState.WALKING ->
    Simulation.aisleRow ps = Passenger.row p ->
    Passenger.carryOnSize p = CarryOnSize.NONE ->
    startsSeating (Simulation.aircraft s) (Simulation.currentStep s) ps ps' evs ->
    handles s ps ps' (Simulation.aircraft s) evs
| handles_move :
    let p := Simulation.passenger ps in
    let row := Simulation.aisleRow ps in
    Simulation.state ps = PassengerState.WALKING ->
    row <> Passenger.row p ->
    row + 1 <= Aircraft.rows (Simulation.aircraft s) ->
    Aircraft.isAisleOccupied (Simulation.aircraft s) (row + 1) = false ->
    handles s ps (Simulation.set_aisleRow (row + 1) ps)
      (Aircraft.placeInAisle p (row + 1)
         (Aircraft.removeFromAisle row (Simulation.aircraft s)))
      [logged (Simulation.currentStep s) EventType.MOVE p
         (Simulation.FromTo row (row + 1))]
| handles_blocked :
    let p := Simulation.passenger ps in
    let row := Simulation.aisleRow ps in
    Simulation.state ps = PassengerState.WALKING ->
    row <> Passenger.row p ->
    ~ (row + 1 <= Aircraft.rows (Simulation.aircraft s)
       /\ Aircraft.isAisleOccupied (Simulation.aircraft s) (row + 1) = false) ->
    handles s ps (Simulation.set_waitTime (Simulation.waitTime ps + 1) ps)
      (Simulation.aircraft s)
      [logged (Simulation.currentStep s) EventType.AISLE_BLOCKED p
         (Simulation.Blocked row (row + 1))]
| handles_stow_on :
    Simulation.state ps = PassengerState.STOWING ->
    0 < Simulation.stowRemaining ps - 1 ->
    handles s ps
      (Simulation.set_waitTime (Simulation.waitTime ps + 1)
         (Simulation.set_stowRemaining (Simulation.stowRemaining ps - 1) ps))
      (Simulation.aircraft s) []
| handles_stow_end ps' evs :
    let p := Simulation.passenger ps in
    let a' :=
      (Aircraft.useBinCapacity (Simulation.aisleRow ps)
         (Passenger.carryOnSize p) (Simulation.aircraft s)).2 in
    Simulation.state ps = PassengerState.STOWING ->
    Simulation.stowRemaining ps - 1 <= 0 ->
    startsSeating a' (Simulation.currentStep s)
      (Simulation.set_stowRemaining (Simulation.stowRemaining ps - 1) ps)
      ps' evs ->
    handles s ps ps' a'
      (logged (Simulation.currentStep s) EventType.STOW_END p
         (Simulation.AtRow (Simulation.aisleRow ps)) :: evs)
| handles_shuffle_on :
    Simulation.state ps = PassengerState.SHUFFLING ->
    0 < Simulation.shuffleRemaining ps - 1 ->
    handles s ps
      (Simulation.set_waitTime (Simulation.waitTime ps + 1)
         (Simulation.set_shuffleRemaining
            (Simulation.shuffleRemaining ps - 1) ps))
      (Simulation.aircraft s) []
| handles_shuffle_end :
    Simulation.state ps = PassengerState.SHUFFLING ->
    Simulation.shuffleRemaining ps - 1 <= 0 ->
    handles s ps
      (Simulation.set_state PassengerState.SEATING
         (Simulation.set_waitTime (Simulation.waitTime ps + 1)
            (Simulation.set_shuffleRemaining
               (Simulation.shuffleRemaining ps - 1) ps)))
      (Simulation.aircraft s)
      [logged (Simulation.currentStep s) EventType.SHUFFLE_END
         (Simulation.passenger ps) (Simulation.AtRow (Simulation.aisleRow ps))]
| handles_sit :
    let p := Simulation.passenger ps in
    Simulation.state ps = PassengerState.SEATING ->
    handles s ps
      (Simulation.set_seatedAt (Simulation.currentStep s)
         (Simulation.set_state PassengerState.SEATED ps))
      (Aircraft.seatPassenger p
         (Aircraft.removeFromAisle (Simulation.aisleRow ps)
            (Simulation.aircraft s)))
      [logged (Simulation.currentStep s) EventType.SEAT p
         (Simulation.Seat (Passenger.row p) (Passenger.column p))].

(** ** What a run that starts well maintains *)

(** The layout mirrors the store: an aisle cell of the layout is empty
    unless a run-state stands in it, a seat of the grid is empty unless
    a SEATED run-state names it. *)
Record Mirrors (s : Simulation.t) : Prop := mkMirrors {
  mir_cells : forall r,
    0 <= r <= Aircraft.rows (Simulation.aircraft s) ->
    Aircraft.aisle (Simulation.aircraft s) !! r = Some None
    \/ exists k ps,
         assoc_get k (Simulation.passengerStates s) = Some ps
         /\ occupiesAisle ps = true /\ Simulation.aisleRow ps = r;
  mir_seats : forall r c,
    1 <= r <= Aircraft.rows (Simulation.aircraft s) ->
    c ∈ Aircraft.columns (Simulation.aircraft s) ->
    Aircraft.seats (Simulation.aircraft s) !! (r, c) = Some None
    \/ exists k ps,
         assoc_get k (Simulation.passengerStates s) = Some ps
         /\ Simulation.state ps = PassengerState.SEATED
         /\ Passenger.seat (Simulation.passenger ps) = (r, c);
}.

(** Nobody is lost: every passenger is bound for a row the aisle leads
    to, a walking passenger has not passed its row, and a waiting
    passenger is still in the queue. *)
Record Advances (s : Simulation.t) : Prop := mkAdvances {
  adv_target : forall k ps,
    assoc_get k (Simulation.passengerStates s) = Some ps ->
    0 <= Passenger.row (Simulation.passenger ps)
    <= Aircraft.rows (Simulation.aircraft s);
  adv_ahead : forall k ps,
    assoc_get k (Simulation.passengerStates s) = Some ps ->
    Simulation.state ps = PassengerState.WALKING ->
    Simulation.aisleRow ps <= Passenger.row (Simulation.passenger ps);
  adv_queue : forall k ps,
    assoc_get k (Simulation.passengerStates s) = Some ps ->
    Simulation.state ps = PassengerState.WAITING ->
    Some k ∈ Simulation.queue s;
}.

(** ** The steps a passenger still needs *)

(** The seats between the aisle and the seat of [p]: at most so many
    passengers have to let [p] through. *)
Definition seatsBetween (aislePosition : Z) (p : Passenger.t) : Z :=
  Z.of_nat (length (Aircraft.blockingIndices aislePosition
                      (columnIndex (Passenger.column p)))).

(** An upper bound of the ticks in which the run-state is still handled
    or admitted: one per cell to walk, one to arrive, the stowing, three
    per seat to pass, one to sit down. *)
Definition work (aislePosition : Z) (ps : Simulation.RunState) : Z :=
  let p := Simulation.passenger ps in
  let shuffle := 3 * seatsBetween aislePosition p in
  match Simulation.state ps with
  | PassengerState.WAITING =>
      Passenger.row p + Passenger.stowTime p + shuffle + 3
  | PassengerState.WALKING =>
      Passenger.row p - Simulation.aisleRow ps + Passenger.stowTime p
      + shuffle + 2
  | PassengerState.STOWING => Z.max (Simulation.stowRemaining ps) 1 + shuffle + 1
  | PassengerState.SHUFFLING => Z.max (Simulation.shuffleRemaining ps) 1 + 1
  | PassengerState.SEATING => 1
  | PassengerState.SEATED => 0
  end.

Definition totalWork (s : Simulation.t) : Z :=
  foldr Z.add 0
    ((fun kv => work (Aircraft.aislePosition (Simulation.aircraft s)) kv.2)
       <$> Simulation.passengerStates s).

(** The ticks within which a boarding ends: the work of all passengers
    while they wait, and the tick that finds them seated. *)
Definition boardingBound (aislePosition : Z) (passengers : list Passenger.t)
  : Z :=
  1 + foldr Z.add 0
        ((fun p => Passenger.row p + Passenger.stowTime p
                   + 3 * seatsBetween aislePosition p + 3) <$> passengers).

(** The run-state stored under [k] will never sit down: it waits without
    being queued, or its row is not one the aisle leads to and it waits
    or walks. *)
Definition stranded (k : nat) (s : Simulation.t) : Prop :=
  let rows := Aircraft.rows (Simulation.aircraft s) in
  exists ps,
    assoc_get k (Simulation.passengerStates s) = Some ps
    /\ ((Simulation.state ps = PassengerState.WAITING
         /\ Some k ∉ Simulation.queue s)
        \/ ((Passenger.row (Simulation.passenger ps) < 0
             \/ rows < Passenger.row (Simulation.passenger ps))
            /\ 0 <= rows
            /\ (Simulation.state ps = PassengerState.WAITING
                \/ (Simulation.state ps = PassengerState.WALKING
                    /\ Simulation.aisleRow ps <= rows)))).

(** ** The log and the clocks of the run-states *)

(** The events of kind [ty] the log holds about passenger [k]. *)
Definition eventsOf (ty : EventType.t) (k : nat)
    (evs : list Simulation.Event) : list Simulation.Event :=
  filter (fun e => Simulation.type e = ty /\ Simulation.passengerId e = k) evs.

(** The log tells the story of every run-state: one ENTER event, stamped
    [enteredAt], once the passenger has left the queue; one SEAT event,
    stamped [seatedAt], once it sits; and no more AISLE_BLOCKED events
    than [waitTime] counts, as many while the passenger walks. *)
Record Journal (s : Simulation.t) : Prop := mkJournal {
  jour_enter : forall k ps,
    assoc_get k (Simulation.passengerStates s) = Some ps ->
    eventsOf EventType.ENTER k (Simulation.events s)
    = if decide (Simulation.state ps = PassengerState.WAITING) then []
      else [logged (Simulation.enteredAt ps) EventType.ENTER
              (Simulation.passenger ps) Simulation.NoData];
  jour_seat : forall k ps,
    assoc_get k (Simulation.passengerStates s) = Some ps ->
    eventsOf EventType.SEAT k (Simulation.events s)
    = if decide (Simulation.state ps = PassengerState.SEATED)
      then [logged (Simulation.seatedAt ps) EventType.SEAT
              (Simulation.passenger ps)
              (Simulation.Seat (Passenger.row (Simulation.passenger ps))
                 (Passenger.column (Simulation.passenger ps)))]
      else [];
  jour_blocked : forall k ps,
    assoc_get k (Simulation.passengerStates s) = Some ps ->
    Z.of_nat (length (eventsOf EventType.AISLE_BLOCKED k (Simulation.events s)))
    <= Simulation.waitTime ps
    /\ (Simulation.state ps = PassengerState.WAITING
        \/ Simulation.state ps = PassengerState.WALKING ->
        Z.of_nat (length (eventsOf EventType.AISLE_BLOCKED k
                            (Simulation.events s)))
        = Simulation.waitTime ps);
}.

(** One tick more for a passenger with a bag: the tick that ends the
    stowing. *)
Definition bag (p : Passenger.t) : Z :=
  match Passenger.carryOnSize p with
  | CarryOnSize.NONE => 0
  | _ => 1
  end.

(** The ticks in which the run-state got on since it entered: one per
    cell walked, the tick of the arrival at its row, the tick that ends
    the stowing, the tick that sits down. *)
Definition stage (ps : Simulation.RunState) : Z :=
  let p := Simulation.passenger ps in
  match Simulation.state ps with
  | PassengerState.WAITING => 0
  | PassengerState.WALKING => Simulation.aisleRow ps
  | PassengerState.STOWING => Passenger.row p + 1
  | PassengerState.SHUFFLING | PassengerState.SEATING =>
      Passenger.row p + 1 + bag p
  | PassengerState.SEATED => Passenger.row p + 2 + bag p
  end.

(** [clocked t ps]: the clocks of the run-state add up at the end of
    tick [t].  Every tick since the passenger entered either got it on
    or counts in [waitTime]. *)
Definition clocked (t : Z) (ps : Simulation.RunState) : Prop :=
  0 <= Simulation.waitTime ps
  /\ match Simulation.state ps with
     | PassengerState.WAITING =>
         Simulation.enteredAt ps = -1 /\ Simulation.seatedAt ps = -1
         /\ Simulation.waitTime ps = 0
     | PassengerState.SEATED =>
         1 <= Simulation.enteredAt ps /\ Simulation.seatedAt ps <= t
         /\ Simulation.seatedAt ps
            = Simulation.enteredAt ps + stage ps + Simulation.waitTime ps
         /\ 0 <= stage ps
     | st =>
         1 <= Simulation.enteredAt ps <= t /\ Simulation.seatedAt ps = -1
         /\ t = Simulation.enteredAt ps + stage ps + Simulation.waitTime ps
         /\ 0 <= stage ps
         /\ (st = PassengerState.STOWING ->
             bag (Simulation.passenger ps) = 1)
     end.

(** In the middle of a tick the passengers of [pending] have not had
    their turn. *)
Definition Clocked (pending : list nat) (s : Simulation.t) : Prop :=
  forall k ps,
    assoc_get k (Simulation.passengerStates s) = Some ps ->
    (k ∈ pending -> clocked (Simulation.currentStep s - 1) ps)
    /\ (k ∉ pending -> clocked (Simulation.currentStep s) ps).

(** ** The application: the snapshots of a run and the timeline *)

(** The outcome of the loop that records the snapshots, which has no
    cap: the simulation and the snapshots when the loop ends, an
    exception of [step], or fuel that does not suffice. *)
Inductive recording :=
| Recorded (s : Simulation.t) (snapshots : list Simulation.Snapshot)
| Raised
| OutOfFuel.

(** [while (this.simulation.step())
       this.snapshots.push(this.simulation.getSnapshot());] *)
Fixpoint recordLoop (fuel : nat) (s : Simulation.t)
    (snapshots : list Simulation.Snapshot) : recording :=
  match fuel with
  | O => OutOfFuel
  | S fuel' =>
      match Simulation.step s, Simulation.stepReturn s with
      | Some s', Some true =>
          recordLoop fuel' s' (snapshots ++ [Simulation.getSnapshot s'])
      | Some s', Some false => Recorded s' snapshots
      | _, _ => Raised
      end
  end.

(** [this.snapshots = []; this.snapshots.push(getSnapshot());] the loop,
    and [this.snapshots.push(getSnapshot())] for the final state. *)
Definition recordSnapshots (fuel : nat) (s : Simulation.t) : recording :=
  match recordLoop fuel s [Simulation.getSnapshot s] with
  | Recorded s' snapshots =>
      Recorded s' (snapshots ++ [Simulation.getSnapshot s'])
  | r => r
  end.

(** Timeline.js, the fields [loadSnapshots] and [goToStep] touch; the
    callback [onStepChange(currentStep, snapshot)] is the answer of
    [goToStep]. *)
Module Timeline.
Record t := mk {
  totalSteps : Z;
  currentStep : Z;
  isPlaying : bool;
  snapshots : list Simulation.Snapshot;
}.

Definition loadSnapshots (snapshots : list Simulation.Snapshot)
  : t * (Z * option Simulation.Snapshot) :=
  (mk (Z.of_nat (length snapshots) - 1) 0 false snapshots,
   (0, RandomGenerator.array_get snapshots 0)).

(** [goToStep(step)] on an integer. *)
Definition goToStep (step : Z) (tl : t)
  : t * (Z * option Simulation.Snapshot) :=
  let current := Z.max 0 (Z.min step (totalSteps tl)) in
  (mk (totalSteps tl) current (isPlaying tl) (snapshots tl),
   (current, RandomGenerator.array_get (snapshots tl) current)).
End Timeline.

(** ** Nobody overtakes *)

(** [k1] stands before [k2] in the boarding order. *)
Definition earlier (order : list nat) (k1 k2 : nat) : Prop :=
  exists i j : nat,
    (i < j)%nat /\ order !! i = Some k1 /\ order !! j = Some k2.

(** The columns [getBlockingSeats] looks at for a seat in [column]:
    those between the aisle and the seat. *)
Definition columnsBetween (aislePosition : Z) (column : string)
  : list string :=
  (fun i => fromCharCode (65 + i))
    <$> Aircraft.blockingIndices aislePosition (columnIndex column).

(** The row of [p] is a row of the layout, and so are the seats between
    its seat and the aisle. *)
Definition seatsReachable (cfg : Aircraft.Config) (p : Passenger.t) : Prop :=
  1 <= Passenger.row p <= Aircraft.cfg_rows cfg
  /\ forall c,
       c ∈ columnsBetween (Aircraft.cfg_aislePosition cfg) (Passenger.column p) ->
       c ∈ Aircraft.cfg_columns cfg.

(** What explains a SHUFFLE_START event: it is the event of a passenger
    of the list, at its row, and every seat it reports as blocking lies
    between the aisle and the seat of that passenger and is the seat of
    somebody who stands earlier in the boarding order. *)
Definition shuffleExplained (order : list nat)
    (passengers : list Passenger.t) (aislePosition : Z)
    (e : Simulation.Event) : Prop :=
  Simulation.type e = EventType.SHUFFLE_START ->
  exists p blocking,
    p ∈ passengers
    /\ Passenger.id p = Simulation.passengerId e
    /\ Passenger.seat p
       = (Simulation.passengerRow e, Simulation.passengerColumn e)
    /\ Simulation.data e
       = Simulation.Shuffle (Simulation.passengerRow e) blocking
    /\ blocking <> []
    /\ forall c, c ∈ blocking ->
         c ∈ columnsBetween aislePosition (Simulation.passengerColumn e)
         /\ exists q,
              q ∈ passengers
              /\ Passenger.seat q = (Simulation.passengerRow e, c)
              /\ earlier order (Passenger.id q) (Simulation.passengerId e).

(** The passengers keep the order in which they entered: of two
    passengers the later one waits, or the earlier one sits, or the
    earlier one stands in the aisle beyond the row the later one has
    reached; the queue is what is left of the boarding order; who has
    arrived stands at its row; the log explains every shuffle and holds
    one for whoever is shuffling. *)
Record Orderly (order : list nat) (cfg : Aircraft.Config)
    (passengers : list Passenger.t) (s : Simulation.t) : Prop := mkOrderly {
  ord_config : Aircraft.config (Simulation.aircraft s) = cfg;
  ord_known : forall k ps,
    assoc_get k (Simulation.passengerStates s) = Some ps ->
    Simulation.passenger ps ∈ passengers /\ k ∈ order
    /\ seatsReachable cfg (Simulation.passenger ps);
  ord_queue : exists served rest,
    order = served ++ rest /\ Simulation.queue s = Some <$> rest;
  ord_row : forall k ps,
    assoc_get k (Simulation.passengerStates s) = Some ps ->
    Simulation.state ps <> PassengerState.WAITING ->
    Simulation.state ps <> PassengerState.WALKING ->
    Simulation.aisleRow ps = Passenger.row (Simulation.passenger ps);
  ord_line : forall k1 k2 ps1 ps2,
    earlier order k1 k2 ->
    assoc_get k1 (Simulation.passengerStates s) = Some ps1 ->
    assoc_get k2 (Simulation.passengerStates s) = Some ps2 ->
    Simulation.state ps2 = PassengerState.WAITING
    \/ Simulation.state ps1 = PassengerState.SEATED
    \/ (occupiesAisle ps1 = true
        /\ Simulation.aisleRow ps2 < Simulation.aisleRow ps1);
  ord_log :
    Forall (shuffleExplained order passengers (Aircraft.cfg_aislePosition cfg))
      (Simulation.events s);
  ord_shuffling : forall k ps,
    assoc_get k (Simulation.passengerStates s) = Some ps ->
    Simulation.state ps = PassengerState.SHUFFLING ->
    exists e, e ∈ Simulation.events s
              /\ Simulation.type e = EventType.SHUFFLE_START;
}.

(** Nobody shuffles: the log holds no SHUFFLE_START event and no
    run-state is SHUFFLING. *)
Definition shuffleFree (s : Simulation.t) : Prop :=
  Forall (fun e => Simulation.type e <> EventType.SHUFFLE_START)
    (Simulation.getEvents s)
  /\ forall k ps,
       assoc_get k (Simulation.passengerStates s) = Some ps ->
       Simulation.state ps <> PassengerState.SHUFFLING.

(** ** One admission per tick *)

(** [admissions] ticks have had the occasion to admit a passenger: the
    queue is what is left of the boarding order after as many
    admissions at most, and who stands at index [i] of the order has not
    entered before tick [i + 1]. *)
Record Paced (order : list nat) (admissions : Z) (s : Simulation.t)
  : Prop := mkPaced {
  pac_queue : exists served rest,
    order = served ++ rest /\ Simulation.queue s = Some <$> rest
    /\ Z.of_nat (length served) <= admissions;
  pac_entered : forall (i : nat) k ps,
    order !! i = Some k ->
    assoc_get k (Simulation.passengerStates s) = Some ps ->
    Simulation.state ps <> PassengerState.WAITING ->
    Z.of_nat i + 1 <= Simulation.enteredAt ps;
}.

(* ===================================================================== *)
(** * Part II: properties                                                 *)
(* ===================================================================== *)

(** ** The stable sort *)

Section SortFacts.
Context {A : Type} (after : A -> A -> bool).

Lemma sort_insert_perm x l : sort_insert after x l ≡ₚ x :: l.
Proof.
  induction l as [|y l IH]; simpl; [done|].
  destruct (after x y); [|done].
  rewrite IH. apply Permutation_swap.
Qed.

Lemma array_sort_perm l : array_sort after l ≡ₚ l.
Proof.
  induction l as [|x l IH]; simpl; [done|].
  rewrite sort_insert_perm. by f_equiv.
Qed.

(** [R] is the order the caller expects; [x] is inserted in front of a
    list of elements that followed it in the input. *)
Lemma sort_insert_sorted (R : relation A) `{!Transitive R} x l :
  Forall (fun y => if after x y then R y x else R x y) l ->
  StronglySorted R l ->
  StronglySorted R (sort_insert after x l).
Proof.
  induction l as [|y l IH]; simpl; intros Hx Hl.
  - repeat constructor.
  - apply Forall_cons in Hx as [Hxy Hx].
    apply StronglySorted_cons in Hl as [Hy Hl].
    destruct (after x y).
    + apply StronglySorted_cons. split; [|by apply IH].
      rewrite sort_insert_perm. by constructor.
    + apply StronglySorted_cons. split.
      * constructor; [done|].
        eapply Forall_impl; [exact Hy|]. intros z Hz. by etrans.
      * by apply StronglySorted_cons.
Qed.

Lemma array_sort_sorted (R : relation A) `{!Transitive R} l :
  StronglySorted (fun x y => if after x y then R y x else R x y) l ->
  StronglySorted R (array_sort after l).
Proof.
  induction l as [|x l IH]; simpl; intros Hl.
  - constructor.
  - apply StronglySorted_cons in Hl as [Hx Hl].
    apply sort_insert_sorted; [done| |by apply IH].
    by rewrite array_sort_perm.
Qed.
End SortFacts.

Lemma sort_insert_fmap {A B} (f : A -> B) (after : B -> B -> bool) x l :
  sort_insert after (f x) (f <$> l)
  = f <$> sort_insert (fun a b => after (f a) (f b)) x l.
Proof.
  induction l as [|y l IH]; [done|].
  rewrite fmap_cons. cbn [sort_insert].
  destruct (after (f x) (f y)); [|done].
  by rewrite fmap_cons, IH.
Qed.

Lemma array_sort_fmap {A B} (f : A -> B) (after : B -> B -> bool) l :
  array_sort after (f <$> l)
  = f <$> array_sort (fun a b => after (f a) (f b)) l.
Proof.
  unfold array_sort.
  induction l as [|x l IH]; [done|].
  rewrite fmap_cons. cbn [foldr]. by rewrite IH, sort_insert_fmap.
Qed.

(** ** The random generator *)

Lemma next_initialSeed g :
  RandomGenerator.initialSeed (RandomGenerator.next g).2
  = RandomGenerator.initialSeed g.
Proof. reflexivity. Qed.

Lemma draws_initialSeed n g :
  RandomGenerator.initialSeed (draws n g) = RandomGenerator.initialSeed g.
Proof.
  revert g. induction n as [|n IH]; intros g; [done|].
  cbn [draws]. by rewrite IH, next_initialSeed.
Qed.

(** C4: for a seed that is not negative and whose product with the
    multiplier is exact, [next()] stores [(48271 * seed) mod (2^31 - 1)] and
    returns that seed over [2^31 - 1], a value of [0, 1); built with seed
    12345 the first draw is [595905495 / 2147483647], and after any number
    of draws [reset()] makes the next draw that value again. *)
Theorem rng_recurrence_and_first_draw (g : RandomGenerator.t) (n : nat) :
  0 <= RandomGenerator.seed g ->
  48271 * RandomGenerator.seed g <= 2 ^ 53 ->
  (let '(x, g') := RandomGenerator.next g in
   RandomGenerator.seed g' = (48271 * RandomGenerator.seed g) mod (2 ^ 31 - 1)
   /\ x = Qmake (RandomGenerator.seed g') 2147483647
   /\ (0 <= x)%Q /\ (x < 1)%Q)
  /\ (RandomGenerator.next (RandomGenerator.new 12345)).1
     = Qmake 595905495 2147483647
  /\ (RandomGenerator.next
        (RandomGenerator.reset (draws n (RandomGenerator.new 12345)))).1
     = Qmake 595905495 2147483647.
Proof.
  intros Hseed _. split; [|split].
  - unfold RandomGenerator.next. cbn [RandomGenerator.seed].
    unfold RandomGenerator.a, RandomGenerator.m.
    assert (Hrem : Z.rem (48271 * RandomGenerator.seed g) 2147483647
                   = (48271 * RandomGenerator.seed g) mod (2 ^ 31 - 1)).
    { change (2 ^ 31 - 1) with 2147483647. apply Z.rem_mod_nonneg; lia. }
    rewrite Hrem.
    assert (Hrange : 0 <= (48271 * RandomGenerator.seed g) mod (2 ^ 31 - 1)
                     < 2147483647).
    { change (2 ^ 31 - 1) with 2147483647. apply Z.mod_pos_bound. lia. }
    repeat split.
    + unfold Qle. simpl. lia.
    + unfold Qlt. simpl. lia.
  - reflexivity.
  - unfold RandomGenerator.reset. rewrite draws_initialSeed. reflexivity.
Qed.

Lemma rng_recurrence_and_first_draw_witness :
  (RandomGenerator.next (RandomGenerator.new 12345)).1
  = Qmake 595905495 2147483647
  /\ (RandomGenerator.next
        (RandomGenerator.reset (draws 3 (RandomGenerator.new 12345)))).1
     = Qmake 595905495 2147483647.
Proof.
  apply (rng_recurrence_and_first_draw (RandomGenerator.new 12345) 3).
  - simpl. lia.
  - simpl. lia.
Defined.

(** ** The concrete scenario *)

(** C1: one row, columns A-F, aisle index 3, P1 at 1A and P2 at 1D without
    carry-on, boarding order [P1, P2].  Tick by tick: P1 enters cell 0; P1
    moves to cell 1 and P2 enters; P1 starts SEATING and P2 is blocked; P1
    is seated and P2 moves to cell 1; P2 starts SEATING; P2 is seated.  The
    completion flag is false up to tick 5 and true at tick 6, where
    [runToCompletion] stops. *)
Theorem concrete_scenario_trace :
  let W := PassengerState.WAITING in
  let K := PassengerState.WALKING in
  let G := PassengerState.SEATING in
  let D := PassengerState.SEATED in
  Scenario.after 0 = Some (0, false, [(1%nat, W, -1); (2%nat, W, -1)])
  /\ Scenario.after 1 = Some (1, false, [(1%nat, K, 0); (2%nat, W, -1)])
  /\ Scenario.after 2 = Some (2, false, [(1%nat, K, 1); (2%nat, K, 0)])
  /\ Scenario.after 3 = Some (3, false, [(1%nat, G, 1); (2%nat, K, 0)])
  /\ Scenario.after 4 = Some (4, false, [(1%nat, D, 1); (2%nat, K, 1)])
  /\ Scenario.after 5 = Some (5, false, [(1%nat, D, 1); (2%nat, G, 1)])
  /\ Scenario.after 6 = Some (6, true, [(1%nat, D, 1); (2%nat, D, 1)])
  /\ Simulation.events <$> Simulation.steps 6 Scenario.initial
     = Some [ Scenario.ev 1 EventType.ENTER Scenario.P1 Simulation.NoData;
              Scenario.ev 2 EventType.MOVE Scenario.P1 (Simulation.FromTo 0 1);
              Scenario.ev 2 EventType.ENTER Scenario.P2 Simulation.NoData;
              Scenario.ev 3 EventType.AISLE_BLOCKED Scenario.P2
                (Simulation.Blocked 0 1);
              Scenario.ev 4 EventType.SEAT Scenario.P1 (Simulation.Seat 1 "A");
              Scenario.ev 4 EventType.MOVE Scenario.P2 (Simulation.FromTo 0 1);
              Scenario.ev 6 EventType.SEAT Scenario.P2 (Simulation.Seat 1 "D") ]
  /\ (fun s => (Aircraft.getPassengerInSeat (Simulation.aircraft s) 1 "A",
                Aircraft.getPassengerInSeat (Simulation.aircraft s) 1 "D"))
       <$> Simulation.steps 6 Scenario.initial
     = Some (Some (Some Scenario.P1), Some (Some Scenario.P2))
  /\ fst <$> Simulation.runToCompletion 10000 Scenario.initial = Some 6
  /\ Simulation.stepReturn <$> Simulation.steps 5 Scenario.initial
     = Some (Some false).
Proof. repeat split; vm_compute; reflexivity. Qed.

(** ** The boarding order *)

Lemma Qminus_le_0 (a b : Q) : (b - a <= 0)%Q <-> (b <= a)%Q.
Proof.
  rewrite <- (Qplus_le_l (b - a) 0 a).
  assert (H1 : (b - a + a == b)%Q) by ring.
  assert (H2 : (0 + a == a)%Q) by ring.
  by rewrite H1, H2.
Qed.

Lemma after_by_difference (a b : Q) :
  negb (Qle_bool (b - a) 0) = true <-> (a < b)%Q.
Proof.
  rewrite negb_true_iff. split.
  - intros H. apply Qnot_le_lt. intros Hle.
    apply (proj2 (Qminus_le_0 a b)) in Hle.
    apply (proj2 (Qle_bool_iff _ _)) in Hle. congruence.
  - intros H. destruct (Qle_bool (b - a) 0) eqn:E; [|done].
    apply (proj1 (Qle_bool_iff _ _)) in E.
    apply (proj1 (Qminus_le_0 a b)) in E. destruct (Qlt_not_le _ _ H E).
Qed.

Lemma StronglySorted_mono {A} (R1 R2 : relation A) l :
  (forall x y, R1 x y -> R2 x y) -> StronglySorted R1 l -> StronglySorted R2 l.
Proof.
  intros HR. induction 1 as [|x l _ IH Hx]; constructor; [done|].
  eapply Forall_impl; [exact Hx|]. auto.
Qed.

Lemma StronglySorted_seq (a n : nat) : StronglySorted lt (seq a n).
Proof.
  revert a. induction n as [|n IH]; intros a; simpl; constructor; [apply IH|].
  apply Forall_forall. intros x Hx%list_elem_of_In%in_seq. lia.
Qed.

Lemma StronglySorted_by_key {A} (f : A -> nat) (l : list A) :
  StronglySorted lt (f <$> l) -> StronglySorted (fun a b => (f a < f b)%nat) l.
Proof.
  induction l as [|x l IH]; [constructor|].
  rewrite fmap_cons. intros [Hx Hl]%StronglySorted_cons.
  constructor; [by apply IH|]. by rewrite Forall_fmap in Hx.
Qed.

Section BoardingOrderFacts.
Variable priorityFn : Passenger.view -> AlgorithmRunner.Context -> Q.
Variable context : AlgorithmRunner.Context.

Local Abbreviation prio := (priorityOf priorityFn context).
Local Abbreviation before := (boardsBefore priorityFn context).

#[local] Instance boardsBefore_transitive : Transitive before.
Proof.
  intros a b c [Hab|[Hab Iab]] [Hbc|[Hbc Ibc]].
  - left. by eapply Qlt_trans.
  - left. by rewrite <- Hbc.
  - left. by rewrite Hab.
  - right. split; [by rewrite Hab|lia].
Qed.

Lemma boardsBefore_asymmetric a b : before a b -> before b a -> False.
Proof.
  intros [Hab|[Hab Iab]] [Hba|[Hba Iba]].
  - by eapply Qlt_irrefl, Qlt_trans.
  - rewrite Hba in Hab. by eapply Qlt_irrefl.
  - rewrite Hab in Hba. by eapply Qlt_irrefl.
  - lia.
Qed.

Lemma runAlgorithm_as_sort passengers :
  AlgorithmRunner.runAlgorithm priorityFn passengers context
  = Passenger.id <$> array_sort (laterByPriority priorityFn context) passengers.
Proof.
  unfold AlgorithmRunner.runAlgorithm.
  rewrite array_sort_fmap, <- list_fmap_compose. reflexivity.
Qed.

Lemma sorted_by_priority_then_id passengers :
  StronglySorted (fun a b => (Passenger.id a < Passenger.id b)%nat) passengers ->
  StronglySorted before (array_sort (laterByPriority priorityFn context) passengers).
Proof.
  intros Hids. apply array_sort_sorted; [apply _|].
  eapply StronglySorted_mono; [|exact Hids].
  intros a b Hid. unfold laterByPriority.
  destruct (negb (Qle_bool (prio b - prio a) 0)) eqn:E.
  - left. by apply after_by_difference.
  - destruct (Q_dec (prio a) (prio b)) as [[Hlt|Hgt]|Heq].
    + apply after_by_difference in Hlt. congruence.
    + by left.
    + by right.
Qed.
End BoardingOrderFacts.

(** C3: when the passengers carry the ids 1..N in list order, the order
    computed by [runAlgorithm] lists them by descending priority, equal
    priorities by ascending id; it is the only arrangement of the
    passengers that does. *)
Theorem boarding_order_by_priority_then_id
    (priorityFn : Passenger.view -> AlgorithmRunner.Context -> Q)
    (context : AlgorithmRunner.Context) (passengers : list Passenger.t) :
  Passenger.id <$> passengers = seq 1 (length passengers) ->
  exists sorted : list Passenger.t,
    AlgorithmRunner.runAlgorithm priorityFn passengers context
    = Passenger.id <$> sorted
    /\ sorted ≡ₚ passengers
    /\ StronglySorted (boardsBefore priorityFn context) sorted
    /\ forall other : list Passenger.t,
         other ≡ₚ passengers ->
         StronglySorted (boardsBefore priorityFn context) other ->
         other = sorted.
Proof.
  intros Hids.
  exists (array_sort (laterByPriority priorityFn context) passengers).
  assert (Hsorted : StronglySorted (boardsBefore priorityFn context)
            (array_sort (laterByPriority priorityFn context) passengers)).
  { apply sorted_by_priority_then_id, StronglySorted_by_key.
    rewrite Hids. apply StronglySorted_seq. }
  split; [apply runAlgorithm_as_sort|].
  split; [apply array_sort_perm|].
  split; [exact Hsorted|].
  intros other Hperm Hother.
  apply (StronglySorted_unique_strong (boardsBefore priorityFn context));
    [|done|done|by rewrite array_sort_perm].
  intros a b _ _ Hab Hba. destruct (boardsBefore_asymmetric _ _ _ _ Hab Hba).
Qed.

Lemma boarding_order_by_priority_then_id_witness :
  exists sorted : list Passenger.t,
    AlgorithmRunner.runAlgorithm (fun v _ => inject_Z (Passenger.v_row v))
      [Scenario.P1; Scenario.P2] (AlgorithmRunner.mkContext 1 2 [])
    = Passenger.id <$> sorted
    /\ sorted ≡ₚ [Scenario.P1; Scenario.P2]
    /\ StronglySorted
         (boardsBefore (fun v _ => inject_Z (Passenger.v_row v))
            (AlgorithmRunner.mkContext 1 2 [])) sorted
    /\ forall other : list Passenger.t,
         other ≡ₚ [Scenario.P1; Scenario.P2] ->
         StronglySorted
           (boardsBefore (fun v _ => inject_Z (Passenger.v_row v))
              (AlgorithmRunner.mkContext 1 2 [])) other ->
         other = sorted.
Proof.
  apply (boarding_order_by_priority_then_id
           (fun v _ => inject_Z (Passenger.v_row v))
           (AlgorithmRunner.mkContext 1 2 []) [Scenario.P1; Scenario.P2]).
  reflexivity.
Defined.

(** ** The layout *)

Lemma foldl_insert_lookup `{Countable K} {V} (v : V) (l : list K)
    (m : gmap K V) (k : K) :
  foldl (fun m r => <[r := v]> m) m l !! k
  = if decide (k ∈ l) then Some v else m !! k.
Proof.
  revert m. induction l as [|r l IH]; intros m; cbn [foldl].
  - case_decide as Hin; [by apply elem_of_nil in Hin|done].
  - rewrite IH. destruct (decide (k ∈ l)) as [Hin|Hin].
    + rewrite decide_True; [done|by right].
    + destruct (decide (k = r)) as [->|Hne].
      * rewrite lookup_insert_eq, decide_True; [done|by left].
      * rewrite lookup_insert_ne by done.
        rewrite decide_False; [done|].
        intros [->|Hin']%elem_of_cons; done.
Qed.

Lemma fillBins_lookup rows cap m row :
  Aircraft.fillBins rows cap m !! row
  = if decide (1 <= row <= rows) then Some cap else m !! row.
Proof.
  unfold Aircraft.fillBins. rewrite foldl_insert_lookup.
  destruct (decide (row ∈ seqZ 1 rows)) as [Hin|Hin];
    rewrite elem_of_seqZ in Hin.
  - by rewrite decide_True by lia.
  - by rewrite decide_False by lia.
Qed.

Lemma fillAisle_lookup rows m row :
  Aircraft.fillAisle rows m !! row
  = if decide (0 <= row <= rows) then Some None else m !! row.
Proof.
  unfold Aircraft.fillAisle. rewrite foldl_insert_lookup.
  destruct (decide (row ∈ seqZ 0 (rows + 1))) as [Hin|Hin];
    rewrite elem_of_seqZ in Hin.
  - by rewrite decide_True by lia.
  - by rewrite decide_False by lia.
Qed.

Lemma fillSeats_lookup rows columns m row column :
  Aircraft.fillSeats rows columns m !! (row, column)
  = if decide (1 <= row <= rows /\ column ∈ columns) then Some None
    else m !! (row, column).
Proof.
  unfold Aircraft.fillSeats.
  assert (Hinner : forall (r : Z) cs (m0 : gmap (Z * string) (option Passenger.t)),
    foldl (fun m c => <[(r, c) := None]> m) m0 cs !! (row, column)
    = if decide (row = r /\ column ∈ cs) then Some None
      else m0 !! (row, column)).
  { intros r cs. induction cs as [|c cs IH]; intros m0; cbn [foldl].
    - rewrite decide_False; [done|]. intros [_ Hc]. by apply elem_of_nil in Hc.
    - rewrite IH. destruct (decide (row = r /\ column ∈ cs)) as [[-> Hc]|Hn].
      + rewrite decide_True; [done|]. split; [done|]. by right.
      + destruct (decide ((r, c) = (row, column))) as [Heq|Hne].
        * inversion Heq; subst. rewrite lookup_insert_eq.
          rewrite decide_True; [done|]. split; [done|]. by left.
        * rewrite lookup_insert_ne by done.
          rewrite decide_False; [done|].
          intros [-> Hc]. apply elem_of_cons in Hc as [->|Hc]; [done|].
          apply Hn. by split. }
  assert (Houter : forall rs (m0 : gmap (Z * string) (option Passenger.t)),
    foldl (fun m r => foldl (fun m c => <[(r, c) := None]> m) m columns) m0 rs
      !! (row, column)
    = if decide (row ∈ rs /\ column ∈ columns) then Some None
      else m0 !! (row, column)).
  { induction rs as [|r rs IH]; intros m0; cbn [foldl].
    - rewrite decide_False; [done|]. intros [Hr _]. by apply elem_of_nil in Hr.
    - rewrite IH, Hinner.
      destruct (decide (row ∈ rs /\ column ∈ columns)) as [[Hr Hc]|Hn].
      + rewrite decide_True; [done|]. split; [by right|done].
      + destruct (decide (row = r /\ column ∈ columns)) as [[-> Hc]|Hn'].
        * rewrite decide_True; [done|]. split; [by left|done].
        * rewrite decide_False; [done|].
          intros [Hr Hc]. apply elem_of_cons in Hr as [->|Hr].
          -- apply Hn'. by split.
          -- apply Hn. by split. }
  rewrite Houter.
  destruct (decide (row ∈ seqZ 1 rows /\ column ∈ columns)) as [[Hr Hc]|Hn].
  - rewrite elem_of_seqZ in Hr. rewrite decide_True; [done|]. split; [lia|done].
  - rewrite decide_False; [done|]. intros [Hr Hc]. apply Hn.
    split; [|done]. rewrite elem_of_seqZ. lia.
Qed.

Section BinCapacity.
Variable cfg : Aircraft.Config.
Hypothesis default_nonneg : 0 <= Aircraft.cfg_binCapacityPerRow cfg.

Lemma new_binsWithinBounds : binsWithinBounds cfg (Aircraft.new cfg).
Proof.
  split; [done|]. intros row Hrow. exists (Aircraft.cfg_binCapacityPerRow cfg).
  simpl. rewrite fillBins_lookup, decide_True by done. split; [done|lia].
Qed.

Lemma useBinCapacity_lookup row size a row' :
  Aircraft.binCapacity (Aircraft.useBinCapacity row size a).2 !! row'
  = if Aircraft.hasBinCapacity a row size && bool_decide (row' = row)
    then (fun c => match size with
                   | CarryOnSize.NONE => c
                   | _ => c - Aircraft.required size
                   end) <$> Aircraft.binCapacity a !! row'
    else Aircraft.binCapacity a !! row'.
Proof.
  unfold Aircraft.useBinCapacity, Aircraft.hasBinCapacity.
  destruct size; simpl.
  - by destruct (bool_decide _), (Aircraft.binCapacity a !! row').
  - destruct (Aircraft.binCapacity a !! row) as [c|] eqn:E; [|done].
    destruct (1 <=? c) eqn:E1; simpl; [|done].
    case_bool_decide as Hr; [subst; by rewrite lookup_insert_eq, E|].
    by rewrite lookup_insert_ne.
  - destruct (Aircraft.binCapacity a !! row) as [c|] eqn:E; [|done].
    destruct (2 <=? c) eqn:E1; simpl; [|done].
    case_bool_decide as Hr; [subst; by rewrite lookup_insert_eq, E|].
    by rewrite lookup_insert_ne.
Qed.

Lemma useBinCapacity_config row size a :
  Aircraft.config (Aircraft.useBinCapacity row size a).2 = Aircraft.config a.
Proof.
  unfold Aircraft.useBinCapacity.
  destruct size; [done| |];
    (destruct (Aircraft.binCapacity a !! row); [|done]);
    by destruct (_ <=? _).
Qed.

Lemma run_binsWithinBounds a op :
  binsWithinBounds cfg a -> binsWithinBounds cfg (LayoutOp.run a op).
Proof.
  intros [Hcfg Hbins]. destruct op; simpl; try (split; [done|exact Hbins]).
  - split; [done|]. intros row Hrow. simpl.
    unfold Aircraft.rows. rewrite Hcfg, fillBins_lookup, decide_True by done.
    eexists. split; [done|lia].
  - split; [by rewrite useBinCapacity_config|].
    intros row' Hrow. destruct (Hbins row' Hrow) as (c & Hc & Hrange).
    rewrite useBinCapacity_lookup, Hc.
    destruct (Aircraft.hasBinCapacity a row size) eqn:Hhas; simpl;
      [|by eauto].
    case_bool_decide as Hr; [subst row'|by eauto].
    unfold Aircraft.hasBinCapacity in Hhas. rewrite Hc in Hhas.
    destruct size; simpl in *; eexists; (split; [done|]); lia.
Qed.

Lemma runAll_binsWithinBounds ops a :
  binsWithinBounds cfg a -> binsWithinBounds cfg (LayoutOp.runAll ops a).
Proof.
  revert a. induction ops as [|op ops IH]; intros a Ha; [done|].
  apply IH, run_binsWithinBounds, Ha.
Qed.
End BinCapacity.

(** C6: on a layout built with a default capacity that is not negative,
    after any sequence of operations the capacity of a row is defined and
    not negative; no operation other than [reset] raises it; [reset] puts
    the configured default back; and [useBinCapacity] without enough
    capacity answers [false] and leaves the layout as it was. *)
Theorem bin_capacity_monotone_until_reset
    (cfg : Aircraft.Config) (ops : list LayoutOp.t) (row : Z) :
  0 <= Aircraft.cfg_binCapacityPerRow cfg ->
  1 <= row <= Aircraft.cfg_rows cfg ->
  let a := LayoutOp.runAll ops (Aircraft.new cfg) in
  (exists c, Aircraft.binCapacity a !! row = Some c /\ 0 <= c)
  /\ (forall op, op <> LayoutOp.Reset ->
        exists c c', Aircraft.binCapacity a !! row = Some c
                     /\ Aircraft.binCapacity (LayoutOp.run a op) !! row = Some c'
                     /\ 0 <= c' <= c)
  /\ Aircraft.binCapacity (LayoutOp.run a LayoutOp.Reset) !! row
     = Some (Aircraft.cfg_binCapacityPerRow cfg)
  /\ (forall size, Aircraft.hasBinCapacity a row size = false ->
        Aircraft.useBinCapacity row size a = (false, a)).
Proof.
  intros Hcap Hrow a.
  assert (Ha : binsWithinBounds cfg a).
  { apply (runAll_binsWithinBounds cfg Hcap), (new_binsWithinBounds cfg Hcap). }
  destruct Ha as [Hcfg Hbins].
  destruct (Hbins row Hrow) as (c & Hc & Hrange).
  split; [exists c; split; [done|lia]|].
  split; [|split].
  - intros op Hop. exists c.
    destruct (run_binsWithinBounds cfg Hcap a op (conj Hcfg Hbins)) as [_ Hbins'].
    destruct (Hbins' row Hrow) as (c' & Hc' & Hrange').
    exists c'. split; [done|]. split; [done|]. split; [lia|].
    destruct op; simpl in Hc'; try done; try (rewrite Hc in Hc'; by simplify_eq).
    rewrite useBinCapacity_lookup, Hc in Hc'.
    destruct (Aircraft.hasBinCapacity a row0 size && bool_decide (row = row0));
      simpl in Hc'; simplify_eq; [|lia].
    destruct size; simpl; lia.
  - simpl. unfold Aircraft.rows. rewrite Hcfg, fillBins_lookup.
    by rewrite decide_True.
  - intros size Hhas. unfold Aircraft.hasBinCapacity in Hhas.
    unfold Aircraft.useBinCapacity. rewrite Hc in *.
    destruct size; [done| |]; by rewrite Hhas.
Qed.

Lemma bin_capacity_monotone_until_reset_witness :
  let a :=
    LayoutOp.runAll
      [LayoutOp.UseBinCapacity 1 CarryOnSize.LARGE;
       LayoutOp.UseBinCapacity 1 CarryOnSize.LARGE;
       LayoutOp.UseBinCapacity 1 CarryOnSize.LARGE;
       LayoutOp.UseBinCapacity 1 CarryOnSize.SMALL]
      (Aircraft.new Scenario.layout) in
  (exists c, Aircraft.binCapacity a !! 1 = Some c /\ 0 <= c)
  /\ (forall op, op <> LayoutOp.Reset ->
        exists c c', Aircraft.binCapacity a !! 1 = Some c
                     /\ Aircraft.binCapacity (LayoutOp.run a op) !! 1 = Some c'
                     /\ 0 <= c' <= c)
  /\ Aircraft.binCapacity (LayoutOp.run a LayoutOp.Reset) !! 1
     = Some (Aircraft.cfg_binCapacityPerRow Scenario.layout)
  /\ (forall size, Aircraft.hasBinCapacity a 1 size = false ->
        Aircraft.useBinCapacity 1 size a = (false, a)).
Proof.
  apply (bin_capacity_monotone_until_reset Scenario.layout
           [LayoutOp.UseBinCapacity 1 CarryOnSize.LARGE;
            LayoutOp.UseBinCapacity 1 CarryOnSize.LARGE;
            LayoutOp.UseBinCapacity 1 CarryOnSize.LARGE;
            LayoutOp.UseBinCapacity 1 CarryOnSize.SMALL] 1).
  - simpl. lia.
  - simpl. lia.
Defined.

(** ** The store of run-states *)

Section AssocFacts.
Context {V : Type}.
Implicit Types m : list (nat * V).

Lemma assoc_get_set k k' v m :
  assoc_get k (assoc_set k' v m)
  = if decide (k = k') then Some v else assoc_get k m.
Proof.
  induction m as [|[k0 v0] m IH]; simpl.
  - destruct (decide (k = k')); [done|]. done.
  - destruct (decide (k' = k0)) as [->|Hne]; simpl.
    + destruct (decide (k = k0)); done.
    + rewrite IH. destruct (decide (k = k0)) as [->|]; [|done].
      by rewrite decide_False.
Qed.

Lemma assoc_set_set k v v' m :
  assoc_set k v' (assoc_set k v m) = assoc_set k v' m.
Proof.
  induction m as [|[k0 v0] m IH]; simpl.
  - by rewrite decide_True.
  - destruct (decide (k = k0)) as [->|Hne]; simpl.
    + by rewrite decide_True.
    + by rewrite decide_False, IH.
Qed.

Lemma assoc_set_keys k v m :
  is_Some (assoc_get k m) -> (assoc_set k v m).*1 = m.*1.
Proof.
  induction m as [|[k0 v0] m IH]; csimpl; intros Hk.
  - by destruct Hk.
  - destruct (decide (k = k0)) as [->|Hne]; csimpl; [done|].
    by rewrite IH.
Qed.

Lemma assoc_get_elem_of k v m : assoc_get k m = Some v -> (k, v) ∈ m.
Proof.
  induction m as [|[k0 v0] m IH]; csimpl; [done|].
  destruct (decide (k = k0)) as [->|Hne].
  - intros [= ->]. by left.
  - intros H. right. by apply IH.
Qed.

Lemma elem_of_assoc_get k v m :
  NoDup m.*1 -> (k, v) ∈ m -> assoc_get k m = Some v.
Proof.
  induction m as [|[k0 v0] m IH]; csimpl; intros Hnd Hin.
  - by apply elem_of_nil in Hin.
  - apply NoDup_cons in Hnd as [Hk0 Hnd].
    apply elem_of_cons in Hin as [[= -> ->]|Hin].
    + by rewrite decide_True.
    + destruct (decide (k = k0)) as [->|Hne]; [|by apply IH].
      destruct Hk0. apply list_elem_of_fmap. by exists (k0, v).
Qed.

Lemma assoc_set_NoDup k v m : NoDup m.*1 -> NoDup (assoc_set k v m).*1.
Proof.
  induction m as [|[k0 v0] m IH]; csimpl; intros Hnd.
  - repeat constructor. by intros ?%elem_of_nil.
  - apply NoDup_cons in Hnd as [Hk0 Hnd].
    destruct (decide (k = k0)) as [->|Hne]; csimpl.
    + by apply NoDup_cons.
    + apply NoDup_cons. split; [|by apply IH].
      intros ((k1 & v1) & Hk1 & Hin)%list_elem_of_fmap. csimpl in Hk1. subst k1.
      assert (Hget : assoc_get k0 (assoc_set k v m) = Some v1)
        by (apply elem_of_assoc_get; [by apply IH|done]).
      rewrite assoc_get_set, decide_False in Hget by done.
      apply assoc_get_elem_of in Hget. apply Hk0.
      apply list_elem_of_fmap. by exists (k0, v1).
Qed.
End AssocFacts.

(** ** What every reachable state maintains *)

Lemma hasBinCapacity_ext a a' row size :
  Aircraft.binCapacity a' !! row = Aircraft.binCapacity a !! row ->
  Aircraft.hasBinCapacity a' row size = Aircraft.hasBinCapacity a row size.
Proof. unfold Aircraft.hasBinCapacity. by intros ->. Qed.

Lemma binFullLogged_mono k row (evs evs' : list Simulation.Event) :
  (forall e, e ∈ evs -> e ∈ evs') ->
  binFullLogged k row evs -> binFullLogged k row evs'.
Proof. intros Hsub (e & He & H). exists e. split; [by apply Hsub|done]. Qed.

(** One run-state object is rewritten, together with the layout and the
    log: the conditions under which the invariant survives. *)
Lemma Inv_entry s ps ps' a' E' op cs ic q :
  let a := Simulation.aircraft s in
  let p := Simulation.passenger ps in
  Inv s ->
  assoc_get (Passenger.id p) (Simulation.passengerStates s) = Some ps ->
  Simulation.passenger ps' = p ->
  (forall e, e ∈ Simulation.events s -> e ∈ E') ->
  (forall r q, Aircraft.aisle a !! r = Some (Some q) -> q <> p ->
     Aircraft.aisle a' !! r = Some (Some q)) ->
  (occupiesAisle ps' = true ->
     Aircraft.aisle a' !! Simulation.aisleRow ps' = Some (Some p)
     /\ 0 <= Simulation.aisleRow ps') ->
  (forall key q, Aircraft.seats a !! key = Some (Some q) ->
     key <> Passenger.seat p -> Aircraft.seats a' !! key = Some (Some q)) ->
  (Simulation.state ps' = PassengerState.SEATED ->
     Aircraft.seats a' !! Passenger.seat p = Some (Some p)) ->
  (forall r, Aircraft.aisle a !! r <> Some (Some p) ->
     Aircraft.binCapacity a' !! r = Aircraft.binCapacity a !! r) ->
  (Simulation.state ps' = PassengerState.STOWING ->
     Aircraft.hasBinCapacity a' (Simulation.aisleRow ps')
       (Passenger.carryOnSize p) = false ->
     binFullLogged (Passenger.id p) (Simulation.aisleRow ps') E') ->
  Inv (Simulation.mk a' op cs ic E'
         (assoc_set (Passenger.id p) ps' (Simulation.passengerStates s)) q).
Proof.
  intros a p. subst a.
  assert (Ep : p = Simulation.passenger ps) by done. clearbody p.
  intros HI Hget Hp Hev Ha Hc Hs Hs' Hb Hf.
  assert (Hother : forall k2 ps2,
            assoc_get k2 (Simulation.passengerStates s) = Some ps2 ->
            k2 <> Passenger.id p -> Simulation.passenger ps2 <> p).
  { intros k2 ps2 H2 Hne Heq. apply Hne. rewrite <- Heq.
    symmetry. by apply (inv_keys s HI). }
  assert (Hdistinct :
    seatsDistinct (Simulation.mk a' op cs ic E'
       (assoc_set (Passenger.id p) ps' (Simulation.passengerStates s)) q) ->
    seatsDistinct s).
  { intros Hd k1 k2 ps1 ps2 H1 H2 Hseat.
    pose proof (inv_keys s HI _ _ H1) as Hk1.
    pose proof (inv_keys s HI _ _ H2) as Hk2.
    destruct (decide (k1 = Passenger.id p)) as [E1|N1];
      destruct (decide (k2 = Passenger.id p)) as [E2|N2]; [congruence| | |].
    - apply (Hd k1 k2 ps' ps2); cbn [Simulation.passengerStates].
      + by rewrite assoc_get_set, decide_True.
      + by rewrite assoc_get_set, decide_False.
      + rewrite Hp. rewrite E1, Hget in H1. injection H1 as <-. by rewrite Ep.
    - apply (Hd k1 k2 ps1 ps'); cbn [Simulation.passengerStates].
      + by rewrite assoc_get_set, decide_False.
      + by rewrite assoc_get_set, decide_True.
      + rewrite Hp. rewrite E2, Hget in H2. injection H2 as <-. by rewrite Ep.
    - apply (Hd k1 k2 ps1 ps2); cbn [Simulation.passengerStates].
      + by rewrite assoc_get_set, decide_False.
      + by rewrite assoc_get_set, decide_False.
      + done. }
  split; cbn [Simulation.passengerStates Simulation.aircraft Simulation.events].
  - intros k ps0. rewrite assoc_get_set.
    destruct (decide (k = Passenger.id p)) as [->|Hne].
    + intros [= <-]. by rewrite Hp.
    + apply (inv_keys s HI).
  - intros k ps0. rewrite assoc_get_set.
    destruct (decide (k = Passenger.id p)) as [->|Hne].
    + intros [= <-] Hocc. rewrite Hp. by apply Hc.
    + intros H0 Hocc. apply Ha; [by apply (inv_cell s HI k)|by apply (Hother k)].
  - intros k ps0. rewrite assoc_get_set.
    destruct (decide (k = Passenger.id p)) as [->|Hne].
    + intros [= <-] Hocc. by apply Hc.
    + apply (inv_row s HI).
  - intros Hd k ps0. rewrite assoc_get_set.
    destruct (decide (k = Passenger.id p)) as [->|Hne].
    + intros [= <-] Hst. rewrite Hp. by apply Hs'.
    + intros H0 Hst. apply Hs; [by apply (inv_seat s HI (Hdistinct Hd) k)|].
      intros Hseat. apply Hne.
      apply (Hdistinct Hd k (Passenger.id p) ps0 ps); [done|done|by rewrite <- Ep].
  - intros k ps0. rewrite assoc_get_set.
    destruct (decide (k = Passenger.id p)) as [->|Hne].
    + intros [= <-] Hst. rewrite Hp. by apply Hf.
    + intros H0 Hst Hcap. apply (binFullLogged_mono _ _ (Simulation.events s));
        [done|].
      apply (inv_binfull s HI k ps0 H0 Hst).
      rewrite <- Hcap. symmetry. apply hasBinCapacity_ext, Hb.
      assert (Hocc : occupiesAisle ps0 = true)
        by (unfold occupiesAisle; by rewrite Hst).
      rewrite (inv_cell s HI k ps0 H0 Hocc).
      intros [= Heq]. by apply (Hother k ps0 H0 Hne).
Qed.

Lemma isAisleOccupied_false a r :
  Aircraft.isAisleOccupied a r = false -> Aircraft.aisle a !! r = Some None.
Proof.
  unfold Aircraft.isAisleOccupied.
  by destruct (Aircraft.aisle a !! r) as [[?|]|].
Qed.

Lemma useBinCapacity_aisle row size a :
  Aircraft.aisle (Aircraft.useBinCapacity row size a).2 = Aircraft.aisle a.
Proof.
  unfold Aircraft.useBinCapacity.
  destruct size; [done| |];
    (destruct (Aircraft.binCapacity a !! row); [|done]);
    by destruct (_ <=? _).
Qed.

Lemma useBinCapacity_seats row size a :
  Aircraft.seats (Aircraft.useBinCapacity row size a).2 = Aircraft.seats a.
Proof.
  unfold Aircraft.useBinCapacity.
  destruct size; [done| |];
    (destruct (Aircraft.binCapacity a !! row); [|done]);
    by destruct (_ <=? _).
Qed.

Lemma useBinCapacity_other row size a row' :
  row' <> row ->
  Aircraft.binCapacity (Aircraft.useBinCapacity row size a).2 !! row'
  = Aircraft.binCapacity a !! row'.
Proof.
  intros Hne. unfold Aircraft.useBinCapacity.
  destruct size; [done| |];
    (destruct (Aircraft.binCapacity a !! row); [|done]);
    (destruct (_ <=? _); [|done]); cbn [snd Aircraft.binCapacity];
    by rewrite lookup_insert_ne.
Qed.

Ltac unfold_engine :=
  unfold Simulation.processWalking, Simulation.processStowing,
    Simulation.processShuffling, Simulation.processSeating,
    Simulation.startSeating, Simulation.recordEvent, Simulation.put,
    Simulation.set_aircraft, Simulation.set_events, Simulation.set_queue,
    Simulation.set_state, Simulation.set_aisleRow,
    Simulation.set_stowRemaining, Simulation.set_shuffleRemaining,
    Simulation.set_waitTime, Simulation.set_enteredAt,
    Simulation.set_seatedAt;
  cbn [Simulation.aircraft Simulation.originalPassengers
       Simulation.currentStep Simulation.isComplete Simulation.events
       Simulation.passengerStates Simulation.queue
       Simulation.passenger Simulation.state Simulation.aisleRow
       Simulation.stowRemaining Simulation.shuffleRemaining
       Simulation.waitTime Simulation.enteredAt Simulation.seatedAt].

Ltac grows := intros ? ?; rewrite ?elem_of_app; auto.

Ltac entry s ps HI Hget :=
  eapply (Inv_entry s ps); [exact HI|exact Hget|reflexivity|grows|..];
  cbn [Simulation.passenger Simulation.state Simulation.aisleRow].

(** Side conditions of [Inv_entry] when the layout is left as it was. *)
Ltac same_layout :=
  first [ by (intros; discriminate)
        | by (intros ? ? H ?; exact H)
        | by (intros; reflexivity) ].

Section Preservation.
Variable s : Simulation.t.
Variable ps : Simulation.RunState.
Hypothesis HI : Inv s.
Hypothesis Hget :
  assoc_get (Passenger.id (Simulation.passenger ps))
    (Simulation.passengerStates s) = Some ps.

Lemma Inv_processStowing :
  Simulation.state ps = PassengerState.STOWING ->
  Inv (Simulation.processStowing ps s).
Proof.
  intros Hst.
  assert (Hocc : occupiesAisle ps = true)
    by (unfold occupiesAisle; by rewrite Hst).
  pose proof (inv_cell s HI _ _ Hget Hocc) as Hcell.
  pose proof (inv_row s HI _ _ Hget Hocc) as Hrow.
  unfold_engine.
  destruct (Simulation.stowRemaining ps - 1 <=? 0).
  - destruct (0 <? length _)%nat; unfold_engine; rewrite assoc_set_set;
      entry s ps HI Hget.
    all: try same_layout.
    all: try (intros r q Hr _; by rewrite useBinCapacity_aisle).
    all: try (intros _; by rewrite useBinCapacity_aisle).
    all: try (intros key q Hk _; by rewrite useBinCapacity_seats).
    all: intros r Hr; apply useBinCapacity_other; congruence.
  - entry s ps HI Hget; try same_layout.
    + intros _. by split.
    + intros Hseated. rewrite Hst in Hseated. discriminate.
    + intros _ Hcap. by apply (inv_binfull s HI _ ps).
Qed.

Lemma Inv_processShuffling :
  Simulation.state ps = PassengerState.SHUFFLING ->
  Inv (Simulation.processShuffling ps s).
Proof.
  intros Hst.
  assert (Hocc : occupiesAisle ps = true)
    by (unfold occupiesAisle; by rewrite Hst).
  pose proof (inv_cell s HI _ _ Hget Hocc) as Hcell.
  pose proof (inv_row s HI _ _ Hget Hocc) as Hrow.
  unfold_engine.
  destruct (Simulation.shuffleRemaining ps - 1 <=? 0);
    entry s ps HI Hget; try same_layout.
  - intros _. by split.
  - intros _. by split.
  - intros Hseated. rewrite Hst in Hseated. discriminate.
  - intros Hstow. rewrite Hst in Hstow. discriminate.
Qed.

Lemma Inv_processSeating :
  Simulation.state ps = PassengerState.SEATING ->
  Inv (Simulation.processSeating ps s).
Proof.
  intros Hst.
  assert (Hocc : occupiesAisle ps = true)
    by (unfold occupiesAisle; by rewrite Hst).
  pose proof (inv_cell s HI _ _ Hget Hocc) as Hcell.
  unfold_engine.
  entry s ps HI Hget; try same_layout;
    cbn [Aircraft.seatPassenger Aircraft.removeFromAisle Aircraft.aisle
         Aircraft.seats Aircraft.binCapacity].
  - intros r q Hr Hq. rewrite lookup_insert_ne; [done|].
    intros <-. rewrite Hcell in Hr. congruence.
  - intros key q Hk Hne. rewrite lookup_insert_ne; [done|].
    intros Heq. by apply Hne.
  - intros _. apply lookup_insert_eq.
Qed.

Lemma Inv_processWalking :
  Simulation.state ps = PassengerState.WALKING ->
  Inv (Simulation.processWalking ps s).
Proof.
  intros Hst.
  assert (Hocc : occupiesAisle ps = true)
    by (unfold occupiesAisle; by rewrite Hst).
  pose proof (inv_cell s HI _ _ Hget Hocc) as Hcell.
  pose proof (inv_row s HI _ _ Hget Hocc) as Hrow.
  unfold_engine.
  destruct (Simulation.aisleRow ps =? Passenger.row (Simulation.passenger ps)).
  - destruct (Passenger.carryOnSize (Simulation.passenger ps)) eqn:Hsize.
    + destruct (0 <? length _)%nat; entry s ps HI Hget; try same_layout;
        try (intros _; by split).
    + unfold_engine.
      destruct (Aircraft.hasBinCapacity _ _ _) eqn:Hcap;
        entry s ps HI Hget; try same_layout; try (intros _; by split).
      * intros _ Hcap'. congruence.
      * intros _ _. eexists. split; [apply elem_of_app; right; by left|done].
    + unfold_engine.
      destruct (Aircraft.hasBinCapacity _ _ _) eqn:Hcap;
        entry s ps HI Hget; try same_layout; try (intros _; by split).
      * intros _ Hcap'. congruence.
      * intros _ _. eexists. split; [apply elem_of_app; right; by left|done].
  - destruct (_ && _) eqn:Hfree.
    + apply andb_true_iff in Hfree as [_ Hfree].
      apply negb_true_iff, isAisleOccupied_false in Hfree.
      entry s ps HI Hget; try same_layout;
        cbn [Aircraft.placeInAisle Aircraft.removeFromAisle Aircraft.aisle
             Aircraft.seats Aircraft.binCapacity].
      * intros r q Hr Hq. rewrite !lookup_insert_ne; [done| |].
        -- intros <-. rewrite Hcell in Hr. congruence.
        -- intros <-. rewrite Hfree in Hr. congruence.
      * intros _. split; [apply lookup_insert_eq|lia].
      * intros Hseated. rewrite Hst in Hseated. discriminate.
      * intros Hstow. rewrite Hst in Hstow. discriminate.
    + entry s ps HI Hget; try same_layout.
      * intros _. by split.
      * intros Hseated. rewrite Hst in Hseated. discriminate.
      * intros Hstow. rewrite Hst in Hstow. discriminate.
Qed.

Lemma Inv_processPassengerInAisle_at :
  Inv (Simulation.processPassengerInAisle s
         (Passenger.id (Simulation.passenger ps))).
Proof.
  unfold Simulation.processPassengerInAisle. rewrite Hget.
  destruct (Simulation.state ps) eqn:Hst;
    auto using Inv_processWalking, Inv_processStowing,
      Inv_processShuffling, Inv_processSeating.
Qed.
End Preservation.

Lemma Inv_processPassengerInAisle s k :
  Inv s -> Inv (Simulation.processPassengerInAisle s k).
Proof.
  intros HI.
  destruct (assoc_get k (Simulation.passengerStates s)) as [ps|] eqn:Hget.
  - pose proof (inv_keys s HI _ _ Hget) as Hk. subst k.
    by apply Inv_processPassengerInAisle_at.
  - unfold Simulation.processPassengerInAisle. by rewrite Hget.
Qed.

Lemma Inv_tryAddFromQueue s s' :
  Inv s -> Simulation.tryAddFromQueue s = Some s' -> Inv s'.
Proof.
  intros HI. unfold Simulation.tryAddFromQueue.
  destruct (Simulation.queue s) as [|r rest]; [by intros [= <-]|].
  destruct (Aircraft.isAisleOccupied _ 0) eqn:Hfree; [by intros [= <-]|].
  apply isAisleOccupied_false in Hfree.
  destruct r as [k|]; [|done]. cbn [mbind option_bind].
  destruct (assoc_get k (Simulation.passengerStates s)) as [ps|] eqn:Hget;
    [|done].
  intros [= <-].
  pose proof (inv_keys s HI _ _ Hget) as Hk. subst k.
  unfold_engine.
  entry s ps HI Hget; try same_layout;
    cbn [Aircraft.placeInAisle Aircraft.aisle Aircraft.seats
         Aircraft.binCapacity].
  - intros r q Hr Hq. rewrite lookup_insert_ne; [done|].
    intros <-. rewrite Hfree in Hr. congruence.
  - intros _. split; [apply lookup_insert_eq|lia].
Qed.

Lemma Inv_irrelevant s a cs ic :
  Inv s ->
  Inv (Simulation.mk (Simulation.aircraft s) a cs ic (Simulation.events s)
         (Simulation.passengerStates s) (Simulation.queue s)).
Proof. intros [H1 H2 H3 H4 H5]. by split. Qed.

Lemma Inv_checkCompletion s : Inv s -> Inv (Simulation.checkCompletion s).
Proof.
  intros HI. unfold Simulation.checkCompletion.
  destruct (Simulation.allSeated s); [|done].
  by apply (Inv_irrelevant s).
Qed.

(** ** What the handling of a passenger leaves alone *)

Lemma roster_assoc_set (m : list (nat * Simulation.RunState)) ps ps' :
  assoc_get (Passenger.id (Simulation.passenger ps)) m = Some ps ->
  Simulation.passenger ps' = Simulation.passenger ps ->
  (fun kv : nat * Simulation.RunState => (kv.1, Simulation.passenger kv.2))
    <$> assoc_set (Passenger.id (Simulation.passenger ps)) ps' m
  = (fun kv => (kv.1, Simulation.passenger kv.2)) <$> m.
Proof.
  intros Hget Hp. induction m as [|[k0 v0] m IH]; [done|].
  cbn [assoc_get assoc_set] in *.
  destruct (decide (Passenger.id (Simulation.passenger ps) = k0)) as [<-|Hne].
  - injection Hget as ->. rewrite !fmap_cons. cbn [fst snd]. by rewrite Hp.
  - rewrite !fmap_cons. by rewrite IH.
Qed.

Lemma roster_lookup s k :
  assoc_get k (roster s)
  = Simulation.passenger <$> assoc_get k (Simulation.passengerStates s).
Proof.
  unfold roster. induction (Simulation.passengerStates s) as [|[k0 v0] m IH];
    [done|].
  rewrite fmap_cons. cbn [assoc_get fst snd].
  destruct (decide (k = k0)); [done|apply IH].
Qed.

Lemma roster_keys s : (roster s).*1 = (Simulation.passengerStates s).*1.
Proof.
  unfold roster. rewrite <- list_fmap_compose. by apply list_fmap_ext.
Qed.

#[local] Instance evolves_reflexive : Reflexive evolves.
Proof.
  intros s. repeat split. exists []. by rewrite app_nil_r.
Qed.

#[local] Instance evolves_transitive : Transitive evolves.
Proof.
  intros s1 s2 s3 (A1 & B1 & C1 & D1 & E1 & F1 & evs1 & G1 & H1)
    (A2 & B2 & C2 & D2 & E2 & F2 & evs2 & G2 & H2).
  repeat split; try congruence.
  exists (evs1 ++ evs2). split; [by rewrite G2, G1, app_assoc|].
  apply Forall_app. split; [done|]. by rewrite <- C1.
Qed.

Lemma evolves_entry s ps ps' a' E' :
  assoc_get (Passenger.id (Simulation.passenger ps))
    (Simulation.passengerStates s) = Some ps ->
  Simulation.passenger ps' = Simulation.passenger ps ->
  Aircraft.config a' = Aircraft.config (Simulation.aircraft s) ->
  (exists evs, E' = Simulation.events s ++ evs
     /\ Forall (fun e => Simulation.type e <> EventType.ENTER
                         /\ Simulation.step_of e = Simulation.currentStep s)
               evs) ->
  evolves s
    (Simulation.mk a' (Simulation.originalPassengers s)
       (Simulation.currentStep s) (Simulation.isComplete s) E'
       (assoc_set (Passenger.id (Simulation.passenger ps)) ps'
          (Simulation.passengerStates s))
       (Simulation.queue s)).
Proof.
  intros Hget Hp Hcfg Hev. repeat split; try done.
  unfold roster. cbn [Simulation.passengerStates].
  by apply roster_assoc_set.
Qed.

Ltac logged :=
  first
    [ exists []; split; [by rewrite app_nil_r|constructor]
    | eexists; split; [rewrite <- ?app_assoc; reflexivity|];
      repeat constructor; done ].

Lemma evolves_processPassengerInAisle s k :
  Inv s -> evolves s (Simulation.processPassengerInAisle s k).
Proof.
  intros HI. unfold Simulation.processPassengerInAisle.
  destruct (assoc_get k (Simulation.passengerStates s)) as [ps|] eqn:Hget;
    [|reflexivity].
  pose proof (inv_keys s HI _ _ Hget) as Hk. subst k.
  destruct (Simulation.state ps); try reflexivity; unfold_engine.
  - destruct (_ =? _).
    + destruct (Passenger.carryOnSize _).
      * destruct (0 <? _)%nat; apply (evolves_entry s ps); try done; logged.
      * unfold_engine. destruct (Aircraft.hasBinCapacity _ _ _);
          apply (evolves_entry s ps); try done; logged.
      * unfold_engine. destruct (Aircraft.hasBinCapacity _ _ _);
          apply (evolves_entry s ps); try done; logged.
    + destruct (_ && _); apply (evolves_entry s ps); try done; logged.
  - destruct (_ <=? _).
    + destruct (0 <? _)%nat; unfold_engine; rewrite assoc_set_set;
        apply (evolves_entry s ps); try done;
        try apply useBinCapacity_config; logged.
    + apply (evolves_entry s ps); try done; logged.
  - destruct (_ <=? _); apply (evolves_entry s ps); try done; logged.
  - apply (evolves_entry s ps); try done; logged.
Qed.

Lemma handled_all s ks :
  Inv s ->
  Inv (foldl Simulation.processPassengerInAisle s ks)
  /\ evolves s (foldl Simulation.processPassengerInAisle s ks).
Proof.
  revert s. induction ks as [|k ks IH]; intros s HI; cbn [foldl].
  - split; [done|reflexivity].
  - destruct (IH _ (Inv_processPassengerInAisle s k HI)) as [HI' Hev].
    split; [done|]. etrans; [|exact Hev].
    by apply evolves_processPassengerInAisle.
Qed.

(** ** The start of a run *)

Lemma initial_store_from (passengers : list Passenger.t)
    (m0 : list (nat * Simulation.RunState)) k ps :
  assoc_get k
    (foldl (fun m p => assoc_set (Passenger.id p) (Simulation.initialRunState p) m)
       m0 passengers) = Some ps ->
  assoc_get k m0 = Some ps
  \/ exists p, p ∈ passengers /\ Passenger.id p = k
               /\ ps = Simulation.initialRunState p.
Proof.
  revert m0. induction passengers as [|p passengers IH]; intros m0; cbn [foldl].
  - by left.
  - intros [H|(q & Hq & Hk & Hps)]%IH.
    + rewrite assoc_get_set in H. destruct (decide (k = Passenger.id p)) as [->|].
      * injection H as <-. right. exists p. split; [by left|done].
      * by left.
    + right. exists q. split; [by right|done].
Qed.

Lemma initial_store passengers aircraft orderedIds k ps :
  assoc_get k
    (Simulation.passengerStates
       (Simulation.setBoardingOrder orderedIds
          (Simulation.new passengers aircraft))) = Some ps ->
  exists p, p ∈ passengers /\ Passenger.id p = k
            /\ ps = Simulation.initialRunState p.
Proof.
  cbn. intros [H|H]%initial_store_from; [done|exact H].
Qed.

Lemma initial_store_keys passengers aircraft orderedIds k :
  is_Some (assoc_get k
    (Simulation.passengerStates
       (Simulation.setBoardingOrder orderedIds
          (Simulation.new passengers aircraft))))
  <-> exists p, p ∈ passengers /\ Passenger.id p = k.
Proof.
  split.
  - intros [ps (p & Hp & Hk & _)%initial_store]. eauto.
  - intros (p & Hp & <-). cbn.
    assert (Hgen : forall (l : list Passenger.t) m0,
      is_Some (assoc_get (Passenger.id p) m0) \/ p ∈ l ->
      is_Some (assoc_get (Passenger.id p)
        (foldl (fun m q => assoc_set (Passenger.id q)
                             (Simulation.initialRunState q) m) m0 l))).
    { induction l as [|q l IH]; intros m0 [H|H]; cbn [foldl].
      - done.
      - by apply elem_of_nil in H.
      - apply IH. left. rewrite assoc_get_set. by destruct (decide _).
      - apply elem_of_cons in H as [<-|H].
        + apply IH. left. by rewrite assoc_get_set, decide_True.
        + apply IH. by right. }
    apply Hgen. by right.
Qed.

Lemma initial_store_NoDup (passengers : list Passenger.t)
    (m0 : list (nat * Simulation.RunState)) :
  NoDup m0.*1 ->
  NoDup (foldl (fun m p => assoc_set (Passenger.id p)
                             (Simulation.initialRunState p) m)
           m0 passengers).*1.
Proof.
  revert m0. induction passengers as [|q qs IH]; intros m0 Hm0; cbn [foldl];
    [done|].
  apply IH. by apply assoc_set_NoDup.
Qed.

Lemma Inv_start passengers aircraft orderedIds :
  Inv (Simulation.setBoardingOrder orderedIds
         (Simulation.new passengers aircraft)).
Proof.
  split.
  - intros k ps (p & _ & Hk & ->)%initial_store. done.
  - intros k ps (p & _ & Hk & ->)%initial_store. done.
  - intros k ps (p & _ & Hk & ->)%initial_store. done.
  - intros _ k ps (p & _ & Hk & ->)%initial_store. done.
  - intros k ps (p & _ & Hk & ->)%initial_store. done.
Qed.

Lemma Reachable_Inv s : Reachable s -> Inv s.
Proof.
  induction 1 as [| s _ IH | s k _ IH | s s' _ IH Hadd | s _ IH].
  - apply Inv_start.
  - by apply (Inv_irrelevant s).
  - by apply Inv_processPassengerInAisle.
  - by eapply Inv_tryAddFromQueue.
  - by apply Inv_checkCompletion.
Qed.

(** A tick, phase by phase. *)
Lemma step_phases s s' :
  Simulation.isComplete s = false ->
  Simulation.step s = Some s' ->
  let s1 := Simulation.set_currentStep (Simulation.currentStep s + 1) s in
  let s2 :=
    foldl Simulation.processPassengerInAisle s1
      (Simulation.getAislePassengersSorted s1) in
  exists s3, Simulation.tryAddFromQueue s2 = Some s3
             /\ s' = Simulation.checkCompletion s3.
Proof.
  intros Hc. unfold Simulation.step. rewrite Hc. cbn zeta.
  destruct (Simulation.tryAddFromQueue _) as [s3|]; [|done].
  intros [= <-]. by exists s3.
Qed.

Lemma Reachable_foldl s ks :
  Reachable s -> Reachable (foldl Simulation.processPassengerInAisle s ks).
Proof.
  revert s. induction ks as [|k ks IH]; intros s Hs; cbn [foldl]; [done|].
  apply IH. by constructor.
Qed.

Lemma Reachable_step s s' :
  Reachable s -> Simulation.step s = Some s' -> Reachable s'.
Proof.
  intros Hs Hstep. destruct (Simulation.isComplete s) eqn:Hc.
  - unfold Simulation.step in Hstep. rewrite Hc in Hstep. by injection Hstep as <-.
  - destruct (step_phases s s' Hc Hstep) as (s3 & Hadd & ->).
    apply Reachable_check. eapply Reachable_admit; [|exact Hadd].
    apply Reachable_foldl. by apply Reachable_tick.
Qed.

Lemma Reachable_steps n s s' :
  Reachable s -> Simulation.steps n s = Some s' -> Reachable s'.
Proof.
  revert s. induction n as [|n IH]; intros s Hs; cbn [Simulation.steps].
  - by intros [= <-].
  - destruct (Simulation.step s) as [s1|] eqn:Hstep; [|done].
    cbn. apply IH. by eapply Reachable_step.
Qed.

(** ** Admission *)

Lemma tryAddFromQueue_cases s s' :
  Inv s ->
  Simulation.tryAddFromQueue s = Some s' ->
  (s' = s /\ (Simulation.queue s = []
              \/ Aircraft.isAisleOccupied (Simulation.aircraft s) 0 = true))
  \/ exists k rest ps,
       Simulation.queue s = Some k :: rest
       /\ Aircraft.isAisleOccupied (Simulation.aircraft s) 0 = false
       /\ assoc_get k (Simulation.passengerStates s) = Some ps
       /\ s' = afterAdmission s k ps rest.
Proof.
  intros HI. unfold Simulation.tryAddFromQueue.
  destruct (Simulation.queue s) as [|r rest] eqn:Hq;
    [intros [= <-]; left; by auto|].
  destruct (Aircraft.isAisleOccupied _ 0) eqn:Hfree;
    [intros [= <-]; left; by auto|].
  destruct r as [k|]; [|done]. cbn [mbind option_bind].
  destruct (assoc_get k (Simulation.passengerStates s)) as [ps|] eqn:Hget;
    [|done].
  intros [= <-]. right. exists k, rest, ps.
  repeat split; try done.
  pose proof (inv_keys s HI _ _ Hget) as Hk.
  unfold afterAdmission, admitted, enterEvent. unfold_engine. by rewrite Hk.
Qed.

Lemma roster_afterAdmission s k ps rest :
  Inv s ->
  assoc_get k (Simulation.passengerStates s) = Some ps ->
  roster (afterAdmission s k ps rest) = roster s.
Proof.
  intros HI Hget. pose proof (inv_keys s HI _ _ Hget) as Hk. subst k.
  unfold roster, afterAdmission. cbn [Simulation.passengerStates].
  by apply roster_assoc_set.
Qed.

Lemma roster_tryAddFromQueue s s' :
  Inv s -> Simulation.tryAddFromQueue s = Some s' ->
  roster s' = roster s
  /\ Simulation.originalPassengers s' = Simulation.originalPassengers s.
Proof.
  intros HI Hadd.
  destruct (tryAddFromQueue_cases s s' HI Hadd)
    as [[-> _]|(k & rest & ps & _ & _ & Hget & ->)]; [done|].
  split; [by apply roster_afterAdmission|done].
Qed.

Lemma roster_checkCompletion s :
  roster (Simulation.checkCompletion s) = roster s
  /\ Simulation.originalPassengers (Simulation.checkCompletion s)
     = Simulation.originalPassengers s.
Proof. unfold Simulation.checkCompletion. by destruct (Simulation.allSeated s). Qed.

(** The passengers of the store are passengers of the list handed to the
    constructor. *)
Lemma Reachable_roster s :
  Reachable s ->
  forall k p, (k, p) ∈ roster s ->
    p ∈ Simulation.originalPassengers s /\ Passenger.id p = k.
Proof.
  induction 1 as [passengers aircraft ids| s _ IH | s k Hs IH
                 | s s' Hs IH Hadd | s _ IH].
  - intros k p Hin. unfold roster in Hin.
    apply list_elem_of_fmap in Hin as ([k' ps] & [= -> ->] & Hin).
    cbn [fst snd].
    assert (Hget : assoc_get k'
      (Simulation.passengerStates
         (Simulation.setBoardingOrder ids (Simulation.new passengers aircraft)))
      = Some ps).
    { apply elem_of_assoc_get; [|done]. cbn.
      apply initial_store_NoDup. constructor. }
    apply initial_store in Hget as (q & Hq & Hk & ->). by split.
  - exact IH.
  - pose proof (evolves_processPassengerInAisle s k (Reachable_Inv s Hs))
      as (Ho & _ & _ & _ & _ & Hr & _).
    rewrite Hr, Ho. exact IH.
  - destruct (roster_tryAddFromQueue s s' (Reachable_Inv s Hs) Hadd) as [Hr Ho].
    rewrite Hr, Ho. exact IH.
  - destruct (roster_checkCompletion s) as [Hr Ho]. rewrite Hr, Ho. exact IH.
Qed.

Lemma Reachable_seatsDistinct s :
  Reachable s -> noSharedSeat (Simulation.originalPassengers s) ->
  seatsDistinct s.
Proof.
  intros Hs Hseats k1 k2 ps1 ps2 H1 H2 Hseat.
  assert (Hin : forall k ps,
    assoc_get k (Simulation.passengerStates s) = Some ps ->
    (k, Simulation.passenger ps) ∈ roster s).
  { intros k ps Hget%assoc_get_elem_of. unfold roster.
    apply list_elem_of_fmap. by exists (k, ps). }
  destruct (Reachable_roster s Hs _ _ (Hin _ _ H1)) as [Hp1 <-].
  destruct (Reachable_roster s Hs _ _ (Hin _ _ H2)) as [Hp2 <-].
  by apply Hseats.
Qed.

Lemma originalPassengers_steps n s s' :
  Reachable s -> Simulation.steps n s = Some s' ->
  Simulation.originalPassengers s' = Simulation.originalPassengers s.
Proof.
  revert s. induction n as [|n IH]; intros s Hs; cbn [Simulation.steps].
  - by intros [= <-].
  - destruct (Simulation.step s) as [s1|] eqn:Hstep; [|done]. cbn.
    intros H. rewrite (IH s1 (Reachable_step s s1 Hs Hstep) H).
    destruct (Simulation.isComplete s) eqn:Hc.
    + unfold Simulation.step in Hstep. rewrite Hc in Hstep. by injection Hstep as <-.
    + destruct (step_phases s s1 Hc Hstep) as (s3 & Hadd & ->).
      destruct (roster_checkCompletion s3) as [_ ->].
      set (s0 := Simulation.set_currentStep (Simulation.currentStep s + 1) s)
        in *.
      assert (H0 : Reachable s0) by by apply Reachable_tick.
      destruct (handled_all s0 (Simulation.getAislePassengersSorted s0)
                  (Reachable_Inv _ H0)) as [HI2 (Ho & _)].
      destruct (roster_tryAddFromQueue _ _ HI2 Hadd) as [_ ->]. by rewrite Ho.
Qed.

(** C5: in every state a run goes through, tick after tick, two run-states
    that stand in the aisle never name the same aisle cell, and the cell a
    run-state names holds its passenger; when no two passengers were
    assigned the same seat, two SEATED run-states never name the same seat
    and the seat a SEATED run-state names holds its passenger. *)
Theorem occupancy_invariant
    (passengers : list Passenger.t) (aircraft : Aircraft.t)
    (orderedIds : list nat) (n : nat) (s : Simulation.t) :
  Simulation.steps n
    (Simulation.setBoardingOrder orderedIds (Simulation.new passengers aircraft))
  = Some s ->
  (forall k1 k2 ps1 ps2,
     assoc_get k1 (Simulation.passengerStates s) = Some ps1 ->
     assoc_get k2 (Simulation.passengerStates s) = Some ps2 ->
     occupiesAisle ps1 = true -> occupiesAisle ps2 = true ->
     Simulation.aisleRow ps1 = Simulation.aisleRow ps2 -> k1 = k2)
  /\ (forall k ps,
        assoc_get k (Simulation.passengerStates s) = Some ps ->
        occupiesAisle ps = true ->
        Aircraft.getPassengerInAisle (Simulation.aircraft s)
          (Simulation.aisleRow ps) = Some (Some (Simulation.passenger ps)))
  /\ (noSharedSeat passengers ->
      (forall k1 k2 ps1 ps2,
         assoc_get k1 (Simulation.passengerStates s) = Some ps1 ->
         assoc_get k2 (Simulation.passengerStates s) = Some ps2 ->
         Simulation.state ps1 = PassengerState.SEATED ->
         Simulation.state ps2 = PassengerState.SEATED ->
         Passenger.seat (Simulation.passenger ps1)
         = Passenger.seat (Simulation.passenger ps2) -> k1 = k2)
      /\ (forall k ps,
            assoc_get k (Simulation.passengerStates s) = Some ps ->
            Simulation.state ps = PassengerState.SEATED ->
            Aircraft.getPassengerInSeat (Simulation.aircraft s)
              (Passenger.row (Simulation.passenger ps))
              (Passenger.column (Simulation.passenger ps))
            = Some (Some (Simulation.passenger ps)))).
Proof.
  intros Hsteps.
  assert (Hr : Reachable s)
    by (eapply Reachable_steps; [apply Reachable_start|exact Hsteps]).
  pose proof (Reachable_Inv s Hr) as HI.
  split; [|split].
  - intros k1 k2 ps1 ps2 H1 H2 O1 O2 Hrow.
    pose proof (inv_cell s HI _ _ H1 O1) as C1.
    pose proof (inv_cell s HI _ _ H2 O2) as C2.
    rewrite Hrow, C2 in C1. injection C1 as C1.
    rewrite <- (inv_keys s HI _ _ H1), <- (inv_keys s HI _ _ H2). by rewrite C1.
  - intros k ps Hget Hocc. by apply (inv_cell s HI k).
  - intros Hseats.
    assert (Hd : seatsDistinct s).
    { apply Reachable_seatsDistinct; [done|].
      rewrite (originalPassengers_steps n _ s (Reachable_start _ _ _) Hsteps).
      exact Hseats. }
    split.
    + intros k1 k2 ps1 ps2 H1 H2 _ _ Hseat. by apply (Hd k1 k2 ps1 ps2).
    + intros k ps Hget Hst. by apply (inv_seat s HI Hd k).
Qed.

Lemma occupancy_invariant_witness :
  exists s,
    Simulation.steps 3 Scenario.initial = Some s
    /\ forall k1 k2 ps1 ps2,
         assoc_get k1 (Simulation.passengerStates s) = Some ps1 ->
         assoc_get k2 (Simulation.passengerStates s) = Some ps2 ->
         occupiesAisle ps1 = true -> occupiesAisle ps2 = true ->
         Simulation.aisleRow ps1 = Simulation.aisleRow ps2 -> k1 = k2.
Proof.
  eexists. split; [vm_compute; reflexivity|].
  eapply (occupancy_invariant [Scenario.P1; Scenario.P2]
            (Aircraft.new Scenario.layout) [1; 2]%nat 3).
  vm_compute. reflexivity.
Defined.

(** ** The order of a tick *)

Lemma Reachable_NoDup_keys s :
  Reachable s -> NoDup (Simulation.passengerStates s).*1.
Proof.
  induction 1 as [passengers aircraft ids| s _ IH | s k Hs IH
                 | s s' Hs IH Hadd | s _ IH].
  - cbn. apply initial_store_NoDup. constructor.
  - exact IH.
  - pose proof (evolves_processPassengerInAisle s k (Reachable_Inv s Hs))
      as (_ & _ & _ & _ & _ & Hr & _).
    by rewrite <- roster_keys, Hr, roster_keys.
  - destruct (roster_tryAddFromQueue s s' (Reachable_Inv s Hs) Hadd) as [Hr _].
    by rewrite <- roster_keys, Hr, roster_keys.
  - destruct (roster_checkCompletion s) as [Hr _].
    by rewrite <- roster_keys, Hr, roster_keys.
Qed.

Lemma list_filter_ext_in {A} (P Q : A -> Prop)
    `{!forall x, Decision (P x)} `{!forall x, Decision (Q x)} (l : list A) :
  (forall x, x ∈ l -> P x <-> Q x) -> filter P l = filter Q l.
Proof.
  induction l as [|x l IH]; intros Hext; [done|].
  rewrite !filter_cons.
  assert (Hx : P x <-> Q x) by (apply Hext; by left).
  rewrite IH by (intros y Hy; apply Hext; by right).
  destruct (decide (P x)), (decide (Q x)); tauto || done.
Qed.

Lemma Reachable_lookup s k ps :
  Reachable s -> (k, ps) ∈ Simulation.passengerStates s ->
  assoc_get k (Simulation.passengerStates s) = Some ps.
Proof. intros Hs. apply elem_of_assoc_get. by apply Reachable_NoDup_keys. Qed.

Lemma inAisle_occupiesAisle s :
  Reachable s ->
  filter (fun kv : nat * Simulation.RunState => Simulation.inAisle kv.2 = true)
    (Simulation.passengerStates s)
  = filter (fun kv => occupiesAisle kv.2 = true) (Simulation.passengerStates s).
Proof.
  intros Hs. apply list_filter_ext_in. intros [k ps] Hin. cbn [snd].
  pose proof (inv_row s (Reachable_Inv s Hs) k ps (Reachable_lookup s k ps Hs Hin))
    as Hrow.
  unfold Simulation.inAisle, occupiesAisle in *.
  destruct (Simulation.state ps); cbn; try done.
  all: split; [done|]; intros _; by apply Z.leb_le, Hrow.
Qed.

(** Entries of a store with distinct keys whose values are pairwise
    related. *)
Lemma pairwise_of_distinct_keys {V} (P : V -> V -> Prop) (l : list (nat * V)) :
  NoDup l.*1 ->
  (forall k1 k2 v1 v2, (k1, v1) ∈ l -> (k2, v2) ∈ l -> k1 <> k2 -> P v1 v2) ->
  StronglySorted (fun x y => P x.2 y.2) l.
Proof.
  induction l as [|[k v] l IH]; intros Hnd HP; [constructor|].
  rewrite fmap_cons in Hnd. apply NoDup_cons in Hnd as [Hk Hnd].
  constructor.
  - apply IH; [done|]. intros k1 k2 v1 v2 H1 H2. apply HP; by right.
  - apply Forall_forall. intros [k' v'] Hin. cbn [snd].
    apply (HP k k'); [by left|by right|].
    intros ->. apply Hk. apply list_elem_of_fmap. by exists (k', v').
Qed.

Lemma sublist_NoDup_keys {V} (l l' : list (nat * V)) :
  l' `sublist_of` l -> NoDup l.*1 -> NoDup l'.*1.
Proof.
  intros Hsub Hnd. eapply sublist_NoDup; [exact Hnd|by apply fmap_sublist].
Qed.

Lemma aisle_sorted_strictly s :
  Reachable s ->
  StronglySorted
    (fun a b : nat * Simulation.RunState =>
       Simulation.aisleRow b.2 < Simulation.aisleRow a.2)
    (array_sort
       (fun a b => 0 <? Simulation.aisleRow b.2 - Simulation.aisleRow a.2)
       (filter (fun kv => occupiesAisle kv.2 = true)
          (Simulation.passengerStates s))).
Proof.
  intros Hs. pose proof (Reachable_Inv s Hs) as HI.
  apply array_sort_sorted.
  { intros a b c. lia. }
  eapply StronglySorted_mono;
    [|apply (pairwise_of_distinct_keys
               (fun v1 v2 => Simulation.aisleRow v1 <> Simulation.aisleRow v2))].
  - intros [k1 v1] [k2 v2]. cbn [snd]. intros Hne.
    destruct (0 <? _) eqn:E; [apply Z.ltb_lt in E|apply Z.ltb_ge in E]; lia.
  - eapply sublist_NoDup_keys; [apply sublist_filter|].
    by apply Reachable_NoDup_keys.
  - intros k1 k2 v1 v2 [O1 H1]%list_elem_of_filter [O2 H2]%list_elem_of_filter
      Hne Hrow. cbn [snd] in *.
    apply Reachable_lookup in H1, H2; [|done..].
    pose proof (inv_cell s HI _ _ H1 O1) as C1.
    pose proof (inv_cell s HI _ _ H2 O2) as C2.
    rewrite Hrow, C2 in C1. injection C1 as C1.
    apply Hne.
    rewrite <- (inv_keys s HI _ _ H1), <- (inv_keys s HI _ _ H2). by rewrite C1.
Qed.

Lemma no_enter_count (evs : list Simulation.Event) (cs : Z) :
  Forall (fun e => Simulation.type e <> EventType.ENTER
                   /\ Simulation.step_of e = cs) evs ->
  filter (fun e => Simulation.type e = EventType.ENTER) evs = [].
Proof.
  induction 1 as [|e evs [He _] _ IH]; [done|].
  by rewrite filter_cons, decide_False.
Qed.

Lemma is_Some_roster s s' k :
  roster s' = roster s ->
  is_Some (assoc_get k (Simulation.passengerStates s)) ->
  is_Some (assoc_get k (Simulation.passengerStates s')).
Proof.
  intros Hr [ps Hps].
  assert (H1 : assoc_get k (roster s) = Some (Simulation.passenger ps))
    by (by rewrite roster_lookup, Hps).
  rewrite <- Hr, roster_lookup in H1.
  by destruct (assoc_get k (Simulation.passengerStates s')).
Qed.

Lemma oneCellAhead_refl k m : oneCellAhead k m m.
Proof. intros k' ps Hget. exists ps. repeat split; [done|lia]. Qed.

Lemma oneCellAhead_set m ps ps' :
  assoc_get (Passenger.id (Simulation.passenger ps)) m = Some ps ->
  Simulation.aisleRow ps' <= Simulation.aisleRow ps + 1 ->
  oneCellAhead (Passenger.id (Simulation.passenger ps)) m
    (assoc_set (Passenger.id (Simulation.passenger ps)) ps' m).
Proof.
  intros Hget Hrow k' ps0 H0. rewrite assoc_get_set.
  destruct (decide (k' = Passenger.id (Simulation.passenger ps))) as [->|Hne].
  - exists ps'. rewrite Hget in H0. injection H0 as <-. by repeat split.
  - exists ps0. repeat split; [done|lia].
Qed.

Lemma processPassengerInAisle_oneCellAhead s k :
  Inv s ->
  oneCellAhead k (Simulation.passengerStates s)
    (Simulation.passengerStates (Simulation.processPassengerInAisle s k)).
Proof.
  intros HI. unfold Simulation.processPassengerInAisle.
  destruct (assoc_get k (Simulation.passengerStates s)) as [ps|] eqn:Hget;
    [|apply oneCellAhead_refl].
  pose proof (inv_keys s HI _ _ Hget) as Hk. subst k.
  destruct (Simulation.state ps); try apply oneCellAhead_refl; unfold_engine.
  - destruct (_ =? _).
    + destruct (Passenger.carryOnSize _).
      * destruct (0 <? _)%nat; apply oneCellAhead_set; cbn; (done || lia).
      * unfold_engine. destruct (Aircraft.hasBinCapacity _ _ _);
          apply oneCellAhead_set; cbn; (done || lia).
      * unfold_engine. destruct (Aircraft.hasBinCapacity _ _ _);
          apply oneCellAhead_set; cbn; (done || lia).
    + destruct (_ && _); apply oneCellAhead_set; cbn; (done || lia).
  - destruct (_ <=? _).
    + destruct (0 <? _)%nat; unfold_engine; rewrite assoc_set_set;
        apply oneCellAhead_set; cbn; (done || lia).
    + apply oneCellAhead_set; cbn; (done || lia).
  - destruct (_ <=? _); apply oneCellAhead_set; cbn; (done || lia).
  - apply oneCellAhead_set; cbn; (done || lia).
Qed.

(** The queue holds run-states that are WAITING, as long as the boarding
    order names no passenger twice. *)
Lemma processPassengerInAisle_waiting s k ps :
  assoc_get k (Simulation.passengerStates s) = Some ps ->
  Simulation.state ps = PassengerState.WAITING ->
  Simulation.processPassengerInAisle s k = s.
Proof.
  intros Hget Hst. unfold Simulation.processPassengerInAisle.
  by rewrite Hget, Hst.
Qed.

Lemma queueWaiting_processPassengerInAisle s k :
  Inv s -> queueWaiting s ->
  queueWaiting (Simulation.processPassengerInAisle s k).
Proof.
  intros HI [Hnd Hwait].
  destruct (evolves_processPassengerInAisle s k HI)
    as (_ & Hq & _ & _ & _ & Hr & _).
  split; [by rewrite Hq|]. rewrite Hq. intros k0 ps0' Hin Hget'.
  assert (Hsome : is_Some (assoc_get k0 (Simulation.passengerStates s))).
  { apply (is_Some_roster (Simulation.processPassengerInAisle s k) s);
      [done|by rewrite Hget']. }
  destruct Hsome as [ps0 Hget0].
  destruct (decide (k0 = k)) as [->|Hne].
  - rewrite (processPassengerInAisle_waiting s k ps0 Hget0 (Hwait _ _ Hin Hget0))
      in Hget'.
    rewrite Hget0 in Hget'. injection Hget' as <-. by apply (Hwait k).
  - destruct (processPassengerInAisle_oneCellAhead s k HI k0 ps0 Hget0)
      as (ps1 & Hget1 & Hsame & _).
    rewrite Hget' in Hget1. injection Hget1 as <-.
    rewrite (Hsame Hne). by apply (Hwait k0).
Qed.

Lemma queueWaiting_handling ks s :
  Inv s -> queueWaiting s ->
  queueWaiting (foldl Simulation.processPassengerInAisle s ks).
Proof.
  revert s. induction ks as [|k ks IH]; intros s HI Hq; cbn [foldl]; [done|].
  apply IH; [by apply Inv_processPassengerInAisle|].
  by apply queueWaiting_processPassengerInAisle.
Qed.

Lemma queueWaiting_afterAdmission s k ps rest :
  queueWaiting s -> Simulation.queue s = Some k :: rest ->
  queueWaiting (afterAdmission s k ps rest).
Proof.
  intros [Hnd Hwait] Hq. rewrite Hq in Hnd, Hwait.
  cbn [omap list_omap] in Hnd. change (id (Some k)) with (Some k) in Hnd.
  cbn beta iota in Hnd. apply NoDup_cons in Hnd as [Hk Hnd].
  split; [exact Hnd|].
  unfold afterAdmission. cbn [Simulation.queue Simulation.passengerStates].
  intros k' ps' Hin. rewrite assoc_get_set.
  destruct (decide (k' = k)) as [->|Hne].
  - destruct Hk. apply list_elem_of_omap. by exists (Some k).
  - intros Hget. apply (Hwait k'); [by right|done].
Qed.

Lemma queueWaiting_step s s' :
  Reachable s -> queueWaiting s -> Simulation.step s = Some s' -> queueWaiting s'.
Proof.
  intros Hs Hq Hstep. destruct (Simulation.isComplete s) eqn:Hc.
  - unfold Simulation.step in Hstep. rewrite Hc in Hstep. by injection Hstep as <-.
  - destruct (step_phases s s' Hc Hstep) as (s3 & Hadd & ->).
    set (s1 := Simulation.set_currentStep (Simulation.currentStep s + 1) s) in *.
    assert (Hs1 : Reachable s1) by by apply Reachable_tick.
    destruct (handled_all s1 (Simulation.getAislePassengersSorted s1)
                (Reachable_Inv s1 Hs1)) as [HI2 _].
    assert (Hq2 : queueWaiting
                    (foldl Simulation.processPassengerInAisle s1
                       (Simulation.getAislePassengersSorted s1)))
      by (apply queueWaiting_handling; [by apply Reachable_Inv|exact Hq]).
    assert (Hcheck : forall x, queueWaiting x ->
                               queueWaiting (Simulation.checkCompletion x)).
    { intros x. unfold Simulation.checkCompletion.
      by destruct (Simulation.allSeated x). }
    apply Hcheck.
    destruct (tryAddFromQueue_cases _ s3 HI2 Hadd)
      as [[-> _]|(k & rest & ps & Hhead & _ & _ & ->)]; [done|].
    by apply queueWaiting_afterAdmission.
Qed.

Lemma queueWaiting_start passengers aircraft orderedIds :
  NoDup orderedIds ->
  queueWaiting (Simulation.setBoardingOrder orderedIds
                  (Simulation.new passengers aircraft)).
Proof.
  intros Hnd. split.
  - change (Simulation.queue (Simulation.setBoardingOrder orderedIds
                                (Simulation.new passengers aircraft)))
      with ((fun id => match assoc_get id (Simulation.passengerStates
                                             (Simulation.new passengers aircraft)) with
                       | Some _ => Some id
                       | None => None
                       end) <$> orderedIds).
    eapply sublist_NoDup; [exact Hnd|].
    clear Hnd. induction orderedIds as [|id ids IH]; [done|].
    rewrite fmap_cons. cbn [omap list_omap].
    destruct (assoc_get id _); cbn; [by apply sublist_skip|by apply sublist_cons].
  - intros k ps _ (p & _ & _ & ->)%initial_store. done.
Qed.

Lemma queueWaiting_steps n s s' :
  Reachable s -> queueWaiting s -> Simulation.steps n s = Some s' ->
  queueWaiting s'.
Proof.
  revert s. induction n as [|n IH]; intros s Hs Hq; cbn [Simulation.steps].
  - by intros [= <-].
  - destruct (Simulation.step s) as [s1|] eqn:Hstep; [|done]. cbn.
    apply IH; [by eapply Reachable_step|by eapply queueWaiting_step].
Qed.

(** C2: a tick that runs first handles the run-states standing in the
    aisle (WALKING, STOWING, SHUFFLING, SEATING), all of them and in
    strictly descending order of aisle cell; the queue is untouched
    meanwhile.  Then the head of the queue, a WAITING run-state when the
    boarding order names nobody twice, is admitted into cell 0 if and only
    if the queue is not empty and cell 0 is free at that moment.  The log
    of the tick holds at most one ENTER event. *)
Theorem tick_handles_aisle_then_admits
    (passengers : list Passenger.t) (aircraft : Aircraft.t)
    (orderedIds : list nat) (n : nat) (s s' : Simulation.t) :
  Simulation.steps n
    (Simulation.setBoardingOrder orderedIds (Simulation.new passengers aircraft))
  = Some s ->
  Simulation.isComplete s = false ->
  Simulation.step s = Some s' ->
  exists handled : list (nat * Simulation.RunState),
    handled ≡ₚ filter (fun kv => occupiesAisle kv.2 = true)
                 (Simulation.passengerStates s)
    /\ StronglySorted
         (fun a b => Simulation.aisleRow b.2 < Simulation.aisleRow a.2) handled
    /\ let s2 :=
         foldl Simulation.processPassengerInAisle
           (Simulation.set_currentStep (Simulation.currentStep s + 1) s)
           handled.*1 in
       Simulation.queue s2 = Simulation.queue s
       /\ ((exists k rest ps,
              Simulation.queue s = Some k :: rest
              /\ Aircraft.isAisleOccupied (Simulation.aircraft s2) 0 = false
              /\ assoc_get k (Simulation.passengerStates s2) = Some ps
              /\ (NoDup orderedIds ->
                  Simulation.state ps = PassengerState.WAITING)
              /\ s' = Simulation.checkCompletion (afterAdmission s2 k ps rest))
           \/ ((Simulation.queue s = []
                \/ Aircraft.isAisleOccupied (Simulation.aircraft s2) 0 = true)
               /\ s' = Simulation.checkCompletion s2))
       /\ exists evs,
            Simulation.events s' = Simulation.events s ++ evs
            /\ (length (filter (fun e => Simulation.type e = EventType.ENTER) evs)
                <= 1)%nat.
Proof.
  intros Hsteps Hc Hstep.
  assert (Hs : Reachable s)
    by (eapply Reachable_steps; [apply Reachable_start|exact Hsteps]).
  set (s1 := Simulation.set_currentStep (Simulation.currentStep s + 1) s).
  assert (Hs1 : Reachable s1) by by apply Reachable_tick.
  exists (array_sort
            (fun a b => 0 <? Simulation.aisleRow b.2 - Simulation.aisleRow a.2)
            (filter (fun kv => occupiesAisle kv.2 = true)
               (Simulation.passengerStates s))).
  split; [apply array_sort_perm|].
  split; [by apply aisle_sorted_strictly|].
  destruct (step_phases s s' Hc Hstep) as (s3 & Hadd & ->).
  fold s1 in Hadd. unfold Simulation.getAislePassengersSorted in Hadd.
  rewrite (inAisle_occupiesAisle s1 Hs1) in Hadd.
  change (Simulation.passengerStates s1) with (Simulation.passengerStates s)
    in Hadd.
  set (s2 := foldl Simulation.processPassengerInAisle s1 _) in *.
  destruct (handled_all s1
              (array_sort
                 (fun a b => 0 <? Simulation.aisleRow b.2 - Simulation.aisleRow a.2)
                 (filter (fun kv => occupiesAisle kv.2 = true)
                    (Simulation.passengerStates s))).*1
              (Reachable_Inv s1 Hs1))
    as [HI2 (_ & Hq & Hcs & _ & _ & _ & evs & Hev & Hno)].
  fold s2 in HI2, Hq, Hcs, Hev. cbn zeta.
  change (Simulation.queue s1) with (Simulation.queue s) in Hq.
  change (Simulation.events s1) with (Simulation.events s) in Hev.
  split; [exact Hq|].
  destruct (tryAddFromQueue_cases s2 s3 HI2 Hadd)
    as [[-> Hwhy]|(k & rest & ps & Hhead & Hfree & Hget & ->)].
  - split.
    + right. split; [|done]. by rewrite <- Hq.
    + exists evs. split.
      * unfold Simulation.checkCompletion.
        by destruct (Simulation.allSeated s2).
      * rewrite (no_enter_count _ _ Hno). cbn. lia.
  - split.
    + left. exists k, rest, ps. rewrite <- Hq.
      repeat split; try done. intros Hnd.
      assert (Hw : queueWaiting s2).
      { apply queueWaiting_handling; [by apply Reachable_Inv|].
        apply (queueWaiting_steps n _ s (Reachable_start _ _ _)
                 (queueWaiting_start passengers aircraft orderedIds Hnd) Hsteps). }
      apply (proj2 Hw k); [rewrite Hhead; by left|done].
    + exists (evs ++ [enterEvent (Simulation.currentStep s2)
                        (Simulation.passenger ps)]).
      split.
      * unfold Simulation.checkCompletion.
        destruct (Simulation.allSeated _); cbn; by rewrite Hev, app_assoc.
      * rewrite filter_app, (no_enter_count _ _ Hno). cbn [app].
        etrans; [apply length_filter|by cbn].
Qed.

Lemma tick_handles_aisle_then_admits_witness :
  exists handled,
    handled ≡ₚ filter (fun kv => occupiesAisle kv.2 = true)
                 (Simulation.passengerStates (Scenario.tick 1))
    /\ StronglySorted
         (fun a b => Simulation.aisleRow b.2 < Simulation.aisleRow a.2) handled.
Proof.
  assert (H1 : Simulation.steps 1 Scenario.initial = Some (Scenario.tick 1))
    by (vm_compute; reflexivity).
  assert (Hc : Simulation.isComplete (Scenario.tick 1) = false)
    by (vm_compute; reflexivity).
  assert (H2 : Simulation.step (Scenario.tick 1) = Some (Scenario.tick 2))
    by (vm_compute; reflexivity).
  pose proof (tick_handles_aisle_then_admits [Scenario.P1; Scenario.P2]
                (Aircraft.new Scenario.layout) [1; 2]%nat 1
                (Scenario.tick 1) (Scenario.tick 2) H1 Hc H2) as T.
  destruct T as (handled & Hperm & Hsorted & _).
  exists handled. split; [exact Hperm|exact Hsorted].
Defined.

(** ** Stowing and the bins *)

Lemma useBinCapacity_fst row size a :
  (Aircraft.useBinCapacity row size a).1 = Aircraft.hasBinCapacity a row size.
Proof.
  unfold Aircraft.useBinCapacity, Aircraft.hasBinCapacity.
  destruct size; [done| |];
    (destruct (Aircraft.binCapacity a !! row); [|done]);
    by destruct (_ <=? _).
Qed.

Lemma useBinCapacity_insufficient row size a :
  Aircraft.hasBinCapacity a row size = false ->
  Aircraft.useBinCapacity row size a = (false, a).
Proof.
  unfold Aircraft.useBinCapacity, Aircraft.hasBinCapacity.
  destruct size; [done| |];
    (destruct (Aircraft.binCapacity a !! row); [|done]); by intros ->.
Qed.

Lemma getBlockingSeats_ext a a' row column :
  Aircraft.seats a' = Aircraft.seats a ->
  Aircraft.config a' = Aircraft.config a ->
  Aircraft.getBlockingSeats a' row column = Aircraft.getBlockingSeats a row column.
Proof.
  intros Hs Hc. unfold Aircraft.getBlockingSeats, Aircraft.aislePosition.
  rewrite Hc. apply list_filter_iff. intros col.
  unfold Aircraft.isSeatOccupied. by rewrite Hs.
Qed.

(** The end of the stowing, read on [_processStowing]: the layout is the
    one [useBinCapacity] leaves, STOW_END is logged and the run-state goes
    on to SEATING or SHUFFLING, whatever [useBinCapacity] answered. *)
Lemma processStowing_done
    (s : Simulation.t) (ps : Simulation.RunState) :
  Reachable s ->
  assoc_get (Passenger.id (Simulation.passenger ps))
    (Simulation.passengerStates s) = Some ps ->
  Simulation.state ps = PassengerState.STOWING ->
  Simulation.stowRemaining ps - 1 <= 0 ->
  let p := Simulation.passenger ps in
  let row := Simulation.aisleRow ps in
  let s' := Simulation.processPassengerInAisle s (Passenger.id p) in
  let used :=
    Aircraft.useBinCapacity row (Passenger.carryOnSize p) (Simulation.aircraft s) in
  Simulation.aircraft s' = used.2
  /\ (exists ps',
        assoc_get (Passenger.id p) (Simulation.passengerStates s') = Some ps'
        /\ Simulation.state ps'
           = match Aircraft.getBlockingSeats (Simulation.aircraft s)
                     (Passenger.row p) (Passenger.column p) with
             | [] => PassengerState.SEATING
             | _ :: _ => PassengerState.SHUFFLING
             end)
  /\ (exists e, e ∈ Simulation.events s'
                /\ Simulation.type e = EventType.STOW_END
                /\ Simulation.passengerId e = Passenger.id p)
  /\ (used.1 = false ->
      used.2 = Simulation.aircraft s
      /\ binFullLogged (Passenger.id p) row (Simulation.events s)
      /\ binFullLogged (Passenger.id p) row (Simulation.events s')).
Proof.
  intros Hs Hget Hst Hrem. cbv zeta.
  pose proof (Reachable_Inv s Hs) as HI.
  assert (Hfull :
    (Aircraft.useBinCapacity (Simulation.aisleRow ps)
       (Passenger.carryOnSize (Simulation.passenger ps))
       (Simulation.aircraft s)).1 = false ->
    binFullLogged (Passenger.id (Simulation.passenger ps))
      (Simulation.aisleRow ps) (Simulation.events s)).
  { rewrite useBinCapacity_fst. intros Hcap. by apply (inv_binfull s HI _ ps). }
  assert (Hsame :
    (Aircraft.useBinCapacity (Simulation.aisleRow ps)
       (Passenger.carryOnSize (Simulation.passenger ps))
       (Simulation.aircraft s)).1 = false ->
    (Aircraft.useBinCapacity (Simulation.aisleRow ps)
       (Passenger.carryOnSize (Simulation.passenger ps))
       (Simulation.aircraft s)).2 = Simulation.aircraft s).
  { rewrite useBinCapacity_fst. intros Hcap.
    by rewrite (useBinCapacity_insufficient _ _ _ Hcap). }
  apply Z.leb_le in Hrem.
  unfold Simulation.processPassengerInAisle. rewrite Hget, Hst.
  unfold_engine. rewrite Hrem.
  rewrite (getBlockingSeats_ext (Simulation.aircraft s)
             (Aircraft.useBinCapacity (Simulation.aisleRow ps)
                (Passenger.carryOnSize (Simulation.passenger ps))
                (Simulation.aircraft s)).2)
    by (apply useBinCapacity_seats || apply useBinCapacity_config).
  remember (Aircraft.getBlockingSeats (Simulation.aircraft s)
              (Passenger.row (Simulation.passenger ps))
              (Passenger.column (Simulation.passenger ps))) as blocking eqn:Hb.
  destruct blocking as [|c cs]; cbn [length Nat.ltb Nat.leb]; unfold_engine;
    rewrite assoc_set_set, assoc_get_set, decide_True by done.
  - split; [done|]. split; [by eexists|]. split.
    { eexists. split; [apply elem_of_app; right; by left|done]. }
    intros Hfalse. split; [by apply Hsame|]. split; [by apply Hfull|].
    eapply binFullLogged_mono; [|by apply Hfull]. grows.
  - split; [done|]. split; [by eexists|]. split.
    { eexists. split;
        [apply elem_of_app; left; apply elem_of_app; right; by left|done]. }
    intros Hfalse. split; [by apply Hsame|]. split; [by apply Hfull|].
    eapply binFullLogged_mono; [|by apply Hfull]. grows.
Qed.

(** *** Where stowing happens *)

Lemma stowsAtItsRow_set (m : list (nat * Simulation.RunState)) k v :
  stowsAtItsRow m ->
  (Simulation.state v = PassengerState.STOWING ->
   Simulation.aisleRow v = Passenger.row (Simulation.passenger v)
   /\ Passenger.carryOnSize (Simulation.passenger v) <> CarryOnSize.NONE) ->
  stowsAtItsRow (assoc_set k v m).
Proof.
  intros Hm Hv k' ps'. rewrite assoc_get_set.
  destruct (decide (k' = k)) as [->|]; [|apply Hm].
  intros [= <-]. exact Hv.
Qed.

Ltac stows_set :=
  repeat (apply stowsAtItsRow_set;
          cbn [Simulation.passenger Simulation.state Simulation.aisleRow]);
  try done; try (intros; discriminate).

Lemma stowsAtItsRow_processPassengerInAisle s k :
  stowsAtItsRow (Simulation.passengerStates s) ->
  stowsAtItsRow
    (Simulation.passengerStates (Simulation.processPassengerInAisle s k)).
Proof.
  intros Hm. unfold Simulation.processPassengerInAisle.
  destruct (assoc_get k (Simulation.passengerStates s)) as [ps|] eqn:Hget;
    [|done].
  destruct (Simulation.state ps) eqn:Hst; [done| | | | |done].
  - unfold_engine.
    destruct (Simulation.aisleRow ps =? Passenger.row (Simulation.passenger ps))
      eqn:Hrow.
    + apply Z.eqb_eq in Hrow.
      destruct (Passenger.carryOnSize (Simulation.passenger ps)) eqn:Hsize.
      * destruct (0 <? length _)%nat; unfold_engine; stows_set.
      * unfold_engine. destruct (Aircraft.hasBinCapacity _ _ _); unfold_engine;
          stows_set; intros _; by rewrite Hsize.
      * unfold_engine. destruct (Aircraft.hasBinCapacity _ _ _); unfold_engine;
          stows_set; intros _; by rewrite Hsize.
    + destruct (_ && _); unfold_engine; stows_set;
        intros Hstow; rewrite Hst in Hstow; discriminate.
  - unfold_engine. destruct (Simulation.stowRemaining ps - 1 <=? 0).
    + destruct (0 <? length _)%nat; unfold_engine; stows_set.
      all: intros _; by apply (Hm k).
    + stows_set. intros _. by apply (Hm k).
  - unfold_engine. destruct (Simulation.shuffleRemaining ps - 1 <=? 0);
      unfold_engine; stows_set.
    intros Hstow. rewrite Hst in Hstow. discriminate.
  - unfold_engine. stows_set.
Qed.

Lemma Reachable_stowsAtItsRow s :
  Reachable s -> stowsAtItsRow (Simulation.passengerStates s).
Proof.
  induction 1 as [| s _ IH | s k _ IH | s s' _ IH Hadd | s _ IH].
  - intros k ps (p & _ & _ & ->)%initial_store. done.
  - exact IH.
  - by apply stowsAtItsRow_processPassengerInAisle.
  - unfold Simulation.tryAddFromQueue in Hadd.
    destruct (Simulation.queue s) as [|r rest]; [by injection Hadd as <-|].
    destruct (Aircraft.isAisleOccupied _ 0); [by injection Hadd as <-|].
    destruct r as [k|]; [|done]. cbn [mbind option_bind] in Hadd.
    destruct (assoc_get k (Simulation.passengerStates s)) as [ps|]; [|done].
    injection Hadd as <-. unfold_engine. stows_set.
  - unfold Simulation.checkCompletion. by destruct (Simulation.allSeated s).
Qed.

(** C7: when the handling of a STOWING run-state brings its remaining
    ticks to zero, the bin of its row is charged if it can be and left as
    it is otherwise; in both cases a STOW_END event is logged and the
    run-state leaves STOWING: for SEATING when no occupied seat lies
    between the aisle and its seat, for SHUFFLING otherwise.  When the
    capacity was missing, the log already holds a BIN_FULL event of that
    passenger at that row.  The row is the passenger's own and the
    passenger has a bag.  Charged means: when the bin of the row holds at
    least the units of the bag (one for a small bag, two for a large
    one), exactly these units are taken from that bin and nothing else
    of the layout changes; left as it is means: when the bin holds less,
    or the row has no bin, the layout after the handling is the layout
    before it. *)
Theorem stowing_ends_whatever_the_bins
    (s : Simulation.t) (ps : Simulation.RunState) :
  Reachable s ->
  assoc_get (Passenger.id (Simulation.passenger ps))
    (Simulation.passengerStates s) = Some ps ->
  Simulation.state ps = PassengerState.STOWING ->
  Simulation.stowRemaining ps - 1 <= 0 ->
  let p := Simulation.passenger ps in
  let row := Simulation.aisleRow ps in
  let a := Simulation.aircraft s in
  let s' := Simulation.processPassengerInAisle s (Passenger.id p) in
  let used :=
    Aircraft.useBinCapacity row (Passenger.carryOnSize p) (Simulation.aircraft s) in
  Simulation.aircraft s' = used.2
  /\ (exists ps',
        assoc_get (Passenger.id p) (Simulation.passengerStates s') = Some ps'
        /\ Simulation.state ps'
           = match Aircraft.getBlockingSeats (Simulation.aircraft s)
                     (Passenger.row p) (Passenger.column p) with
             | [] => PassengerState.SEATING
             | _ :: _ => PassengerState.SHUFFLING
             end)
  /\ (exists e, e ∈ Simulation.events s'
                /\ Simulation.type e = EventType.STOW_END
                /\ Simulation.passengerId e = Passenger.id p)
  /\ (used.1 = false ->
      used.2 = Simulation.aircraft s
      /\ binFullLogged (Passenger.id p) row (Simulation.events s)
      /\ binFullLogged (Passenger.id p) row (Simulation.events s'))
  /\ row = Passenger.row p
  /\ Passenger.carryOnSize p <> CarryOnSize.NONE
  /\ (forall current,
        Aircraft.binCapacity a !! row = Some current ->
        binUnits (Passenger.carryOnSize p) <= current ->
        Simulation.aircraft s'
        = Aircraft.mk (Aircraft.config a)
            (<[row := current - binUnits (Passenger.carryOnSize p)]>
               (Aircraft.binCapacity a))
            (Aircraft.seats a) (Aircraft.aisle a))
  /\ ((forall current,
         Aircraft.binCapacity a !! row = Some current ->
         current < binUnits (Passenger.carryOnSize p)) ->
      Simulation.aircraft s' = a
      /\ binFullLogged (Passenger.id p) row (Simulation.events s)
      /\ binFullLogged (Passenger.id p) row (Simulation.events s')).
Proof.
  intros Hs Hget Hst Hrem. cbv zeta.
  destruct (processStowing_done s ps Hs Hget Hst Hrem)
    as (Ha & Hps & Hev & Hfull).
  cbv zeta in Ha, Hps, Hev, Hfull.
  destruct (Reachable_stowsAtItsRow s Hs _ ps Hget Hst) as [Hrow Hbag].
  do 6 (split; [done|]). split.
  - intros current Hcur Hle. rewrite Ha. unfold Aircraft.useBinCapacity.
    destruct (Passenger.carryOnSize (Simulation.passenger ps)); [done| |];
      rewrite Hcur; cbn [binUnits Aircraft.required] in *;
      by rewrite (proj2 (Z.leb_le _ _) Hle).
  - intros Hlack. rewrite Ha. apply Hfull.
    rewrite useBinCapacity_fst. unfold Aircraft.hasBinCapacity.
    destruct (Passenger.carryOnSize (Simulation.passenger ps)); [done| |];
      (destruct (Aircraft.binCapacity (Simulation.aircraft s)
                   !! Simulation.aisleRow ps) as [current|] eqn:Hcur; [|done]);
      specialize (Hlack current eq_refl); cbn [binUnits Aircraft.required] in *;
      apply Z.leb_gt; lia.
Qed.

Lemma stowing_ends_whatever_the_bins_witness :
  (binFullLogged 1 1 (Simulation.events (FullBins.tick 5))
   /\ Aircraft.binCapacity
        (Simulation.aircraft
           (Simulation.processPassengerInAisle (FullBins.tick 5) 1)) !! 1
      = Some 0
   /\ exists ps',
        assoc_get 1%nat
          (Simulation.passengerStates
             (Simulation.processPassengerInAisle (FullBins.tick 5) 1))
        = Some ps'
        /\ Simulation.state ps' = PassengerState.SEATING)
  /\ (Aircraft.binCapacity
        (Simulation.aircraft
           (Simulation.processPassengerInAisle (RoomyBins.tick 5) 1)) !! 1
      = Some 5
      /\ exists ps',
           assoc_get 1%nat
             (Simulation.passengerStates
                (Simulation.processPassengerInAisle (RoomyBins.tick 5) 1))
           = Some ps'
           /\ Simulation.state ps' = PassengerState.SEATING).
Proof.
  assert (Hst : Simulation.state FullBins.stowing = PassengerState.STOWING)
    by reflexivity.
  assert (Hrem : Simulation.stowRemaining FullBins.stowing - 1 <= 0)
    by (vm_compute; discriminate).
  split.
  - assert (H5 : Simulation.steps 5 FullBins.initial = Some (FullBins.tick 5))
      by (vm_compute; reflexivity).
    assert (Hs : Reachable (FullBins.tick 5))
      by exact (Reachable_steps 5 _ _ (Reachable_start _ _ _) H5).
    assert (Hget : assoc_get (Passenger.id (Simulation.passenger FullBins.stowing))
                     (Simulation.passengerStates (FullBins.tick 5))
                   = Some FullBins.stowing)
      by (vm_compute; reflexivity).
    pose proof (stowing_ends_whatever_the_bins (FullBins.tick 5)
                  FullBins.stowing Hs Hget Hst Hrem) as T.
    cbv zeta in T.
    destruct T as (_ & (ps' & Hps' & Hstate) & _ & _ & _ & _ & _ & Hlack).
    assert (Hcur : forall current,
      Aircraft.binCapacity (Simulation.aircraft (FullBins.tick 5))
        !! Simulation.aisleRow FullBins.stowing = Some current ->
      current < binUnits (Passenger.carryOnSize
                            (Simulation.passenger FullBins.stowing))).
    { intros current Hc. vm_compute in Hc. injection Hc as <-. reflexivity. }
    assert (Hb :
      Aircraft.getBlockingSeats (Simulation.aircraft (FullBins.tick 5))
        (Passenger.row (Simulation.passenger FullBins.stowing))
        (Passenger.column (Simulation.passenger FullBins.stowing)) = [])
      by (vm_compute; reflexivity).
    destruct (Hlack Hcur) as (Hsame & Hlogged & _).
    split; [exact Hlogged|]. split.
    + change (Passenger.id (Simulation.passenger FullBins.stowing)) with 1%nat
        in Hsame.
      rewrite Hsame. vm_compute. reflexivity.
    + exists ps'. split; [exact Hps'|]. rewrite Hstate, Hb. reflexivity.
  - assert (H5 : Simulation.steps 5 RoomyBins.initial = Some (RoomyBins.tick 5))
      by (vm_compute; reflexivity).
    assert (Hs : Reachable (RoomyBins.tick 5))
      by exact (Reachable_steps 5 _ _ (Reachable_start _ _ _) H5).
    assert (Hget : assoc_get (Passenger.id (Simulation.passenger FullBins.stowing))
                     (Simulation.passengerStates (RoomyBins.tick 5))
                   = Some FullBins.stowing)
      by (vm_compute; reflexivity).
    pose proof (stowing_ends_whatever_the_bins (RoomyBins.tick 5)
                  FullBins.stowing Hs Hget Hst Hrem) as T.
    cbv zeta in T.
    destruct T as (_ & (ps' & Hps' & Hstate) & _ & _ & _ & _ & Hcharged & _).
    assert (Hcur :
      Aircraft.binCapacity (Simulation.aircraft (RoomyBins.tick 5))
        !! Simulation.aisleRow FullBins.stowing = Some 6)
      by (vm_compute; reflexivity).
    assert (Hle : binUnits (Passenger.carryOnSize
                              (Simulation.passenger FullBins.stowing)) <= 6)
      by (vm_compute; discriminate).
    assert (Hb :
      Aircraft.getBlockingSeats (Simulation.aircraft (RoomyBins.tick 5))
        (Passenger.row (Simulation.passenger FullBins.stowing))
        (Passenger.column (Simulation.passenger FullBins.stowing)) = [])
      by (vm_compute; reflexivity).
    split.
    + change (Passenger.id (Simulation.passenger FullBins.stowing)) with 1%nat
        in Hcharged.
      rewrite (Hcharged 6 Hcur Hle). cbn [Aircraft.binCapacity].
      change (Simulation.aisleRow FullBins.stowing) with 1.
      rewrite lookup_insert_eq. reflexivity.
    + exists ps'. split; [exact Hps'|]. rewrite Hstate, Hb. reflexivity.
Defined.

(** ** Walk speed and compliance are never read *)

Section AnonymousStore.
Implicit Types m : list (nat * Simulation.RunState).

Lemma assoc_get_anonymous k m :
  assoc_get k (anonymousEntry <$> m) = anonymousRunState <$> assoc_get k m.
Proof.
  induction m as [|[k0 v0] m IH]; [done|].
  rewrite fmap_cons. cbn [assoc_get anonymousEntry fst snd].
  destruct (decide (k = k0)); [done|apply IH].
Qed.

Lemma assoc_set_anonymous k v m :
  assoc_set k (anonymousRunState v) (anonymousEntry <$> m)
  = anonymousEntry <$> assoc_set k v m.
Proof.
  induction m as [|[k0 v0] m IH]; [done|].
  rewrite fmap_cons. cbn [assoc_set anonymousEntry fst snd].
  destruct (decide (k = k0)); [done|].
  by rewrite fmap_cons, IH.
Qed.
End AnonymousStore.

Lemma isAisleOccupied_anonymous a r :
  Aircraft.isAisleOccupied (anonymousAircraft a) r = Aircraft.isAisleOccupied a r.
Proof.
  unfold Aircraft.isAisleOccupied, anonymousAircraft. cbn [Aircraft.aisle].
  rewrite lookup_fmap. by destruct (Aircraft.aisle a !! r) as [[?|]|].
Qed.

Lemma isSeatOccupied_anonymous a r c :
  Aircraft.isSeatOccupied (anonymousAircraft a) r c = Aircraft.isSeatOccupied a r c.
Proof.
  unfold Aircraft.isSeatOccupied, anonymousAircraft. cbn [Aircraft.seats].
  rewrite lookup_fmap. by destruct (Aircraft.seats a !! (r, c)) as [[?|]|].
Qed.

Lemma getBlockingSeats_anonymous a r c :
  Aircraft.getBlockingSeats (anonymousAircraft a) r c
  = Aircraft.getBlockingSeats a r c.
Proof.
  unfold Aircraft.getBlockingSeats. apply list_filter_iff. intros col.
  by rewrite isSeatOccupied_anonymous.
Qed.

Lemma hasBinCapacity_anonymous a r c :
  Aircraft.hasBinCapacity (anonymousAircraft a) r c = Aircraft.hasBinCapacity a r c.
Proof. reflexivity. Qed.

Lemma useBinCapacity_anonymous a r c :
  (Aircraft.useBinCapacity r c (anonymousAircraft a)).2
  = anonymousAircraft (Aircraft.useBinCapacity r c a).2.
Proof.
  unfold Aircraft.useBinCapacity, anonymousAircraft.
  cbn [Aircraft.binCapacity Aircraft.config Aircraft.seats Aircraft.aisle].
  destruct c; [done| |];
    (destruct (Aircraft.binCapacity a !! r); [|done]);
    by destruct (_ <=? _).
Qed.

Lemma placeInAisle_anonymous p r a :
  Aircraft.placeInAisle (anonymous p) r (anonymousAircraft a)
  = anonymousAircraft (Aircraft.placeInAisle p r a).
Proof.
  unfold Aircraft.placeInAisle, anonymousAircraft.
  cbn [Aircraft.binCapacity Aircraft.config Aircraft.seats Aircraft.aisle].
  by rewrite fmap_insert.
Qed.

Lemma removeFromAisle_anonymous r a :
  Aircraft.removeFromAisle r (anonymousAircraft a)
  = anonymousAircraft (Aircraft.removeFromAisle r a).
Proof.
  unfold Aircraft.removeFromAisle, anonymousAircraft.
  cbn [Aircraft.binCapacity Aircraft.config Aircraft.seats Aircraft.aisle].
  by rewrite fmap_insert.
Qed.

Lemma seatPassenger_anonymous p a :
  Aircraft.seatPassenger (anonymous p) (anonymousAircraft a)
  = anonymousAircraft (Aircraft.seatPassenger p a).
Proof.
  unfold Aircraft.seatPassenger, anonymousAircraft.
  cbn [Aircraft.binCapacity Aircraft.config Aircraft.seats Aircraft.aisle
       anonymous Passenger.row Passenger.column].
  by rewrite fmap_insert.
Qed.

Lemma foldl_insert_fmap `{Countable K} {A B} (f : A -> B) (v : A) (l : list K)
    (m : gmap K A) :
  f <$> foldl (fun m r => <[r := v]> m) m l
  = foldl (fun m r => <[r := f v]> m) (f <$> m) l.
Proof.
  revert m. induction l as [|r l IH]; intros m; cbn [foldl]; [done|].
  by rewrite IH, fmap_insert.
Qed.

Lemma reset_anonymous a :
  Aircraft.reset (anonymousAircraft a) = anonymousAircraft (Aircraft.reset a).
Proof.
  unfold Aircraft.reset, anonymousAircraft, Aircraft.rows, Aircraft.columns.
  cbn [Aircraft.binCapacity Aircraft.config Aircraft.seats Aircraft.aisle].
  f_equal.
  - unfold Aircraft.fillSeats.
    generalize (Aircraft.seats a). generalize (seqZ 1 (Aircraft.cfg_rows (Aircraft.config a))).
    intros rs. induction rs as [|r rs IH]; intros m; cbn [foldl]; [done|].
    rewrite <- IH. f_equal.
    generalize (Aircraft.cfg_columns (Aircraft.config a)). intros cs. revert m.
    induction cs as [|c cs IHc]; intros m; cbn [foldl]; [done|].
    by rewrite <- IHc, fmap_insert.
  - unfold Aircraft.fillAisle. by rewrite foldl_insert_fmap.
Qed.

Ltac anonymous_fields :=
  unfold anonymousSimulation, anonymousRunState, Passenger.stowTime;
  cbn [Simulation.aircraft Simulation.originalPassengers
       Simulation.currentStep Simulation.isComplete Simulation.events
       Simulation.passengerStates Simulation.queue
       Simulation.passenger Simulation.state Simulation.aisleRow
       Simulation.stowRemaining Simulation.shuffleRemaining
       Simulation.waitTime Simulation.enteredAt Simulation.seatedAt
       anonymous Passenger.id Passenger.row Passenger.column
       Passenger.carryOnSize].

Ltac anonymous_layout :=
  repeat (progress
    rewrite ?useBinCapacity_anonymous, ?removeFromAisle_anonymous,
      ?placeInAisle_anonymous, ?seatPassenger_anonymous,
      ?getBlockingSeats_anonymous, ?isAisleOccupied_anonymous,
      ?hasBinCapacity_anonymous).

Ltac anonymous_done :=
  anonymous_fields; anonymous_layout;
  rewrite <- ?assoc_set_anonymous; anonymous_fields; reflexivity.

Lemma startSeating_anonymous ps s :
  Simulation.startSeating (anonymousRunState ps) (anonymousSimulation s)
  = anonymousSimulation (Simulation.startSeating ps s).
Proof.
  unfold_engine. anonymous_fields. anonymous_layout.
  destruct (0 <? length _)%nat; anonymous_done.
Qed.

Lemma processWalking_anonymous ps s :
  Simulation.processWalking (anonymousRunState ps) (anonymousSimulation s)
  = anonymousSimulation (Simulation.processWalking ps s).
Proof.
  unfold_engine. anonymous_fields. anonymous_layout.
  destruct (_ =? _).
  - destruct (Passenger.carryOnSize _).
    + destruct (0 <? length _)%nat; anonymous_done.
    + unfold_engine. anonymous_fields.
      change (Aircraft.hasBinCapacity
                (anonymousAircraft (Simulation.aircraft s)))
        with (Aircraft.hasBinCapacity (Simulation.aircraft s)).
      destruct (Aircraft.hasBinCapacity _ _ _); anonymous_done.
    + unfold_engine. anonymous_fields.
      change (Aircraft.hasBinCapacity
                (anonymousAircraft (Simulation.aircraft s)))
        with (Aircraft.hasBinCapacity (Simulation.aircraft s)).
      destruct (Aircraft.hasBinCapacity _ _ _); anonymous_done.
  - unfold Aircraft.rows at 1.
    change (Aircraft.config (anonymousAircraft (Simulation.aircraft s)))
      with (Aircraft.config (Simulation.aircraft s)).
    fold (Aircraft.rows (Simulation.aircraft s)).
    destruct (_ && _); anonymous_done.
Qed.

Lemma processStowing_anonymous ps s :
  Simulation.processStowing (anonymousRunState ps) (anonymousSimulation s)
  = anonymousSimulation (Simulation.processStowing ps s).
Proof.
  unfold_engine. anonymous_fields. anonymous_layout.
  destruct (_ <=? _); [|anonymous_done].
  destruct (0 <? length _)%nat; unfold_engine; anonymous_fields;
    rewrite !assoc_set_set; anonymous_done.
Qed.

Lemma processShuffling_anonymous ps s :
  Simulation.processShuffling (anonymousRunState ps) (anonymousSimulation s)
  = anonymousSimulation (Simulation.processShuffling ps s).
Proof.
  unfold_engine. anonymous_fields.
  destruct (_ <=? _); anonymous_done.
Qed.

Lemma processSeating_anonymous ps s :
  Simulation.processSeating (anonymousRunState ps) (anonymousSimulation s)
  = anonymousSimulation (Simulation.processSeating ps s).
Proof. unfold_engine. anonymous_done. Qed.

Lemma processPassengerInAisle_anonymous s k :
  Simulation.processPassengerInAisle (anonymousSimulation s) k
  = anonymousSimulation (Simulation.processPassengerInAisle s k).
Proof.
  unfold Simulation.processPassengerInAisle.
  change (Simulation.passengerStates (anonymousSimulation s))
    with (anonymousEntry <$> Simulation.passengerStates s).
  rewrite assoc_get_anonymous.
  destruct (assoc_get k (Simulation.passengerStates s)) as [ps|]; [|done].
  cbn [fmap option_fmap option_map].
  change (Simulation.state (anonymousRunState ps)) with (Simulation.state ps).
  destruct (Simulation.state ps);
    auto using processWalking_anonymous, processStowing_anonymous,
      processShuffling_anonymous, processSeating_anonymous.
Qed.

Lemma filter_fmap_commute {A B} (f : A -> B) (P : B -> Prop)
    `{!forall x, Decision (P x)} (l : list A) :
  filter P (f <$> l) = f <$> filter (fun x => P (f x)) l.
Proof.
  induction l as [|x l IH]; [done|].
  rewrite fmap_cons, !filter_cons, IH.
  by destruct (decide (P (f x))).
Qed.

Lemma getAislePassengersSorted_anonymous s :
  Simulation.getAislePassengersSorted (anonymousSimulation s)
  = Simulation.getAislePassengersSorted s.
Proof.
  unfold Simulation.getAislePassengersSorted.
  change (Simulation.passengerStates (anonymousSimulation s))
    with (anonymousEntry <$> Simulation.passengerStates s).
  rewrite filter_fmap_commute, array_sort_fmap, <- list_fmap_compose.
  reflexivity.
Qed.

Lemma handling_anonymous ks s :
  foldl Simulation.processPassengerInAisle (anonymousSimulation s) ks
  = anonymousSimulation (foldl Simulation.processPassengerInAisle s ks).
Proof.
  revert s. induction ks as [|k ks IH]; intros s; cbn [foldl]; [done|].
  by rewrite processPassengerInAisle_anonymous, IH.
Qed.

Lemma tryAddFromQueue_anonymous s :
  Simulation.tryAddFromQueue (anonymousSimulation s)
  = anonymousSimulation <$> Simulation.tryAddFromQueue s.
Proof.
  unfold Simulation.tryAddFromQueue.
  change (Simulation.queue (anonymousSimulation s)) with (Simulation.queue s).
  destruct (Simulation.queue s) as [|r rest]; [done|].
  change (Simulation.aircraft (anonymousSimulation s))
    with (anonymousAircraft (Simulation.aircraft s)).
  rewrite isAisleOccupied_anonymous.
  destruct (Aircraft.isAisleOccupied _ 0); [done|].
  destruct r as [k|]; [|done]. cbn [mbind option_bind].
  change (Simulation.passengerStates (anonymousSimulation s))
    with (anonymousEntry <$> Simulation.passengerStates s).
  rewrite assoc_get_anonymous.
  destruct (assoc_get k (Simulation.passengerStates s)) as [ps|]; [|done].
  cbn [fmap option_fmap option_map mbind option_bind]. f_equal.
  unfold_engine. anonymous_done.
Qed.

Lemma checkCompletion_anonymous s :
  Simulation.checkCompletion (anonymousSimulation s)
  = anonymousSimulation (Simulation.checkCompletion s).
Proof.
  unfold Simulation.checkCompletion.
  assert (Hall : Simulation.allSeated (anonymousSimulation s)
                 = Simulation.allSeated s).
  { unfold Simulation.allSeated.
    change (Simulation.passengerStates (anonymousSimulation s))
      with (anonymousEntry <$> Simulation.passengerStates s).
    induction (Simulation.passengerStates s) as [|kv m IH]; [done|].
    rewrite fmap_cons. cbn [forallb]. by rewrite IH. }
  rewrite Hall. by destruct (Simulation.allSeated s).
Qed.

Lemma step_anonymous s :
  Simulation.step (anonymousSimulation s)
  = anonymousSimulation <$> Simulation.step s.
Proof.
  unfold Simulation.step.
  change (Simulation.isComplete (anonymousSimulation s))
    with (Simulation.isComplete s).
  destruct (Simulation.isComplete s); [done|]. cbn zeta.
  change (Simulation.set_currentStep
            (Simulation.currentStep (anonymousSimulation s) + 1)
            (anonymousSimulation s))
    with (anonymousSimulation
            (Simulation.set_currentStep (Simulation.currentStep s + 1) s)).
  rewrite getAislePassengersSorted_anonymous, handling_anonymous,
    tryAddFromQueue_anonymous.
  destruct (Simulation.tryAddFromQueue _) as [s3|]; [|done].
  cbn. by rewrite checkCompletion_anonymous.
Qed.

Lemma steps_anonymous n s :
  Simulation.steps n (anonymousSimulation s)
  = anonymousSimulation <$> Simulation.steps n s.
Proof.
  revert s. induction n as [|n IH]; intros s; cbn [Simulation.steps]; [done|].
  rewrite step_anonymous. destruct (Simulation.step s) as [s1|]; [|done].
  cbn. apply IH.
Qed.

Lemma runLoop_anonymous n s :
  Simulation.runLoop n (anonymousSimulation s)
  = anonymousSimulation <$> Simulation.runLoop n s.
Proof.
  revert s. induction n as [|n IH]; intros s; cbn [Simulation.runLoop]; [done|].
  change (Simulation.isComplete (anonymousSimulation s))
    with (Simulation.isComplete s).
  destruct (Simulation.isComplete s); [done|].
  rewrite step_anonymous. destruct (Simulation.step s) as [s1|]; [|done].
  cbn. apply IH.
Qed.

Lemma runToCompletion_anonymous maxSteps s :
  fst <$> Simulation.runToCompletion maxSteps (anonymousSimulation s)
  = fst <$> Simulation.runToCompletion maxSteps s.
Proof.
  unfold Simulation.runToCompletion.
  change (Simulation.currentStep (anonymousSimulation s))
    with (Simulation.currentStep s).
  rewrite runLoop_anonymous. by destruct (Simulation.runLoop _ s).
Qed.

Lemma new_anonymous passengers aircraft :
  Simulation.new (anonymous <$> passengers) (anonymousAircraft aircraft)
  = anonymousSimulation (Simulation.new passengers aircraft).
Proof.
  unfold Simulation.new, Simulation.reset, anonymousSimulation.
  cbn [Simulation.aircraft Simulation.originalPassengers
       Simulation.currentStep Simulation.isComplete Simulation.events
       Simulation.passengerStates Simulation.queue].
  rewrite reset_anonymous. f_equal.
  change (@nil (nat * Simulation.RunState))
    with (anonymousEntry <$> @nil (nat * Simulation.RunState)) at 1.
  generalize (@nil (nat * Simulation.RunState)).
  induction passengers as [|p ps IH]; intros m; [done|].
  rewrite fmap_cons. cbn [foldl]. rewrite <- IH. f_equal.
  by rewrite <- assoc_set_anonymous.
Qed.

Lemma setBoardingOrder_anonymous ids s :
  Simulation.setBoardingOrder ids (anonymousSimulation s)
  = anonymousSimulation (Simulation.setBoardingOrder ids s).
Proof.
  unfold Simulation.setBoardingOrder, Simulation.set_queue, anonymousSimulation.
  cbn [Simulation.aircraft Simulation.originalPassengers
       Simulation.currentStep Simulation.isComplete Simulation.events
       Simulation.passengerStates Simulation.queue].
  f_equal. apply list_fmap_ext. intros _ id _.
  rewrite assoc_get_anonymous.
  by destruct (assoc_get id (Simulation.passengerStates s)).
Qed.

Lemma getSnapshot_anonymous s :
  Simulation.getSnapshot (anonymousSimulation s) = Simulation.getSnapshot s.
Proof.
  unfold Simulation.getSnapshot.
  change (Simulation.passengerStates (anonymousSimulation s))
    with (anonymousEntry <$> Simulation.passengerStates s).
  cbn zeta. rewrite <- list_fmap_compose.
  change (Simulation.currentStep (anonymousSimulation s))
    with (Simulation.currentStep s).
  change (Simulation.isComplete (anonymousSimulation s))
    with (Simulation.isComplete s).
  change (Simulation.queue (anonymousSimulation s)) with (Simulation.queue s).
  rewrite !length_fmap.
  assert (Hmap : (snd ∘ anonymousEntry <$> Simulation.passengerStates s)
                 = anonymousRunState <$> (snd <$> Simulation.passengerStates s))
    by (by rewrite <- list_fmap_compose).
  rewrite Hmap. rewrite !filter_fmap_commute, <- !list_fmap_compose, !length_fmap.
  reflexivity.
Qed.

(** ** One aisle cell per tick *)

Lemma handling_oneCellAhead ks s k ps :
  NoDup ks -> Inv s ->
  assoc_get k (Simulation.passengerStates s) = Some ps ->
  exists ps',
    assoc_get k
      (Simulation.passengerStates (foldl Simulation.processPassengerInAisle s ks))
    = Some ps'
    /\ (k ∉ ks -> ps' = ps)
    /\ Simulation.aisleRow ps' <= Simulation.aisleRow ps + 1.
Proof.
  intros Hnd. revert s ps.
  induction Hnd as [|k0 ks Hk0 Hnd IH]; intros s ps HI Hget; cbn [foldl].
  - exists ps. repeat split; [done|lia].
  - destruct (processPassengerInAisle_oneCellAhead s k0 HI k ps Hget)
      as (ps1 & Hget1 & Hsame & Hrow).
    destruct (IH _ ps1 (Inv_processPassengerInAisle s k0 HI) Hget1)
      as (ps2 & Hget2 & Hsame2 & Hrow2).
    exists ps2. split; [done|].
    destruct (decide (k = k0)) as [->|Hne].
    + split; [intros Hn; destruct Hn; by left|].
      rewrite (Hsame2 Hk0). exact Hrow.
    + rewrite (Hsame Hne) in *. split; [|done].
      intros Hn. apply Hsame2. intros Hin. apply Hn. by right.
Qed.

Lemma getAislePassengersSorted_NoDup s :
  Reachable s -> NoDup (Simulation.getAislePassengersSorted s).
Proof.
  intros Hs. unfold Simulation.getAislePassengersSorted.
  rewrite array_sort_perm.
  eapply sublist_NoDup_keys; [apply sublist_filter|].
  by apply Reachable_NoDup_keys.
Qed.

Lemma step_oneCellAhead s s' k ps :
  Reachable s ->
  Simulation.step s = Some s' ->
  assoc_get k (Simulation.passengerStates s) = Some ps ->
  occupiesAisle ps = true ->
  exists ps',
    assoc_get k (Simulation.passengerStates s') = Some ps'
    /\ Simulation.aisleRow ps' <= Simulation.aisleRow ps + 1.
Proof.
  intros Hs Hstep Hget Hocc.
  pose proof (inv_row s (Reachable_Inv s Hs) _ _ Hget Hocc) as Hrow.
  destruct (Simulation.isComplete s) eqn:Hc.
  { unfold Simulation.step in Hstep. rewrite Hc in Hstep.
    injection Hstep as <-. exists ps. split; [done|lia]. }
  destruct (step_phases s s' Hc Hstep) as (s3 & Hadd & ->).
  set (s1 := Simulation.set_currentStep (Simulation.currentStep s + 1) s) in *.
  assert (Hs1 : Reachable s1) by by apply Reachable_tick.
  destruct (handling_oneCellAhead (Simulation.getAislePassengersSorted s1) s1 k ps
              (getAislePassengersSorted_NoDup s1 Hs1) (Reachable_Inv s1 Hs1) Hget)
    as (ps2 & Hget2 & _ & Hrow2).
  destruct (handled_all s1 (Simulation.getAislePassengersSorted s1)
              (Reachable_Inv s1 Hs1)) as [HI2 _].
  assert (Hcheck : forall x, Simulation.passengerStates (Simulation.checkCompletion x)
                             = Simulation.passengerStates x).
  { intros x. unfold Simulation.checkCompletion.
    by destruct (Simulation.allSeated x). }
  rewrite Hcheck.
  destruct (tryAddFromQueue_cases _ s3 HI2 Hadd)
    as [[-> _]|(k0 & rest & ps0 & _ & _ & Hget0 & ->)].
  - by exists ps2.
  - unfold afterAdmission. cbn [Simulation.passengerStates].
    rewrite assoc_get_set. destruct (decide (k = k0)) as [->|Hne].
    + eexists. split; [done|]. cbn. lia.
    + by exists ps2.
Qed.

(** C10: two passenger lists that agree on ids, seats and carry-on sizes
    and differ in walk speed, compliance or group give, on the same layout
    and boarding order, the same event log and the same snapshot after any
    number of ticks, and the same count of steps to completion.  Whatever
    its speed class, a passenger standing in the aisle is at most one cell
    further after a tick. *)
Theorem outcome_independent_of_speed_and_compliance
    (passengers1 passengers2 : list Passenger.t) (aircraft : Aircraft.t)
    (orderedIds : list nat) :
  anonymous <$> passengers1 = anonymous <$> passengers2 ->
  let start passengers :=
    Simulation.setBoardingOrder orderedIds (Simulation.new passengers aircraft) in
  (forall n,
     Simulation.getEvents <$> Simulation.steps n (start passengers1)
     = Simulation.getEvents <$> Simulation.steps n (start passengers2))
  /\ (forall n,
        Simulation.getSnapshot <$> Simulation.steps n (start passengers1)
        = Simulation.getSnapshot <$> Simulation.steps n (start passengers2))
  /\ (forall maxSteps,
        fst <$> Simulation.runToCompletion maxSteps (start passengers1)
        = fst <$> Simulation.runToCompletion maxSteps (start passengers2))
  /\ (forall n s s' k ps,
        Simulation.steps n (start passengers1) = Some s ->
        Simulation.step s = Some s' ->
        assoc_get k (Simulation.passengerStates s) = Some ps ->
        Simulation.state ps = PassengerState.WALKING ->
        exists ps',
          assoc_get k (Simulation.passengerStates s') = Some ps'
          /\ Simulation.aisleRow ps' <= Simulation.aisleRow ps + 1).
Proof.
  intros Hagree start.
  assert (Hstart : anonymousSimulation (start passengers1)
                   = anonymousSimulation (start passengers2)).
  { unfold start.
    by rewrite <- !setBoardingOrder_anonymous, <- !new_anonymous, Hagree. }
  assert (Hsteps : forall n,
    anonymousSimulation <$> Simulation.steps n (start passengers1)
    = anonymousSimulation <$> Simulation.steps n (start passengers2)).
  { intros n. by rewrite <- !steps_anonymous, Hstart. }
  split; [|split; [|split]].
  - intros n. specialize (Hsteps n).
    destruct (Simulation.steps n (start passengers1)) as [s1|],
      (Simulation.steps n (start passengers2)) as [s2|]; try done.
    cbn [fmap option_fmap option_map] in *.
    assert (Heq : anonymousSimulation s1 = anonymousSimulation s2) by congruence.
    f_equal. exact (f_equal Simulation.events Heq).
  - intros n. specialize (Hsteps n).
    destruct (Simulation.steps n (start passengers1)) as [s1|],
      (Simulation.steps n (start passengers2)) as [s2|]; try done.
    cbn [fmap option_fmap option_map] in *.
    assert (Heq : anonymousSimulation s1 = anonymousSimulation s2) by congruence.
    by rewrite <- (getSnapshot_anonymous s1), <- (getSnapshot_anonymous s2), Heq.
  - intros maxSteps.
    by rewrite <- (runToCompletion_anonymous _ (start passengers1)),
      <- (runToCompletion_anonymous _ (start passengers2)), Hstart.
  - intros n s s' k ps Hn Hstep Hget Hst.
    apply (step_oneCellAhead s s' k ps); try done.
    + eapply Reachable_steps; [apply Reachable_start|exact Hn].
    + unfold occupiesAisle. by rewrite Hst.
Qed.

Lemma outcome_independent_of_speed_and_compliance_witness :
  Simulation.getEvents
    <$> Simulation.steps 6
          (Simulation.setBoardingOrder [1; 2]%nat
             (Simulation.new [Scenario.P1fast; Scenario.P2slow]
                (Aircraft.new Scenario.layout)))
  = Simulation.getEvents
      <$> Simulation.steps 6
            (Simulation.setBoardingOrder [1; 2]%nat
               (Simulation.new [Scenario.P1; Scenario.P2]
                  (Aircraft.new Scenario.layout))).
Proof.
  assert (Hagree : anonymous <$> [Scenario.P1fast; Scenario.P2slow]
                   = anonymous <$> [Scenario.P1; Scenario.P2])
    by reflexivity.
  pose proof (outcome_independent_of_speed_and_compliance
                [Scenario.P1fast; Scenario.P2slow] [Scenario.P1; Scenario.P2]
                (Aircraft.new Scenario.layout) [1; 2]%nat Hagree) as T.
  cbv zeta in T. destruct T as (Hevents & _).
  exact (Hevents 6%nat).
Defined.

(** ** The validation of a priority function *)

Section ValidationFacts.
Context {World : Type}.
Variable now : World -> Q * World.

(** The sampling loop stops with a message as soon as a call throws or
    answers something that is not a finite number. *)
Lemma sampleLoop_rejects
    (g : Passenger.view -> AlgorithmRunner.Context -> AlgorithmRunner.outcome)
    (context : AlgorithmRunner.Context) (startTime : Q)
    (testPassengers : list Passenger.view) (w : World) :
  (exists passenger, passenger ∈ testPassengers
                     /\ ~ finiteNumber (g passenger context)) ->
  (AlgorithmRunner.sampleLoop now (pureFunction g) context startTime
     testPassengers w).1 <> [].
Proof.
  revert w. induction testPassengers as [|p ps IH]; intros w (q & Hq & Hbad).
  - by apply elem_of_nil in Hq.
  - cbn [AlgorithmRunner.sampleLoop]. unfold pureFunction at 1.
    destruct (g p context) as [v|msg] eqn:Hg; [|done].
    destruct v; try done.
    destruct (now w) as [t w2]. destruct (negb _); [done|].
    apply IH. exists q. split; [|done].
    apply elem_of_cons in Hq as [->|Hq]; [|done].
    destruct Hbad. rewrite Hg. by eexists.
Qed.

(** A stateless function never throws where it answered before: the
    determinism loop completes. *)
Lemma sampleLoop_accepts
    (g : Passenger.view -> AlgorithmRunner.Context -> AlgorithmRunner.outcome)
    (context : AlgorithmRunner.Context) (startTime : Q)
    (testPassengers : list Passenger.view) (w : World) :
  (AlgorithmRunner.sampleLoop now (pureFunction g) context startTime
     testPassengers w).1 = [] ->
  Forall (fun passenger => finiteNumber (g passenger context)) testPassengers.
Proof.
  revert w. induction testPassengers as [|p ps IH]; intros w; [constructor|].
  cbn [AlgorithmRunner.sampleLoop]. unfold pureFunction at 1.
  destruct (g p context) as [v|msg] eqn:Hg; [|done].
  destruct v; try done.
  destruct (now w) as [t w2]. destruct (negb _); [done|].
  intros H. constructor; [by eexists|]. by eapply IH.
Qed.

Lemma determinismLoop_completes
    (g : Passenger.view -> AlgorithmRunner.Context -> AlgorithmRunner.outcome)
    (context : AlgorithmRunner.Context)
    (testPassengers : list Passenger.view) (w : World) :
  Forall (fun passenger => finiteNumber (g passenger context)) testPassengers ->
  exists errors w',
    AlgorithmRunner.determinismLoop (pureFunction g) context testPassengers w
    = (AlgorithmRunner.Normal errors, w').
Proof.
  induction 1 as [|p ps [q Hq] _ IH]; cbn [AlgorithmRunner.determinismLoop].
  - by eexists _, _.
  - unfold pureFunction at 1 2. rewrite Hq.
    destruct (AlgorithmRunner.strictEquals _ _); [exact IH|by eexists _, _].
Qed.

(** What holds of [validateAlgorithm]: a stateless function that throws
    an object with a message, or answers something else than a finite
    number, on a passenger of the sample is refused, with one message,
    whatever the clock says; and no exception leaves the validation of
    such a function.  The outcomes do not include a thrown [null] or
    [undefined]: on these the handler itself raises. *)
Lemma validateAlgorithm_refuses
    (g : Passenger.view -> AlgorithmRunner.Context -> AlgorithmRunner.outcome)
    (context : AlgorithmRunner.Context)
    (testPassengers : list Passenger.view) (w : World) :
  (exists passenger, passenger ∈ testPassengers
                     /\ ~ finiteNumber (g passenger context)) ->
  exists message w',
    AlgorithmRunner.validateAlgorithm now
      (AlgorithmRunner.Function (pureFunction g)) testPassengers context w
    = (AlgorithmRunner.Normal (AlgorithmRunner.failure [message] []), w').
Proof.
  intros Hbad. unfold AlgorithmRunner.validateAlgorithm.
  destruct (now w) as [startTime w0].
  pose proof (sampleLoop_rejects g context startTime testPassengers w0 Hbad)
    as Hne.
  assert (Hone : forall ps w1,
    (length (AlgorithmRunner.sampleLoop now (pureFunction g) context startTime
               ps w1).1 <= 1)%nat).
  { induction ps as [|p ps IH]; intros w1; cbn [AlgorithmRunner.sampleLoop];
      [cbn; lia|].
    unfold pureFunction at 1.
    destruct (g p context) as [v|msg]; [|cbn; lia].
    destruct v; try (cbn; lia).
    destruct (now w1) as [t w2]. destruct (negb _); [cbn; lia|apply IH]. }
  specialize (Hone testPassengers w0).
  destruct (AlgorithmRunner.sampleLoop _ _ _ _ _ _) as [errors w1].
  cbn [fst] in *. destruct errors as [|e1 [|e2 es]]; [done| |cbn in Hone; lia].
  by eexists _, _.
Qed.

Lemma validateAlgorithm_stateless_completes
    (g : Passenger.view -> AlgorithmRunner.Context -> AlgorithmRunner.outcome)
    (context : AlgorithmRunner.Context)
    (testPassengers : list Passenger.view) (w : World) :
  exists r w',
    AlgorithmRunner.validateAlgorithm now
      (AlgorithmRunner.Function (pureFunction g)) testPassengers context w
    = (AlgorithmRunner.Normal r, w').
Proof.
  unfold AlgorithmRunner.validateAlgorithm.
  destruct (now w) as [startTime w0].
  pose proof (sampleLoop_accepts g context startTime testPassengers w0) as Hacc.
  destruct (AlgorithmRunner.sampleLoop _ _ _ _ _ _) as [errors w1].
  cbn [fst] in Hacc. destruct errors as [|e es]; [|by eexists _, _].
  destruct (determinismLoop_completes g context (take 5 testPassengers) w1)
    as (errors & w2 & ->).
  { apply Forall_take. by apply Hacc. }
  destruct errors; by eexists _, _.
Qed.

(** [Algorithm.validate] answers a result in every case: its handler turns
    whatever escapes [validateAlgorithm] into a failure. *)
Lemma validate_never_throws (compiled : string + AlgorithmRunner.function)
    (testPassengers : list Passenger.view) (context : AlgorithmRunner.Context)
    (w : World) :
  (forall message w',
     (exists f, compiled = inr f
        /\ AlgorithmRunner.validateAlgorithm now (AlgorithmRunner.Function f)
             testPassengers context w
           = (AlgorithmRunner.Abrupt message, w')) ->
     AlgorithmRunner.validate now compiled testPassengers context w
     = (AlgorithmRunner.failure [message] [], w')).
Proof.
  intros message w' (f & -> & Hv). unfold AlgorithmRunner.validate.
  by rewrite Hv.
Qed.
End ValidationFacts.

(** C8, where the code departs from it: a function that answers a finite
    number when it is sampled and throws when the determinism check calls
    it again is not refused by [validateAlgorithm]; the exception leaves
    the function.  [Algorithm.validate], which wraps the call in a
    handler, answers a failure on the same input. *)
Theorem validateAlgorithm_lets_second_call_exception_escape :
  AlgorithmRunner.validateAlgorithm frozenClock
    (AlgorithmRunner.Function throwsOnSecondCall) [sampleView] sampleContext 0%nat
  = (AlgorithmRunner.Abrupt "boom", 2%nat)
  /\ AlgorithmRunner.validate frozenClock (inr throwsOnSecondCall) [sampleView]
       sampleContext 0%nat
     = (AlgorithmRunner.failure ["boom"] [], 2%nat).
Proof. split; reflexivity. Qed.

(** ** Layouts within their grid *)

Lemma new_withinGrid cfg : withinGrid (Aircraft.new cfg).
Proof.
  unfold withinGrid, Aircraft.new, Aircraft.rows, Aircraft.columns.
  cbn [Aircraft.binCapacity Aircraft.seats Aircraft.aisle Aircraft.config].
  split; [|split].
  - intros r. rewrite fillBins_lookup. case_decide; [done|].
    rewrite lookup_empty. by intros [? ?].
  - intros r c. rewrite fillSeats_lookup. case_decide; [done|].
    rewrite lookup_empty. by intros [? ?].
  - intros r. rewrite fillAisle_lookup. case_decide; [done|].
    rewrite lookup_empty. by intros [? ?].
Qed.

Lemma reset_fresh a : withinGrid a -> Aircraft.reset a = Aircraft.new (Aircraft.config a).
Proof.
  intros (Hb & Hs & Ha). unfold Aircraft.reset, Aircraft.new.
  unfold Aircraft.rows, Aircraft.columns in *. f_equal.
  - apply map_eq. intros r. rewrite !fillBins_lookup. case_decide; [done|].
    rewrite lookup_empty.
    destruct (Aircraft.binCapacity a !! r) eqn:E; [|done].
    destruct H. apply Hb. by rewrite E.
  - apply map_eq. intros [r c]. rewrite !fillSeats_lookup. case_decide; [done|].
    rewrite lookup_empty.
    destruct (Aircraft.seats a !! (r, c)) eqn:E; [|done].
    destruct H. apply Hs. by rewrite E.
  - apply map_eq. intros r. rewrite !fillAisle_lookup. case_decide; [done|].
    rewrite lookup_empty.
    destruct (Aircraft.aisle a !! r) eqn:E; [|done].
    destruct H. apply Ha. by rewrite E.
Qed.

Lemma withinGrid_aisle a r v :
  withinGrid a -> is_Some (Aircraft.aisle a !! r) ->
  withinGrid (Aircraft.mk (Aircraft.config a) (Aircraft.binCapacity a)
                (Aircraft.seats a) (<[r := v]> (Aircraft.aisle a))).
Proof.
  intros (Hb & Hs & Ha) Hr. split; [done|]. split; [done|].
  intros r'. cbn [Aircraft.aisle]. unfold Aircraft.rows. cbn [Aircraft.config].
  destruct (decide (r = r')) as [<-|Hne].
  - intros _. by apply Ha.
  - rewrite lookup_insert_ne by done. apply Ha.
Qed.

Lemma withinGrid_seatPassenger a p :
  withinGrid a -> seatInGrid (Aircraft.config a) p ->
  withinGrid (Aircraft.seatPassenger p a).
Proof.
  intros (Hb & Hs & Ha) [Hrow Hcol]. split; [done|]. split; [|done].
  intros r c. unfold Aircraft.seatPassenger, Aircraft.rows, Aircraft.columns.
  cbn [Aircraft.seats Aircraft.config].
  destruct (decide ((Passenger.row p, Passenger.column p) = (r, c)))
    as [[= <- <-]|Hne].
  - intros _. by split.
  - rewrite lookup_insert_ne by done. apply Hs.
Qed.

Lemma withinGrid_useBinCapacity a r c :
  withinGrid a -> withinGrid (Aircraft.useBinCapacity r c a).2.
Proof.
  intros (Hb & Hs & Ha). unfold Aircraft.useBinCapacity.
  destruct c; [done| |];
    (destruct (Aircraft.binCapacity a !! r) as [current|] eqn:E; [|done]);
    (destruct (_ <=? _); [|done]); cbn [snd];
    (split; [|done]); intros r'; unfold Aircraft.rows;
    cbn [Aircraft.binCapacity Aircraft.config];
    (destruct (decide (r = r')) as [<-|Hne];
     [intros _; apply Hb; by rewrite E
     |rewrite lookup_insert_ne by done; apply Hb]).
Qed.

Lemma isAisleOccupied_present a r :
  Aircraft.isAisleOccupied a r = false -> is_Some (Aircraft.aisle a !! r).
Proof. intros H%isAisleOccupied_false. by rewrite H. Qed.

Lemma withinGrid_processPassengerInAisle s k :
  Reachable s -> gridOK s ->
  withinGrid (Simulation.aircraft (Simulation.processPassengerInAisle s k)).
Proof.
  intros Hs [Hgrid Hseats]. pose proof (Reachable_Inv s Hs) as HI.
  unfold Simulation.processPassengerInAisle.
  destruct (assoc_get k (Simulation.passengerStates s)) as [ps|] eqn:Hget;
    [|done].
  assert (Hcell : occupiesAisle ps = true ->
            is_Some (Aircraft.aisle (Simulation.aircraft s) !! Simulation.aisleRow ps)).
  { intros Hocc. by rewrite (inv_cell s HI _ _ Hget Hocc). }
  assert (Hseat : seatInGrid (Aircraft.config (Simulation.aircraft s))
                    (Simulation.passenger ps)).
  { rewrite Forall_forall in Hseats. apply Hseats.
    apply (Reachable_roster s Hs k). unfold roster.
    apply list_elem_of_fmap. exists (k, ps).
    split; [done|by apply assoc_get_elem_of]. }
  destruct (Simulation.state ps) eqn:Hst; try done; unfold_engine;
    (assert (Hocc : occupiesAisle ps = true)
       by (unfold occupiesAisle; by rewrite Hst)).
  - destruct (_ =? _).
    + destruct (Passenger.carryOnSize _).
      * by destruct (0 <? _)%nat.
      * unfold_engine. by destruct (Aircraft.hasBinCapacity _ _ _).
      * unfold_engine. by destruct (Aircraft.hasBinCapacity _ _ _).
    + destruct (_ && _) eqn:Hfree; [|done].
      apply andb_true_iff in Hfree as [_ Hfree].
      apply negb_true_iff, isAisleOccupied_present in Hfree.
      cbn [Simulation.aircraft].
      apply (withinGrid_aisle
               (Aircraft.removeFromAisle (Simulation.aisleRow ps)
                  (Simulation.aircraft s))).
      * apply withinGrid_aisle; [done|by apply Hcell].
      * cbn [Aircraft.removeFromAisle Aircraft.aisle].
        destruct (decide (Simulation.aisleRow ps = Simulation.aisleRow ps + 1));
          [lia|]. by rewrite lookup_insert_ne.
  - destruct (_ <=? _); [|done].
    destruct (0 <? _)%nat; cbn [Simulation.aircraft];
      by apply withinGrid_useBinCapacity.
  - by destruct (_ <=? _).
  - cbn [Simulation.aircraft]. apply withinGrid_seatPassenger; [|done].
    apply withinGrid_aisle; [done|by apply Hcell].
Qed.

Lemma gridOK_processPassengerInAisle s k :
  Reachable s -> gridOK s -> gridOK (Simulation.processPassengerInAisle s k).
Proof.
  intros Hs Hok. split; [by apply withinGrid_processPassengerInAisle|].
  destruct (evolves_processPassengerInAisle s k (Reachable_Inv s Hs))
    as (Ho & _ & _ & _ & Hc & _).
  rewrite Ho, Hc. apply Hok.
Qed.

Lemma gridOK_handling ks s :
  Reachable s -> gridOK s ->
  gridOK (foldl Simulation.processPassengerInAisle s ks).
Proof.
  revert s. induction ks as [|k ks IH]; intros s Hs Hok; cbn [foldl]; [done|].
  apply IH; [by constructor|by apply gridOK_processPassengerInAisle].
Qed.

Lemma gridOK_tryAddFromQueue s s' :
  Reachable s -> gridOK s -> Simulation.tryAddFromQueue s = Some s' -> gridOK s'.
Proof.
  intros Hs [Hgrid Hseats] Hadd.
  destruct (tryAddFromQueue_cases s s' (Reachable_Inv s Hs) Hadd)
    as [[-> _]|(k & rest & ps & _ & Hfree & _ & ->)]; [done|].
  split; [|done]. unfold afterAdmission. cbn [Simulation.aircraft].
  apply withinGrid_aisle; [done|by apply isAisleOccupied_present].
Qed.

Lemma gridOK_checkCompletion s : gridOK s -> gridOK (Simulation.checkCompletion s).
Proof.
  unfold Simulation.checkCompletion. by destruct (Simulation.allSeated s).
Qed.

Lemma gridOK_step s s' :
  Reachable s -> gridOK s -> Simulation.step s = Some s' -> gridOK s'.
Proof.
  intros Hs Hok Hstep. destruct (Simulation.isComplete s) eqn:Hc.
  - unfold Simulation.step in Hstep. rewrite Hc in Hstep. by injection Hstep as <-.
  - destruct (step_phases s s' Hc Hstep) as (s3 & Hadd & ->).
    apply gridOK_checkCompletion.
    eapply gridOK_tryAddFromQueue; [| |exact Hadd].
    + apply Reachable_foldl. by apply Reachable_tick.
    + apply gridOK_handling; [by apply Reachable_tick|exact Hok].
Qed.

Lemma gridOK_runLoop n s s' :
  Reachable s -> gridOK s -> Simulation.runLoop n s = Some s' -> gridOK s'.
Proof.
  revert s. induction n as [|n IH]; intros s Hs Hok; cbn [Simulation.runLoop].
  - by intros [= <-].
  - destruct (Simulation.isComplete s); [by intros [= <-]|].
    destruct (Simulation.step s) as [s1|] eqn:Hstep; [|done]. cbn.
    apply IH; [by eapply Reachable_step|by eapply gridOK_step].
Qed.

Lemma config_step s s' :
  Reachable s -> Simulation.step s = Some s' ->
  Aircraft.config (Simulation.aircraft s') = Aircraft.config (Simulation.aircraft s).
Proof.
  intros Hs Hstep. destruct (Simulation.isComplete s) eqn:Hc.
  - unfold Simulation.step in Hstep. rewrite Hc in Hstep. by injection Hstep as <-.
  - destruct (step_phases s s' Hc Hstep) as (s3 & Hadd & ->).
    set (s1 := Simulation.set_currentStep (Simulation.currentStep s + 1) s) in *.
    assert (Hs1 : Reachable s1) by by apply Reachable_tick.
    destruct (handled_all s1 (Simulation.getAislePassengersSorted s1)
                (Reachable_Inv s1 Hs1)) as [HI2 (_ & _ & _ & _ & Hcfg & _)].
    assert (Hcheck : forall x,
      Simulation.aircraft (Simulation.checkCompletion x) = Simulation.aircraft x).
    { intros x. unfold Simulation.checkCompletion.
      by destruct (Simulation.allSeated x). }
    rewrite Hcheck.
    destruct (tryAddFromQueue_cases _ s3 HI2 Hadd)
      as [[-> _]|(k & rest & ps & _ & _ & _ & ->)]; exact Hcfg.
Qed.

Lemma config_runLoop n s s' :
  Reachable s -> Simulation.runLoop n s = Some s' ->
  Aircraft.config (Simulation.aircraft s') = Aircraft.config (Simulation.aircraft s).
Proof.
  revert s. induction n as [|n IH]; intros s Hs; cbn [Simulation.runLoop].
  - by intros [= <-].
  - destruct (Simulation.isComplete s); [by intros [= <-]|].
    destruct (Simulation.step s) as [s1|] eqn:Hstep; [|done]. cbn.
    intros Hrun. rewrite (IH s1 (Reachable_step s s1 Hs Hstep) Hrun).
    by apply config_step.
Qed.

(** The constructor of the simulation resets the layout it is given: on a
    layout within its grid the simulation is the one a newly constructed
    layout would give. *)
Lemma new_on_used_layout passengers a :
  withinGrid a ->
  Simulation.new passengers a
  = Simulation.new passengers (Aircraft.new (Aircraft.config a)).
Proof.
  intros Hgrid. unfold Simulation.new, Simulation.reset.
  cbn [Simulation.aircraft Simulation.originalPassengers].
  rewrite (reset_fresh a Hgrid).
  by rewrite (reset_fresh _ (new_withinGrid (Aircraft.config a))).
Qed.

Lemma runScenario_on_used_layout priorityFn passengers a :
  withinGrid a ->
  Forall (seatInGrid (Aircraft.config a)) passengers ->
  fst <$> GeneticOptimizer.runScenario priorityFn passengers a
  = freshRun priorityFn passengers (Aircraft.config a)
  /\ forall steps a',
       GeneticOptimizer.runScenario priorityFn passengers a = Some (steps, a') ->
       withinGrid a' /\ Aircraft.config a' = Aircraft.config a.
Proof.
  intros Hgrid Hseats. unfold freshRun, GeneticOptimizer.runScenario.
  rewrite (new_on_used_layout passengers a Hgrid).
  split; [done|]. intros steps a'. cbn zeta.
  set (s0 := Simulation.setBoardingOrder _ _).
  unfold Simulation.runToCompletion.
  destruct (Simulation.runLoop _ s0) as [s'|] eqn:Hrun; [|done].
  cbn. intros [= _ <-].
  assert (Hs0 : Reachable s0) by apply Reachable_start.
  assert (Ha0 : Simulation.aircraft s0 = Aircraft.new (Aircraft.config a)).
  { unfold s0, Simulation.setBoardingOrder, Simulation.set_queue,
      Simulation.new, Simulation.reset.
    cbn [Simulation.aircraft].
    exact (reset_fresh _ (new_withinGrid (Aircraft.config a))). }
  assert (Hok : gridOK s0).
  { split; [rewrite Ha0; apply new_withinGrid|]. rewrite Ha0. exact Hseats. }
  split.
  - by apply (gridOK_runLoop _ s0 s' Hs0 Hok Hrun).
  - by rewrite (config_runLoop _ s0 s' Hs0 Hrun), Ha0.
Qed.

Lemma runScenarios_on_used_layout priorityFn testScenarios totalTime a :
  withinGrid a ->
  Forall (Forall (seatInGrid (Aircraft.config a))) testScenarios ->
  fst <$> GeneticOptimizer.runScenarios priorityFn testScenarios totalTime a
  = (fun steps => totalTime + foldr Z.add 0 steps)
      <$> mapM (fun passengers => freshRun priorityFn passengers (Aircraft.config a))
            testScenarios
  /\ forall total a',
       GeneticOptimizer.runScenarios priorityFn testScenarios totalTime a
       = Some (total, a') ->
       withinGrid a' /\ Aircraft.config a' = Aircraft.config a.
Proof.
  revert totalTime a.
  induction testScenarios as [|passengers rest IH]; intros totalTime a Hgrid Hall.
  - cbn. split; [f_equal; lia|]. by intros total a' [= _ <-].
  - apply Forall_cons in Hall as [Hseats Hrest].
    destruct (runScenario_on_used_layout priorityFn passengers a Hgrid Hseats)
      as [Hfst Hnext].
    cbn [GeneticOptimizer.runScenarios mapM].
    destruct (GeneticOptimizer.runScenario priorityFn passengers a)
      as [[steps a1]|] eqn:Hrun.
    + destruct (Hnext steps a1 eq_refl) as [Hgrid1 Hcfg1].
      cbn in Hfst. rewrite <- Hfst. cbn [mbind option_bind].
      rewrite <- Hcfg1 in Hrest.
      destruct (IH (totalTime + steps) a1 Hgrid1 Hrest) as [IHfst IHnext].
      rewrite Hcfg1 in IHfst. split.
      * rewrite IHfst.
        destruct (mapM _ rest) as [l|]; [|done].
        cbn. f_equal. lia.
      * intros total a' Hsome. destruct (IHnext total a' Hsome) as [? ?].
        split; [done|congruence].
    + cbn in Hfst. rewrite <- Hfst. cbn. split; [done|]. by intros ? ? [=].
Qed.

(** The fitness computed on the layout the optimizer holds is the average
    that layouts constructed anew would give. *)
Lemma evaluateFitness_on_used_layout {Weights}
    (createPriorityFn : Weights -> Passenger.t -> Q) (weights : Weights)
    (testScenarios : list (list Passenger.t)) (a : Aircraft.t) :
  withinGrid a ->
  Forall (Forall (seatInGrid (Aircraft.config a))) testScenarios ->
  fst <$> GeneticOptimizer.evaluateFitness createPriorityFn weights
            testScenarios a
  = averageOnFreshLayouts (createPriorityFn weights) testScenarios
      (Aircraft.config a)
  /\ forall fitness a',
       GeneticOptimizer.evaluateFitness createPriorityFn weights testScenarios a
       = Some (fitness, a') ->
       withinGrid a' /\ Aircraft.config a' = Aircraft.config a.
Proof.
  intros Hgrid Hall.
  destruct (runScenarios_on_used_layout (createPriorityFn weights)
              testScenarios 0 a Hgrid Hall) as [Hfst Hnext].
  unfold GeneticOptimizer.evaluateFitness, averageOnFreshLayouts.
  destruct (GeneticOptimizer.runScenarios _ _ _ _) as [[total a1]|].
  - cbn in Hfst. destruct (mapM _ testScenarios) as [l|]; [|done].
    cbn in Hfst. injection Hfst as ->. split; [done|].
    cbn. intros fitness a' [= _ <-]. exact (Hnext _ a1 eq_refl).
  - cbn in Hfst. destruct (mapM _ testScenarios) as [l|]; [done|].
    split; [done|]. by intros ? ? [=].
Qed.

(** ** Generated passengers *)

Lemma allSeats_elem_of rows columns r c :
  (r, c) ∈ allSeats rows columns <-> 1 <= r <= rows /\ c ∈ columns.
Proof.
  unfold allSeats. rewrite list_elem_of_bind. split.
  - intros (r' & Hin & Hr). apply list_elem_of_fmap in Hin as (c' & [= -> ->] & Hc).
    apply elem_of_seqZ in Hr. split; [lia|done].
  - intros [Hr Hc]. exists r. split.
    + apply list_elem_of_fmap. by exists c.
    + apply elem_of_seqZ. lia.
Qed.

Lemma swap_preserves {A} (P : A -> Prop) i j (array array' : list A) :
  RandomGenerator.swap i j array = Some array' ->
  length array' = length array /\ (Forall P array -> Forall P array').
Proof.
  unfold RandomGenerator.swap, RandomGenerator.array_get.
  destruct (array !! i) as [x|] eqn:Hx; [|done]. cbn [mbind option_bind].
  destruct (j <? 0); [done|].
  destruct (array !! Z.to_nat j) as [y|] eqn:Hy; [|done]. cbn.
  intros [= <-]. split; [by rewrite !length_insert|].
  intros Hall. rewrite Forall_forall in Hall.
  apply Forall_insert; [apply Forall_insert|].
  - by apply Forall_forall.
  - apply Hall. by eapply list_elem_of_lookup_2.
  - apply Hall. by eapply list_elem_of_lookup_2.
Qed.

Lemma shuffle_from_preserves {A} (P : A -> Prop) i (array array' : list A) g g' :
  RandomGenerator.shuffle_from i array g = Some (array', g') ->
  length array' = length array /\ (Forall P array -> Forall P array').
Proof.
  revert array g. induction i as [|i IH]; intros array g;
    cbn [RandomGenerator.shuffle_from].
  - by intros [= <- <-].
  - destruct (RandomGenerator.nextInt 0 (Z.of_nat (S i)) g) as [j g1].
    destruct (RandomGenerator.swap (S i) j array) as [array1|] eqn:Hswap;
      [|done].
    cbn. intros Hrest.
    destruct (swap_preserves P _ _ _ _ Hswap) as [Hlen1 Hall1].
    destruct (IH _ _ Hrest) as [Hlen Hall]. split; [congruence|auto].
Qed.

Lemma makePassengers_spec index selectedSeats g passengers g' :
  makePassengers index selectedSeats g = Some (passengers, g') ->
  Passenger.seat <$> passengers = selectedSeats
  /\ Passenger.id <$> passengers = seq (index + 1) (length selectedSeats).
Proof.
  revert index g passengers.
  induction selectedSeats as [|seat rest IH]; intros index g passengers;
    cbn [makePassengers].
  - by intros [= <- <-].
  - destruct (RandomGenerator.pick walkSpeedChoices g) as [w g1].
    destruct (RandomGenerator.pick carryOnChoices g1) as [c g2].
    destruct (RandomGenerator.pick complianceChoices g2) as [k g3].
    destruct w as [w|]; [|done]. destruct c as [c|]; [|done].
    destruct k as [k|]; [|done]. cbn [mbind option_bind].
    destruct (makePassengers (S index) rest g3) as [[ps g4]|] eqn:Hrest;
      [|done].
    cbn. intros [= <- <-]. destruct (IH _ _ _ Hrest) as [Hseats Hids].
    rewrite !fmap_cons, Hseats, Hids. cbn [length seq].
    split; [by destruct seat|]. reflexivity.
Qed.

Lemma generatePassengers_spec count rows columns rng passengers g' :
  generatePassengers count rows columns rng = Some (passengers, g') ->
  Passenger.id <$> passengers = seq 1 (length passengers)
  /\ length passengers = (count `min` length (allSeats rows columns))%nat
  /\ Forall (fun p => 1 <= Passenger.row p <= rows
                      /\ Passenger.column p ∈ columns) passengers.
Proof.
  unfold generatePassengers, RandomGenerator.shuffle.
  destruct (RandomGenerator.shuffle_from _ _ rng) as [[shuffled g]|] eqn:Hsh;
    [|done].
  cbn. intros Hmake.
  destruct (shuffle_from_preserves
              (fun seat => 1 <= seat.1 <= rows /\ seat.2 ∈ columns)
              _ _ _ _ _ Hsh) as [Hlen Hall].
  destruct (makePassengers_spec _ _ _ _ _ Hmake) as [Hseats Hids].
  assert (Hlength : length passengers = length (take count shuffled)).
  { by rewrite <- Hseats, length_fmap. }
  split; [by rewrite Hids, Hlength|].
  split; [by rewrite Hlength, length_take, Hlen|].
  assert (Hgrid : Forall (fun seat : Z * string =>
                            1 <= seat.1 <= rows /\ seat.2 ∈ columns)
                    (take count shuffled)).
  { apply Forall_take, Hall. apply Forall_forall. intros [r c] Hin.
    by apply allSeats_elem_of. }
  rewrite <- Hseats in Hgrid. by rewrite Forall_fmap in Hgrid.
Qed.

Lemma swap_NoDup {A} i j (array array' : list A) :
  RandomGenerator.swap i j array = Some array' -> NoDup array -> NoDup array'.
Proof.
  unfold RandomGenerator.swap, RandomGenerator.array_get.
  destruct (array !! i) as [x|] eqn:Hx; [|done]. cbn [mbind option_bind].
  destruct (j <? 0); [done|].
  destruct (array !! Z.to_nat j) as [y|] eqn:Hy; [|done]. cbn.
  intros [= <-] Hnd. rewrite NoDup_alt in Hnd. apply NoDup_alt.
  assert (Hi : (i < length array)%nat) by (by eapply lookup_lt_Some).
  assert (Hj : (Z.to_nat j < length array)%nat) by (by eapply lookup_lt_Some).
  intros a b z. rewrite !list_lookup_insert, !length_insert.
  repeat case_decide; intros Ha Hb; simplify_eq; try lia;
    try (exfalso; by eauto using eq_sym);
    try (by eapply Hnd).
  all: try match goal with
       | H1 : ?l !! ?u = Some ?v, H2 : ?l !! ?w = Some ?v |- _ =>
           pose proof (Hnd u w v H1 H2); lia
       end.
Qed.

Lemma shuffle_from_NoDup {A} i (array array' : list A) g g' :
  RandomGenerator.shuffle_from i array g = Some (array', g') ->
  NoDup array -> NoDup array'.
Proof.
  revert array g. induction i as [|i IH]; intros array g;
    cbn [RandomGenerator.shuffle_from].
  - by intros [= <- <-].
  - destruct (RandomGenerator.nextInt 0 (Z.of_nat (S i)) g) as [j g1].
    destruct (RandomGenerator.swap (S i) j array) as [array1|] eqn:Hswap;
      [|done].
    cbn. intros Hrest Hnd. eapply IH; [exact Hrest|]. by eapply swap_NoDup.
Qed.

Lemma allSeats_NoDup rows columns : NoDup columns -> NoDup (allSeats rows columns).
Proof.
  intros Hnd. unfold allSeats. apply NoDup_bind.
  - intros r1 r2 [r c] _ _ (c1 & [= -> ->] & _)%list_elem_of_fmap
      (c2 & [= -> _] & _)%list_elem_of_fmap. done.
  - intros r _. apply NoDup_fmap_2; [|done]. by intros c1 c2 [= ->].
  - apply NoDup_seqZ.
Qed.

(** Generated passengers have seats of their own as soon as the column
    labels of the layout are distinct. *)
Lemma generatePassengers_noSharedSeat count rows columns rng passengers g' :
  NoDup columns ->
  generatePassengers count rows columns rng = Some (passengers, g') ->
  noSharedSeat passengers.
Proof.
  intros Hcols. unfold generatePassengers, RandomGenerator.shuffle.
  destruct (RandomGenerator.shuffle_from _ _ rng) as [[shuffled g]|] eqn:Hsh;
    [|done].
  cbn. intros Hmake.
  destruct (makePassengers_spec _ _ _ _ _ Hmake) as [Hseats _].
  assert (Hnd : NoDup (Passenger.seat <$> passengers)).
  { rewrite Hseats. eapply sublist_NoDup; [|apply sublist_take].
    eapply shuffle_from_NoDup; [exact Hsh|]. by apply allSeats_NoDup. }
  intros p q [i Hp]%list_elem_of_lookup [j Hq]%list_elem_of_lookup Hseat.
  rewrite NoDup_alt in Hnd.
  assert (Hij : i = j).
  { apply (Hnd i j (Passenger.seat p)).
    - by rewrite list_lookup_fmap, Hp.
    - by rewrite list_lookup_fmap, Hq, Hseat. }
  subst j. rewrite Hp in Hq. by injection Hq as ->.
Qed.

Lemma testScenarios_spec (a : Aircraft.t) (scenarios : list (list Passenger.t)) :
  GeneticOptimizer.testScenarios a = Some scenarios ->
  length scenarios = 3%nat
  /\ Forall (fun passengers =>
               length passengers
               = (114 `min` length (allSeats (Aircraft.rows a) (Aircraft.columns a)))%nat
               /\ Passenger.id <$> passengers = seq 1 (length passengers))
            scenarios
  /\ Forall (Forall (seatInGrid (Aircraft.config a))) scenarios.
Proof.
  unfold GeneticOptimizer.testScenarios. intros Hmap%mapM_Some.
  split; [by rewrite <- (Forall2_length _ _ _ Hmap)|].
  assert (Heach : Forall (fun passengers =>
    exists seed g', generatePassengers GeneticOptimizer.scenarioCount
                      (Aircraft.rows a) (Aircraft.columns a)
                      (RandomGenerator.new seed) = Some (passengers, g'))
    scenarios).
  { induction Hmap as [|seed ps seeds l Hone _ IH]; constructor; [|done].
    destruct (generatePassengers _ _ _ _) as [[ps' g']|] eqn:Hgen; [|done].
    cbn in Hone. injection Hone as <-. by exists seed, g'. }
  split.
  - eapply Forall_impl; [exact Heach|].
    intros ps (seed & g' & (Hids & Hlen & _)%generatePassengers_spec). by split.
  - eapply Forall_impl; [exact Heach|].
    intros ps (seed & g' & (_ & _ & Hgrid)%generatePassengers_spec).
    exact Hgrid.
Qed.

(** ** Runs do not fail on a boarding order of known ids *)

Lemma queueValid_handling s ks :
  Inv s -> queueValid s ->
  queueValid (foldl Simulation.processPassengerInAisle s ks).
Proof.
  intros HI Hq.
  destruct (handled_all s ks HI) as [_ (_ & Hqueue & _ & _ & _ & Hr & _)].
  unfold queueValid. rewrite Hqueue.
  eapply Forall_impl; [exact Hq|].
  intros r (k & -> & Hk). exists k. split; [done|]. by eapply is_Some_roster.
Qed.

Lemma tryAddFromQueue_total s :
  Inv s -> queueValid s ->
  exists s', Simulation.tryAddFromQueue s = Some s' /\ queueValid s'.
Proof.
  intros HI Hq. unfold Simulation.tryAddFromQueue. unfold queueValid in Hq.
  destruct (Simulation.queue s) as [|r rest] eqn:Hqueue.
  { exists s. split; [done|]. unfold queueValid. by rewrite Hqueue. }
  destruct (Aircraft.isAisleOccupied _ 0) eqn:Hfree.
  { exists s. split; [done|]. unfold queueValid. by rewrite Hqueue. }
  apply Forall_cons in Hq as [(k & -> & [ps Hps]) Hrest].
  cbn [mbind option_bind]. rewrite Hps. cbn [mbind option_bind].
  eexists. split; [done|].
  unfold queueValid. unfold_engine.
  eapply Forall_impl; [exact Hrest|].
  intros r (k' & -> & Hk'). exists k'. split; [done|].
  rewrite assoc_get_set. by destruct (decide _).
Qed.

Lemma step_total s :
  Reachable s -> queueValid s ->
  exists s', Simulation.step s = Some s' /\ queueValid s'.
Proof.
  intros Hs Hq. unfold Simulation.step.
  destruct (Simulation.isComplete s); [by exists s|]. cbn zeta.
  set (s1 := Simulation.set_currentStep (Simulation.currentStep s + 1) s).
  assert (Hs1 : Reachable s1) by by apply Reachable_tick.
  destruct (handled_all s1 (Simulation.getAislePassengersSorted s1)
              (Reachable_Inv s1 Hs1)) as [HI2 _].
  destruct (tryAddFromQueue_total _ HI2
              (queueValid_handling s1 (Simulation.getAislePassengersSorted s1)
                 (Reachable_Inv s1 Hs1) Hq))
    as (s3 & -> & Hq3).
  cbn. eexists. split; [done|].
  unfold Simulation.checkCompletion. by destruct (Simulation.allSeated s3).
Qed.

Lemma steps_total n s :
  Reachable s -> queueValid s -> is_Some (Simulation.steps n s).
Proof.
  revert s. induction n as [|n IH]; intros s Hs Hq; cbn [Simulation.steps];
    [done|].
  destruct (step_total s Hs Hq) as (s' & Hstep & Hq').
  rewrite Hstep. cbn. apply IH; [by eapply Reachable_step|done].
Qed.

Lemma runLoop_total n s :
  Reachable s -> queueValid s -> is_Some (Simulation.runLoop n s).
Proof.
  revert s. induction n as [|n IH]; intros s Hs Hq; cbn [Simulation.runLoop];
    [done|].
  destruct (Simulation.isComplete s); [done|].
  destruct (step_total s Hs Hq) as (s' & Hstep & Hq').
  rewrite Hstep. cbn. apply IH; [by eapply Reachable_step|done].
Qed.

Lemma queueValid_start passengers aircraft orderedIds :
  Forall (fun id => exists p, p ∈ passengers /\ Passenger.id p = id) orderedIds ->
  queueValid (Simulation.setBoardingOrder orderedIds
                (Simulation.new passengers aircraft)).
Proof.
  intros Hids. unfold queueValid.
  change (Simulation.queue (Simulation.setBoardingOrder orderedIds
                              (Simulation.new passengers aircraft)))
    with ((fun id => match assoc_get id (Simulation.passengerStates
                                           (Simulation.new passengers aircraft)) with
                     | Some _ => Some id
                     | None => None
                     end) <$> orderedIds).
  apply Forall_fmap. eapply Forall_impl; [exact Hids|].
  intros id Hid. unfold compose.
  apply (initial_store_keys passengers aircraft orderedIds) in Hid.
  change (Simulation.passengerStates
            (Simulation.setBoardingOrder orderedIds
               (Simulation.new passengers aircraft)))
    with (Simulation.passengerStates (Simulation.new passengers aircraft)) in Hid.
  destruct Hid as [ps Hps]. rewrite Hps. exists id. split; [done|].
  by exists ps.
Qed.

(** A run on a boarding order made of ids of the passengers raises no
    error, however many ticks it takes. *)
Lemma run_never_fails passengers aircraft orderedIds n :
  Forall (fun id => exists p, p ∈ passengers /\ Passenger.id p = id) orderedIds ->
  is_Some (Simulation.steps n
             (Simulation.setBoardingOrder orderedIds
                (Simulation.new passengers aircraft))).
Proof.
  intros Hids. apply steps_total; [apply Reachable_start|].
  by apply queueValid_start.
Qed.

Lemma runScenario_total priorityFn passengers a :
  is_Some (GeneticOptimizer.runScenario priorityFn passengers a).
Proof.
  unfold GeneticOptimizer.runScenario. cbn zeta.
  set (s0 := Simulation.setBoardingOrder _ _).
  unfold Simulation.runToCompletion.
  destruct (runLoop_total (Z.to_nat (5000 - Simulation.currentStep s0)) s0)
    as [s' Hrun].
  - apply Reachable_start.
  - apply queueValid_start. apply Forall_forall. intros id Hid.
    rewrite array_sort_perm in Hid.
    apply list_elem_of_fmap in Hid as ([id' q] & -> & Hin).
    apply list_elem_of_fmap in Hin as (p & [= -> ->] & Hp). by exists p.
  - by rewrite Hrun.
Qed.

(** ** The fitness of a genome *)

Lemma runScenarios_total priorityFn testScenarios totalTime a :
  is_Some (GeneticOptimizer.runScenarios priorityFn testScenarios totalTime a).
Proof.
  revert totalTime a. induction testScenarios as [|passengers rest IH];
    intros totalTime a; cbn [GeneticOptimizer.runScenarios]; [done|].
  destruct (runScenario_total priorityFn passengers a) as [[steps a'] ->].
  cbn. apply IH.
Qed.

Lemma evaluateFitness_total {Weights}
    (createPriorityFn : Weights -> Passenger.t -> Q) weights testScenarios a :
  is_Some (GeneticOptimizer.evaluateFitness createPriorityFn weights
             testScenarios a).
Proof.
  unfold GeneticOptimizer.evaluateFitness.
  by destruct (runScenarios_total (createPriorityFn weights) testScenarios 0 a)
    as [[total a'] ->].
Qed.

Lemma updateBest_keeps_lower {Weights} (best top : Weights * Q) :
  let kept := GeneticOptimizer.updateBest (Some best) top in
  (kept.2 <= best.2)%Q /\ (kept.2 <= top.2)%Q /\ (kept = best \/ kept = top).
Proof.
  unfold GeneticOptimizer.updateBest. cbn zeta.
  destruct (Qle_bool best.2 top.2) eqn:E; cbn [negb].
  - apply Qle_bool_iff in E. split; [apply Qle_refl|]. split; [done|by left].
  - assert (Hlt : (top.2 < best.2)%Q).
    { apply Qnot_le_lt. intros Hle. apply Qle_bool_iff in Hle. congruence. }
    split; [by apply Qlt_le_weak|]. split; [apply Qle_refl|by right].
Qed.

(** C9, as the code has it: the optimizer generates three scenarios, with
    the seeds 12345, 12346 and 12347, of one passenger count, on the
    dimensions of its layout.  The fitness of a genome is computed without
    error; it is the average, over these scenarios, of the steps a run of
    at most 5000 steps takes.  Each run has a simulator of its own, built
    on the layout the optimizer holds; since the constructor of the
    simulator resets that layout, the fitness is the one layouts
    constructed anew would give, and the layout comes out within its grid,
    ready for the next evaluation.  Of two solutions the one of lower
    fitness is kept. *)
Theorem fitness_averages_three_runs_on_the_reset_layout {Weights}
    (createPriorityFn : Weights -> Passenger.t -> Q) (weights : Weights)
    (a : Aircraft.t) (scenarios : list (list Passenger.t)) :
  withinGrid a ->
  GeneticOptimizer.testScenarios a = Some scenarios ->
  (length scenarios = 3%nat
   /\ GeneticOptimizer.scenarioSeeds = [12345; 12346; 12347]
   /\ NoDup GeneticOptimizer.scenarioSeeds
   /\ Forall (fun passengers =>
                length passengers
                = (114 `min` length (allSeats (Aircraft.rows a)
                                       (Aircraft.columns a)))%nat
                /\ Passenger.id <$> passengers = seq 1 (length passengers))
             scenarios)
  /\ (exists fitness a',
        GeneticOptimizer.evaluateFitness createPriorityFn weights scenarios a
        = Some (fitness, a')
        /\ averageOnFreshLayouts (createPriorityFn weights) scenarios
             (Aircraft.config a) = Some fitness
        /\ withinGrid a'
        /\ Aircraft.config a' = Aircraft.config a)
  /\ (forall best top : Weights * Q,
        let kept := GeneticOptimizer.updateBest (Some best) top in
        (kept.2 <= best.2)%Q /\ (kept.2 <= top.2)%Q
        /\ (kept = best \/ kept = top)).
Proof.
  intros Hgrid Hscenarios.
  destruct (testScenarios_spec a scenarios Hscenarios) as (Hthree & Hsame & Hin).
  split; [|split].
  - split; [done|]. split; [reflexivity|]. split; [|done].
    by apply (bool_decide_unpack _).
  - destruct (evaluateFitness_total createPriorityFn weights scenarios a)
      as [[fitness a'] Heval].
    destruct (evaluateFitness_on_used_layout createPriorityFn weights scenarios a
                Hgrid Hin) as [Hfst Hnext].
    exists fitness, a'. split; [done|].
    rewrite Heval in Hfst. cbn in Hfst. split; [done|].
    by apply (Hnext fitness).
  - intros best top. apply updateBest_keeps_lower.
Qed.

Lemma fitness_averages_three_runs_on_the_reset_layout_witness :
  length SharedLayout.scenarios = 3%nat
  /\ exists fitness a',
       GeneticOptimizer.evaluateFitness byRow 1 SharedLayout.scenarios
         SharedLayout.aircraft = Some (fitness, a')
       /\ averageOnFreshLayouts (byRow 1) SharedLayout.scenarios Scenario.layout
          = Some fitness.
Proof.
  assert (Hgen : GeneticOptimizer.testScenarios SharedLayout.aircraft
                 = Some SharedLayout.scenarios)
    by (vm_compute; reflexivity).
  pose proof (fitness_averages_three_runs_on_the_reset_layout byRow 1
                SharedLayout.aircraft SharedLayout.scenarios
                (new_withinGrid Scenario.layout) Hgen) as T.
  destruct T as ((Hthree & _) & (fitness & a' & Heval & Havg & _) & _).
  split; [exact Hthree|]. exists fitness, a'. split; [exact Heval|exact Havg].
Defined.

(** C9, as it is worded, fails: an evaluation does not leave the layout of
    the optimizer as it found it.  After one scenario on the empty one-row
    layout, seat 1A of that very layout holds passenger P1. *)
Lemma evaluation_changes_the_shared_layout :
  ~ evaluationLeavesLayout byRow.
Proof.
  intros Hfresh.
  destruct (GeneticOptimizer.evaluateFitness byRow 1
              [[Scenario.P1; Scenario.P2]] SharedLayout.aircraft)
    as [[fitness a']|] eqn:Heval.
  - pose proof (Hfresh _ _ _ _ _ Heval) as Hsame.
    assert (Hseat :
      (fun r => Aircraft.getPassengerInSeat r.2 1 "A")
        <$> GeneticOptimizer.evaluateFitness byRow 1
              [[Scenario.P1; Scenario.P2]] SharedLayout.aircraft
      = Some (Some (Some Scenario.P1)))
      by (vm_compute; reflexivity).
    rewrite Heval in Hseat. cbn [fmap option_fmap option_map snd] in Hseat.
    rewrite Hsame in Hseat.
    assert (Hempty : Aircraft.getPassengerInSeat SharedLayout.aircraft 1 "A"
                     = Some None) by (vm_compute; reflexivity).
    rewrite Hempty in Hseat. discriminate.
  - assert (Hsome :
      is_Some (GeneticOptimizer.evaluateFitness byRow 1
                 [[Scenario.P1; Scenario.P2]] SharedLayout.aircraft))
      by apply evaluateFitness_total.
    rewrite Heval in Hsome. by destruct Hsome.
Qed.


(** ** The generator beyond its first draw *)

Lemma next_seed_nonneg g :
  0 <= RandomGenerator.seed g ->
  0 <= RandomGenerator.seed (RandomGenerator.next g).2 < RandomGenerator.m.
Proof.
  intros Hs. unfold RandomGenerator.next. cbn [snd RandomGenerator.seed].
  rewrite Z.rem_mod_nonneg; [|unfold RandomGenerator.a; lia|done].
  apply Z.mod_pos_bound. done.
Qed.

(** After a draw the seed lies below [m]: the next product stays below
    [2^47] and is exact in a double, like every product after it.  A
    bound on the seed the generator starts from covers all its draws. *)
Lemma next_stays_exact g :
  0 <= RandomGenerator.seed g ->
  48271 * RandomGenerator.seed (RandomGenerator.next g).2 <= 2 ^ 53.
Proof.
  intros Hs. pose proof (next_seed_nonneg g Hs) as H.
  unfold RandomGenerator.m in H. lia.
Qed.

Lemma next_value g :
  (RandomGenerator.next g).1
  = Qmake (RandomGenerator.seed (RandomGenerator.next g).2) 2147483647.
Proof. reflexivity. Qed.

Lemma Qfloor_scaled (s k : Z) :
  Qfloor (Qmake s 2147483647 * inject_Z k) = (s * k) `div` 2147483647.
Proof. reflexivity. Qed.

Lemma nextInt_range min max g :
  0 <= RandomGenerator.seed g -> min <= max ->
  min <= (RandomGenerator.nextInt min max g).1 <= max
  /\ 0 <= RandomGenerator.seed (RandomGenerator.nextInt min max g).2
     < RandomGenerator.m.
Proof.
  intros Hs Hm. pose proof (next_seed_nonneg g Hs) as Hnext.
  unfold RandomGenerator.nextInt.
  destruct (RandomGenerator.next g) as [x g'] eqn:E.
  pose proof (next_value g) as Hx. rewrite E in Hx. cbn [fst snd] in *.
  subst x. rewrite Qfloor_scaled. unfold RandomGenerator.m in *.
  split; [|done].
  assert (H0 : 0 <= (RandomGenerator.seed g' * (max - min + 1)) `div` 2147483647)
    by (apply Z.div_pos; nia).
  assert (H1 : (RandomGenerator.seed g' * (max - min + 1)) `div` 2147483647
               < max - min + 1)
    by (apply Z.div_lt_upper_bound; nia).
  lia.
Qed.

(** X1: a seed between 1 and m - 1 stays there: the generator never falls
    into the state 0 and every draw lies strictly between 0 and 1.  The
    seed 0 is a fixed point: every draw is 0. *)
Theorem next_keeps_the_seed_alive (g : RandomGenerator.t) (n : nat) :
  (0 < RandomGenerator.seed g < RandomGenerator.m ->
   0 < RandomGenerator.seed (draws n g) < RandomGenerator.m
   /\ (0 < (RandomGenerator.next (draws n g)).1)%Q
   /\ ((RandomGenerator.next (draws n g)).1 < 1)%Q)
  /\ (RandomGenerator.seed g = 0 ->
      RandomGenerator.seed (draws n g) = 0
      /\ ((RandomGenerator.next (draws n g)).1 == 0)%Q).
Proof.
  assert (Hstep : forall h, 0 < RandomGenerator.seed h < RandomGenerator.m ->
            0 < RandomGenerator.seed (RandomGenerator.next h).2
            < RandomGenerator.m).
  { intros h Hh.
    destruct (next_seed_nonneg h ltac:(lia)) as [H0 H1]. split; [|done].
    destruct (decide (RandomGenerator.seed (RandomGenerator.next h).2 = 0))
      as [Hz|]; [|lia].
    exfalso. unfold RandomGenerator.next in Hz. cbn [snd RandomGenerator.seed] in Hz.
    rewrite Z.rem_mod_nonneg in Hz; [|unfold RandomGenerator.a; lia|done].
    apply Z.mod_divide in Hz; [|done].
    apply Z.gauss in Hz; [|reflexivity].
    apply Z.divide_pos_le in Hz; lia. }
  assert (Hall : forall n h, 0 < RandomGenerator.seed h < RandomGenerator.m ->
            0 < RandomGenerator.seed (draws n h) < RandomGenerator.m).
  { clear n. induction n as [|n IH]; intros h Hh; cbn [draws]; [done|].
    apply IH, Hstep, Hh. }
  assert (Hzero : forall n h, RandomGenerator.seed h = 0 ->
            RandomGenerator.seed (draws n h) = 0).
  { clear n. induction n as [|n IH]; intros h Hh; cbn [draws]; [done|].
    apply IH. unfold RandomGenerator.next. cbn [snd RandomGenerator.seed].
    by rewrite Hh. }
  split.
  - intros Hg. pose proof (Hall n g Hg) as Hn. split; [done|].
    pose proof (Hstep _ Hn) as Hn'. rewrite next_value.
    unfold Qlt. cbn [Qnum Qden]. unfold RandomGenerator.m in Hn'. lia.
  - intros Hg. split; [by apply Hzero|].
    rewrite next_value. unfold RandomGenerator.next.
    cbn [snd RandomGenerator.seed]. rewrite (Hzero n); [|done]. reflexivity.
Qed.

Lemma next_keeps_the_seed_alive_witness :
  0 < RandomGenerator.seed (draws 5 (RandomGenerator.new 12345))
  < RandomGenerator.m
  /\ ((RandomGenerator.next (draws 5 (RandomGenerator.new 0))).1 == 0)%Q.
Proof.
  assert (H : 0 < RandomGenerator.seed (RandomGenerator.new 12345)
              < RandomGenerator.m) by (vm_compute; split; reflexivity).
  pose proof (next_keeps_the_seed_alive (RandomGenerator.new 12345) 5) as T.
  pose proof (next_keeps_the_seed_alive (RandomGenerator.new 0) 5) as T0.
  destruct T as [T _]. destruct T0 as [_ T0].
  split; [exact (proj1 (T H))|exact (proj2 (T0 eq_refl))].
Defined.

Lemma array_get_in_range {A} (array : list A) (i : Z) :
  0 <= i < Z.of_nat (length array) ->
  exists x, RandomGenerator.array_get array i = Some x /\ x ∈ array.
Proof.
  intros Hi. unfold RandomGenerator.array_get.
  destruct (i <? 0) eqn:E; [lia|].
  destruct (lookup_lt_is_Some_2 array (Z.to_nat i)) as [x Hx]; [lia|].
  exists x. split; [done|]. by eapply list_elem_of_lookup_2.
Qed.

Lemma pick_in_range {A} (array : list A) g :
  0 <= RandomGenerator.seed g -> array <> [] ->
  (exists x, (RandomGenerator.pick array g).1 = Some x /\ x ∈ array)
  /\ 0 <= RandomGenerator.seed (RandomGenerator.pick array g).2
     < RandomGenerator.m.
Proof.
  intros Hs Hne. unfold RandomGenerator.pick.
  assert (Hlen : 0 <= Z.of_nat (length array) - 1)
    by (destruct array; [done|cbn; lia]).
  pose proof (nextInt_range 0 (Z.of_nat (length array) - 1) g Hs Hlen) as [Hi Hg].
  destruct (RandomGenerator.nextInt _ _ g) as [i g']. cbn [fst snd] in *.
  split; [|done]. apply array_get_in_range. lia.
Qed.

(** X2: on the seeds and bounds where the arithmetic of the code is
    exact (an integer seed that is not negative with
    [48271 * seed <= 2^53], integer bounds [min <= max] between [-2^52]
    and [2^52] less than [2^20] apart), [nextInt] answers an integer of
    [min..max]; [pick] answers an element of a non-empty array of at most
    [2^20] cells, and [undefined] on an empty one. *)
Theorem nextInt_and_pick_stay_in_range {A} (array : list A) (min max : Z)
    (g : RandomGenerator.t) :
  0 <= RandomGenerator.seed g ->
  48271 * RandomGenerator.seed g <= 2 ^ 53 ->
  (- 2 ^ 52 <= min -> min <= max -> max <= 2 ^ 52 -> max - min < 2 ^ 20 ->
   min <= (RandomGenerator.nextInt min max g).1 <= max)
  /\ (array <> [] -> Z.of_nat (length array) <= 2 ^ 20 ->
      exists x, (RandomGenerator.pick array g).1 = Some x /\ x ∈ array)
  /\ (RandomGenerator.pick (@nil A) g).1 = None.
Proof.
  intros Hs _. split; [|split].
  - intros _ Hm _ _. by apply nextInt_range.
  - intros Hne _. by apply pick_in_range.
  - unfold RandomGenerator.pick, RandomGenerator.nextInt.
    destruct (RandomGenerator.next g) as [x g']. cbn [fst].
    unfold RandomGenerator.array_get. by destruct (_ <? 0).
Qed.

Lemma nextInt_and_pick_stay_in_range_witness :
  1 <= (RandomGenerator.nextInt 1 6 (RandomGenerator.new 12345)).1 <= 6
  /\ exists x, (RandomGenerator.pick walkSpeedChoices
                  (RandomGenerator.new 12345)).1 = Some x
               /\ x ∈ walkSpeedChoices.
Proof.
  assert (H : 0 <= RandomGenerator.seed (RandomGenerator.new 12345))
    by (vm_compute; discriminate).
  assert (H' : 48271 * RandomGenerator.seed (RandomGenerator.new 12345)
               <= 2 ^ 53)
    by (vm_compute; discriminate).
  pose proof (nextInt_and_pick_stay_in_range walkSpeedChoices 1 6
                (RandomGenerator.new 12345) H H') as T.
  destruct T as (T1 & T2 & _).
  split; [apply T1; lia|apply T2; [discriminate|vm_compute; discriminate]].
Defined.

(** Exchanging two cells of an array rearranges it. *)
Lemma swap_Permutation {A} i j (array array' : list A) :
  RandomGenerator.swap i j array = Some array' -> array' ≡ₚ array.
Proof.
  unfold RandomGenerator.swap, RandomGenerator.array_get.
  destruct (array !! i) as [x|] eqn:Hx; [|done]. cbn [mbind option_bind].
  destruct (j <? 0); [done|].
  destruct (array !! Z.to_nat j) as [y|] eqn:Hy; [|done]. cbn.
  intros [= <-]. set (j' := Z.to_nat j) in *.
  assert (Hi : (i < length array)%nat) by (by eapply lookup_lt_Some).
  assert (Hj : (j' < length array)%nat) by (by eapply lookup_lt_Some).
  apply Permutation_inj. split; [by rewrite !length_insert|].
  exists (fun k => if decide (k = i) then j' else if decide (k = j') then i else k).
  split.
  - intros a b. repeat case_decide; intros; simplify_eq; done.
  - intros k. rewrite !list_lookup_insert, !length_insert.
    destruct (decide (k = i)) as [->|Hki].
    + rewrite (decide_True (P := i = i /\ _)) by done.
      destruct (decide (j' = i)) as [->|Hji].
      * rewrite decide_True by done. congruence.
      * rewrite decide_False by (intros [? _]; done). congruence.
    + rewrite (decide_False (P := i = k /\ _)) by (intros [? _]; done).
      destruct (decide (k = j')) as [->|Hkj].
      * rewrite decide_True by done. congruence.
      * rewrite decide_False by (intros [? _]; done). done.
Qed.

Lemma nextInt_state min max g :
  (RandomGenerator.nextInt min max g).2 = (RandomGenerator.next g).2.
Proof.
  unfold RandomGenerator.nextInt. by destruct (RandomGenerator.next g).
Qed.

Lemma draws_seed_nonneg n g :
  0 <= RandomGenerator.seed g -> 0 <= RandomGenerator.seed (draws n g).
Proof.
  revert g. induction n as [|n IH]; intros g Hg; cbn [draws]; [done|].
  apply IH. by apply next_seed_nonneg.
Qed.

Lemma swap_total {A} (i : nat) (j : Z) (array : list A) :
  (i < length array)%nat -> 0 <= j < Z.of_nat (length array) ->
  is_Some (RandomGenerator.swap i j array).
Proof.
  intros Hi Hj. unfold RandomGenerator.swap.
  destruct (lookup_lt_is_Some_2 array i Hi) as [x ->]. cbn [mbind option_bind].
  destruct (array_get_in_range array j Hj) as (y & -> & _). by eexists.
Qed.

Lemma shuffle_from_spec {A} (i : nat) (array : list A) g :
  0 <= RandomGenerator.seed g -> (i < length array)%nat ->
  exists array',
    RandomGenerator.shuffle_from i array g = Some (array', draws i g)
    /\ array' ≡ₚ array.
Proof.
  revert array g. induction i as [|i IH]; intros array g Hg Hi;
    cbn [RandomGenerator.shuffle_from draws].
  - by exists array.
  - pose proof (nextInt_range 0 (Z.of_nat (S i)) g Hg ltac:(lia)) as [Hj Hg'].
    pose proof (nextInt_state 0 (Z.of_nat (S i)) g) as Hst.
    destruct (RandomGenerator.nextInt 0 (Z.of_nat (S i)) g) as [j g1].
    cbn [fst snd] in *. subst g1.
    destruct (swap_total (S i) j array Hi ltac:(lia)) as [array1 Hswap].
    rewrite Hswap. cbn [mbind option_bind].
    pose proof (swap_Permutation _ _ _ _ Hswap) as Hperm.
    destruct (IH array1 (RandomGenerator.next g).2) as (array' & -> & Hperm').
    + lia.
    + rewrite (Permutation_length Hperm). lia.
    + exists array'. split; [done|]. by etrans.
Qed.

Lemma shuffle_spec {A} (array : list A) (g : RandomGenerator.t) :
  0 <= RandomGenerator.seed g ->
  exists array',
    RandomGenerator.shuffle array g
    = Some (array', draws (length array - 1) g)
    /\ array' ≡ₚ array.
Proof.
  intros Hg. unfold RandomGenerator.shuffle.
  destruct array as [|x array].
  - by exists [].
  - apply shuffle_from_spec; [done|cbn; lia].
Qed.

(** X3: for an integer seed that is not negative with
    [48271 * seed <= 2^53] and an array of at most [2^20] cells, where the
    arithmetic of the code is exact, [shuffle] rearranges the array: the
    result holds the same elements, each as often as before.  It takes
    one draw per cell but the first, and leaves the seed to return to on
    [reset()] as it was. *)
Theorem shuffle_rearranges {A} (array : list A) (g : RandomGenerator.t) :
  0 <= RandomGenerator.seed g ->
  48271 * RandomGenerator.seed g <= 2 ^ 53 ->
  Z.of_nat (length array) <= 2 ^ 20 ->
  exists array',
    RandomGenerator.shuffle array g
    = Some (array', draws (length array - 1) g)
    /\ array' ≡ₚ array
    /\ RandomGenerator.reset (draws (length array - 1) g)
       = RandomGenerator.reset g.
Proof.
  intros Hg _ _. destruct (shuffle_spec array g Hg) as (array' & Hsh & Hperm).
  exists array'. split; [done|]. split; [done|].
  unfold RandomGenerator.reset. by rewrite draws_initialSeed.
Qed.

Lemma shuffle_rearranges_witness :
  exists array',
    RandomGenerator.shuffle [1; 2; 3; 4; 5] (RandomGenerator.new 12345)
    = Some (array', draws 4 (RandomGenerator.new 12345))
    /\ array' ≡ₚ [1; 2; 3; 4; 5].
Proof.
  assert (H : 0 <= RandomGenerator.seed (RandomGenerator.new 12345))
    by (vm_compute; discriminate).
  assert (H' : 48271 * RandomGenerator.seed (RandomGenerator.new 12345)
               <= 2 ^ 53)
    by (vm_compute; discriminate).
  assert (Hlen : Z.of_nat (length [1; 2; 3; 4; 5]) <= 2 ^ 20)
    by (vm_compute; discriminate).
  pose proof (shuffle_rearranges [1; 2; 3; 4; 5] (RandomGenerator.new 12345)
                H H' Hlen) as T.
  destruct T as (array' & Hsh & Hperm & _).
  exists array'. split; [exact Hsh|exact Hperm].
Defined.

(** ** Generated passengers *)

Lemma allSeats_length rows columns :
  length (allSeats rows columns) = (Z.to_nat rows * length columns)%nat.
Proof.
  unfold allSeats. rewrite <- (length_seqZ 1 rows).
  induction (seqZ 1 rows) as [|r l IH]; [done|].
  csimpl. rewrite length_app, length_fmap, IH. lia.
Qed.

Lemma makePassengers_total index selectedSeats g :
  0 <= RandomGenerator.seed g ->
  is_Some (makePassengers index selectedSeats g).
Proof.
  revert index g. induction selectedSeats as [|seat rest IH]; intros index g Hg;
    cbn [makePassengers]; [by eexists|].
  destruct (pick_in_range walkSpeedChoices g Hg ltac:(done))
    as [(w & Hw & _) [Hg1 _]].
  destruct (RandomGenerator.pick walkSpeedChoices g) as [w' g1].
  cbn [fst snd] in *. subst w'.
  destruct (pick_in_range carryOnChoices g1 Hg1 ltac:(done))
    as [(c & Hc & _) [Hg2 _]].
  destruct (RandomGenerator.pick carryOnChoices g1) as [c' g2].
  cbn [fst snd] in *. subst c'.
  destruct (pick_in_range complianceChoices g2 Hg2 ltac:(done))
    as [(k & Hk & _) [Hg3 _]].
  destruct (RandomGenerator.pick complianceChoices g2) as [k' g3].
  cbn [fst snd] in *. subst k'. cbn [mbind option_bind].
  destruct (IH (S index) g3 Hg3) as [[ps g4] ->]. by eexists.
Qed.

(** X4: for an integer seed that is not negative with
    [48271 * seed <= 2^53] and a grid of at most [2^20] seats, where the
    arithmetic of the generator is exact, [generatePassengers] answers
    [min(count, rows * columns.length)] passengers with the ids 1, 2, ...
    in list order, each on a seat of the grid, and, when the column
    labels are distinct, no two of them on the same seat. *)
Theorem generatePassengers_seats_the_grid (count : nat) (rows : Z)
    (columns : list string) (rng : RandomGenerator.t) :
  0 <= RandomGenerator.seed rng ->
  48271 * RandomGenerator.seed rng <= 2 ^ 53 ->
  rows * Z.of_nat (length columns) <= 2 ^ 20 ->
  exists passengers rng',
    generatePassengers count rows columns rng = Some (passengers, rng')
    /\ length passengers = (count `min` (Z.to_nat rows * length columns))%nat
    /\ Passenger.id <$> passengers = seq 1 (length passengers)
    /\ Forall (fun p => 1 <= Passenger.row p <= rows
                        /\ Passenger.column p ∈ columns) passengers
    /\ (NoDup columns -> NoDup (Passenger.seat <$> passengers)).
Proof.
  intros Hg _ _.
  assert (Hsome : is_Some (generatePassengers count rows columns rng)).
  { unfold generatePassengers.
    destruct (shuffle_spec (allSeats rows columns) rng Hg)
      as (shuffled & -> & _). cbn [mbind option_bind].
    apply makePassengers_total. by apply draws_seed_nonneg. }
  destruct Hsome as [[passengers rng'] Hgen].
  exists passengers, rng'. split; [done|].
  destruct (generatePassengers_spec _ _ _ _ _ _ Hgen) as (Hids & Hlen & Hgrid).
  split; [by rewrite Hlen, allSeats_length|]. split; [done|]. split; [done|].
  intros Hcols. unfold generatePassengers, RandomGenerator.shuffle in Hgen.
  destruct (RandomGenerator.shuffle_from _ _ rng) as [[shuffled g]|] eqn:Hsh;
    [|done].
  cbn in Hgen. destruct (makePassengers_spec _ _ _ _ _ Hgen) as [-> _].
  eapply sublist_NoDup; [|apply sublist_take].
  eapply shuffle_from_NoDup; [exact Hsh|]. by apply allSeats_NoDup.
Qed.

Lemma generatePassengers_seats_the_grid_witness :
  exists passengers rng',
    generatePassengers 4 2 ["A"; "B"; "C"]%string (RandomGenerator.new 12345)
    = Some (passengers, rng')
    /\ length passengers = 4%nat
    /\ NoDup (Passenger.seat <$> passengers).
Proof.
  assert (H : 0 <= RandomGenerator.seed (RandomGenerator.new 12345))
    by (vm_compute; discriminate).
  assert (H' : 48271 * RandomGenerator.seed (RandomGenerator.new 12345)
               <= 2 ^ 53)
    by (vm_compute; discriminate).
  assert (Hseats : 2 * Z.of_nat (length ["A"; "B"; "C"]%string) <= 2 ^ 20)
    by (vm_compute; discriminate).
  pose proof (generatePassengers_seats_the_grid 4 2 ["A"; "B"; "C"]%string
                (RandomGenerator.new 12345) H H' Hseats) as T.
  destruct T as (passengers & rng' & Hgen & Hlen & _ & _ & Hnd).
  exists passengers, rng'. split; [exact Hgen|]. split; [exact Hlen|].
  apply Hnd. by apply (bool_decide_unpack _).
Defined.

(** ** The layout: bins, reset, blocking seats *)

Lemma findNearest_seqZ a startRow c (n : nat) (lo : Z) :
  match Aircraft.findNearest a startRow c (seqZ lo (Z.of_nat n)) with
  | Some r =>
      exists o, lo <= o < lo + Z.of_nat n /\ binAt a startRow c o r
                /\ forall o', lo <= o' < o -> noBinAt a startRow c o'
  | None => forall o', lo <= o' < lo + Z.of_nat n -> noBinAt a startRow c o'
  end.
Proof.
  revert lo. induction n as [|n IH]; intros lo.
  - cbn. intros o' Ho'. lia.
  - rewrite seqZ_cons by lia. cbn [Aircraft.findNearest].
    replace (Z.pred (Z.of_nat (S n))) with (Z.of_nat n) by lia.
    destruct ((1 <=? startRow - lo)
              && Aircraft.hasBinCapacity a (startRow - lo) c) eqn:Eabove.
    { apply andb_true_iff in Eabove as [H1 H2]. apply Z.leb_le in H1.
      exists lo. split; [lia|]. split; [split; [done|left; done]|]. lia. }
    destruct ((startRow + lo <=? Aircraft.rows a)
              && Aircraft.hasBinCapacity a (startRow + lo) c) eqn:Ebelow.
    { apply andb_true_iff in Ebelow as [H1 H2]. apply Z.leb_le in H1.
      exists lo. split; [lia|]. split; [|lia].
      split; [done|]. right. split; [done|]. split; [done|].
      intros [H3 H4]. apply Z.leb_le in H3. rewrite H3, H4 in Eabove. done. }
    assert (Hmiss : noBinAt a startRow c lo).
    { split.
      - intros [H3 H4]. apply Z.leb_le in H3. rewrite H3, H4 in Eabove. done.
      - intros [H3 H4]. apply Z.leb_le in H3. rewrite H3, H4 in Ebelow. done. }
    specialize (IH (Z.succ lo)).
    destruct (Aircraft.findNearest a startRow c (seqZ (Z.succ lo) (Z.of_nat n)))
      as [r|].
    + destruct IH as (o & Ho & Hhit & Hbefore). exists o.
      split; [lia|]. split; [done|].
      intros o' Ho'. destruct (decide (o' = lo)) as [->|]; [done|].
      apply Hbefore. lia.
    + intros o' Ho'. destruct (decide (o' = lo)) as [->|]; [done|].
      apply IH. lia.
Qed.

(** X5: started from a row of the layout, [findNearestBinCapacity] answers a
    row of the layout whose bin takes the bag, no row with room being
    nearer, and the lower row of two that are equally near; it answers
    [null] only when no bin of the layout takes the bag. *)
Theorem findNearestBinCapacity_is_nearest (a : Aircraft.t) (startRow : Z)
    (c : CarryOnSize.t) :
  1 <= startRow <= Aircraft.rows a ->
  match Aircraft.findNearestBinCapacity a startRow c with
  | Some r =>
      1 <= r <= Aircraft.rows a
      /\ Aircraft.hasBinCapacity a r c = true
      /\ forall r', 1 <= r' <= Aircraft.rows a ->
           Aircraft.hasBinCapacity a r' c = true ->
           Z.abs (r - startRow) <= Z.abs (r' - startRow)
           /\ (Z.abs (r - startRow) = Z.abs (r' - startRow) -> r <= r')
  | None =>
      forall r', 1 <= r' <= Aircraft.rows a ->
        Aircraft.hasBinCapacity a r' c = false
  end.
Proof.
  intros Hstart. unfold Aircraft.findNearestBinCapacity.
  pose proof (findNearest_seqZ a startRow c (Z.to_nat (Aircraft.rows a + 1)) 0)
    as H.
  rewrite Z2Nat.id in H by lia.
  assert (Hnear : forall r' o, 1 <= r' <= Aircraft.rows a ->
            Aircraft.hasBinCapacity a r' c = true ->
            Z.abs (r' - startRow) = o -> ~ noBinAt a startRow c o).
  { intros r' o Hr' Hcap Ho [Habove Hbelow].
    destruct (decide (r' <= startRow)).
    - apply Habove. replace (startRow - o) with r' by lia. split; [lia|done].
    - apply Hbelow. replace (startRow + o) with r' by lia. split; [lia|done]. }
  destruct (Aircraft.findNearest a startRow c (seqZ 0 (Aircraft.rows a + 1)))
    as [r|].
  - destruct H as (o & Ho & [Hcap Hhit] & Hbefore).
    split; [lia|]. split; [done|].
    intros r' Hr' Hcap'.
    assert (Hdist : o <= Z.abs (r' - startRow)).
    { destruct (decide (o <= Z.abs (r' - startRow))) as [|Hlt]; [done|].
      destruct (Hnear r' (Z.abs (r' - startRow)) Hr' Hcap' eq_refl).
      apply Hbefore. lia. }
    split; [lia|]. intros Heq.
    destruct Hhit as [[-> _]|(-> & _ & Habove)]; [lia|].
    destruct (decide (startRow + o <= r')) as [|Hlt]; [done|].
    destruct Habove. replace (startRow - o) with r' by lia. split; [lia|done].
  - intros r' Hr'.
    destruct (Aircraft.hasBinCapacity a r' c) eqn:Hcap; [|done].
    destruct (Hnear r' (Z.abs (r' - startRow)) Hr' Hcap eq_refl).
    apply H. lia.
Qed.

Lemma findNearestBinCapacity_is_nearest_witness :
  match Aircraft.findNearestBinCapacity
          (LayoutOp.runAll
             [LayoutOp.UseBinCapacity 2 CarryOnSize.LARGE;
              LayoutOp.UseBinCapacity 2 CarryOnSize.LARGE;
              LayoutOp.UseBinCapacity 2 CarryOnSize.LARGE]
             (Aircraft.new Aircraft.DEFAULT_CONFIG))
          2 CarryOnSize.SMALL with
  | Some r => 1 <= r <= 30
  | None => True
  end.
Proof.
  pose proof (findNearestBinCapacity_is_nearest
                (LayoutOp.runAll
                   [LayoutOp.UseBinCapacity 2 CarryOnSize.LARGE;
                    LayoutOp.UseBinCapacity 2 CarryOnSize.LARGE;
                    LayoutOp.UseBinCapacity 2 CarryOnSize.LARGE]
                   (Aircraft.new Aircraft.DEFAULT_CONFIG))
                2 CarryOnSize.SMALL) as T.
  assert (H : 1 <= 2 <= Aircraft.rows
                (LayoutOp.runAll
                   [LayoutOp.UseBinCapacity 2 CarryOnSize.LARGE;
                    LayoutOp.UseBinCapacity 2 CarryOnSize.LARGE;
                    LayoutOp.UseBinCapacity 2 CarryOnSize.LARGE]
                   (Aircraft.new Aircraft.DEFAULT_CONFIG)))
    by (vm_compute; split; discriminate).
  specialize (T H).
  destruct (Aircraft.findNearestBinCapacity _ 2 CarryOnSize.SMALL) as [r|];
    [exact (proj1 T)|exact I].
Defined.

Lemma withinGrid_aisle_insert a r v :
  withinGrid a -> 0 <= r <= Aircraft.rows a ->
  withinGrid (Aircraft.mk (Aircraft.config a) (Aircraft.binCapacity a)
                (Aircraft.seats a) (<[r := v]> (Aircraft.aisle a))).
Proof.
  intros (Hb & Hs & Ha) Hr. split; [done|]. split; [done|].
  intros r'. cbn [Aircraft.aisle]. unfold Aircraft.rows. cbn [Aircraft.config].
  destruct (decide (r' = r)) as [->|Hne].
  - intros _. exact Hr.
  - rewrite lookup_insert_ne by done. apply Ha.
Qed.

Lemma run_withinGrid cfg a op :
  Aircraft.config a = cfg -> withinGrid a -> opInGrid cfg op ->
  Aircraft.config (LayoutOp.run a op) = cfg
  /\ withinGrid (LayoutOp.run a op).
Proof.
  intros Hcfg Hgrid Hop. destruct op as [|p|p row|row|row size];
    cbn [LayoutOp.run opInGrid] in *.
  - split; [done|]. rewrite reset_fresh by done. apply new_withinGrid.
  - split; [done|]. apply withinGrid_seatPassenger; [done|by rewrite Hcfg].
  - split; [done|]. apply withinGrid_aisle_insert; [done|].
    unfold Aircraft.rows. by rewrite Hcfg.
  - split; [done|]. apply withinGrid_aisle_insert; [done|].
    unfold Aircraft.rows. by rewrite Hcfg.
  - split; [by rewrite useBinCapacity_config|].
    by apply withinGrid_useBinCapacity.
Qed.

Lemma runAll_withinGrid cfg ops a :
  Aircraft.config a = cfg -> withinGrid a -> Forall (opInGrid cfg) ops ->
  Aircraft.config (LayoutOp.runAll ops a) = cfg
  /\ withinGrid (LayoutOp.runAll ops a).
Proof.
  revert a. induction ops as [|op ops IH]; intros a Hcfg Hgrid Hops;
    cbn [LayoutOp.runAll foldl]; [done|].
  apply Forall_cons in Hops as [Hop Hops].
  destruct (run_withinGrid cfg a op Hcfg Hgrid Hop) as [Hcfg' Hgrid'].
  by apply IH.
Qed.

(** X6: whatever has been written into a constructed layout, inside its
    grid, [reset()] gives back the layout the constructor builds: no
    seat, aisle cell or bin keeps a trace of the earlier use. *)
Theorem reset_restores_the_constructed_layout (cfg : Aircraft.Config)
    (ops : list LayoutOp.t) :
  Forall (opInGrid cfg) ops ->
  Aircraft.reset (LayoutOp.runAll ops (Aircraft.new cfg)) = Aircraft.new cfg.
Proof.
  intros Hops.
  destruct (runAll_withinGrid cfg ops (Aircraft.new cfg) eq_refl
              (new_withinGrid cfg) Hops) as [Hcfg Hgrid].
  by rewrite reset_fresh, Hcfg.
Qed.

Lemma reset_restores_the_constructed_layout_witness :
  Aircraft.reset
    (LayoutOp.runAll
       [LayoutOp.PlaceInAisle Scenario.P1 0; LayoutOp.RemoveFromAisle 0;
        LayoutOp.SeatPassenger Scenario.P1;
        LayoutOp.UseBinCapacity 1 CarryOnSize.LARGE]
       (Aircraft.new Scenario.layout))
  = Aircraft.new Scenario.layout.
Proof.
  apply (reset_restores_the_constructed_layout Scenario.layout).
  repeat constructor; cbn; lia.
Defined.

(** X7: [reset()] clears the grid only.  A passenger seated on a seat that
    is not of the grid, or placed in an aisle cell beyond the last row or
    before the entry, is still there after [reset()]. *)
Theorem reset_keeps_what_lies_outside_the_grid (a : Aircraft.t)
    (p : Passenger.t) (row : Z) :
  (~ seatInGrid (Aircraft.config a) p ->
   Aircraft.getPassengerInSeat (Aircraft.reset (Aircraft.seatPassenger p a))
     (Passenger.row p) (Passenger.column p) = Some (Some p)
   /\ Aircraft.isSeatOccupied (Aircraft.reset (Aircraft.seatPassenger p a))
        (Passenger.row p) (Passenger.column p) = true)
  /\ (~ 0 <= row <= Aircraft.rows a ->
      Aircraft.getPassengerInAisle
        (Aircraft.reset (Aircraft.placeInAisle p row a)) row = Some (Some p)
      /\ Aircraft.isAisleOccupied
           (Aircraft.reset (Aircraft.placeInAisle p row a)) row = true).
Proof.
  split.
  - intros Hout.
    assert (Hget : Aircraft.getPassengerInSeat
                     (Aircraft.reset (Aircraft.seatPassenger p a))
                     (Passenger.row p) (Passenger.column p) = Some (Some p)).
    { unfold Aircraft.getPassengerInSeat, Aircraft.reset.
      cbn [Aircraft.seats]. rewrite fillSeats_lookup.
      rewrite decide_False by exact Hout.
      unfold Aircraft.seatPassenger. cbn [Aircraft.seats].
      apply lookup_insert_eq. }
    split; [done|]. unfold Aircraft.isSeatOccupied.
    unfold Aircraft.getPassengerInSeat in Hget. by rewrite Hget.
  - intros Hout.
    assert (Hget : Aircraft.getPassengerInAisle
                     (Aircraft.reset (Aircraft.placeInAisle p row a)) row
                   = Some (Some p)).
    { unfold Aircraft.getPassengerInAisle, Aircraft.reset.
      cbn [Aircraft.aisle]. rewrite fillAisle_lookup.
      rewrite decide_False by exact Hout.
      unfold Aircraft.placeInAisle. cbn [Aircraft.aisle].
      apply lookup_insert_eq. }
    split; [done|]. unfold Aircraft.isAisleOccupied.
    unfold Aircraft.getPassengerInAisle in Hget. by rewrite Hget.
Qed.

Lemma reset_keeps_what_lies_outside_the_grid_witness :
  Aircraft.isAisleOccupied
    (Aircraft.reset
       (Aircraft.placeInAisle Scenario.P1 2 (Aircraft.new Scenario.layout)))
    2 = true.
Proof.
  pose proof (reset_keeps_what_lies_outside_the_grid
                (Aircraft.new Scenario.layout) Scenario.P1 2) as T.
  destruct T as [_ T]. apply T. vm_compute. intros [_ H]. by apply H.
Defined.

Lemma blockingIndices_length aislePosition ti :
  length (Aircraft.blockingIndices aislePosition (Some ti))
  = Z.to_nat (if ti <? aislePosition then aislePosition - 1 - ti
              else ti - aislePosition).
Proof.
  unfold Aircraft.blockingIndices. destruct (ti <? aislePosition).
  - by rewrite length_reverse, length_seqZ.
  - by rewrite length_seqZ.
Qed.

(** X8: with the aisle at index 3, the seats [getBlockingSeats] reports for
    a passenger are occupied seats of its row and at most as many as its
    [seatsToPass]; the shuffle they cost, three steps each, is bounded
    accordingly.  A passenger on an aisle seat is never blocked. *)
Theorem blocking_seats_bounded_by_seatsToPass (a : Aircraft.t)
    (p : Passenger.t) (n : Z) :
  Aircraft.aislePosition a = 3 ->
  Passenger.seatsToPass p = Some n ->
  let blocking :=
    Aircraft.getBlockingSeats a (Passenger.row p) (Passenger.column p) in
  0 <= n
  /\ Z.of_nat (length blocking) <= n
  /\ Z.of_nat (length blocking) * 3 <= 3 * n
  /\ Forall (fun col => Aircraft.isSeatOccupied a (Passenger.row p) col = true)
       blocking
  /\ (n = 0 -> blocking = []).
Proof.
  intros Hpos Hpass blocking.
  unfold Passenger.seatsToPass in Hpass.
  destruct (columnIndex (Passenger.column p)) as [ti|] eqn:Hti; [|done].
  injection Hpass as <-.
  assert (Hlen : (length blocking
                  <= Z.to_nat (if (ti <? 3)%Z then (2 - ti)%Z else (ti - 3)%Z))%nat).
  { subst blocking. unfold Aircraft.getBlockingSeats.
    etrans; [apply length_filter|].
    rewrite length_fmap, Hti, Hpos, blockingIndices_length.
    destruct (ti <? 3); lia. }
  assert (Hn : 0 <= (if ti <? 3 then 2 - ti else ti - 3))
    by (destruct (ti <? 3) eqn:E; [apply Z.ltb_lt in E|apply Z.ltb_ge in E]; lia).
  split; [done|]. split; [lia|]. split; [lia|]. split.
  - subst blocking. unfold Aircraft.getBlockingSeats.
    apply Forall_forall. intros col [Hocc _]%list_elem_of_filter. exact Hocc.
  - intros H0. rewrite H0 in Hlen. apply nil_length_inv. lia.
Qed.

Lemma blocking_seats_bounded_by_seatsToPass_witness :
  Z.of_nat (length (Aircraft.getBlockingSeats
                      (Aircraft.seatPassenger Scenario.P2
                         (Aircraft.new Scenario.layout)) 1 "F")) <= 2.
Proof.
  pose proof (blocking_seats_bounded_by_seatsToPass
                (Aircraft.seatPassenger Scenario.P2 (Aircraft.new Scenario.layout))
                (Passenger.mk 3 1 "F" WalkSpeed.NORMAL CarryOnSize.NONE
                   ComplianceLevel.NORMAL None) 2 eq_refl eq_refl) as T.
  exact (proj1 (proj2 T)).
Defined.

(** ** The contract and the boarding order *)

(** X9: whatever the priority function, the order [runAlgorithm] answers
    names every passenger of the list exactly as often as the list does;
    set as boarding order of a simulation of these passengers, it lets
    every step run without error. *)
Theorem runAlgorithm_boards_every_passenger
    (priorityFn : Passenger.view -> AlgorithmRunner.Context -> Q)
    (context : AlgorithmRunner.Context) (passengers : list Passenger.t)
    (aircraft : Aircraft.t) (n : nat) :
  AlgorithmRunner.runAlgorithm priorityFn passengers context
  ≡ₚ Passenger.id <$> passengers
  /\ is_Some (Simulation.steps n
                (Simulation.setBoardingOrder
                   (AlgorithmRunner.runAlgorithm priorityFn passengers context)
                   (Simulation.new passengers aircraft))).
Proof.
  assert (Hperm : AlgorithmRunner.runAlgorithm priorityFn passengers context
                  ≡ₚ Passenger.id <$> passengers).
  { rewrite runAlgorithm_as_sort. by rewrite array_sort_perm. }
  split; [done|]. apply run_never_fails.
  apply Forall_forall. intros id Hid. rewrite Hperm in Hid.
  apply list_elem_of_fmap in Hid as (p & -> & Hp). by exists p.
Qed.

Section ValidationAccepts.
Context {World : Type}.
Variable now : World -> Q * World.

Lemma sampleLoop_passes
    (g : Passenger.view -> AlgorithmRunner.Context -> AlgorithmRunner.outcome)
    (context : AlgorithmRunner.Context) (startTime : Q)
    (testPassengers : list Passenger.view) (w : World) :
  (forall w', ((now w').1 - startTime <= 100)%Q) ->
  Forall (fun passenger => finiteNumber (g passenger context)) testPassengers ->
  (AlgorithmRunner.sampleLoop now (pureFunction g) context startTime
     testPassengers w).1 = [].
Proof.
  intros Hclock Hfin. revert w.
  induction Hfin as [|p ps [q Hq] _ IH]; intros w;
    cbn [AlgorithmRunner.sampleLoop]; [done|].
  unfold pureFunction at 1. rewrite Hq.
  pose proof (Hclock w) as Hw. destruct (now w) as [t w2]. cbn [fst] in Hw.
  apply Qle_bool_iff in Hw. rewrite Hw. cbn [negb]. apply IH.
Qed.

Lemma determinismLoop_passes
    (g : Passenger.view -> AlgorithmRunner.Context -> AlgorithmRunner.outcome)
    (context : AlgorithmRunner.Context)
    (testPassengers : list Passenger.view) (w : World) :
  Forall (fun passenger => finiteNumber (g passenger context)) testPassengers ->
  AlgorithmRunner.determinismLoop (pureFunction g) context testPassengers w
  = (AlgorithmRunner.Normal [], w).
Proof.
  induction 1 as [|p ps [q Hq] _ IH]; cbn [AlgorithmRunner.determinismLoop];
    [done|].
  unfold pureFunction at 1 2. rewrite Hq. cbn [AlgorithmRunner.strictEquals].
  rewrite (proj2 (Qeq_bool_iff q q)) by reflexivity. exact IH.
Qed.

(** X10: [validateAlgorithm] accepts a function without state that answers
    a finite number on every passenger of the sample, provided the clock
    never shows more than 100 ms between two readings.  It accepts any
    function at all on an empty sample, and refuses whatever is not a
    function. *)
Theorem validateAlgorithm_accepts_finite_answers
    (g : Passenger.view -> AlgorithmRunner.Context -> AlgorithmRunner.outcome)
    (context : AlgorithmRunner.Context)
    (testPassengers : list Passenger.view) (w : World) :
  (forall w1 w2, ((now w2).1 - (now w1).1 <= 100)%Q) ->
  Forall (fun passenger => finiteNumber (g passenger context)) testPassengers ->
  (exists w',
     AlgorithmRunner.validateAlgorithm now
       (AlgorithmRunner.Function (pureFunction g)) testPassengers context w
     = (AlgorithmRunner.Normal (AlgorithmRunner.success []), w'))
  /\ (forall f : AlgorithmRunner.function,
        AlgorithmRunner.validateAlgorithm now (AlgorithmRunner.Function f) []
          context w
        = (AlgorithmRunner.Normal (AlgorithmRunner.success []), (now w).2))
  /\ (forall v : AlgorithmRunner.value,
        AlgorithmRunner.validateAlgorithm now
          (@AlgorithmRunner.NotAFunction World v) testPassengers context w
        = (AlgorithmRunner.Normal
             (AlgorithmRunner.failure ["Priority must be a function"] []), w)).
Proof.
  intros Hclock Hfin. split; [|split].
  - unfold AlgorithmRunner.validateAlgorithm.
    pose proof (fun w' => Hclock w w') as Hstart.
    destruct (now w) as [startTime w0]. cbn [fst] in Hstart.
    pose proof (sampleLoop_passes g context startTime testPassengers w0
                  Hstart Hfin) as Hsample.
    destruct (AlgorithmRunner.sampleLoop _ _ _ _ _ _) as [errors w1].
    cbn [fst] in Hsample. subst errors.
    rewrite determinismLoop_passes by (by apply Forall_take).
    by eexists.
  - intros f. unfold AlgorithmRunner.validateAlgorithm.
    destruct (now w) as [startTime w0]. reflexivity.
  - reflexivity.
Qed.
End ValidationAccepts.

Lemma validateAlgorithm_accepts_finite_answers_witness :
  exists w',
    AlgorithmRunner.validateAlgorithm frozenClock
      (AlgorithmRunner.Function
         (pureFunction
            (fun v _ =>
               AlgorithmRunner.Return
                 (AlgorithmRunner.Num (inject_Z (Passenger.v_row v))))))
      [sampleView] sampleContext 0%nat
    = (AlgorithmRunner.Normal (AlgorithmRunner.success []), w').
Proof.
  refine (proj1 (validateAlgorithm_accepts_finite_answers frozenClock
                   (fun v _ =>
                      AlgorithmRunner.Return
                        (AlgorithmRunner.Num (inject_Z (Passenger.v_row v))))
                   sampleContext [sampleView] 0%nat _ _)).
  - intros w1 w2. vm_compute. discriminate.
  - repeat constructor. by eexists.
Defined.

(** ** The presets *)

Lemma StronglySorted_mono_in {A} (R1 R2 : relation A) l :
  (forall x y, x ∈ l -> y ∈ l -> R1 x y -> R2 x y) ->
  StronglySorted R1 l -> StronglySorted R2 l.
Proof.
  intros HR Hl. induction Hl as [|x l Hl IH Hx]; constructor.
  - apply IH. intros a b Ha Hb. apply HR; by right.
  - apply Forall_forall. intros y Hy. apply HR; [by left|by right|].
    by apply (proj1 (Forall_forall _ _) Hx).
Qed.

(** The order of [runAlgorithm] read through a reading [R] of the
    priorities that holds on the passengers at hand. *)
Lemma runAlgorithm_sorted_in
    (priorityFn : Passenger.view -> AlgorithmRunner.Context -> Q)
    (context : AlgorithmRunner.Context) (R : relation Passenger.t)
    (passengers : list Passenger.t) :
  Passenger.id <$> passengers = seq 1 (length passengers) ->
  (forall a b, a ∈ passengers -> b ∈ passengers ->
     boardsBefore priorityFn context a b -> R a b) ->
  exists sorted : list Passenger.t,
    AlgorithmRunner.runAlgorithm priorityFn passengers context
    = Passenger.id <$> sorted
    /\ sorted ≡ₚ passengers
    /\ StronglySorted R sorted.
Proof.
  intros Hids HR.
  exists (array_sort (laterByPriority priorityFn context) passengers).
  split; [apply runAlgorithm_as_sort|]. split; [apply array_sort_perm|].
  eapply StronglySorted_mono_in.
  - intros a b Ha Hb. rewrite array_sort_perm in Ha, Hb. by apply HR.
  - apply sorted_by_priority_then_id, StronglySorted_by_key.
    rewrite Hids. apply StronglySorted_seq.
Qed.

Lemma inject_Z_lt_iff (x y : Z) : (inject_Z x < inject_Z y)%Q <-> x < y.
Proof. unfold Qlt, inject_Z. cbn [Qnum Qden]. lia. Qed.

Lemma inject_Z_eq_iff (x y : Z) : (inject_Z x == inject_Z y)%Q <-> x = y.
Proof. unfold Qeq, inject_Z. cbn [Qnum Qden]. lia. Qed.

Lemma classRank_inj c1 c2 : classRank c1 = classRank c2 -> c1 = c2.
Proof. by destruct c1, c2. Qed.

Lemma rem_2_even row : (Z.rem row 2 =? 0) = Z.even row.
Proof.
  destruct (Z.even row) eqn:E.
  - apply Z.eqb_eq, Z.rem_divide; [done|].
    apply Z.even_spec in E as [k ->]. exists k. lia.
  - apply Z.eqb_neq. intros H. apply Z.rem_divide in H as [k ->]; [|done].
    rewrite Z.even_mul in E. cbn in E. by rewrite orb_true_r in E.
Qed.

Lemma windowMiddleAisle_sorted
    (context : AlgorithmRunner.Context) (passengers : list Passenger.t) :
  Passenger.id <$> passengers = seq 1 (length passengers) ->
  Forall (fun p => 1 <= Passenger.row p <= 100) passengers ->
  exists sorted : list Passenger.t,
    AlgorithmRunner.runAlgorithm Presets.windowMiddleAisle passengers context
    = Passenger.id <$> sorted
    /\ sorted ≡ₚ passengers
    /\ StronglySorted classThenBackFirst sorted.
Proof.
  intros Hids Hrows. apply runAlgorithm_sorted_in; [done|].
  intros a b Ha Hb.
  pose proof (proj1 (Forall_forall _ _) Hrows a Ha) as Hra.
  pose proof (proj1 (Forall_forall _ _) Hrows b Hb) as Hrb.
  cbn beta in Hra, Hrb.
  unfold boardsBefore, priorityOf, Presets.windowMiddleAisle,
    classThenBackFirst, backFirst.
  cbn [Passenger.toContext Passenger.v_seatClass Passenger.v_row].
  rewrite inject_Z_lt_iff, inject_Z_eq_iff.
  destruct (Passenger.seatClass a), (Passenger.seatClass b);
    cbn [Presets.seatPriority classRank]; intros H;
    first [ left; lia
          | right; split; [reflexivity|lia]
          | exfalso; lia ].
Qed.

(** X11: on a cabin of at most 100 rows, the window-middle-aisle preset
    boards every window seat before every middle seat and every middle
    seat before every aisle seat; within a seat class the rows board from
    the back, and a row in the order of the ids. *)
Theorem windowMiddleAisle_boards_by_seat_class
    (context : AlgorithmRunner.Context) (passengers : list Passenger.t) :
  Passenger.id <$> passengers = seq 1 (length passengers) ->
  Forall (fun p => 1 <= Passenger.row p <= 100) passengers ->
  exists sorted : list Passenger.t,
    AlgorithmRunner.runAlgorithm Presets.windowMiddleAisle passengers context
    = Passenger.id <$> sorted
    /\ sorted ≡ₚ passengers
    /\ StronglySorted classThenBackFirst sorted.
Proof. apply windowMiddleAisle_sorted. Qed.

Lemma windowMiddleAisle_boards_by_seat_class_witness :
  exists sorted : list Passenger.t,
    AlgorithmRunner.runAlgorithm Presets.windowMiddleAisle
      [Scenario.P1; Scenario.P2] sampleContext
    = Passenger.id <$> sorted
    /\ sorted ≡ₚ [Scenario.P1; Scenario.P2]
    /\ StronglySorted classThenBackFirst sorted.
Proof.
  apply (windowMiddleAisle_boards_by_seat_class sampleContext
           [Scenario.P1; Scenario.P2]).
  - reflexivity.
  - repeat constructor; cbn; lia.
Defined.

Lemma steffen_sorted
    (context : AlgorithmRunner.Context) (passengers : list Passenger.t) :
  Passenger.id <$> passengers = seq 1 (length passengers) ->
  Forall (fun p => 1 <= Passenger.row p <= 500) passengers ->
  exists sorted : list Passenger.t,
    AlgorithmRunner.runAlgorithm Presets.steffen passengers context
    = Passenger.id <$> sorted
    /\ sorted ≡ₚ passengers
    /\ StronglySorted steffenStages sorted.
Proof.
  intros Hids Hrows. apply runAlgorithm_sorted_in; [done|].
  intros a b Ha Hb.
  pose proof (proj1 (Forall_forall _ _) Hrows a Ha) as Hra.
  pose proof (proj1 (Forall_forall _ _) Hrows b Hb) as Hrb.
  cbn beta in Hra, Hrb.
  unfold boardsBefore, priorityOf, Presets.steffen, steffenStages, backFirst,
    evenRow, Presets.parityScore.
  cbn [Passenger.toContext Passenger.v_seatClass Passenger.v_row].
  rewrite inject_Z_lt_iff, inject_Z_eq_iff, !rem_2_even.
  destruct (Passenger.seatClass a), (Passenger.seatClass b);
    cbn [Presets.seatScores classRank];
    destruct (Z.even (Passenger.row a)), (Z.even (Passenger.row b));
    intros H;
    first [ left; lia
          | right; split; [reflexivity|]; left; split; reflexivity
          | right; split; [reflexivity|]; right; split; [reflexivity|lia]
          | exfalso; lia ].
Qed.

(** X12: on a cabin of at most 500 rows, the Steffen preset boards in six
    stages: window seats of even rows, window seats of odd rows, then
    middle seats and aisle seats likewise; within a stage the rows board
    from the back, and a row in the order of the ids. *)
Theorem steffen_boards_in_six_stages
    (context : AlgorithmRunner.Context) (passengers : list Passenger.t) :
  Passenger.id <$> passengers = seq 1 (length passengers) ->
  Forall (fun p => 1 <= Passenger.row p <= 500) passengers ->
  exists sorted : list Passenger.t,
    AlgorithmRunner.runAlgorithm Presets.steffen passengers context
    = Passenger.id <$> sorted
    /\ sorted ≡ₚ passengers
    /\ StronglySorted steffenStages sorted.
Proof. apply steffen_sorted. Qed.

Lemma steffen_boards_in_six_stages_witness :
  exists sorted : list Passenger.t,
    AlgorithmRunner.runAlgorithm Presets.steffen
      [Scenario.P1; Scenario.P2] sampleContext
    = Passenger.id <$> sorted
    /\ sorted ≡ₚ [Scenario.P1; Scenario.P2]
    /\ StronglySorted steffenStages sorted.
Proof.
  apply (steffen_boards_in_six_stages sampleContext
           [Scenario.P1; Scenario.P2]).
  - reflexivity.
  - repeat constructor; cbn; lia.
Defined.

Lemma sort_insert_ext {A} (after1 after2 : A -> A -> bool) x l :
  (forall y, y ∈ l -> after1 x y = after2 x y) ->
  sort_insert after1 x l = sort_insert after2 x l.
Proof.
  induction l as [|y l IH]; intros H; [done|]. cbn [sort_insert].
  rewrite (H y) by (by left). destruct (after2 x y); [|done].
  f_equal. apply IH. intros z Hz. apply H. by right.
Qed.

Lemma array_sort_ext {A} (after1 after2 : A -> A -> bool) l :
  (forall x y, x ∈ l -> y ∈ l -> after1 x y = after2 x y) ->
  array_sort after1 l = array_sort after2 l.
Proof.
  induction l as [|x l IH]; intros H; [done|]. cbn [array_sort foldr].
  change (foldr (sort_insert after1) [] l) with (array_sort after1 l).
  change (foldr (sort_insert after2) [] l) with (array_sort after2 l).
  rewrite IH by (intros a b Ha Hb; apply H; by right).
  apply sort_insert_ext. intros y Hy. apply H; [by left|].
  right. by rewrite array_sort_perm in Hy.
Qed.

Lemma orderByNumber_as_sort priority passengers :
  orderByNumber priority passengers
  = Passenger.id
      <$> array_sort
            (fun a b => Presets.positive
                          (Presets.minus (priority b) (priority a)))
            passengers.
Proof.
  unfold orderByNumber. rewrite array_sort_fmap, <- list_fmap_compose.
  reflexivity.
Qed.

(** When no priority is [NaN] or infinite, this is the order of
    [runAlgorithm]. *)
Lemma orderByNumber_finite
    (priorityFn : Passenger.view -> AlgorithmRunner.Context -> Q)
    (context : AlgorithmRunner.Context) (passengers : list Passenger.t) :
  orderByNumber
    (fun p => Presets.Finite (priorityFn (Passenger.toContext p) context))
    passengers
  = AlgorithmRunner.runAlgorithm priorityFn passengers context.
Proof. by rewrite orderByNumber_as_sort, runAlgorithm_as_sort. Qed.

Lemma zoneBased_finite numZones totalRows :
  1 <= totalRows -> (forall n, numZones = Some n -> 0 <= n) ->
  exists rowsPerZone,
    1 <= rowsPerZone
    /\ forall row,
         Presets.zoneBased numZones row (Some totalRows)
         = Presets.Finite (inject_Z ((row - 1) / rowsPerZone * 1000 + row)).
Proof.
  intros Ht Hn. unfold Presets.zoneBased.
  set (n := match numZones with
            | Some n => if n =? 0 then 5 else n
            | None => 5
            end).
  assert (Hpos : 1 <= n).
  { subst n. destruct numZones as [n|]; [|lia].
    specialize (Hn n eq_refl). destruct (n =? 0) eqn:E; [lia|].
    apply Z.eqb_neq in E. lia. }
  exists (- ((- totalRows) / n)).
  assert (Hceil : 1 <= - ((- totalRows) / n)).
  { assert ((- totalRows) / n < 0); [|lia].
    apply Z.div_lt_upper_bound; lia. }
  split; [done|]. intros row.
  destruct (- ((- totalRows) / n) =? 0) eqn:E; [|done].
  apply Z.eqb_eq in E. lia.
Qed.

(** X13: with a context that has at least one row and a number of zones
    that is not negative, the zone-based preset boards in the order of
    the back-to-front preset, whatever the number of zones: the zone of
    a row never outweighs the row. *)
Theorem zoneBased_boards_back_to_front (numZones : option Z)
    (context : AlgorithmRunner.Context) (passengers : list Passenger.t) :
  1 <= AlgorithmRunner.totalRows context ->
  (forall n, numZones = Some n -> 0 <= n) ->
  orderByNumber
    (fun p => Presets.zoneBased numZones (Passenger.row p)
                (Some (AlgorithmRunner.totalRows context)))
    passengers
  = AlgorithmRunner.runAlgorithm Presets.backToFront passengers context.
Proof.
  intros Ht Hn. rewrite orderByNumber_as_sort, runAlgorithm_as_sort.
  f_equal. apply array_sort_ext. intros a b _ _.
  destruct (zoneBased_finite numZones (AlgorithmRunner.totalRows context)
              Ht Hn) as (z & Hz & Hzone).
  rewrite !Hzone.
  unfold laterByPriority, priorityOf, Presets.backToFront.
  cbn [Presets.minus Presets.positive Passenger.toContext Passenger.v_row].
  apply eq_true_iff_eq. rewrite !after_by_difference, !inject_Z_lt_iff.
  split; intros H.
  - destruct (decide (Passenger.row a < Passenger.row b)) as [|Hge]; [done|].
    assert ((Passenger.row b - 1) `div` z <= (Passenger.row a - 1) `div` z)
      by (apply Z.div_le_mono; lia).
    lia.
  - assert ((Passenger.row a - 1) `div` z <= (Passenger.row b - 1) `div` z)
      by (apply Z.div_le_mono; lia).
    lia.
Qed.

Lemma zoneBased_boards_back_to_front_witness :
  orderByNumber
    (fun p => Presets.zoneBased (Some 3) (Passenger.row p) (Some 30))
    [Scenario.P1; Scenario.P2]
  = AlgorithmRunner.runAlgorithm Presets.backToFront
      [Scenario.P1; Scenario.P2] sampleContext.
Proof.
  apply (zoneBased_boards_back_to_front (Some 3) sampleContext
           [Scenario.P1; Scenario.P2]).
  - vm_compute. discriminate.
  - intros n [= <-]. lia.
Defined.

Lemma array_sort_never_after {A} (after : A -> A -> bool) l :
  (forall x y, after x y = false) -> array_sort after l = l.
Proof.
  intros H. induction l as [|x l IH]; [done|]. cbn [array_sort foldr].
  change (foldr (sort_insert after) [] l) with (array_sort after l).
  rewrite IH. destruct l as [|y l]; [done|]. cbn [sort_insert].
  by rewrite H.
Qed.

(** X14: without [totalRows] in the context, which is how the optimizer
    calls a priority function, the zone-based preset answers [NaN] for
    every passenger, and the boarding order is the order of the list
    whatever the number of zones. *)
Theorem zoneBased_without_totalRows_keeps_the_list_order
    (numZones : option Z) (passengers : list Passenger.t) :
  Forall (fun p => Presets.zoneBased numZones (Passenger.row p) None
                   = Presets.NaN) passengers
  /\ orderByNumber
       (fun p => Presets.zoneBased numZones (Passenger.row p) None) passengers
     = Passenger.id <$> passengers.
Proof.
  split; [by apply Forall_forall|].
  rewrite orderByNumber_as_sort. f_equal. by apply array_sort_never_after.
Qed.

(** ** The handling of a passenger, case by case *)

Lemma updated_eta s :
  s = Simulation.mk (Simulation.aircraft s) (Simulation.originalPassengers s)
        (Simulation.currentStep s) (Simulation.isComplete s)
        (Simulation.events s) (Simulation.passengerStates s)
        (Simulation.queue s).
Proof. by destruct s. Qed.

Lemma startSeating_startsSeating ps s :
  exists ps' evs,
    startsSeating (Simulation.aircraft s) (Simulation.currentStep s) ps ps' evs
    /\ Simulation.startSeating ps s = updated s ps' (Simulation.aircraft s) evs.
Proof.
  unfold Simulation.startSeating.
  destruct (Aircraft.getBlockingSeats (Simulation.aircraft s)
              (Passenger.row (Simulation.passenger ps))
              (Passenger.column (Simulation.passenger ps))) as [|col cols] eqn:Hb.
  - eexists _, _. split; [by apply startsSeating_direct|].
    cbn [length Nat.ltb Nat.leb]. unfold updated. unfold_engine.
    by rewrite app_nil_r.
  - eexists _, _. split.
    + eapply (startsSeating_shuffle _ _ _ (col :: cols)); [by rewrite Hb|done].
    + reflexivity.
Qed.

Lemma processPassengerInAisle_handles s ps :
  assoc_get (Passenger.id (Simulation.passenger ps))
    (Simulation.passengerStates s) = Some ps ->
  occupiesAisle ps = true ->
  exists ps' a' evs,
    handles s ps ps' a' evs
    /\ Simulation.processPassengerInAisle s
         (Passenger.id (Simulation.passenger ps))
       = updated s ps' a' evs.
Proof.
  intros Hget Hocc. unfold Simulation.processPassengerInAisle. rewrite Hget.
  unfold occupiesAisle in Hocc.
  destruct (Simulation.state ps) eqn:Hst; try discriminate.
  - (* WALKING *)
    unfold Simulation.processWalking.
    destruct (Simulation.aisleRow ps =? Passenger.row (Simulation.passenger ps))
      eqn:Hrow.
    + apply Z.eqb_eq in Hrow.
      destruct (Passenger.carryOnSize (Simulation.passenger ps)) eqn:Hsize.
      * destruct (startSeating_startsSeating ps s) as (ps' & evs & Hss & ->).
        exists ps', (Simulation.aircraft s), evs. split; [|done].
        by apply handles_arrive_without_bag.
      * eexists _, _, _. split.
        { apply handles_stow_start; [done|done|]. by rewrite Hsize. }
        rewrite Hsize. unfold_engine.
        destruct (Aircraft.hasBinCapacity _ _ _); unfold updated; unfold_engine;
          by rewrite <- ?app_assoc.
      * eexists _, _, _. split.
        { apply handles_stow_start; [done|done|]. by rewrite Hsize. }
        rewrite Hsize. unfold_engine.
        destruct (Aircraft.hasBinCapacity _ _ _); unfold updated; unfold_engine;
          by rewrite <- ?app_assoc.
    + apply Z.eqb_neq in Hrow.
      destruct ((Simulation.aisleRow ps + 1 <=? Aircraft.rows (Simulation.aircraft s))
                && negb (Aircraft.isAisleOccupied (Simulation.aircraft s)
                           (Simulation.aisleRow ps + 1))) eqn:Hfree.
      * apply andb_true_iff in Hfree as [Hle Hfree].
        apply Z.leb_le in Hle. apply negb_true_iff in Hfree.
        eexists _, _, _. split; [by apply handles_move|]. reflexivity.
      * eexists _, _, _. split.
        { apply handles_blocked; [done|done|]. intros [Hle Hocc'].
          apply Z.leb_le in Hle. by rewrite Hle, Hocc' in Hfree. }
        reflexivity.
  - (* STOWING *)
    unfold Simulation.processStowing. cbn zeta.
    destruct (_ <=? 0) eqn:Hk;
      change (Simulation.stowRemaining _)
        with (Simulation.stowRemaining ps - 1) in Hk.
    + apply Z.leb_le in Hk.
      match goal with
      | |- context [Simulation.startSeating ?ps1 ?s1] =>
          destruct (startSeating_startsSeating ps1 s1) as (ps' & evs & Hss & ->)
      end.
      unfold_engine.
      eexists ps', _, _. split.
      * apply handles_stow_end; [done|done|]. exact Hss.
      * unfold updated. unfold_engine.
        assert (Hp : Simulation.passenger ps' = Simulation.passenger ps)
          by (by destruct Hss).
        rewrite Hp, assoc_set_set, <- app_assoc. reflexivity.
    + apply Z.leb_gt in Hk.
      eexists _, _, _. split; [apply handles_stow_on; [done|lia]|].
      unfold updated. unfold_engine. by rewrite app_nil_r.
  - (* SHUFFLING *)
    unfold Simulation.processShuffling. cbn zeta.
    destruct (_ <=? 0) eqn:Hk;
      change (Simulation.shuffleRemaining _)
        with (Simulation.shuffleRemaining ps - 1) in Hk.
    + apply Z.leb_le in Hk.
      eexists _, _, _. split; [by apply handles_shuffle_end|]. reflexivity.
    + apply Z.leb_gt in Hk.
      eexists _, _, _. split; [apply handles_shuffle_on; [done|lia]|].
      unfold updated. unfold_engine. by rewrite app_nil_r.
  - (* SEATING *)
    eexists _, _, _. split; [by apply handles_sit|]. reflexivity.
Qed.

Lemma startsSeating_shape a step ps ps' evs :
  startsSeating a step ps ps' evs ->
  Simulation.passenger ps' = Simulation.passenger ps
  /\ Simulation.aisleRow ps' = Simulation.aisleRow ps
  /\ Simulation.enteredAt ps' = Simulation.enteredAt ps
  /\ Simulation.seatedAt ps' = Simulation.seatedAt ps
  /\ Simulation.waitTime ps' = Simulation.waitTime ps
  /\ (Simulation.state ps' = PassengerState.SEATING
      \/ (Simulation.state ps' = PassengerState.SHUFFLING
          /\ 1 <= Simulation.shuffleRemaining ps'
             <= 3 * seatsBetween (Aircraft.aislePosition a)
                                 (Simulation.passenger ps))).
Proof.
  intros [blocking Hb Hne|Hb]; cbn; repeat split; try done; [|by left].
  right. split; [done|].
  assert (Hlen : (length blocking
                  <= length (Aircraft.blockingIndices (Aircraft.aislePosition a)
                               (columnIndex (Passenger.column
                                               (Simulation.passenger ps)))))%nat).
  { rewrite Hb. unfold Aircraft.getBlockingSeats.
    etrans; [apply length_filter|]. by rewrite length_fmap. }
  unfold seatsBetween. destruct blocking; [done|]. cbn [length] in *. lia.
Qed.

(** The three ways in which a handling touches the aisle. *)
Lemma handles_aisle s ps ps' a' evs :
  handles s ps ps' a' evs ->
  let a := Simulation.aircraft s in
  let r := Simulation.aisleRow ps in
  Simulation.passenger ps' = Simulation.passenger ps
  /\ Aircraft.config a' = Aircraft.config a
  /\ occupiesAisle ps = true
  /\ ((occupiesAisle ps' = true /\ Simulation.aisleRow ps' = r
       /\ Aircraft.aisle a' = Aircraft.aisle a
       /\ Aircraft.seats a' = Aircraft.seats a)
      \/ (Simulation.state ps = PassengerState.WALKING
          /\ Simulation.state ps' = PassengerState.WALKING
          /\ r <> Passenger.row (Simulation.passenger ps)
          /\ r + 1 <= Aircraft.rows a
          /\ Simulation.aisleRow ps' = r + 1
          /\ Aircraft.aisle a !! (r + 1) = Some None
          /\ Aircraft.aisle a'
             = <[r + 1 := Some (Simulation.passenger ps)]>
                 (<[r := None]> (Aircraft.aisle a))
          /\ Aircraft.seats a' = Aircraft.seats a)
      \/ (Simulation.state ps = PassengerState.SEATING
          /\ Simulation.state ps' = PassengerState.SEATED
          /\ Aircraft.aisle a' = <[r := None]> (Aircraft.aisle a)
          /\ Aircraft.seats a'
             = <[Passenger.seat (Simulation.passenger ps)
                   := Some (Simulation.passenger ps)]> (Aircraft.seats a))).
Proof.
  intros H a r. subst a r.
  destruct H as [p row Hst Hrow Hsize|ps1 evs1 p Hst Hrow Hsize Hss
                |p row Hst Hrow Hle Hfree|p row Hst Hrow Hblocked
                |Hst Hk|ps1 evs1 p a1 Hst Hk Hss|Hst Hk|Hst Hk|p Hst].
  - split; [done|]. split; [done|]. unfold occupiesAisle. rewrite Hst.
    split; [done|]. left. by repeat split.
  - destruct (startsSeating_shape _ _ _ _ _ Hss) as (Hp & Hr & _ & _ & _ & Hs).
    split; [done|]. split; [done|]. unfold occupiesAisle. rewrite Hst.
    split; [done|]. left. split; [|done].
    by destruct Hs as [->|[-> _]].
  - split; [done|]. split; [done|]. unfold occupiesAisle. rewrite Hst.
    split; [done|]. right. left.
    repeat split; try done. by apply isAisleOccupied_false.
  - split; [done|]. split; [done|]. unfold occupiesAisle. rewrite Hst.
    split; [done|]. left. repeat split; try done. cbn. by rewrite Hst.
  - split; [done|]. split; [done|]. unfold occupiesAisle. rewrite Hst.
    split; [done|]. left. repeat split; try done. cbn. by rewrite Hst.
  - destruct (startsSeating_shape _ _ _ _ _ Hss) as (Hp & Hr & _ & _ & _ & Hs).
    split; [done|]. split; [apply useBinCapacity_config|].
    unfold occupiesAisle. rewrite Hst. split; [done|]. left.
    split; [by destruct Hs as [->|[-> _]]|]. split; [done|].
    split; [apply useBinCapacity_aisle|apply useBinCapacity_seats].
  - split; [done|]. split; [done|]. unfold occupiesAisle. rewrite Hst.
    split; [done|]. left. repeat split; try done. cbn. by rewrite Hst.
  - split; [done|]. split; [done|]. unfold occupiesAisle. rewrite Hst.
    split; [done|]. left. by repeat split.
  - split; [done|]. split; [done|]. unfold occupiesAisle. rewrite Hst.
    split; [done|]. right. right. by repeat split.
Qed.

Lemma processPassengerInAisle_cases s k :
  Inv s ->
  Simulation.processPassengerInAisle s k = s
  \/ exists ps ps' a' evs,
       assoc_get k (Simulation.passengerStates s) = Some ps
       /\ Passenger.id (Simulation.passenger ps) = k
       /\ handles s ps ps' a' evs
       /\ Simulation.processPassengerInAisle s k = updated s ps' a' evs.
Proof.
  intros HI.
  destruct (assoc_get k (Simulation.passengerStates s)) as [ps|] eqn:Hget.
  - pose proof (inv_keys s HI _ _ Hget) as Hk.
    destruct (occupiesAisle ps) eqn:Hocc.
    + right. subst k.
      destruct (processPassengerInAisle_handles s ps Hget Hocc)
        as (ps' & a' & evs & Hh & Heq).
      by exists ps, ps', a', evs.
    + left. unfold Simulation.processPassengerInAisle. rewrite Hget.
      unfold occupiesAisle in Hocc. by destruct (Simulation.state ps).
  - left. unfold Simulation.processPassengerInAisle. by rewrite Hget.
Qed.

Lemma handles_state s ps ps' a' evs :
  handles s ps ps' a' evs ->
  Simulation.state ps' <> PassengerState.WAITING
  /\ (Simulation.state ps' = PassengerState.WALKING ->
      Simulation.state ps = PassengerState.WALKING)
  /\ (Simulation.state ps = PassengerState.SEATED -> False).
Proof.
  intros H.
  destruct H as [p row Hst Hrow Hsize|ps1 evs1 p Hst Hrow Hsize Hss
                |p row Hst Hrow Hle Hfree|p row Hst Hrow Hblocked
                |Hst Hk|ps1 evs1 p a1 Hst Hk Hss|Hst Hk|Hst Hk|p Hst];
    try (destruct (startsSeating_shape _ _ _ _ _ Hss)
           as (_ & _ & _ & _ & _ & [Hs|[Hs _]]); rewrite Hs);
    cbn [Simulation.state Simulation.set_state Simulation.set_stowRemaining
         Simulation.set_aisleRow Simulation.set_waitTime
         Simulation.set_shuffleRemaining Simulation.set_seatedAt];
    rewrite ?Hst; repeat split; congruence.
Qed.

Lemma Mirrors_updated s ps ps' a' evs :
  Mirrors s ->
  assoc_get (Passenger.id (Simulation.passenger ps))
    (Simulation.passengerStates s) = Some ps ->
  handles s ps ps' a' evs ->
  Mirrors (updated s ps' a' evs).
Proof.
  intros [Hcells Hseats] Hget Hh.
  destruct (handles_aisle _ _ _ _ _ Hh) as (Hp & Hcfg & Hocc & Hshape).
  cbn zeta in Hshape.
  assert (Hrows : Aircraft.rows a' = Aircraft.rows (Simulation.aircraft s))
    by (unfold Aircraft.rows; by rewrite Hcfg).
  assert (Hcols : Aircraft.columns a' = Aircraft.columns (Simulation.aircraft s))
    by (unfold Aircraft.columns; by rewrite Hcfg).
  assert (Hkeep : forall k0 ps0,
            assoc_get k0 (Simulation.passengerStates s) = Some ps0 ->
            k0 <> Passenger.id (Simulation.passenger ps) ->
            assoc_get k0 (Simulation.passengerStates (updated s ps' a' evs))
            = Some ps0).
  { intros k0 ps0 H0 Hne. unfold updated. cbn [Simulation.passengerStates].
    by rewrite assoc_get_set, Hp, decide_False. }
  assert (Hnew : assoc_get (Passenger.id (Simulation.passenger ps))
                   (Simulation.passengerStates (updated s ps' a' evs))
                 = Some ps').
  { unfold updated. cbn [Simulation.passengerStates].
    by rewrite assoc_get_set, Hp, decide_True. }
  assert (Hnotseated : Simulation.state ps <> PassengerState.SEATED).
  { intros Hs. unfold occupiesAisle in Hocc. by rewrite Hs in Hocc. }
  split; change (Simulation.aircraft (updated s ps' a' evs)) with a'.
  - intros r Hr. rewrite Hrows in Hr.
    destruct Hshape as [(Hocc' & Hrow' & Haisle & _)
                       |[(_ & Hst' & Hne & Hle & Hrow' & Hfree & Haisle & _)
                        |(_ & Hst' & Haisle & _)]].
    + rewrite Haisle.
      destruct (Hcells r Hr) as [Hnone|(k0 & ps0 & H0 & Hocc0 & Hr0)];
        [by left|right].
      destruct (decide (k0 = Passenger.id (Simulation.passenger ps))) as [->|Hne].
      * rewrite Hget in H0. injection H0 as <-.
        exists (Passenger.id (Simulation.passenger ps)), ps'.
        split; [done|]. split; [done|]. by rewrite Hrow'.
      * exists k0, ps0. split; [by apply Hkeep|done].
    + rewrite Haisle.
      destruct (decide (r = Simulation.aisleRow ps + 1)) as [->|Hne1].
      { right. exists (Passenger.id (Simulation.passenger ps)), ps'.
        split; [done|]. split; [|done]. unfold occupiesAisle. by rewrite Hst'. }
      rewrite lookup_insert_ne by done.
      destruct (decide (r = Simulation.aisleRow ps)) as [->|Hne0].
      { left. apply lookup_insert_eq. }
      rewrite lookup_insert_ne by done.
      destruct (Hcells r Hr) as [Hnone|(k0 & ps0 & H0 & Hocc0 & Hr0)];
        [by left|right].
      exists k0, ps0. split; [|done]. apply Hkeep; [done|].
      intros ->. rewrite Hget in H0. injection H0 as <-. done.
    + rewrite Haisle.
      destruct (decide (r = Simulation.aisleRow ps)) as [->|Hne0].
      { left. apply lookup_insert_eq. }
      rewrite lookup_insert_ne by done.
      destruct (Hcells r Hr) as [Hnone|(k0 & ps0 & H0 & Hocc0 & Hr0)];
        [by left|right].
      exists k0, ps0. split; [|done]. apply Hkeep; [done|].
      intros ->. rewrite Hget in H0. injection H0 as <-. done.
  - intros r c Hr Hc. rewrite Hrows in Hr. rewrite Hcols in Hc.
    assert (Hold : Aircraft.seats (Simulation.aircraft s) !! (r, c) = Some None
              \/ exists k0 ps0,
                   assoc_get k0 (Simulation.passengerStates (updated s ps' a' evs))
                   = Some ps0
                   /\ Simulation.state ps0 = PassengerState.SEATED
                   /\ Passenger.seat (Simulation.passenger ps0) = (r, c)).
    { destruct (Hseats r c Hr Hc) as [Hnone|(k0 & ps0 & H0 & Hst0 & Hseat0)];
        [by left|right].
      exists k0, ps0. split; [|done]. apply Hkeep; [done|].
      intros ->. rewrite Hget in H0. injection H0 as <-. done. }
    destruct Hshape as [(_ & _ & _ & Hs)
                       |[(_ & _ & _ & _ & _ & _ & _ & Hs)
                        |(_ & Hst' & _ & Hs)]].
    + by rewrite Hs.
    + by rewrite Hs.
    + rewrite Hs.
      destruct (decide (Passenger.seat (Simulation.passenger ps) = (r, c)))
        as [Heq|Hne].
      * right. exists (Passenger.id (Simulation.passenger ps)), ps'.
        split; [done|]. split; [done|]. by rewrite Hp.
      * by rewrite lookup_insert_ne.
Qed.

Lemma Advances_updated s ps ps' a' evs :
  Advances s ->
  assoc_get (Passenger.id (Simulation.passenger ps))
    (Simulation.passengerStates s) = Some ps ->
  handles s ps ps' a' evs ->
  Advances (updated s ps' a' evs).
Proof.
  intros [Htarget Hahead Hqueue] Hget Hh.
  destruct (handles_aisle _ _ _ _ _ Hh) as (Hp & Hcfg & Hocc & Hshape).
  destruct (handles_state _ _ _ _ _ Hh) as (Hnw & Hwalk & _).
  cbn zeta in Hshape.
  assert (Hrows : Aircraft.rows a' = Aircraft.rows (Simulation.aircraft s))
    by (unfold Aircraft.rows; by rewrite Hcfg).
  split; unfold updated; cbn [Simulation.aircraft Simulation.passengerStates
                              Simulation.queue];
    intros k0 ps0; rewrite assoc_get_set, Hp;
    (destruct (decide (k0 = Passenger.id (Simulation.passenger ps)))
       as [->|Hne]; [intros [= <-]|]).
  - rewrite Hrows, Hp. by apply (Htarget _ _ Hget).
  - rewrite Hrows. apply Htarget.
  - intros Hst'. specialize (Hahead _ _ Hget (Hwalk Hst')). rewrite Hp.
    destruct Hshape as [(_ & -> & _)
                       |[(_ & _ & Hne & _ & -> & _)|(_ & Hs & _)]];
      [done|lia|congruence].
  - apply Hahead.
  - done.
  - apply Hqueue.
Qed.

Lemma Mirrors_same s s' :
  Simulation.aircraft s' = Simulation.aircraft s ->
  Simulation.passengerStates s' = Simulation.passengerStates s ->
  Mirrors s -> Mirrors s'.
Proof. intros Ha Hm [Hc Hs]. split; rewrite Ha, Hm; done. Qed.

Lemma Advances_same s s' :
  Simulation.aircraft s' = Simulation.aircraft s ->
  Simulation.passengerStates s' = Simulation.passengerStates s ->
  Simulation.queue s' = Simulation.queue s ->
  Advances s -> Advances s'.
Proof. intros Ha Hm Hq [Ht Hah Hqu]. split; rewrite ?Ha, ?Hm, ?Hq; done. Qed.

Lemma Mirrors_processPassengerInAisle s k :
  Inv s -> Mirrors s -> Mirrors (Simulation.processPassengerInAisle s k).
Proof.
  intros HI HM.
  destruct (processPassengerInAisle_cases s k HI)
    as [->|(ps & ps' & a' & evs & Hget & <- & Hh & ->)]; [done|].
  by eapply Mirrors_updated.
Qed.

Lemma Advances_processPassengerInAisle s k :
  Inv s -> Advances s -> Advances (Simulation.processPassengerInAisle s k).
Proof.
  intros HI HA.
  destruct (processPassengerInAisle_cases s k HI)
    as [->|(ps & ps' & a' & evs & Hget & <- & Hh & ->)]; [done|].
  by eapply Advances_updated.
Qed.

Lemma Mirrors_handling ks s :
  Inv s -> Mirrors s -> Mirrors (foldl Simulation.processPassengerInAisle s ks).
Proof.
  revert s. induction ks as [|k ks IH]; intros s HI HM; cbn [foldl]; [done|].
  apply IH; [by apply Inv_processPassengerInAisle|].
  by apply Mirrors_processPassengerInAisle.
Qed.

Lemma Advances_handling ks s :
  Inv s -> Advances s ->
  Advances (foldl Simulation.processPassengerInAisle s ks).
Proof.
  revert s. induction ks as [|k ks IH]; intros s HI HM; cbn [foldl]; [done|].
  apply IH; [by apply Inv_processPassengerInAisle|].
  by apply Advances_processPassengerInAisle.
Qed.

Lemma Mirrors_afterAdmission s k ps rest :
  Mirrors s ->
  assoc_get k (Simulation.passengerStates s) = Some ps ->
  Simulation.state ps = PassengerState.WAITING ->
  Mirrors (afterAdmission s k ps rest).
Proof.
  intros [Hcells Hseats] Hget Hst.
  assert (Hkeep : forall k0 ps0,
            assoc_get k0 (Simulation.passengerStates s) = Some ps0 ->
            Simulation.state ps0 <> PassengerState.WAITING ->
            assoc_get k0 (Simulation.passengerStates (afterAdmission s k ps rest))
            = Some ps0).
  { intros k0 ps0 H0 Hne. unfold afterAdmission.
    cbn [Simulation.passengerStates]. rewrite assoc_get_set, decide_False; [done|].
    intros ->. rewrite Hget in H0. injection H0 as <-. done. }
  split;
    change (Simulation.aircraft (afterAdmission s k ps rest))
      with (Aircraft.placeInAisle (Simulation.passenger ps) 0
              (Simulation.aircraft s));
    unfold Aircraft.rows, Aircraft.columns, Aircraft.placeInAisle;
    cbn [Aircraft.config Aircraft.aisle Aircraft.seats].
  - intros r Hr. destruct (decide (r = 0)) as [->|Hne].
    + right. exists k, (admitted (Simulation.currentStep s) ps). split; [|done].
      unfold afterAdmission. cbn [Simulation.passengerStates].
      by rewrite assoc_get_set, decide_True.
    + rewrite lookup_insert_ne by done.
      destruct (Hcells r Hr) as [Hnone|(k0 & ps0 & H0 & Hocc0 & Hr0)];
        [by left|right].
      exists k0, ps0. split; [|done]. apply Hkeep; [done|].
      intros Hw. unfold occupiesAisle in Hocc0. by rewrite Hw in Hocc0.
  - intros r c Hr Hc.
    destruct (Hseats r c Hr Hc) as [Hnone|(k0 & ps0 & H0 & Hst0 & Hseat0)];
      [by left|right].
    exists k0, ps0. split; [|done]. apply Hkeep; [done|]. by rewrite Hst0.
Qed.

Lemma Advances_afterAdmission s k ps rest :
  Advances s ->
  Simulation.queue s = Some k :: rest ->
  assoc_get k (Simulation.passengerStates s) = Some ps ->
  Advances (afterAdmission s k ps rest).
Proof.
  intros [Htarget Hahead Hqueue] Hq Hget.
  split; unfold afterAdmission;
    cbn [Simulation.aircraft Simulation.passengerStates Simulation.queue];
    unfold Aircraft.rows;
    cbn [Aircraft.placeInAisle Aircraft.config];
    intros k0 ps0; rewrite assoc_get_set;
    (destruct (decide (k0 = k)) as [->|Hne]; [intros [= <-]|]).
  - apply (Htarget _ _ Hget).
  - apply Htarget.
  - intros _. cbn. apply (Htarget _ _ Hget).
  - apply Hahead.
  - done.
  - intros H0 Hst0. specialize (Hqueue _ _ H0 Hst0). rewrite Hq in Hqueue.
    apply elem_of_cons in Hqueue as [[= ->]|]; done.
Qed.

Lemma checkCompletion_fields s :
  Simulation.aircraft (Simulation.checkCompletion s) = Simulation.aircraft s
  /\ Simulation.passengerStates (Simulation.checkCompletion s)
     = Simulation.passengerStates s
  /\ Simulation.queue (Simulation.checkCompletion s) = Simulation.queue s
  /\ Simulation.currentStep (Simulation.checkCompletion s)
     = Simulation.currentStep s
  /\ Simulation.events (Simulation.checkCompletion s) = Simulation.events s.
Proof. unfold Simulation.checkCompletion. by destruct (Simulation.allSeated s). Qed.

(** The phases of a tick. *)
Lemma step_split s s' :
  Reachable s ->
  Simulation.isComplete s = false ->
  Simulation.step s = Some s' ->
  let s1 := Simulation.set_currentStep (Simulation.currentStep s + 1) s in
  let s2 :=
    foldl Simulation.processPassengerInAisle s1
      (Simulation.getAislePassengersSorted s1) in
  Inv s2 /\ evolves s1 s2
  /\ ((s' = Simulation.checkCompletion s2
       /\ (Simulation.queue s2 = []
           \/ Aircraft.isAisleOccupied (Simulation.aircraft s2) 0 = true))
      \/ exists k rest ps,
           Simulation.queue s2 = Some k :: rest
           /\ Aircraft.isAisleOccupied (Simulation.aircraft s2) 0 = false
           /\ assoc_get k (Simulation.passengerStates s2) = Some ps
           /\ s' = Simulation.checkCompletion (afterAdmission s2 k ps rest)).
Proof.
  intros HR Hic Hstep s1 s2.
  destruct (step_phases s s' Hic Hstep) as (s3 & Hadd & ->).
  fold s1 in Hadd. fold s2 in Hadd.
  assert (HI1 : Inv s1) by (by apply Reachable_Inv, Reachable_tick).
  destruct (handled_all s1 (Simulation.getAislePassengersSorted s1) HI1)
    as [HI2 Hev]. fold s2 in HI2, Hev.
  split; [done|]. split; [done|].
  destruct (tryAddFromQueue_cases s2 s3 HI2 Hadd)
    as [[-> Hno]|(k & rest & ps & Hq & Hfree & Hget & ->)].
  - by left.
  - right. by exists k, rest, ps.
Qed.

(** The phases of a tick, with what each of them is known to keep. *)
Lemma step_through s s' :
  Reachable s -> queueWaiting s ->
  Simulation.isComplete s = false ->
  Simulation.step s = Some s' ->
  let s1 := Simulation.set_currentStep (Simulation.currentStep s + 1) s in
  let s2 :=
    foldl Simulation.processPassengerInAisle s1
      (Simulation.getAislePassengersSorted s1) in
  Inv s2 /\ queueWaiting s2
  /\ ((s' = Simulation.checkCompletion s2
       /\ (Simulation.queue s2 = []
           \/ Aircraft.isAisleOccupied (Simulation.aircraft s2) 0 = true))
      \/ exists k rest ps,
           Simulation.queue s2 = Some k :: rest
           /\ Aircraft.isAisleOccupied (Simulation.aircraft s2) 0 = false
           /\ assoc_get k (Simulation.passengerStates s2) = Some ps
           /\ Simulation.state ps = PassengerState.WAITING
           /\ s' = Simulation.checkCompletion (afterAdmission s2 k ps rest)).
Proof.
  intros HR HQ Hic Hstep s1 s2.
  destruct (step_phases s s' Hic Hstep) as (s3 & Hadd & ->).
  fold s1 in Hadd. fold s2 in Hadd.
  assert (HR1 : Reachable s1) by (by apply Reachable_tick).
  assert (HI1 : Inv s1) by (by apply Reachable_Inv).
  assert (HQ1 : queueWaiting s1) by exact HQ.
  destruct (handled_all s1 (Simulation.getAislePassengersSorted s1) HI1)
    as [HI2 _]. fold s2 in HI2.
  assert (HQ2 : queueWaiting s2) by (by apply queueWaiting_handling).
  split; [done|]. split; [done|].
  destruct (tryAddFromQueue_cases s2 s3 HI2 Hadd)
    as [[-> Hno]|(k & rest & ps & Hq & Hfree & Hget & ->)].
  - by left.
  - right. exists k, rest, ps. repeat split; try done.
    apply (proj2 HQ2 k ps); [rewrite Hq; by left|done].
Qed.

Lemma Mirrors_step s s' :
  Reachable s -> queueWaiting s -> Mirrors s ->
  Simulation.step s = Some s' -> Mirrors s'.
Proof.
  intros HR HQ HM Hstep.
  destruct (Simulation.isComplete s) eqn:Hic.
  { unfold Simulation.step in Hstep. rewrite Hic in Hstep. by injection Hstep as <-. }
  destruct (step_through s s' HR HQ Hic Hstep) as (HI2 & HQ2 & Hcases).
  cbn zeta in *.
  set (s1 := Simulation.set_currentStep (Simulation.currentStep s + 1) s) in *.
  assert (HM2 : Mirrors (foldl Simulation.processPassengerInAisle s1
                           (Simulation.getAislePassengersSorted s1))).
  { apply Mirrors_handling; [by apply Reachable_Inv, Reachable_tick|].
    by apply (Mirrors_same s). }
  destruct (checkCompletion_fields
              (foldl Simulation.processPassengerInAisle s1
                 (Simulation.getAislePassengersSorted s1))) as (Ha & Hm & _).
  destruct Hcases as [[-> _]|(k & rest & ps & Hq & Hfree & Hget & Hw & ->)].
  - by apply (Mirrors_same _ _ Ha Hm).
  - destruct (checkCompletion_fields
                (afterAdmission
                   (foldl Simulation.processPassengerInAisle s1
                      (Simulation.getAislePassengersSorted s1)) k ps rest))
      as (Ha' & Hm' & _).
    apply (Mirrors_same _ _ Ha' Hm'). by apply Mirrors_afterAdmission.
Qed.

Lemma Advances_step s s' :
  Reachable s -> queueWaiting s -> Advances s ->
  Simulation.step s = Some s' -> Advances s'.
Proof.
  intros HR HQ HM Hstep.
  destruct (Simulation.isComplete s) eqn:Hic.
  { unfold Simulation.step in Hstep. rewrite Hic in Hstep. by injection Hstep as <-. }
  destruct (step_through s s' HR HQ Hic Hstep) as (HI2 & HQ2 & Hcases).
  cbn zeta in *.
  set (s1 := Simulation.set_currentStep (Simulation.currentStep s + 1) s) in *.
  assert (HM2 : Advances (foldl Simulation.processPassengerInAisle s1
                            (Simulation.getAislePassengersSorted s1))).
  { apply Advances_handling; [by apply Reachable_Inv, Reachable_tick|].
    by apply (Advances_same s). }
  destruct (checkCompletion_fields
              (foldl Simulation.processPassengerInAisle s1
                 (Simulation.getAislePassengersSorted s1))) as (Ha & Hm & Hq0 & _).
  destruct Hcases as [[-> _]|(k & rest & ps & Hq & Hfree & Hget & Hw & ->)].
  - by apply (Advances_same _ _ Ha Hm Hq0).
  - destruct (checkCompletion_fields
                (afterAdmission
                   (foldl Simulation.processPassengerInAisle s1
                      (Simulation.getAislePassengersSorted s1)) k ps rest))
      as (Ha' & Hm' & Hq' & _).
    apply (Advances_same _ _ Ha' Hm' Hq'). by apply Advances_afterAdmission.
Qed.

Lemma start_fields passengers aircraft orderedIds :
  let s := Simulation.setBoardingOrder orderedIds
             (Simulation.new passengers aircraft) in
  Simulation.aircraft s = Aircraft.reset aircraft
  /\ Simulation.originalPassengers s = passengers
  /\ Simulation.currentStep s = 0
  /\ Simulation.isComplete s = false
  /\ Simulation.events s = []
  /\ Simulation.queue s
     = (fun id => match assoc_get id (Simulation.passengerStates s) with
                  | Some _ => Some id
                  | None => None
                  end) <$> orderedIds.
Proof. by repeat split. Qed.

Lemma Mirrors_start passengers aircraft orderedIds :
  Mirrors (Simulation.setBoardingOrder orderedIds
             (Simulation.new passengers aircraft)).
Proof.
  destruct (start_fields passengers aircraft orderedIds) as (Ha & _).
  split; rewrite Ha; unfold Aircraft.reset, Aircraft.rows, Aircraft.columns;
    cbn [Aircraft.config Aircraft.aisle Aircraft.seats].
  - intros r Hr. left. rewrite fillAisle_lookup. by rewrite decide_True.
  - intros r c Hr Hc. left. rewrite fillSeats_lookup. by rewrite decide_True.
Qed.

Lemma Advances_start passengers aircraft orderedIds :
  Forall (fun p => 0 <= Passenger.row p <= Aircraft.rows aircraft) passengers ->
  (forall p, p ∈ passengers -> Passenger.id p ∈ orderedIds) ->
  Advances (Simulation.setBoardingOrder orderedIds
              (Simulation.new passengers aircraft)).
Proof.
  intros Hrows Hall.
  destruct (start_fields passengers aircraft orderedIds)
    as (Ha & _ & _ & _ & _ & Hq).
  split; intros k ps Hget;
    destruct (initial_store _ _ _ _ _ Hget) as (p & Hp & <- & ->).
  - rewrite Ha. cbn. by apply (proj1 (Forall_forall _ _) Hrows).
  - done.
  - intros _. rewrite Hq. apply list_elem_of_fmap.
    exists (Passenger.id p). split; [by rewrite Hget|by apply Hall].
Qed.

Lemma Mirrors_steps n s s' :
  Reachable s -> queueWaiting s -> Mirrors s ->
  Simulation.steps n s = Some s' -> Mirrors s'.
Proof.
  revert s. induction n as [|n IH]; intros s HR HQ HM; cbn [Simulation.steps].
  - by intros [= <-].
  - destruct (Simulation.step s) as [s1|] eqn:Hstep; [|done]. cbn.
    apply IH; [by eapply Reachable_step|by eapply queueWaiting_step|].
    by eapply Mirrors_step.
Qed.

Lemma Advances_steps n s s' :
  Reachable s -> queueWaiting s -> Advances s ->
  Simulation.steps n s = Some s' -> Advances s'.
Proof.
  revert s. induction n as [|n IH]; intros s HR HQ HM; cbn [Simulation.steps].
  - by intros [= <-].
  - destruct (Simulation.step s) as [s1|] eqn:Hstep; [|done]. cbn.
    apply IH; [by eapply Reachable_step|by eapply queueWaiting_step|].
    by eapply Advances_step.
Qed.

Lemma rows_steps n s s' :
  Reachable s -> Simulation.steps n s = Some s' ->
  Aircraft.config (Simulation.aircraft s') = Aircraft.config (Simulation.aircraft s).
Proof.
  revert s. induction n as [|n IH]; intros s HR; cbn [Simulation.steps].
  - by intros [= <-].
  - destruct (Simulation.step s) as [s1|] eqn:Hstep; [|done]. cbn. intros Hn.
    rewrite (IH s1); [by apply config_step|by eapply Reachable_step|done].
Qed.

(** X15: when the boarding order names nobody twice, the layout holds no
    passenger the run-states do not account for: after any number of
    ticks an aisle cell is occupied exactly when a run-state stands in
    it and, no two passengers having the same seat, a seat of the grid is
    occupied exactly when a SEATED run-state names it. *)
Theorem layout_mirrors_the_run_states
    (passengers : list Passenger.t) (aircraft : Aircraft.t)
    (orderedIds : list nat) (n : nat) (s : Simulation.t) :
  NoDup orderedIds ->
  Simulation.steps n
    (Simulation.setBoardingOrder orderedIds (Simulation.new passengers aircraft))
  = Some s ->
  (forall r, 0 <= r <= Aircraft.rows aircraft ->
     Aircraft.isAisleOccupied (Simulation.aircraft s) r = true
     <-> exists k ps,
           assoc_get k (Simulation.passengerStates s) = Some ps
           /\ occupiesAisle ps = true /\ Simulation.aisleRow ps = r)
  /\ (noSharedSeat passengers ->
      forall r c, 1 <= r <= Aircraft.rows aircraft ->
        c ∈ Aircraft.columns aircraft ->
        Aircraft.isSeatOccupied (Simulation.aircraft s) r c = true
        <-> exists k ps,
              assoc_get k (Simulation.passengerStates s) = Some ps
              /\ Simulation.state ps = PassengerState.SEATED
              /\ Passenger.seat (Simulation.passenger ps) = (r, c)).
Proof.
  intros Hnd Hsteps.
  set (s0 := Simulation.setBoardingOrder orderedIds
               (Simulation.new passengers aircraft)) in *.
  assert (HR0 : Reachable s0) by apply Reachable_start.
  assert (HR : Reachable s) by (by eapply Reachable_steps).
  assert (HI : Inv s) by (by apply Reachable_Inv).
  assert (HM : Mirrors s).
  { eapply Mirrors_steps; [exact HR0|by apply queueWaiting_start| |exact Hsteps].
    apply Mirrors_start. }
  assert (Hcfg : Aircraft.config (Simulation.aircraft s) = Aircraft.config aircraft).
  { by rewrite (rows_steps n s0 s HR0 Hsteps). }
  assert (Hrows : Aircraft.rows (Simulation.aircraft s) = Aircraft.rows aircraft)
    by (unfold Aircraft.rows; by rewrite Hcfg).
  assert (Hcols : Aircraft.columns (Simulation.aircraft s)
                  = Aircraft.columns aircraft)
    by (unfold Aircraft.columns; by rewrite Hcfg).
  split.
  - intros r Hr. rewrite <- Hrows in Hr. unfold Aircraft.isAisleOccupied. split.
    + intros Hocc. destruct (mir_cells s HM r Hr) as [Hnone|Hw]; [|done].
      by rewrite Hnone in Hocc.
    + intros (k & ps & Hget & Hocc & <-).
      by rewrite (inv_cell s HI k ps Hget Hocc).
  - intros Hseats r c Hr Hc. rewrite <- Hrows in Hr. rewrite <- Hcols in Hc.
    unfold Aircraft.isSeatOccupied. split.
    + intros Hocc. destruct (mir_seats s HM r c Hr Hc) as [Hnone|Hw]; [|done].
      by rewrite Hnone in Hocc.
    + intros (k & ps & Hget & Hst & Hseat).
      assert (Hd : seatsDistinct s).
      { apply Reachable_seatsDistinct; [done|].
        by rewrite (originalPassengers_steps n s0 s HR0 Hsteps). }
      pose proof (inv_seat s HI Hd k ps Hget Hst) as Hin.
      rewrite Hseat in Hin. by rewrite Hin.
Qed.

Lemma layout_mirrors_the_run_states_witness :
  Aircraft.isAisleOccupied (Simulation.aircraft (Scenario.tick 2)) 1 = true
  <-> exists k ps,
        assoc_get k (Simulation.passengerStates (Scenario.tick 2)) = Some ps
        /\ occupiesAisle ps = true /\ Simulation.aisleRow ps = 1.
Proof.
  assert (Hnd : NoDup [1; 2]%nat) by (by apply (bool_decide_unpack _)).
  assert (Hs : Simulation.steps 2
                 (Simulation.setBoardingOrder [1; 2]%nat
                    (Simulation.new [Scenario.P1; Scenario.P2]
                       (Aircraft.new Scenario.layout)))
               = Some (Scenario.tick 2)) by (vm_compute; reflexivity).
  pose proof (layout_mirrors_the_run_states [Scenario.P1; Scenario.P2]
                (Aircraft.new Scenario.layout) [1; 2]%nat 2 (Scenario.tick 2)
                Hnd Hs) as T.
  destruct T as [T _]. apply T. vm_compute. split; discriminate.
Defined.

(** ** Every tick brings the boarding nearer to its end *)

Lemma seatsBetween_nonneg pos p : 0 <= seatsBetween pos p.
Proof. unfold seatsBetween. lia. Qed.

Lemma handles_work s ps ps' a' evs :
  let pos := Aircraft.aislePosition (Simulation.aircraft s) in
  handles s ps ps' a' evs ->
  work pos ps' < work pos ps
  \/ (work pos ps' = work pos ps
      /\ Simulation.state ps = PassengerState.WALKING
      /\ Simulation.aisleRow ps <> Passenger.row (Simulation.passenger ps)
      /\ ~ (Simulation.aisleRow ps + 1 <= Aircraft.rows (Simulation.aircraft s)
            /\ Aircraft.isAisleOccupied (Simulation.aircraft s)
                 (Simulation.aisleRow ps + 1) = false)).
Proof.
  intros pos H.
  pose proof (seatsBetween_nonneg pos (Simulation.passenger ps)) as Hsb.
  destruct H as [p row Hst Hrow Hsize|ps1 evs1 p Hst Hrow Hsize Hss
                |p row Hst Hrow Hle Hfree|p row Hst Hrow Hblocked
                |Hst Hk|ps1 evs1 p a1 Hst Hk Hss|Hst Hk|Hst Hk|p Hst].
  - left. unfold work. cbn. rewrite Hst. subst p row.
    unfold Passenger.stowTime.
    destruct (Passenger.carryOnSize (Simulation.passenger ps)); [done|cbn; lia..].
  - left. destruct (startsSeating_shape _ _ _ _ _ Hss)
      as (Hp & _ & _ & _ & _ & [Hs|[Hs Hk]]);
      unfold work; rewrite Hs, Hst, ?Hp; subst p;
      unfold Passenger.stowTime; rewrite Hsize; cbn [Passenger.STOW_TIMES];
      fold pos; [|fold pos in Hk]; lia.
  - left. unfold work. cbn. rewrite Hst. lia.
  - right. unfold work. cbn. rewrite Hst. done.
  - left. unfold work. cbn. rewrite Hst. lia.
  - left. destruct (startsSeating_shape _ _ _ _ _ Hss)
      as (Hp & _ & _ & _ & _ & [Hs|[Hs Hk']]);
      unfold work; rewrite Hs, Hst, ?Hp; cbn [Simulation.passenger
        Simulation.set_stowRemaining] in *.
    + fold pos. lia.
    + assert (Hpos : Aircraft.aislePosition a1 = pos).
      { subst a1 pos. unfold Aircraft.aislePosition.
        by rewrite useBinCapacity_config. }
      rewrite Hpos in Hk'. fold pos. lia.
  - left. unfold work. cbn. rewrite Hst. lia.
  - left. unfold work. cbn. rewrite Hst. lia.
  - left. unfold work. cbn. rewrite Hst. lia.
Qed.

Lemma sum_assoc_set {V} (f : V -> Z) k v old (m : list (nat * V)) :
  assoc_get k m = Some old ->
  foldr Z.add 0 ((fun kv => f kv.2) <$> assoc_set k v m)
  = foldr Z.add 0 ((fun kv => f kv.2) <$> m) - f old + f v.
Proof.
  induction m as [|[k0 v0] m IH]; csimpl; [done|].
  destruct (decide (k = k0)) as [->|Hne].
  - intros [= ->]. csimpl. lia.
  - intros Hget. csimpl. rewrite IH by done. lia.
Qed.

Lemma sum_nonneg {V} (f : V -> Z) (m : list (nat * V)) :
  (forall kv, kv ∈ m -> 0 <= f kv.2) ->
  0 <= foldr Z.add 0 ((fun kv => f kv.2) <$> m).
Proof.
  induction m as [|kv m IH]; csimpl; [done|]. intros Hpos.
  assert (0 <= f kv.2) by (apply Hpos; by left).
  assert (0 <= foldr Z.add 0 ((fun kv => f kv.2) <$> m)); [|lia].
  apply IH. intros kv' Hkv'. apply Hpos. by right.
Qed.

Lemma sum_elem_le {V} (f : V -> Z) kv (m : list (nat * V)) :
  (forall kv, kv ∈ m -> 0 <= f kv.2) ->
  kv ∈ m ->
  f kv.2 <= foldr Z.add 0 ((fun kv => f kv.2) <$> m).
Proof.
  induction m as [|kv0 m IH]; csimpl; intros Hpos Hin.
  - by apply elem_of_nil in Hin.
  - assert (H0 : 0 <= f kv0.2) by (apply Hpos; by left).
    assert (Hrest : forall kv, kv ∈ m -> 0 <= f kv.2)
      by (intros kv' Hkv'; apply Hpos; by right).
    pose proof (sum_nonneg f m Hrest) as Hsum.
    apply elem_of_cons in Hin as [->|Hin]; [lia|].
    specialize (IH Hrest Hin). lia.
Qed.

Lemma totalWork_updated s ps ps' a' evs :
  assoc_get (Passenger.id (Simulation.passenger ps))
    (Simulation.passengerStates s) = Some ps ->
  Simulation.passenger ps' = Simulation.passenger ps ->
  Aircraft.config a' = Aircraft.config (Simulation.aircraft s) ->
  totalWork (updated s ps' a' evs)
  = totalWork s
    - work (Aircraft.aislePosition (Simulation.aircraft s)) ps
    + work (Aircraft.aislePosition (Simulation.aircraft s)) ps'.
Proof.
  intros Hget Hp Hcfg. unfold totalWork, updated.
  cbn [Simulation.aircraft Simulation.passengerStates].
  replace (Aircraft.aislePosition a')
    with (Aircraft.aislePosition (Simulation.aircraft s))
    by (unfold Aircraft.aislePosition; by rewrite Hcfg).
  rewrite Hp. by apply sum_assoc_set.
Qed.

Lemma totalWork_processPassengerInAisle s k :
  Inv s ->
  totalWork (Simulation.processPassengerInAisle s k) <= totalWork s.
Proof.
  intros HI.
  destruct (processPassengerInAisle_cases s k HI)
    as [->|(ps & ps' & a' & evs & Hget & <- & Hh & ->)]; [done|].
  destruct (handles_aisle _ _ _ _ _ Hh) as (Hp & Hcfg & _).
  rewrite (totalWork_updated s ps ps' a' evs Hget Hp Hcfg).
  destruct (handles_work _ _ _ _ _ Hh) as [Hlt|[Heq _]]; lia.
Qed.

Lemma totalWork_handling ks s :
  Inv s ->
  totalWork (foldl Simulation.processPassengerInAisle s ks) <= totalWork s.
Proof.
  revert s. induction ks as [|k ks IH]; intros s HI; cbn [foldl]; [done|].
  etrans; [apply IH; by apply Inv_processPassengerInAisle|].
  by apply totalWork_processPassengerInAisle.
Qed.

Lemma totalWork_afterAdmission s k ps rest :
  assoc_get k (Simulation.passengerStates s) = Some ps ->
  Simulation.state ps = PassengerState.WAITING ->
  totalWork (afterAdmission s k ps rest) = totalWork s - 1.
Proof.
  intros Hget Hst. unfold totalWork, afterAdmission.
  cbn [Simulation.aircraft Simulation.passengerStates].
  change (Aircraft.aislePosition
            (Aircraft.placeInAisle (Simulation.passenger ps) 0
               (Simulation.aircraft s)))
    with (Aircraft.aislePosition (Simulation.aircraft s)).
  rewrite (sum_assoc_set _ k _ ps) by done.
  unfold work, admitted. cbn. rewrite Hst. lia.
Qed.

Lemma totalWork_same s s' :
  Simulation.aircraft s' = Simulation.aircraft s ->
  Simulation.passengerStates s' = Simulation.passengerStates s ->
  totalWork s' = totalWork s.
Proof. intros Ha Hm. unfold totalWork. by rewrite Ha, Hm. Qed.

Lemma sorted_aisle_list s :
  Reachable s ->
  exists L : list (nat * Simulation.RunState),
    Simulation.getAislePassengersSorted s = L.*1
    /\ L ≡ₚ filter (fun kv => occupiesAisle kv.2 = true)
              (Simulation.passengerStates s)
    /\ StronglySorted
         (fun a b => Simulation.aisleRow b.2 < Simulation.aisleRow a.2) L.
Proof.
  intros HR. unfold Simulation.getAislePassengersSorted.
  rewrite (inAisle_occupiesAisle s HR).
  eexists. split; [reflexivity|]. split; [apply array_sort_perm|].
  by apply aisle_sorted_strictly.
Qed.

Lemma front_of_the_aisle s k ks :
  Reachable s ->
  Simulation.getAislePassengersSorted s = k :: ks ->
  exists ps,
    assoc_get k (Simulation.passengerStates s) = Some ps
    /\ occupiesAisle ps = true
    /\ forall k0 ps0,
         assoc_get k0 (Simulation.passengerStates s) = Some ps0 ->
         occupiesAisle ps0 = true ->
         Simulation.aisleRow ps0 <= Simulation.aisleRow ps.
Proof.
  intros HR Hks. destruct (sorted_aisle_list s HR) as (L & HL & Hperm & Hsorted).
  rewrite Hks in HL. destruct L as [|[k' ps] L]; [done|].
  csimpl in HL. injection HL as <- _. exists ps.
  assert (Hin : (k, ps) ∈ filter (fun kv => occupiesAisle kv.2 = true)
                         (Simulation.passengerStates s))
    by (rewrite <- Hperm; by left).
  apply list_elem_of_filter in Hin as [Hocc Hin].
  split; [by apply Reachable_lookup|]. split; [done|].
  intros k0 ps0 H0 Hocc0.
  assert (Hin0 : (k0, ps0) ∈ (k, ps) :: L).
  { rewrite Hperm. apply list_elem_of_filter. split; [done|].
    by apply assoc_get_elem_of. }
  apply StronglySorted_cons in Hsorted as [Hhead _].
  apply elem_of_cons in Hin0 as [[= -> ->]|Hin0]; [done|].
  pose proof (proj1 (Forall_forall _ _) Hhead _ Hin0) as Hlt. cbn in Hlt. lia.
Qed.

Lemma nobody_in_the_aisle s :
  Reachable s ->
  Simulation.getAislePassengersSorted s = [] ->
  forall k ps, assoc_get k (Simulation.passengerStates s) = Some ps ->
    occupiesAisle ps = false.
Proof.
  intros HR Hks k ps Hget.
  destruct (sorted_aisle_list s HR) as (L & HL & Hperm & _).
  rewrite Hks in HL. destruct L as [|? L]; [|done].
  apply Permutation_nil in Hperm.
  destruct (occupiesAisle ps) eqn:Hocc; [|done].
  assert (Hin : (k, ps) ∈ filter (fun kv => occupiesAisle kv.2 = true)
                         (Simulation.passengerStates s)).
  { apply list_elem_of_filter. split; [done|]. by apply assoc_get_elem_of. }
  rewrite Hperm in Hin. by apply elem_of_nil in Hin.
Qed.

Lemma front_progress s k ks :
  Reachable s -> Mirrors s -> Advances s ->
  Simulation.getAislePassengersSorted s = k :: ks ->
  totalWork (Simulation.processPassengerInAisle s k) < totalWork s.
Proof.
  intros HR HM HA Hks.
  pose proof (Reachable_Inv s HR) as HI.
  destruct (front_of_the_aisle s k ks HR Hks) as (ps & Hget & Hocc & Hmax).
  pose proof (inv_keys s HI _ _ Hget) as Hk. subst k.
  destruct (processPassengerInAisle_handles s ps Hget Hocc)
    as (ps' & a' & evs & Hh & ->).
  destruct (handles_aisle _ _ _ _ _ Hh) as (Hp & Hcfg & _).
  rewrite (totalWork_updated s ps ps' a' evs Hget Hp Hcfg).
  destruct (handles_work _ _ _ _ _ Hh) as [Hlt|(_ & Hst & Hne & Hblocked)];
    [lia|].
  exfalso. apply Hblocked.
  pose proof (adv_ahead s HA _ _ Hget Hst) as Hahead.
  pose proof (adv_target s HA _ _ Hget) as Htarget.
  pose proof (inv_row s HI _ _ Hget Hocc) as Hrow.
  split; [lia|].
  destruct (mir_cells s HM (Simulation.aisleRow ps + 1) ltac:(lia))
    as [Hnone|(k0 & ps0 & H0 & Hocc0 & Hr0)].
  - unfold Aircraft.isAisleOccupied. by rewrite Hnone.
  - specialize (Hmax k0 ps0 H0 Hocc0). lia.
Qed.

Lemma allSeated_true s :
  Reachable s ->
  Simulation.allSeated s = true
  <-> forall k ps, assoc_get k (Simulation.passengerStates s) = Some ps ->
        Simulation.state ps = PassengerState.SEATED.
Proof.
  intros HR. unfold Simulation.allSeated. rewrite forallb_forall. split.
  - intros H k ps Hget.
    specialize (H (k, ps)
                  (proj1 (list_elem_of_In _ _) (assoc_get_elem_of _ _ _ Hget))).
    cbn in H. by destruct (Simulation.state ps).
  - intros H [k ps] Hin%list_elem_of_In. cbn.
    by rewrite (H k ps (Reachable_lookup s k ps HR Hin)).
Qed.

Lemma step_currentStep s s' :
  Reachable s ->
  Simulation.isComplete s = false ->
  Simulation.step s = Some s' ->
  Simulation.currentStep s' = Simulation.currentStep s + 1.
Proof.
  intros HR Hic Hstep.
  destruct (step_split s s' HR Hic Hstep) as (_ & Hev & Hcases).
  cbn zeta in *.
  destruct Hev as (_ & _ & Hcs & _).
  destruct Hcases as [[-> _]|(k & rest & ps & _ & _ & _ & ->)];
    rewrite (proj1 (proj2 (proj2 (proj2 (checkCompletion_fields _)))));
    [|unfold afterAdmission; cbn [Simulation.currentStep]];
    by rewrite Hcs.
Qed.

(** As long as somebody is not seated, a tick takes at least one unit
    off the work that is left. *)
Lemma tick_progress s s' :
  Reachable s -> queueWaiting s -> Mirrors s -> Advances s ->
  Simulation.isComplete s = false ->
  Simulation.step s = Some s' ->
  (exists k ps, assoc_get k (Simulation.passengerStates s) = Some ps
                /\ Simulation.state ps <> PassengerState.SEATED) ->
  totalWork s' < totalWork s.
Proof.
  intros HR HQ HM HA Hic Hstep (k & ps & Hget & Hns).
  destruct (step_through s s' HR HQ Hic Hstep) as (HI2 & HQ2 & Hcases).
  cbn zeta in *.
  set (s1 := Simulation.set_currentStep (Simulation.currentStep s + 1) s) in *.
  assert (HR1 : Reachable s1) by (by apply Reachable_tick).
  assert (HM1 : Mirrors s1) by (by apply (Mirrors_same s)).
  assert (HA1 : Advances s1) by (by apply (Advances_same s)).
  assert (Hw1 : totalWork s1 = totalWork s) by (by apply totalWork_same).
  set (s2 := foldl Simulation.processPassengerInAisle s1
               (Simulation.getAislePassengersSorted s1)) in *.
  assert (Hend : totalWork s' <= totalWork s2).
  { destruct Hcases as [[-> _]|(k0 & rest & ps0 & _ & _ & Hget0 & Hw0 & ->)].
    - destruct (checkCompletion_fields s2) as (Ha & Hm & _).
      by rewrite (totalWork_same _ _ Ha Hm).
    - destruct (checkCompletion_fields (afterAdmission s2 k0 ps0 rest))
        as (Ha & Hm & _).
      rewrite (totalWork_same _ _ Ha Hm), totalWork_afterAdmission by done. lia. }
  destruct (Simulation.getAislePassengersSorted s1) as [|k1 ks] eqn:Hks.
  - (* nobody in the aisle: somebody waits and is admitted *)
    assert (Hs2 : s2 = s1) by done.
    assert (Hwait : Simulation.state ps = PassengerState.WAITING).
    { pose proof (nobody_in_the_aisle s1 HR1 Hks k ps Hget) as Hocc.
      unfold occupiesAisle in Hocc. by destruct (Simulation.state ps). }
    pose proof (adv_queue s HA k ps Hget Hwait) as Hin.
    pose proof (adv_target s HA k ps Hget) as Htarget.
    destruct Hcases as [[_ Hno]|(k0 & rest & ps0 & _ & _ & Hget0 & Hw0 & ->)].
    + exfalso. rewrite Hs2 in Hno. destruct Hno as [Hempty|Hocc].
      * change (Simulation.queue s1) with (Simulation.queue s) in Hempty.
        rewrite Hempty in Hin. by apply elem_of_nil in Hin.
      * destruct (mir_cells s1 HM1 0) as [Hnone|(k0 & ps0 & H0 & Hocc0 & _)].
        -- change (Simulation.aircraft s1) with (Simulation.aircraft s). lia.
        -- unfold Aircraft.isAisleOccupied in Hocc. by rewrite Hnone in Hocc.
        -- by rewrite (nobody_in_the_aisle s1 HR1 Hks k0 ps0 H0) in Hocc0.
    + destruct (checkCompletion_fields (afterAdmission s2 k0 ps0 rest))
        as (Ha & Hm & _).
      rewrite (totalWork_same _ _ Ha Hm), totalWork_afterAdmission by done.
      rewrite Hs2. lia.
  - (* the passenger at the front of the aisle gets on *)
    assert (Hfront : totalWork s2 < totalWork s1).
    { subst s2. cbn [foldl].
      eapply Z.le_lt_trans;
        [apply totalWork_handling; by apply Inv_processPassengerInAisle,
                                             Reachable_Inv|].
      by eapply front_progress. }
    lia.
Qed.

(** Once everybody is seated, the next tick finds the boarding
    complete. *)
Lemma tick_completes s s' :
  Reachable s -> queueValid s -> queueWaiting s ->
  Simulation.isComplete s = false ->
  Simulation.step s = Some s' ->
  (forall k ps, assoc_get k (Simulation.passengerStates s) = Some ps ->
     Simulation.state ps = PassengerState.SEATED) ->
  Simulation.isComplete s' = true.
Proof.
  intros HR HV HQ Hic Hstep Hall.
  destruct (step_through s s' HR HQ Hic Hstep) as (HI2 & HQ2 & Hcases).
  cbn zeta in *.
  set (s1 := Simulation.set_currentStep (Simulation.currentStep s + 1) s) in *.
  assert (HR1 : Reachable s1) by (by apply Reachable_tick).
  assert (Hks : Simulation.getAislePassengersSorted s1 = []).
  { destruct (Simulation.getAislePassengersSorted s1) as [|k1 ks] eqn:Hks;
      [done|].
    destruct (front_of_the_aisle s1 k1 ks HR1 Hks) as (ps & Hget & Hocc & _).
    unfold occupiesAisle in Hocc. by rewrite (Hall k1 ps Hget) in Hocc. }
  rewrite Hks in Hcases. cbn [foldl] in Hcases.
  destruct Hcases as [[-> _]|(k0 & rest & ps0 & _ & _ & Hget0 & Hw0 & _)].
  - unfold Simulation.checkCompletion.
    rewrite (proj2 (allSeated_true s1 HR1)); [done|exact Hall].
  - by rewrite (Hall k0 ps0 Hget0) in Hw0.
Qed.

Lemma work_nonneg s k ps :
  Advances s ->
  assoc_get k (Simulation.passengerStates s) = Some ps ->
  0 <= work (Aircraft.aislePosition (Simulation.aircraft s)) ps.
Proof.
  intros HA Hget.
  pose proof (adv_target s HA k ps Hget) as Ht.
  pose proof (adv_ahead s HA k ps Hget) as Ha.
  pose proof (seatsBetween_nonneg
                (Aircraft.aislePosition (Simulation.aircraft s))
                (Simulation.passenger ps)) as Hsb.
  assert (Hstow : 0 <= Passenger.stowTime (Simulation.passenger ps)).
  { unfold Passenger.stowTime.
    by destruct (Passenger.carryOnSize (Simulation.passenger ps)). }
  unfold work. destruct (Simulation.state ps); try lia.
  specialize (Ha eq_refl). lia.
Qed.

Lemma totalWork_nonneg s : Reachable s -> Advances s -> 0 <= totalWork s.
Proof.
  intros HR HA. unfold totalWork. apply sum_nonneg. intros [k ps] Hin.
  apply (work_nonneg s k ps HA). by apply Reachable_lookup.
Qed.

Lemma forallb_false {A} (f : A -> bool) (l : list A) :
  forallb f l = false -> exists x, x ∈ l /\ f x = false.
Proof.
  induction l as [|x l IH]; [done|]. cbn [forallb].
  destruct (f x) eqn:Hx.
  - intros H. destruct (IH H) as (y & Hy & Hfy). exists y. split; [by right|done].
  - intros _. exists x. split; [by left|done].
Qed.

Lemma runLoop_complete fuel s :
  Simulation.isComplete s = true -> Simulation.runLoop fuel s = Some s.
Proof. intros Hic. destruct fuel; cbn [Simulation.runLoop]; by rewrite ?Hic. Qed.

(** The boarding ends within as many ticks as there is work left, and
    one more. *)
Lemma completes_within (w : nat) s :
  Reachable s -> queueValid s -> queueWaiting s -> Mirrors s -> Advances s ->
  totalWork s < Z.of_nat w ->
  exists n s',
    (n <= w)%nat
    /\ Simulation.steps n s = Some s'
    /\ Simulation.isComplete s' = true
    /\ Simulation.currentStep s' = Simulation.currentStep s + Z.of_nat n
    /\ (forall fuel, (n <= fuel)%nat -> Simulation.runLoop fuel s = Some s')
    /\ (forall m sm, (m < n)%nat -> Simulation.steps m s = Some sm ->
          Simulation.isComplete sm = false).
Proof.
  revert s. induction w as [|w IH]; intros s HR HV HQ HM HA Hw.
  { pose proof (totalWork_nonneg s HR HA). lia. }
  destruct (Simulation.isComplete s) eqn:Hic.
  { exists 0%nat, s. split; [lia|]. split; [done|]. split; [done|].
    split; [lia|]. split; [intros; by apply runLoop_complete|]. intros; lia. }
  destruct (step_total s HR HV) as (s1 & Hstep & HV1).
  assert (HR1 : Reachable s1) by exact (Reachable_step s s1 HR Hstep).
  assert (HQ1 : queueWaiting s1) by exact (queueWaiting_step s s1 HR HQ Hstep).
  assert (HM1 : Mirrors s1) by exact (Mirrors_step s s1 HR HQ HM Hstep).
  assert (HA1 : Advances s1) by exact (Advances_step s s1 HR HQ HA Hstep).
  pose proof (step_currentStep s s1 HR Hic Hstep) as Hcs.
  assert (Hnext : exists n s',
            (n <= w)%nat /\ Simulation.steps n s1 = Some s'
            /\ Simulation.isComplete s' = true
            /\ Simulation.currentStep s' = Simulation.currentStep s1 + Z.of_nat n
            /\ (forall fuel, (n <= fuel)%nat ->
                  Simulation.runLoop fuel s1 = Some s')
            /\ (forall m sm, (m < n)%nat -> Simulation.steps m s1 = Some sm ->
                  Simulation.isComplete sm = false)).
  { destruct (Simulation.allSeated s) eqn:Hall.
    - exists 0%nat, s1. split; [lia|]. split; [done|].
      split; [apply (tick_completes s s1 HR HV HQ Hic Hstep),
                (allSeated_true s HR), Hall|].
      split; [lia|]. split; [|intros; lia].
      intros fuel _. apply runLoop_complete.
      apply (tick_completes s s1 HR HV HQ Hic Hstep), (allSeated_true s HR), Hall.
    - apply IH; try done.
      assert (Hprog : totalWork s1 < totalWork s); [|lia].
      apply (tick_progress s s1 HR HQ HM HA Hic Hstep).
      unfold Simulation.allSeated in Hall.
      apply forallb_false in Hall as ([k ps] & Hin & Hne).
      exists k, ps. split; [by apply Reachable_lookup|].
      cbn in Hne. intros Hs. by rewrite Hs in Hne. }
  destruct Hnext as (n & s' & Hn & Hsteps & Hic' & Hcs' & Hloop & Hmin).
  exists (S n), s'. split; [lia|].
  split; [cbn [Simulation.steps]; by rewrite Hstep|]. split; [done|].
  split; [lia|]. split.
  - intros [|fuel] Hf; [lia|]. cbn [Simulation.runLoop].
    rewrite Hic, Hstep. cbn. apply Hloop. lia.
  - intros [|m] sm Hm; cbn [Simulation.steps].
    + by intros [= <-].
    + rewrite Hstep. cbn. apply Hmin. lia.
Qed.

Lemma assoc_set_fresh {V} k (v : V) (m : list (nat * V)) :
  k ∉ m.*1 -> assoc_set k v m = m ++ [(k, v)].
Proof.
  induction m as [|[k0 v0] m IH]; csimpl; [done|]. intros Hk.
  apply not_elem_of_cons in Hk as [Hne Hk].
  rewrite decide_False by done. by rewrite IH.
Qed.

Lemma initial_store_fresh (passengers : list Passenger.t)
    (m0 : list (nat * Simulation.RunState)) :
  NoDup (m0.*1 ++ (Passenger.id <$> passengers)) ->
  foldl (fun m p => assoc_set (Passenger.id p) (Simulation.initialRunState p) m)
    m0 passengers
  = m0 ++ ((fun p => (Passenger.id p, Simulation.initialRunState p))
             <$> passengers).
Proof.
  revert m0. induction passengers as [|p ps IH]; intros m0 Hnd; csimpl.
  - by rewrite app_nil_r.
  - rewrite assoc_set_fresh.
    + rewrite IH.
      * by rewrite <- app_assoc.
      * rewrite fmap_app. csimpl. by rewrite <- app_assoc.
    + apply NoDup_app in Hnd as (_ & Hdisj & _). intros Hin.
      apply (Hdisj _ Hin). by left.
Qed.

Lemma initial_store_map passengers aircraft orderedIds :
  NoDup (Passenger.id <$> passengers) ->
  Simulation.passengerStates
    (Simulation.setBoardingOrder orderedIds (Simulation.new passengers aircraft))
  = (fun p => (Passenger.id p, Simulation.initialRunState p)) <$> passengers.
Proof.
  intros Hnd.
  change (Simulation.passengerStates _)
    with (foldl (fun m p => assoc_set (Passenger.id p)
                              (Simulation.initialRunState p) m) [] passengers).
  by rewrite initial_store_fresh.
Qed.

Lemma totalWork_start passengers aircraft orderedIds :
  NoDup (Passenger.id <$> passengers) ->
  totalWork (Simulation.setBoardingOrder orderedIds
               (Simulation.new passengers aircraft))
  = boardingBound (Aircraft.aislePosition aircraft) passengers - 1.
Proof.
  intros Hnd. unfold totalWork, boardingBound.
  rewrite initial_store_map by done.
  change (Aircraft.aislePosition (Simulation.aircraft _))
    with (Aircraft.aislePosition aircraft).
  rewrite <- list_fmap_compose.
  replace (1 + _ - 1) with
    (foldr Z.add 0
       ((fun p => Passenger.row p + Passenger.stowTime p
                  + 3 * seatsBetween (Aircraft.aislePosition aircraft) p + 3)
          <$> passengers)) by lia.
  reflexivity.
Qed.

(** The completion flag is raised only over a cabin in which everybody
    is seated. *)
Lemma complete_means_seated_step s s' :
  Reachable s ->
  (Simulation.isComplete s = true -> Simulation.allSeated s = true) ->
  Simulation.step s = Some s' ->
  Simulation.isComplete s' = true -> Simulation.allSeated s' = true.
Proof.
  intros HR Hinv Hstep.
  destruct (Simulation.isComplete s) eqn:Hic.
  { unfold Simulation.step in Hstep. rewrite Hic in Hstep.
    injection Hstep as <-. by rewrite Hic. }
  destruct (step_split s s' HR Hic Hstep) as (_ & Hev & Hcases).
  cbn zeta in *. destruct Hev as (_ & _ & _ & Hic2 & _).
  assert (Hcheck : forall x, Simulation.isComplete x = false ->
            Simulation.isComplete (Simulation.checkCompletion x) = true ->
            Simulation.allSeated (Simulation.checkCompletion x) = true).
  { intros x Hx. unfold Simulation.checkCompletion.
    destruct (Simulation.allSeated x) eqn:Hall; [|congruence].
    intros _. exact Hall. }
  destruct Hcases as [[-> _]|(k & rest & ps & _ & _ & _ & ->)];
    apply Hcheck; [|unfold afterAdmission; cbn [Simulation.isComplete]];
    by rewrite Hic2.
Qed.

Lemma complete_means_seated n s s' :
  Reachable s ->
  (Simulation.isComplete s = true -> Simulation.allSeated s = true) ->
  Simulation.steps n s = Some s' ->
  Simulation.isComplete s' = true -> Simulation.allSeated s' = true.
Proof.
  revert s. induction n as [|n IH]; intros s HR Hinv; cbn [Simulation.steps].
  - by intros [= <-].
  - destruct (Simulation.step s) as [s1|] eqn:Hstep; [|done]. cbn.
    apply IH; [exact (Reachable_step s s1 HR Hstep)|].
    by apply (complete_means_seated_step s s1).
Qed.

Lemma runLoop_never fuel s :
  (forall m sm, (m < fuel)%nat -> Simulation.steps m s = Some sm ->
     Simulation.isComplete sm = false) ->
  Simulation.runLoop fuel s = Simulation.steps fuel s.
Proof.
  revert s. induction fuel as [|fuel IH]; intros s Hnever;
    cbn [Simulation.runLoop Simulation.steps]; [done|].
  rewrite (Hnever 0%nat s) by (done || lia).
  destruct (Simulation.step s) as [s1|] eqn:Hstep; [|done]. cbn.
  apply IH. intros m sm Hm Hsteps. apply (Hnever (S m)); [lia|].
  cbn [Simulation.steps]. by rewrite Hstep.
Qed.

Lemma steps_currentStep n s s' :
  Reachable s ->
  (forall m sm, (m < n)%nat -> Simulation.steps m s = Some sm ->
     Simulation.isComplete sm = false) ->
  Simulation.steps n s = Some s' ->
  Simulation.currentStep s' = Simulation.currentStep s + Z.of_nat n.
Proof.
  revert s. induction n as [|n IH]; intros s HR Hnever;
    cbn [Simulation.steps].
  - intros [= <-]. lia.
  - destruct (Simulation.step s) as [s1|] eqn:Hstep; [|done]. cbn. intros Hn.
    rewrite (IH s1 (Reachable_step s s1 HR Hstep)); [| |done].
    + rewrite (step_currentStep s s1 HR); [lia| |done].
      apply (Hnever 0%nat); [lia|done].
    + intros m sm Hm Hsteps. apply (Hnever (S m)); [lia|].
      cbn [Simulation.steps]. by rewrite Hstep.
Qed.

Lemma completes_from_start (passengers : list Passenger.t)
    (aircraft : Aircraft.t) (orderedIds : list nat) :
  NoDup (Passenger.id <$> passengers) ->
  Forall (fun p => 0 <= Passenger.row p <= Aircraft.rows aircraft) passengers ->
  orderedIds ≡ₚ Passenger.id <$> passengers ->
  let start :=
    Simulation.setBoardingOrder orderedIds (Simulation.new passengers aircraft) in
  exists (T : nat) (s : Simulation.t),
    Z.of_nat T <= boardingBound (Aircraft.aislePosition aircraft) passengers
    /\ Simulation.steps T start = Some s
    /\ Simulation.isComplete s = true
    /\ (forall k ps,
          assoc_get k (Simulation.passengerStates s) = Some ps ->
          Simulation.state ps = PassengerState.SEATED)
    /\ (forall m sm, (m < T)%nat -> Simulation.steps m start = Some sm ->
          Simulation.isComplete sm = false)
    /\ (forall maxSteps, Z.of_nat T <= maxSteps ->
          Simulation.runToCompletion maxSteps start = Some (Z.of_nat T, s))
    /\ (forall maxSteps, exists s',
          Simulation.runToCompletion maxSteps start
          = Some (Z.min (Z.of_nat T) (Z.max 0 maxSteps), s')).
Proof.
  intros Hids Hrows Hperm start.
  assert (HR : Reachable start) by apply Reachable_start.
  assert (Hnd : NoDup orderedIds) by (by rewrite Hperm).
  assert (HQ : queueWaiting start) by (by apply queueWaiting_start).
  assert (Hknown : Forall (fun id => exists p, p ∈ passengers
                                               /\ Passenger.id p = id) orderedIds).
  { apply Forall_forall. intros id Hid.
    rewrite Hperm in Hid. apply list_elem_of_fmap in Hid as (p & -> & Hp).
    by exists p. }
  assert (HV : queueValid start) by (by apply queueValid_start).
  assert (HM : Mirrors start) by apply Mirrors_start.
  assert (HA : Advances start).
  { apply Advances_start; [done|]. intros p Hp. rewrite Hperm.
    apply list_elem_of_fmap. by exists p. }
  pose proof (totalWork_start passengers aircraft orderedIds Hids) as Hwork.
  fold start in Hwork.
  pose proof (totalWork_nonneg start HR HA) as Hpos.
  destruct (completes_within (Z.to_nat (totalWork start) + 1) start
              HR HV HQ HM HA ltac:(lia))
    as (T & s & HT & Hsteps & Hic & Hcs & Hloop & Hmin).
  assert (Hcap : forall maxSteps, Z.of_nat T <= maxSteps ->
            Simulation.runToCompletion maxSteps start = Some (Z.of_nat T, s)).
  { intros maxSteps Hmax. unfold Simulation.runToCompletion.
    change (Simulation.currentStep start) with 0.
    rewrite (Hloop (Z.to_nat (maxSteps - 0))) by lia. cbn.
    rewrite Hcs. change (Simulation.currentStep start) with 0.
    by rewrite Z.add_0_l. }
  exists T, s. split; [lia|]. split; [done|]. split; [done|].
  split; [|split; [|split]].
  - apply allSeated_true; [by eapply Reachable_steps|].
    by apply (complete_means_seated T start s).
  - exact Hmin.
  - exact Hcap.
  - intros maxSteps.
    destruct (decide (Z.of_nat T <= maxSteps)) as [Hle|Hgt].
    + exists s. rewrite Hcap by done. do 2 f_equal. lia.
    + assert (HT0 : T <> 0%nat).
      { intros ->. cbn in Hsteps. injection Hsteps as <-. done. }
      assert (Hfuel : (Z.to_nat (maxSteps - 0) < T)%nat) by lia.
      assert (Hcount : Z.of_nat (Z.to_nat (maxSteps - 0))
                       = Z.min (Z.of_nat T) (Z.max 0 maxSteps)) by lia.
      set (fuel := Z.to_nat (maxSteps - 0)) in *.
      destruct (run_never_fails passengers aircraft orderedIds fuel Hknown)
        as [s' Hsteps'].
      fold start in Hsteps'. exists s'. unfold Simulation.runToCompletion.
      change (Simulation.currentStep start) with 0. fold fuel.
      assert (Hnever : forall m sm, (m < fuel)%nat ->
                Simulation.steps m start = Some sm ->
                Simulation.isComplete sm = false)
        by (intros m sm Hm; apply Hmin; lia).
      rewrite runLoop_never, Hsteps' by done. cbn.
      rewrite (steps_currentStep fuel start s' HR Hnever Hsteps').
      change (Simulation.currentStep start) with 0. by rewrite <- Hcount.
Qed.

(** X16: when the passengers have ids of their own and rows the aisle
    leads to, and the boarding order names each of them once, the
    boarding ends: there is a first tick [T], not beyond the bound, that
    leaves the simulation complete with every passenger seated, and
    [runToCompletion(maxSteps)] answers [T], or the cap if that is
    less. *)
Theorem boarding_completes (passengers : list Passenger.t)
    (aircraft : Aircraft.t) (orderedIds : list nat) :
  NoDup (Passenger.id <$> passengers) ->
  Forall (fun p => 0 <= Passenger.row p <= Aircraft.rows aircraft) passengers ->
  orderedIds ≡ₚ Passenger.id <$> passengers ->
  let start :=
    Simulation.setBoardingOrder orderedIds (Simulation.new passengers aircraft) in
  exists (T : nat) (s : Simulation.t),
    Z.of_nat T <= boardingBound (Aircraft.aislePosition aircraft) passengers
    /\ Simulation.steps T start = Some s
    /\ Simulation.isComplete s = true
    /\ (forall k ps,
          assoc_get k (Simulation.passengerStates s) = Some ps ->
          Simulation.state ps = PassengerState.SEATED)
    /\ (forall m sm, (m < T)%nat -> Simulation.steps m start = Some sm ->
          Simulation.isComplete sm = false)
    /\ (forall maxSteps, Z.of_nat T <= maxSteps ->
          Simulation.runToCompletion maxSteps start = Some (Z.of_nat T, s))
    /\ (forall maxSteps, exists s',
          Simulation.runToCompletion maxSteps start
          = Some (Z.min (Z.of_nat T) (Z.max 0 maxSteps), s')).
Proof. apply completes_from_start. Qed.

Lemma boarding_completes_witness :
  exists (T : nat) (s : Simulation.t),
    Z.of_nat T <= boardingBound 3 [Scenario.P1; Scenario.P2]
    /\ Simulation.steps T Scenario.initial = Some s
    /\ Simulation.isComplete s = true.
Proof.
  assert (Hids : NoDup (Passenger.id <$> [Scenario.P1; Scenario.P2]))
    by (by apply (bool_decide_unpack _)).
  assert (Hrows : Forall (fun p => 0 <= Passenger.row p
                                   <= Aircraft.rows (Aircraft.new Scenario.layout))
                    [Scenario.P1; Scenario.P2])
    by (repeat constructor; cbn; lia).
  pose proof (boarding_completes [Scenario.P1; Scenario.P2]
                (Aircraft.new Scenario.layout) [1; 2]%nat Hids Hrows
                (Permutation_refl _)) as T.
  destruct T as (T & s & HT & Hsteps & Hic & _).
  exists T, s. split; [exact HT|]. split; [exact Hsteps|exact Hic].
Defined.

(** ** Runs that cannot end *)

Lemma handles_walking s ps ps' a' evs :
  handles s ps ps' a' evs ->
  Simulation.state ps = PassengerState.WALKING ->
  Simulation.aisleRow ps <> Passenger.row (Simulation.passenger ps) ->
  Simulation.state ps' = PassengerState.WALKING
  /\ Simulation.aisleRow ps' <= Simulation.aisleRow ps + 1
  /\ (Simulation.aisleRow ps' = Simulation.aisleRow ps
      \/ Simulation.aisleRow ps' <= Aircraft.rows (Simulation.aircraft s)).
Proof.
  intros H Hw Hne.
  destruct H as [p row Hst Hrow Hsize|ps1 evs1 p Hst Hrow Hsize Hss
                |p row Hst Hrow Hle Hfree|p row Hst Hrow Hblocked
                |Hst Hk|ps1 evs1 p a1 Hst Hk Hss|Hst Hk|Hst Hk|p Hst];
    try subst p; try subst row; try congruence; cbn.
  - split; [done|]. split; [lia|]. by right.
  - split; [done|]. split; [lia|]. by left.
Qed.

Lemma stranded_processPassengerInAisle k s k0 :
  Inv s -> stranded k s ->
  stranded k (Simulation.processPassengerInAisle s k0).
Proof.
  intros HI (ps & Hget & Hcase).
  destruct (processPassengerInAisle_cases s k0 HI)
    as [->|(ps0 & ps' & a' & evs & Hget0 & <- & Hh & ->)]; [by exists ps|].
  destruct (handles_aisle _ _ _ _ _ Hh) as (Hp & Hcfg & Hocc & _).
  assert (Hrows : Aircraft.rows a' = Aircraft.rows (Simulation.aircraft s))
    by (unfold Aircraft.rows; by rewrite Hcfg).
  unfold stranded, updated.
  cbn [Simulation.aircraft Simulation.passengerStates Simulation.queue].
  rewrite Hrows, Hp.
  destruct (decide (k = Passenger.id (Simulation.passenger ps0))) as [->|Hne].
  - rewrite Hget0 in Hget. injection Hget as ->.
    exists ps'. split; [by rewrite assoc_get_set, decide_True|].
    assert (Hnw : Simulation.state ps <> PassengerState.WAITING).
    { intros Hw. unfold occupiesAisle in Hocc. by rewrite Hw in Hocc. }
    destruct Hcase as [[Hw _]|(Hout & Hr0 & [Hw|[Hw Hle]])]; try done.
    pose proof (inv_row s HI _ _ Hget0 Hocc) as Hge.
    destruct (handles_walking _ _ _ _ _ Hh Hw ltac:(lia)) as (Hw' & _ & Hr').
    right. rewrite Hp. split; [done|]. split; [done|]. right. split; [done|].
    destruct Hr'; lia.
  - exists ps. split; [by rewrite assoc_get_set, decide_False|done].
Qed.

Lemma stranded_handling k ks s :
  Inv s -> stranded k s ->
  stranded k (foldl Simulation.processPassengerInAisle s ks).
Proof.
  revert s. induction ks as [|k0 ks IH]; intros s HI Hs; cbn [foldl]; [done|].
  apply IH; [by apply Inv_processPassengerInAisle|].
  by apply stranded_processPassengerInAisle.
Qed.

Lemma stranded_afterAdmission k s k0 ps0 rest :
  stranded k s ->
  Simulation.queue s = Some k0 :: rest ->
  assoc_get k0 (Simulation.passengerStates s) = Some ps0 ->
  stranded k (afterAdmission s k0 ps0 rest).
Proof.
  intros (ps & Hget & Hcase) Hq Hget0.
  unfold stranded, afterAdmission.
  cbn [Simulation.aircraft Simulation.passengerStates Simulation.queue].
  change (Aircraft.rows (Aircraft.placeInAisle _ 0 (Simulation.aircraft s)))
    with (Aircraft.rows (Simulation.aircraft s)).
  rewrite Hq in Hcase.
  destruct (decide (k = k0)) as [->|Hne].
  - rewrite Hget0 in Hget. injection Hget as ->.
    exists (admitted (Simulation.currentStep s) ps).
    split; [by rewrite assoc_get_set, decide_True|].
    destruct Hcase as [[_ Hno]|(Hout & Hr0 & _)].
    + destruct Hno. by left.
    + right. split; [done|]. split; [done|]. right. by split.
  - exists ps. split; [by rewrite assoc_get_set, decide_False|].
    destruct Hcase as [[Hw Hno]|Hout]; [left|by right].
    split; [done|]. intros Hin. apply Hno. by right.
Qed.

Lemma stranded_same k s s' :
  Simulation.aircraft s' = Simulation.aircraft s ->
  Simulation.passengerStates s' = Simulation.passengerStates s ->
  Simulation.queue s' = Simulation.queue s ->
  stranded k s -> stranded k s'.
Proof. intros Ha Hm Hq. unfold stranded. by rewrite Ha, Hm, Hq. Qed.

Lemma stranded_step k s s' :
  Reachable s -> stranded k s ->
  Simulation.step s = Some s' -> stranded k s'.
Proof.
  intros HR Hs Hstep.
  destruct (Simulation.isComplete s) eqn:Hic.
  { unfold Simulation.step in Hstep. rewrite Hic in Hstep. by injection Hstep as <-. }
  destruct (step_split s s' HR Hic Hstep) as (HI2 & _ & Hcases).
  cbn zeta in *.
  set (s1 := Simulation.set_currentStep (Simulation.currentStep s + 1) s) in *.
  assert (Hs2 : stranded k (foldl Simulation.processPassengerInAisle s1
                              (Simulation.getAislePassengersSorted s1))).
  { apply stranded_handling; [by apply Reachable_Inv, Reachable_tick|].
    by apply (stranded_same k s). }
  destruct Hcases as [[-> _]|(k0 & rest & ps0 & Hq & _ & Hget0 & ->)];
    match goal with
    | |- stranded k (Simulation.checkCompletion ?x) =>
        destruct (checkCompletion_fields x) as (Ha & Hm & Hq' & _);
        apply (stranded_same k x _ Ha Hm Hq')
    end; [done|].
  by apply stranded_afterAdmission.
Qed.

Lemma stranded_steps k n s s' :
  Reachable s -> stranded k s ->
  Simulation.steps n s = Some s' -> stranded k s'.
Proof.
  revert s. induction n as [|n IH]; intros s HR Hs; cbn [Simulation.steps].
  - by intros [= <-].
  - destruct (Simulation.step s) as [s1|] eqn:Hstep; [|done]. cbn.
    apply IH; [exact (Reachable_step s s1 HR Hstep)|].
    by apply (stranded_step k s s1).
Qed.

Lemma stranded_not_seated k s :
  Reachable s -> stranded k s -> Simulation.allSeated s = false.
Proof.
  intros HR (ps & Hget & Hcase).
  destruct (Simulation.allSeated s) eqn:Hall; [|done].
  pose proof (proj1 (allSeated_true s HR) Hall k ps Hget) as Hs.
  rewrite Hs in Hcase.
  by destruct Hcase as [[? _]|(_ & _ & [?|[? _]])].
Qed.



(** X17: a passenger the boarding order leaves out, or whose row lies
    before the entry or beyond the last row, is never seated: the
    simulation is complete after no tick, and [runToCompletion] runs to
    its cap. *)
Theorem stranded_passenger_blocks_completion (passengers : list Passenger.t)
    (aircraft : Aircraft.t) (orderedIds : list nat) (p : Passenger.t) :
  NoDup (Passenger.id <$> passengers) ->
  Forall (fun id => exists q, q ∈ passengers /\ Passenger.id q = id) orderedIds ->
  0 <= Aircraft.rows aircraft ->
  p ∈ passengers ->
  Passenger.id p ∉ orderedIds
  \/ Passenger.row p < 0 \/ Aircraft.rows aircraft < Passenger.row p ->
  let start :=
    Simulation.setBoardingOrder orderedIds (Simulation.new passengers aircraft) in
  (forall n, exists s,
     Simulation.steps n start = Some s
     /\ Simulation.isComplete s = false
     /\ exists ps,
          assoc_get (Passenger.id p) (Simulation.passengerStates s) = Some ps
          /\ Simulation.state ps <> PassengerState.SEATED)
  /\ (forall maxSteps, 0 <= maxSteps ->
        exists s,
          Simulation.runToCompletion maxSteps start = Some (maxSteps, s)
          /\ Simulation.isComplete s = false).
Proof.
  intros Hids Hknown Hrows Hp Hout start.
  assert (HR : Reachable start) by apply Reachable_start.
  assert (Hget : assoc_get (Passenger.id p) (Simulation.passengerStates start)
                 = Some (Simulation.initialRunState p)).
  { apply elem_of_assoc_get.
    - unfold start. rewrite initial_store_map by done.
      by rewrite <- list_fmap_compose.
    - unfold start. rewrite initial_store_map by done.
      apply list_elem_of_fmap. by exists p. }
  assert (Hs0 : stranded (Passenger.id p) start).
  { exists (Simulation.initialRunState p). split; [done|].
    destruct Hout as [Hno|Hout].
    - left. split; [done|].
      destruct (start_fields passengers aircraft orderedIds)
        as (_ & _ & _ & _ & _ & Hq).
      fold start in Hq. rewrite Hq. intros Hin.
      apply list_elem_of_fmap in Hin as (id & Hid & Hin).
      destruct (assoc_get id (Simulation.passengerStates start)); [|done].
      injection Hid as <-. done.
    - right. split; [exact Hout|]. split; [exact Hrows|]. by left. }
  assert (Hnever : forall n s, Simulation.steps n start = Some s ->
            Simulation.isComplete s = false).
  { intros n s Hsteps.
    destruct (Simulation.isComplete s) eqn:Hic; [|done].
    pose proof (complete_means_seated n start s HR ltac:(done) Hsteps Hic)
      as Hall.
    rewrite (stranded_not_seated (Passenger.id p) s) in Hall; [done| |].
    - by eapply Reachable_steps.
    - by apply (stranded_steps _ n start). }
  split.
  - intros n.
    destruct (run_never_fails passengers aircraft orderedIds n Hknown)
      as [s Hsteps].
    fold start in Hsteps. exists s. split; [done|]. split; [by eapply Hnever|].
    destruct (stranded_steps _ n start s HR Hs0 Hsteps) as (ps & Hps & Hcase).
    exists ps. split; [done|].
    destruct Hcase as [[-> _]|(_ & _ & [->|[-> _]])]; done.
  - intros maxSteps Hmax. unfold Simulation.runToCompletion.
    change (Simulation.currentStep start) with 0.
    rewrite runLoop_never by (intros m sm _; apply Hnever).
    destruct (run_never_fails passengers aircraft orderedIds
                (Z.to_nat (maxSteps - 0)) Hknown) as [s Hsteps].
    fold start in Hsteps. rewrite Hsteps. cbn. exists s.
    split; [|by eapply Hnever].
    rewrite (steps_currentStep _ start s HR (fun m sm _ => Hnever m sm) Hsteps).
    change (Simulation.currentStep start) with 0. f_equal. f_equal. lia.
Qed.

Lemma stranded_passenger_blocks_completion_witness :
  exists s,
    Simulation.runToCompletion 50
      (Simulation.setBoardingOrder [1]%nat
         (Simulation.new [Scenario.P1; Scenario.P2]
            (Aircraft.new Scenario.layout)))
    = Some (50, s)
    /\ Simulation.isComplete s = false.
Proof.
  assert (Hids : NoDup (Passenger.id <$> [Scenario.P1; Scenario.P2]))
    by (by apply (bool_decide_unpack _)).
  assert (Hknown : Forall (fun id => exists q, q ∈ [Scenario.P1; Scenario.P2]
                                               /\ Passenger.id q = id)
                     [1%nat]).
  { repeat constructor. exists Scenario.P1. split; [by left|done]. }
  assert (Hrows : 0 <= Aircraft.rows (Aircraft.new Scenario.layout))
    by (vm_compute; discriminate).
  assert (Hp : Scenario.P2 ∈ [Scenario.P1; Scenario.P2])
    by (right; by left).
  assert (Hout : Passenger.id Scenario.P2 ∉ [1%nat]
                 \/ Passenger.row Scenario.P2 < 0
                 \/ Aircraft.rows (Aircraft.new Scenario.layout)
                    < Passenger.row Scenario.P2).
  { left. intros Hin. apply list_elem_of_singleton in Hin. discriminate. }
  pose proof (stranded_passenger_blocks_completion
                [Scenario.P1; Scenario.P2] (Aircraft.new Scenario.layout)
                [1%nat] Scenario.P2 Hids Hknown Hrows Hp Hout) as T.
  destruct T as [_ T]. exact (T 50 ltac:(lia)).
Defined.

(** ** From the generator to the last seat *)

Lemma boardingBound_le pos (c : Z) (passengers : list Passenger.t) :
  Forall (fun p => Passenger.row p + Passenger.stowTime p
                   + 3 * seatsBetween pos p + 3 <= c) passengers ->
  boardingBound pos passengers <= 1 + c * Z.of_nat (length passengers).
Proof.
  unfold boardingBound. induction 1 as [|p ps Hp _ IH]; csimpl; lia.
Qed.

Lemma stowTime_le p : Passenger.stowTime p <= 8.
Proof. unfold Passenger.stowTime. by destruct (Passenger.carryOnSize p). Qed.

Lemma seatsBetween_default p :
  Passenger.column p ∈ Aircraft.cfg_columns Aircraft.DEFAULT_CONFIG ->
  seatsBetween 3 p <= 2.
Proof.
  intros Hc. unfold seatsBetween. cbn in Hc.
  repeat (apply elem_of_cons in Hc as [->|Hc]; [by vm_compute|]).
  by apply elem_of_nil in Hc.
Qed.

(** X18: on the default cabin, for every integer seed that is not
    negative with [48271 * seed <= 2^53] (where the arithmetic of the
    generator is exact), every passenger count and every priority
    function, the passengers the generator answers, boarded in the order
    [runAlgorithm] answers, are all seated after at most 47 ticks per
    passenger and one: the loop of the application ends, and
    [runToCompletion] with its default cap of 10000 answers the tick of
    completion. *)
Theorem default_cabin_boarding_completes (count : nat) (rng : RandomGenerator.t)
    (priorityFn : Passenger.view -> AlgorithmRunner.Context -> Q)
    (context : AlgorithmRunner.Context) (aircraft : Aircraft.t) :
  0 <= RandomGenerator.seed rng ->
  48271 * RandomGenerator.seed rng <= 2 ^ 53 ->
  Aircraft.config aircraft = Aircraft.DEFAULT_CONFIG ->
  exists passengers rng' (T : nat) s,
    generatePassengers count (Aircraft.rows aircraft) (Aircraft.columns aircraft)
      rng = Some (passengers, rng')
    /\ (length passengers <= 180)%nat
    /\ Simulation.steps T
         (Simulation.setBoardingOrder
            (AlgorithmRunner.runAlgorithm priorityFn passengers context)
            (Simulation.new passengers aircraft)) = Some s
    /\ Simulation.isComplete s = true
    /\ (forall k ps,
          assoc_get k (Simulation.passengerStates s) = Some ps ->
          Simulation.state ps = PassengerState.SEATED)
    /\ Z.of_nat T <= 1 + 47 * Z.of_nat (length passengers)
    /\ Simulation.runToCompletion 10000
         (Simulation.setBoardingOrder
            (AlgorithmRunner.runAlgorithm priorityFn passengers context)
            (Simulation.new passengers aircraft)) = Some (Z.of_nat T, s).
Proof.
  intros Hseed _ Hcfg.
  assert (Hrows : Aircraft.rows aircraft = 30)
    by (unfold Aircraft.rows; by rewrite Hcfg).
  assert (Hcols : Aircraft.columns aircraft
                  = Aircraft.cfg_columns Aircraft.DEFAULT_CONFIG)
    by (unfold Aircraft.columns; by rewrite Hcfg).
  assert (Hpos : Aircraft.aislePosition aircraft = 3)
    by (unfold Aircraft.aislePosition; by rewrite Hcfg).
  assert (Hsome : is_Some (generatePassengers count (Aircraft.rows aircraft)
                             (Aircraft.columns aircraft) rng)).
  { unfold generatePassengers.
    destruct (shuffle_spec (allSeats (Aircraft.rows aircraft)
                              (Aircraft.columns aircraft)) rng Hseed)
      as (shuffled & -> & _). cbn [mbind option_bind].
    apply makePassengers_total. by apply draws_seed_nonneg. }
  destruct Hsome as [[passengers rng'] Hgen].
  destruct (generatePassengers_spec _ _ _ _ _ _ Hgen) as (Hids & Hlen & Hgrid).
  rewrite allSeats_length, Hrows, Hcols in Hlen.
  rewrite Hrows, Hcols in Hgrid.
  assert (Hnd : NoDup (Passenger.id <$> passengers)).
  { rewrite Hids. apply NoDup_ListNoDup, seq_NoDup. }
  assert (Hperm : AlgorithmRunner.runAlgorithm priorityFn passengers context
                  ≡ₚ Passenger.id <$> passengers).
  { rewrite runAlgorithm_as_sort. by rewrite array_sort_perm. }
  destruct (completes_from_start passengers aircraft
              (AlgorithmRunner.runAlgorithm priorityFn passengers context)
              Hnd) as (T & s & HT & Hsteps & Hic & Hall & _ & Hcap & _);
    [|done|].
  { rewrite Hrows. eapply Forall_impl; [exact Hgrid|]. cbn. intros p [? _]. lia. }
  assert (Hbound : Z.of_nat T <= 1 + 47 * Z.of_nat (length passengers)).
  { etrans; [exact HT|]. rewrite Hpos. apply boardingBound_le.
    eapply Forall_impl; [exact Hgrid|]. cbn. intros p [Hr Hc].
    pose proof (stowTime_le p). pose proof (seatsBetween_default p Hc). lia. }
  assert (Hlen' : (length passengers <= 180)%nat) by (cbn in Hlen; lia).
  exists passengers, rng', T, s. split; [done|]. split; [done|].
  split; [done|]. split; [done|]. split; [done|]. split; [done|].
  apply Hcap. lia.
Qed.

Lemma default_cabin_boarding_completes_witness :
  exists passengers rng' (T : nat) s,
    generatePassengers 3 30 ["A"; "B"; "C"; "D"; "E"; "F"]%string
      (RandomGenerator.new 12345) = Some (passengers, rng')
    /\ Simulation.runToCompletion 10000
         (Simulation.setBoardingOrder
            (AlgorithmRunner.runAlgorithm Presets.backToFront passengers
               sampleContext)
            (Simulation.new passengers (Aircraft.new Aircraft.DEFAULT_CONFIG)))
       = Some (Z.of_nat T, s).
Proof.
  assert (H : 0 <= RandomGenerator.seed (RandomGenerator.new 12345))
    by (vm_compute; discriminate).
  assert (H' : 48271 * RandomGenerator.seed (RandomGenerator.new 12345)
               <= 2 ^ 53)
    by (vm_compute; discriminate).
  pose proof (default_cabin_boarding_completes 3 (RandomGenerator.new 12345)
                Presets.backToFront sampleContext
                (Aircraft.new Aircraft.DEFAULT_CONFIG) H H' eq_refl) as T.
  destruct T as (passengers & rng' & T & s & Hgen & _ & _ & _ & _ & _ & Hrun).
  exists passengers, rng', T, s. split; [exact Hgen|exact Hrun].
Defined.

(** ** The weighted heuristic *)




(** ** An order that names a stranger *)

Lemma unseated_leaves_incomplete s k ps :
  assoc_get k (Simulation.passengerStates s) = Some ps ->
  Simulation.state ps <> PassengerState.SEATED ->
  Simulation.checkCompletion s = s.
Proof.
  intros Hget Hns. unfold Simulation.checkCompletion.
  destruct (Simulation.allSeated s) eqn:Hall; [|done]. exfalso.
  unfold Simulation.allSeated in Hall. rewrite forallb_forall in Hall.
  specialize (Hall (k, ps)
                (proj1 (list_elem_of_In _ _) (assoc_get_elem_of _ _ _ Hget))).
  cbn in Hall. apply Hns. by destruct (Simulation.state ps).
Qed.

(** While the queue holds an [undefined], a tick that does not raise
    leaves the [undefined] queued, the boarding incomplete and less work
    to do. *)
Lemma stranger_step s s' :
  Reachable s -> queueWaiting s -> Mirrors s -> Advances s ->
  None ∈ Simulation.queue s ->
  Simulation.isComplete s = false ->
  0 <= Aircraft.rows (Simulation.aircraft s) ->
  Simulation.step s = Some s' ->
  None ∈ Simulation.queue s'
  /\ Simulation.isComplete s' = false
  /\ totalWork s' < totalWork s.
Proof.
  intros HR HQ HM HA Hnone Hic Hrows Hstep.
  destruct (step_split s s' HR Hic Hstep) as (_ & Hev & _).
  destruct (step_through s s' HR HQ Hic Hstep) as (HI2 & HQ2 & Hcases).
  cbn zeta in *.
  set (s1 := Simulation.set_currentStep (Simulation.currentStep s + 1) s) in *.
  assert (HR1 : Reachable s1) by (by apply Reachable_tick).
  assert (HM1 : Mirrors s1) by (by apply (Mirrors_same s)).
  set (s2 := foldl Simulation.processPassengerInAisle s1
               (Simulation.getAislePassengersSorted s1)) in *.
  assert (HM2 : Mirrors s2)
    by (apply Mirrors_handling; [by apply Reachable_Inv|done]).
  destruct Hev as (_ & Hq2 & _ & Hic2 & Hcfg2 & _).
  change (Simulation.queue s1) with (Simulation.queue s) in Hq2.
  change (Simulation.isComplete s1) with (Simulation.isComplete s) in Hic2.
  change (Simulation.aircraft s1) with (Simulation.aircraft s) in Hcfg2.
  assert (Hrows2 : 0 <= Aircraft.rows (Simulation.aircraft s2))
    by (unfold Aircraft.rows; by rewrite Hcfg2).
  assert (Hend : None ∈ Simulation.queue s' /\ Simulation.isComplete s' = false).
  { destruct Hcases as [[-> Hno]|(k & rest & ps & Hq & Hfree & Hget & Hw & ->)].
    - destruct Hno as [Hempty|Hocc].
      { rewrite Hq2 in Hempty. rewrite Hempty in Hnone.
        by apply elem_of_nil in Hnone. }
      destruct (mir_cells s2 HM2 0 ltac:(lia))
        as [Hcell|(k0 & ps0 & H0 & Hocc0 & _)].
      { unfold Aircraft.isAisleOccupied in Hocc. by rewrite Hcell in Hocc. }
      rewrite (unseated_leaves_incomplete s2 k0 ps0 H0).
      + split; [by rewrite Hq2|by rewrite Hic2].
      + intros Hs. unfold occupiesAisle in Hocc0. by rewrite Hs in Hocc0.
    - rewrite (unseated_leaves_incomplete _ k
                 (admitted (Simulation.currentStep s2) ps)).
      + unfold afterAdmission. cbn [Simulation.queue Simulation.isComplete].
        split; [|by rewrite Hic2].
        rewrite <- Hq2, Hq in Hnone.
        by apply elem_of_cons in Hnone as [?|?].
      + unfold afterAdmission. cbn [Simulation.passengerStates].
        by rewrite assoc_get_set, decide_True.
      + done. }
  split; [apply Hend|]. split; [apply Hend|].
  apply (tick_progress s s' HR HQ HM HA Hic Hstep).
  destruct (Simulation.allSeated s) eqn:Hall.
  - (* nobody to handle, nobody to admit: the tick would have raised *)
    exfalso. pose proof (proj1 (allSeated_true s HR) Hall) as Hseated.
    assert (Hks : Simulation.getAislePassengersSorted s1 = []).
    { destruct (Simulation.getAislePassengersSorted s1) as [|k1 ks] eqn:Hks;
        [done|].
      destruct (front_of_the_aisle s1 k1 ks HR1 Hks) as (ps & Hget & Hocc & _).
      unfold occupiesAisle in Hocc. by rewrite (Hseated k1 ps Hget) in Hocc. }
    assert (Hs2 : s2 = s1) by (subst s2; by rewrite Hks).
    destruct Hcases as [[_ Hno]|(k & rest & ps & _ & _ & Hget & Hw & _)].
    + destruct Hno as [Hempty|Hocc].
      { rewrite Hq2 in Hempty. rewrite Hempty in Hnone.
        by apply elem_of_nil in Hnone. }
      destruct (mir_cells s2 HM2 0 ltac:(lia))
        as [Hcell|(k0 & ps0 & H0 & Hocc0 & _)].
      { unfold Aircraft.isAisleOccupied in Hocc. by rewrite Hcell in Hocc. }
      rewrite Hs2 in H0. unfold occupiesAisle in Hocc0.
      by rewrite (Hseated k0 ps0 H0) in Hocc0.
    + rewrite Hs2 in Hget. by rewrite (Hseated k ps Hget) in Hw.
  - unfold Simulation.allSeated in Hall.
    apply forallb_false in Hall as ([k ps] & Hin & Hne).
    exists k, ps. split; [by apply Reachable_lookup|].
    cbn in Hne. intros Hs. by rewrite Hs in Hne.
Qed.

(** With an [undefined] in the queue the run raises before the work is
    done. *)
Lemma raises_within (w : nat) s :
  Reachable s -> queueWaiting s -> Mirrors s -> Advances s ->
  None ∈ Simulation.queue s ->
  Simulation.isComplete s = false ->
  0 <= Aircraft.rows (Simulation.aircraft s) ->
  totalWork s < Z.of_nat w ->
  exists n : nat,
    (n < w)%nat
    /\ Simulation.steps (S n) s = None
    /\ (forall fuel, (n < fuel)%nat -> Simulation.runLoop fuel s = None)
    /\ (forall m sm, Simulation.steps m s = Some sm ->
          (m <= n)%nat /\ Simulation.isComplete sm = false)
    /\ is_Some (Simulation.steps n s).
Proof.
  revert s. induction w as [|w IH]; intros s HR HQ HM HA Hnone Hic Hrows Hw.
  { pose proof (totalWork_nonneg s HR HA). lia. }
  destruct (Simulation.step s) as [s1|] eqn:Hstep.
  - destruct (stranger_step s s1 HR HQ HM HA Hnone Hic Hrows Hstep)
      as (Hnone1 & Hic1 & Hless).
    assert (Hrows1 : 0 <= Aircraft.rows (Simulation.aircraft s1))
      by (unfold Aircraft.rows; by rewrite (config_step s s1 HR Hstep)).
    destruct (IH s1 (Reachable_step s s1 HR Hstep)
                (queueWaiting_step s s1 HR HQ Hstep)
                (Mirrors_step s s1 HR HQ HM Hstep)
                (Advances_step s s1 HR HQ HA Hstep) Hnone1 Hic1 Hrows1
                ltac:(lia))
      as (n & Hn & Hfail & Hloop & Hnever & Hsome).
    exists (S n). split; [lia|].
    split; [cbn [Simulation.steps] in *; by rewrite Hstep|].
    split; [|split].
    + intros [|fuel] Hf; [lia|]. cbn [Simulation.runLoop].
      rewrite Hic, Hstep. cbn. apply Hloop. lia.
    + intros [|m] sm; cbn [Simulation.steps].
      * intros [= <-]. split; [lia|done].
      * rewrite Hstep. cbn. intros Hm.
        destruct (Hnever m sm Hm). split; [lia|done].
    + cbn [Simulation.steps]. by rewrite Hstep.
  - exists 0%nat. split; [lia|].
    split; [cbn [Simulation.steps]; by rewrite Hstep|].
    split; [|split].
    + intros [|fuel] Hf; [lia|]. cbn [Simulation.runLoop].
      by rewrite Hic, Hstep.
    + intros [|m] sm; cbn [Simulation.steps].
      * intros [= <-]. split; [lia|done].
      * by rewrite Hstep.
    + done.
Qed.

(** X20: a boarding order that names, among the passengers, an id that
    no passenger has, makes the run raise: [setBoardingOrder] queues an
    [undefined] for it, and within the bound of the boarding a tick finds
    it at the head of the queue before a free entry cell.  Until then no
    tick leaves the simulation complete, and [runToCompletion] raises
    for every cap beyond that tick. *)
Theorem unknown_id_in_the_order_raises (passengers : list Passenger.t)
    (aircraft : Aircraft.t) (orderedIds : list nat) (stranger : nat) :
  NoDup (Passenger.id <$> passengers) ->
  Forall (fun p => 0 <= Passenger.row p <= Aircraft.rows aircraft) passengers ->
  0 <= Aircraft.rows aircraft ->
  NoDup orderedIds ->
  (forall p, p ∈ passengers -> Passenger.id p ∈ orderedIds) ->
  stranger ∈ orderedIds ->
  stranger ∉ Passenger.id <$> passengers ->
  let start :=
    Simulation.setBoardingOrder orderedIds (Simulation.new passengers aircraft) in
  exists n : nat,
    Z.of_nat n < boardingBound (Aircraft.aislePosition aircraft) passengers
    /\ is_Some (Simulation.steps n start)
    /\ Simulation.steps (S n) start = None
    /\ (forall m sm, Simulation.steps m start = Some sm ->
          (m <= n)%nat /\ Simulation.isComplete sm = false)
    /\ (forall maxSteps, Z.of_nat n < maxSteps ->
          Simulation.runToCompletion maxSteps start = None).
Proof.
  intros Hids Hrows Hrows0 Hnd Hall Hin Hnot start.
  assert (HR : Reachable start) by apply Reachable_start.
  assert (HQ : queueWaiting start) by (by apply queueWaiting_start).
  assert (HM : Mirrors start) by apply Mirrors_start.
  assert (HA : Advances start) by (by apply Advances_start).
  assert (Hnone : None ∈ Simulation.queue start).
  { destruct (start_fields passengers aircraft orderedIds)
      as (_ & _ & _ & _ & _ & Hq).
    fold start in Hq. rewrite Hq. apply list_elem_of_fmap.
    exists stranger. split; [|done].
    destruct (assoc_get stranger (Simulation.passengerStates start))
      as [ps|] eqn:Hget; [|done].
    destruct Hnot. apply initial_store in Hget as (p & Hp & <- & _).
    apply list_elem_of_fmap. by exists p. }
  pose proof (totalWork_start passengers aircraft orderedIds Hids) as Hwork.
  fold start in Hwork.
  pose proof (totalWork_nonneg start HR HA) as Hpos.
  destruct (raises_within (Z.to_nat (totalWork start) + 1) start
              HR HQ HM HA Hnone eq_refl Hrows0 ltac:(lia))
    as (n & Hn & Hfail & Hloop & Hnever & Hsome).
  exists n. split; [lia|]. split; [done|]. split; [done|]. split; [done|].
  intros maxSteps Hmax. unfold Simulation.runToCompletion.
  change (Simulation.currentStep start) with 0.
  rewrite (Hloop (Z.to_nat (maxSteps - 0))) by lia. done.
Qed.

Lemma unknown_id_in_the_order_raises_witness :
  exists n : nat,
    Simulation.steps (S n)
      (Simulation.setBoardingOrder [1; 7; 2]%nat
         (Simulation.new [Scenario.P1; Scenario.P2]
            (Aircraft.new Scenario.layout))) = None.
Proof.
  assert (Hids : NoDup (Passenger.id <$> [Scenario.P1; Scenario.P2]))
    by (by apply (bool_decide_unpack _)).
  assert (Hrows : Forall (fun p => 0 <= Passenger.row p
                                   <= Aircraft.rows (Aircraft.new Scenario.layout))
                    [Scenario.P1; Scenario.P2])
    by (repeat constructor; cbn; lia).
  assert (Hrows0 : 0 <= Aircraft.rows (Aircraft.new Scenario.layout))
    by (vm_compute; discriminate).
  assert (Hnd : NoDup [1; 7; 2]%nat) by (by apply (bool_decide_unpack _)).
  assert (Hall : forall p, p ∈ [Scenario.P1; Scenario.P2] ->
                   Passenger.id p ∈ [1; 7; 2]%nat).
  { intros p Hp. apply elem_of_cons in Hp as [->|Hp]; [by left|].
    apply list_elem_of_singleton in Hp as ->. right. right. by left. }
  assert (Hin : 7%nat ∈ [1; 7; 2]%nat) by (right; by left).
  assert (Hnot : 7%nat ∉ Passenger.id <$> [Scenario.P1; Scenario.P2])
    by (by apply (bool_decide_unpack _)).
  pose proof (unknown_id_in_the_order_raises [Scenario.P1; Scenario.P2]
                (Aircraft.new Scenario.layout) [1; 7; 2]%nat 7%nat
                Hids Hrows Hrows0 Hnd Hall Hin Hnot) as T.
  destruct T as (n & _ & _ & Hfail & _).
  exists n. exact Hfail.
Defined.

(** ** The log and the run-states *)

Lemma eventsOf_app ty k evs1 evs2 :
  eventsOf ty k (evs1 ++ evs2) = eventsOf ty k evs1 ++ eventsOf ty k evs2.
Proof. apply filter_app. Qed.

Lemma eventsOf_own ty k k0 evs :
  Forall (fun e => Simulation.passengerId e = k0) evs ->
  eventsOf ty k evs
  = if decide (k = k0) then filter (fun e => Simulation.type e = ty) evs
    else [].
Proof.
  induction 1 as [|e evs He _ IH]; [by destruct (decide _)|].
  unfold eventsOf in *. rewrite filter_cons, IH.
  destruct (decide (k = k0)) as [->|Hne].
  - rewrite filter_cons.
    destruct (decide (Simulation.type e = ty)) as [Hty|Hty].
    + by rewrite decide_True.
    + rewrite decide_False; [done|]. by intros [? _].
  - rewrite decide_False; [done|]. intros [_ ?]. congruence.
Qed.

(** What a handling writes into the log and onto the clocks. *)
Lemma handles_log s ps ps' a' evs :
  handles s ps ps' a' evs ->
  let p := Simulation.passenger ps in
  Forall (fun e => Simulation.passengerId e = Passenger.id p) evs
  /\ Forall (fun e => Simulation.step_of e = Simulation.currentStep s) evs
  /\ filter (fun e => Simulation.type e = EventType.ENTER) evs = []
  /\ Simulation.enteredAt ps' = Simulation.enteredAt ps
  /\ filter (fun e => Simulation.type e = EventType.SEAT) evs
     = (if decide (Simulation.state ps' = PassengerState.SEATED)
        then [logged (Simulation.seatedAt ps') EventType.SEAT p
                (Simulation.Seat (Passenger.row p) (Passenger.column p))]
        else [])
  /\ Simulation.waitTime ps <= Simulation.waitTime ps'
  /\ Z.of_nat (length (filter (fun e => Simulation.type e
                                        = EventType.AISLE_BLOCKED) evs))
     <= Simulation.waitTime ps' - Simulation.waitTime ps
  /\ (Simulation.state ps' = PassengerState.WALKING ->
      Z.of_nat (length (filter (fun e => Simulation.type e
                                         = EventType.AISLE_BLOCKED) evs))
      = Simulation.waitTime ps' - Simulation.waitTime ps).
Proof.
  intros H p. subst p.
  destruct H as [p row Hst Hrow Hsize|ps1 evs1 p Hst Hrow Hsize Hss
                |p row Hst Hrow Hle Hfree|p row Hst Hrow Hblocked
                |Hst Hk|ps1 evs1 p a1 Hst Hk Hss|Hst Hk|Hst Hk|p Hst];
    try (destruct Hss as [blocking Hb Hne|Hb]);
    try (destruct (Aircraft.hasBinCapacity _ _ _));
    cbn; repeat split; try done; try lia;
    repeat (case_decide; try discriminate); cbn; try lia;
    try congruence; try (intros; congruence);
    repeat constructor.
Qed.

Lemma Journal_updated s ps ps' a' evs :
  Journal s ->
  assoc_get (Passenger.id (Simulation.passenger ps))
    (Simulation.passengerStates s) = Some ps ->
  handles s ps ps' a' evs ->
  Journal (updated s ps' a' evs).
Proof.
  intros HJ Hget Hh.
  destruct (handles_aisle _ _ _ _ _ Hh) as (Hp & _ & Hocc & _).
  destruct (handles_state _ _ _ _ _ Hh) as (Hnw & Hwalk & Hns).
  destruct (handles_log _ _ _ _ _ Hh)
    as (Hown & _ & Henter & Hentered & Hseat & Hmono & Hblocked & Hwalked).
  cbn zeta in *.
  assert (Hnw0 : Simulation.state ps <> PassengerState.WAITING).
  { intros Hs. unfold occupiesAisle in Hocc. by rewrite Hs in Hocc. }
  pose proof (jour_enter s HJ _ _ Hget) as Je.
  pose proof (jour_seat s HJ _ _ Hget) as Js.
  pose proof (jour_blocked s HJ _ _ Hget) as [Jb Jw].
  rewrite decide_False in Je by done.
  rewrite decide_False in Js by (intros Hs; by apply Hns).
  split; intros k ps1; unfold updated;
    cbn [Simulation.passengerStates Simulation.events];
    rewrite Hp, assoc_get_set, eventsOf_app, (eventsOf_own _ k _ evs Hown);
    destruct (decide (k = Passenger.id (Simulation.passenger ps)))
      as [->|Hne]; intros Hget1.
  - injection Hget1 as <-.
    rewrite Je, Henter, decide_False by done. by rewrite Hentered, Hp.
  - rewrite app_nil_r. by apply (jour_enter s HJ).
  - injection Hget1 as <-. rewrite Js, Hseat, Hp. done.
  - rewrite app_nil_r. by apply (jour_seat s HJ).
  - injection Hget1 as <-. rewrite length_app, Nat2Z.inj_add.
    split; [lia|]. intros [Hs|Hs]; [done|].
    specialize (Jw (or_intror (Hwalk Hs))). specialize (Hwalked Hs). lia.
  - rewrite app_nil_r. by apply (jour_blocked s HJ).
Qed.

Lemma Journal_same s s' :
  Simulation.events s' = Simulation.events s ->
  Simulation.passengerStates s' = Simulation.passengerStates s ->
  Journal s -> Journal s'.
Proof. intros He Hm [H1 H2 H3]. split; rewrite He, Hm; done. Qed.

Lemma Journal_processPassengerInAisle s k :
  Inv s -> Journal s -> Journal (Simulation.processPassengerInAisle s k).
Proof.
  intros HI HJ.
  destruct (processPassengerInAisle_cases s k HI)
    as [->|(ps & ps' & a' & evs & Hget & <- & Hh & ->)]; [done|].
  by eapply Journal_updated.
Qed.

Lemma Journal_handling ks s :
  Inv s -> Journal s -> Journal (foldl Simulation.processPassengerInAisle s ks).
Proof.
  revert s. induction ks as [|k ks IH]; intros s HI HJ; cbn [foldl]; [done|].
  apply IH; [by apply Inv_processPassengerInAisle|].
  by apply Journal_processPassengerInAisle.
Qed.

Lemma Journal_afterAdmission s k ps rest :
  Inv s -> Journal s ->
  assoc_get k (Simulation.passengerStates s) = Some ps ->
  Simulation.state ps = PassengerState.WAITING ->
  Journal (afterAdmission s k ps rest).
Proof.
  intros HI HJ Hget Hw.
  pose proof (inv_keys s HI _ _ Hget) as Hk.
  pose proof (jour_enter s HJ _ _ Hget) as Je.
  pose proof (jour_seat s HJ _ _ Hget) as Js.
  pose proof (jour_blocked s HJ _ _ Hget) as [Jb Jw].
  rewrite decide_True in Je by done.
  rewrite decide_False in Js by congruence.
  specialize (Jw (or_introl Hw)).
  assert (Hown : Forall (fun e => Simulation.passengerId e = k)
                   [enterEvent (Simulation.currentStep s)
                      (Simulation.passenger ps)])
    by (by repeat constructor).
  split; intros k1 ps1; unfold afterAdmission;
    cbn [Simulation.passengerStates Simulation.events];
    rewrite assoc_get_set, eventsOf_app, (eventsOf_own _ k1 _ _ Hown);
    destruct (decide (k1 = k)) as [->|Hne]; intros Hget1.
  - injection Hget1 as <-. by rewrite Je.
  - rewrite app_nil_r. by apply (jour_enter s HJ).
  - injection Hget1 as <-. by rewrite Js.
  - rewrite app_nil_r. by apply (jour_seat s HJ).
  - injection Hget1 as <-. rewrite length_app, Nat2Z.inj_add.
    rewrite filter_cons, decide_False by done. cbn.
    split; [lia|]. intros _. lia.
  - rewrite app_nil_r. by apply (jour_blocked s HJ).
Qed.

Lemma Journal_step s s' :
  Reachable s -> queueWaiting s -> Journal s ->
  Simulation.step s = Some s' -> Journal s'.
Proof.
  intros HR HQ HJ Hstep.
  destruct (Simulation.isComplete s) eqn:Hic.
  { unfold Simulation.step in Hstep. rewrite Hic in Hstep. by injection Hstep as <-. }
  destruct (step_through s s' HR HQ Hic Hstep) as (HI2 & HQ2 & Hcases).
  cbn zeta in *.
  set (s1 := Simulation.set_currentStep (Simulation.currentStep s + 1) s) in *.
  assert (HJ2 : Journal (foldl Simulation.processPassengerInAisle s1
                           (Simulation.getAislePassengersSorted s1))).
  { apply Journal_handling; [by apply Reachable_Inv, Reachable_tick|].
    by apply (Journal_same s). }
  destruct (checkCompletion_fields
              (foldl Simulation.processPassengerInAisle s1
                 (Simulation.getAislePassengersSorted s1)))
    as (_ & Hm & _ & _ & He).
  destruct Hcases as [[-> _]|(k & rest & ps & Hq & Hfree & Hget & Hw & ->)].
  - by apply (Journal_same _ _ He Hm).
  - destruct (checkCompletion_fields
                (afterAdmission
                   (foldl Simulation.processPassengerInAisle s1
                      (Simulation.getAislePassengersSorted s1)) k ps rest))
      as (_ & Hm' & _ & _ & He').
    apply (Journal_same _ _ He' Hm'). by apply Journal_afterAdmission.
Qed.

Lemma Journal_start passengers aircraft orderedIds :
  Journal (Simulation.setBoardingOrder orderedIds
             (Simulation.new passengers aircraft)).
Proof.
  split; intros k ps Hget;
    destruct (initial_store _ _ _ _ _ Hget) as (p & Hp & <- & ->); done.
Qed.

Lemma Journal_steps n s s' :
  Reachable s -> queueWaiting s -> Journal s ->
  Simulation.steps n s = Some s' -> Journal s'.
Proof.
  revert s. induction n as [|n IH]; intros s HR HQ HJ; cbn [Simulation.steps].
  - by intros [= <-].
  - destruct (Simulation.step s) as [s1|] eqn:Hstep; [|done]. cbn.
    apply IH; [by eapply Reachable_step|by eapply queueWaiting_step|].
    by eapply Journal_step.
Qed.

(** X21: when the boarding order names nobody twice, the log tells, after
    any number of ticks, who has entered and who sits: it holds exactly
    one ENTER event, stamped [enteredAt], of every passenger that has
    left the queue and none of a waiting one; exactly one SEAT event,
    stamped [seatedAt] and naming the seat, of every seated passenger and
    none of another; and of every passenger at most [waitTime]
    AISLE_BLOCKED events, exactly as many while it walks. *)
Theorem log_tells_who_entered_and_who_sits (passengers : list Passenger.t)
    (aircraft : Aircraft.t) (orderedIds : list nat) (n : nat)
    (s : Simulation.t) (k : nat) (ps : Simulation.RunState) :
  NoDup orderedIds ->
  Simulation.steps n
    (Simulation.setBoardingOrder orderedIds (Simulation.new passengers aircraft))
  = Some s ->
  assoc_get k (Simulation.passengerStates s) = Some ps ->
  let p := Simulation.passenger ps in
  eventsOf EventType.ENTER k (Simulation.getEvents s)
  = (if decide (Simulation.state ps = PassengerState.WAITING) then []
     else [Simulation.mkEvent (Simulation.enteredAt ps) EventType.ENTER k
             (Passenger.row p) (Passenger.column p) Simulation.NoData])
  /\ eventsOf EventType.SEAT k (Simulation.getEvents s)
     = (if decide (Simulation.state ps = PassengerState.SEATED)
        then [Simulation.mkEvent (Simulation.seatedAt ps) EventType.SEAT k
                (Passenger.row p) (Passenger.column p)
                (Simulation.Seat (Passenger.row p) (Passenger.column p))]
        else [])
  /\ Z.of_nat (length (eventsOf EventType.AISLE_BLOCKED k
                         (Simulation.getEvents s)))
     <= Simulation.waitTime ps
  /\ (Simulation.state ps = PassengerState.WALKING ->
      Z.of_nat (length (eventsOf EventType.AISLE_BLOCKED k
                          (Simulation.getEvents s)))
      = Simulation.waitTime ps).
Proof.
  intros Hnd Hsteps Hget p.
  assert (HR : Reachable s)
    by (eapply Reachable_steps; [apply Reachable_start|exact Hsteps]).
  assert (HJ : Journal s).
  { eapply Journal_steps; [apply Reachable_start| | |exact Hsteps].
    - by apply queueWaiting_start.
    - apply Journal_start. }
  pose proof (inv_keys s (Reachable_Inv s HR) _ _ Hget) as Hk.
  unfold Simulation.getEvents.
  rewrite (jour_enter s HJ _ _ Hget), (jour_seat s HJ _ _ Hget).
  destruct (jour_blocked s HJ _ _ Hget) as [Hb Hw].
  unfold logged. subst p. rewrite Hk.
  split; [done|]. split; [done|]. split; [done|]. intros Hs. apply Hw. by right.
Qed.

Lemma log_tells_who_entered_and_who_sits_witness :
  exists s ps,
    Simulation.steps 9 Scenario.initial = Some s
    /\ assoc_get 1%nat (Simulation.passengerStates s) = Some ps
    /\ eventsOf EventType.ENTER 1%nat (Simulation.getEvents s)
       = (if decide (Simulation.state ps = PassengerState.WAITING) then []
          else [Simulation.mkEvent (Simulation.enteredAt ps) EventType.ENTER
                  1%nat (Passenger.row (Simulation.passenger ps))
                  (Passenger.column (Simulation.passenger ps))
                  Simulation.NoData]).
Proof.
  destruct (Simulation.steps 9 Scenario.initial) as [s|] eqn:Hs;
    [|vm_compute in Hs; discriminate].
  destruct (assoc_get 1%nat (Simulation.passengerStates s)) as [ps|] eqn:Hps;
    [|revert Hps; vm_compute in Hs; injection Hs as <-; vm_compute;
      discriminate].
  exists s, ps. split; [reflexivity|]. split; [exact Hps|].
  assert (Hnd : NoDup [1; 2]%nat) by (by apply (bool_decide_unpack _)).
  exact (proj1 (log_tells_who_entered_and_who_sits
                  [Scenario.P1; Scenario.P2] (Aircraft.new Scenario.layout)
                  [1; 2]%nat 9 s 1%nat ps Hnd Hs Hps)).
Defined.

(** ** The order of the log *)

(** A tick appends the events it logs, stamped with its number. *)
Lemma step_events s s' :
  Reachable s ->
  Simulation.isComplete s = false ->
  Simulation.step s = Some s' ->
  exists evs,
    Simulation.events s' = Simulation.events s ++ evs
    /\ Forall (fun e => Simulation.step_of e = Simulation.currentStep s + 1) evs.
Proof.
  intros HR Hic Hstep.
  destruct (step_split s s' HR Hic Hstep) as (_ & Hev & Hcases).
  cbn zeta in *.
  destruct Hev as (_ & _ & Hcs & _ & _ & _ & evs & Hevs & Hall).
  cbn [Simulation.events Simulation.currentStep Simulation.set_currentStep]
    in Hevs, Hall, Hcs.
  destruct Hcases as [[-> _]|(k & rest & ps & _ & _ & _ & ->)];
    rewrite (proj2 (proj2 (proj2 (proj2 (checkCompletion_fields _))))).
  - exists evs. split; [done|].
    eapply Forall_impl; [exact Hall|]. by intros e [_ ?].
  - unfold afterAdmission. cbn [Simulation.events].
    exists (evs ++ [enterEvent (Simulation.currentStep s + 1)
                      (Simulation.passenger ps)]).
    rewrite Hevs, Hcs, <- app_assoc. split; [done|].
    apply Forall_app. split; [|by repeat constructor].
    eapply Forall_impl; [exact Hall|]. by intros e [_ ?].
Qed.

(** The log only grows, by events of later ticks. *)
Lemma steps_events n s s' :
  Reachable s ->
  Simulation.steps n s = Some s' ->
  Simulation.currentStep s <= Simulation.currentStep s'
  /\ exists evs,
       Simulation.events s' = Simulation.events s ++ evs
       /\ Forall (fun e => Simulation.currentStep s < Simulation.step_of e
                           <= Simulation.currentStep s') evs
       /\ StronglySorted
            (fun e e' => Simulation.step_of e <= Simulation.step_of e') evs.
Proof.
  revert s. induction n as [|n IH]; intros s HR; cbn [Simulation.steps].
  - intros [= <-]. split; [lia|]. exists []. rewrite app_nil_r.
    split; [done|]. split; constructor.
  - destruct (Simulation.step s) as [s1|] eqn:Hstep; [|done]. cbn. intros Hn.
    destruct (IH s1 (Reachable_step s s1 HR Hstep) Hn)
      as (Hle & evs & Hevs & Hall & Hsorted).
    destruct (Simulation.isComplete s) eqn:Hic.
    { unfold Simulation.step in Hstep. rewrite Hic in Hstep.
      injection Hstep as <-. split; [done|]. by exists evs. }
    destruct (step_events s s1 HR Hic Hstep) as (evs1 & Hevs1 & Hall1).
    pose proof (step_currentStep s s1 HR Hic Hstep) as Hcs.
    split; [lia|]. exists (evs1 ++ evs).
    split; [by rewrite Hevs, Hevs1, app_assoc|]. split.
    + apply Forall_app. split.
      * eapply Forall_impl; [exact Hall1|]. cbn. intros e He. lia.
      * eapply Forall_impl; [exact Hall|]. cbn. intros e He. lia.
    + apply StronglySorted_app_2; [| |exact Hsorted].
      * intros e1 e2 H1 H2.
        pose proof (proj1 (Forall_forall _ _) Hall1 e1 H1) as E1.
        pose proof (proj1 (Forall_forall _ _) Hall e2 H2) as E2.
        cbn in E1, E2. lia.
      * clear -Hall1. induction Hall1 as [|e l He Hl IHl]; constructor; [done|].
        eapply Forall_impl; [exact Hl|]. cbn. intros e' He'. lia.
Qed.

Lemma steps_currentStep_le n s s' :
  Reachable s -> Simulation.steps n s = Some s' ->
  Simulation.currentStep s' <= Simulation.currentStep s + Z.of_nat n.
Proof.
  revert s. induction n as [|n IH]; intros s HR; cbn [Simulation.steps].
  - intros [= <-]. lia.
  - destruct (Simulation.step s) as [s1|] eqn:Hstep; [|done]. cbn.
    intros Hn. specialize (IH s1 (Reachable_step s s1 HR Hstep) Hn).
    destruct (Simulation.isComplete s) eqn:Hic.
    + unfold Simulation.step in Hstep. rewrite Hic in Hstep.
      injection Hstep as <-. lia.
    + rewrite (step_currentStep s s1 HR Hic Hstep) in IH. lia.
Qed.

(** X22: the log is in the order of time.  After any number of ticks
    that do not raise, the events carry stamps from 1 to [currentStep]
    that never decrease along the log, and [currentStep] is at most the
    number of ticks; further ticks leave the events logged so far in
    place and append events with later stamps. *)
Theorem log_is_chronological (passengers : list Passenger.t)
    (aircraft : Aircraft.t) (orderedIds : list nat) (n : nat)
    (s : Simulation.t) :
  Simulation.steps n
    (Simulation.setBoardingOrder orderedIds (Simulation.new passengers aircraft))
  = Some s ->
  0 <= Simulation.currentStep s <= Z.of_nat n
  /\ Forall (fun e => 1 <= Simulation.step_of e <= Simulation.currentStep s)
       (Simulation.getEvents s)
  /\ StronglySorted
       (fun e e' => Simulation.step_of e <= Simulation.step_of e')
       (Simulation.getEvents s)
  /\ forall m s',
       Simulation.steps m s = Some s' ->
       exists evs,
         Simulation.getEvents s' = Simulation.getEvents s ++ evs
         /\ Forall (fun e => Simulation.currentStep s < Simulation.step_of e)
              evs.
Proof.
  intros Hsteps. unfold Simulation.getEvents.
  set (start := Simulation.setBoardingOrder orderedIds
                  (Simulation.new passengers aircraft)) in *.
  assert (HR0 : Reachable start) by apply Reachable_start.
  assert (HR : Reachable s) by (by eapply Reachable_steps).
  destruct (steps_events n start s HR0 Hsteps)
    as (Hle & evs & Hevs & Hall & Hsorted).
  change (Simulation.events start) with (@nil Simulation.Event) in Hevs.
  change (Simulation.currentStep start) with 0 in Hle, Hall.
  cbn [app] in Hevs. rewrite Hevs.
  assert (Hn : Simulation.currentStep s <= Z.of_nat n).
  { pose proof (steps_currentStep_le n start s HR0 Hsteps) as H.
    by change (Simulation.currentStep start) with 0 in H. }
  split; [lia|]. split; [|split; [done|]].
  - eapply Forall_impl; [exact Hall|]. cbn. intros e He. lia.
  - intros m s' Hm.
    destruct (steps_events m s s' HR Hm) as (_ & evs' & Hevs' & Hall' & _).
    exists evs'. rewrite <- Hevs. split; [done|].
    eapply Forall_impl; [exact Hall'|]. cbn. intros e He. lia.
Qed.

Lemma log_is_chronological_witness :
  exists s,
    Simulation.steps 9 Scenario.initial = Some s
    /\ StronglySorted
         (fun e e' => Simulation.step_of e <= Simulation.step_of e')
         (Simulation.getEvents s).
Proof.
  destruct (Simulation.steps 9 Scenario.initial) as [s|] eqn:Hs;
    [|vm_compute in Hs; discriminate].
  exists s. split; [reflexivity|].
  exact (proj1 (proj2 (proj2 (log_is_chronological
                                [Scenario.P1; Scenario.P2]
                                (Aircraft.new Scenario.layout)
                                [1; 2]%nat 9 s Hs)))).
Defined.

(** ** The clocks of the run-states *)

Lemma clocked_later t ps :
  occupiesAisle ps = false -> clocked (t - 1) ps -> clocked t ps.
Proof.
  unfold clocked, occupiesAisle.
  destruct (Simulation.state ps); try done; intros _ [Hw H];
    (split; [done|]).
  destruct H as (? & ? & ? & ?). repeat split; lia.
Qed.

(** A handling either gets the passenger on or counts as waiting. *)
Lemma handles_clocked s ps ps' a' evs :
  handles s ps ps' a' evs ->
  clocked (Simulation.currentStep s - 1) ps ->
  clocked (Simulation.currentStep s) ps'.
Proof.
  intros H [Hw Hc].
  destruct H as [p row Hst Hrow Hsize|ps1 evs1 p Hst Hrow Hsize Hss
                |p row Hst Hrow Hle Hfree|p row Hst Hrow Hblocked
                |Hst Hk|ps1 evs1 p a1 Hst Hk Hss|Hst Hk|Hst Hk|p Hst];
    try (destruct Hss as [blocking Hb Hne|Hb]);
    try subst p; try subst row;
    unfold clocked, stage, bag in *; rewrite Hst in Hc;
    cbn [Simulation.state Simulation.set_state Simulation.set_stowRemaining
         Simulation.set_aisleRow Simulation.set_waitTime
         Simulation.set_shuffleRemaining Simulation.set_seatedAt
         Simulation.passenger Simulation.aisleRow Simulation.waitTime
         Simulation.enteredAt Simulation.seatedAt] in *;
    try rewrite Hst;
    destruct Hc as (He & Hs & Ht & Hstage & Hbag);
    try specialize (Hbag eq_refl);
    destruct (Passenger.carryOnSize (Simulation.passenger ps));
    try done; repeat split; try lia; try congruence.
Qed.

Lemma processPassengerInAisle_turn s k :
  Inv s ->
  (Simulation.processPassengerInAisle s k = s
   /\ forall ps, assoc_get k (Simulation.passengerStates s) = Some ps ->
        occupiesAisle ps = false)
  \/ exists ps ps' a' evs,
       assoc_get k (Simulation.passengerStates s) = Some ps
       /\ Passenger.id (Simulation.passenger ps) = k
       /\ handles s ps ps' a' evs
       /\ Simulation.processPassengerInAisle s k = updated s ps' a' evs.
Proof.
  intros HI.
  destruct (assoc_get k (Simulation.passengerStates s)) as [ps|] eqn:Hget.
  - pose proof (inv_keys s HI _ _ Hget) as Hk.
    destruct (occupiesAisle ps) eqn:Hocc.
    + right. subst k.
      destruct (processPassengerInAisle_handles s ps Hget Hocc)
        as (ps' & a' & evs & Hh & Heq).
      by exists ps, ps', a', evs.
    + left. split; [|by intros ? [= <-]].
      unfold Simulation.processPassengerInAisle. rewrite Hget.
      unfold occupiesAisle in Hocc. by destruct (Simulation.state ps).
  - left. split; [|done].
    unfold Simulation.processPassengerInAisle. by rewrite Hget.
Qed.

Lemma Clocked_processPassengerInAisle s k ks :
  Inv s -> k ∉ ks -> Clocked (k :: ks) s ->
  Clocked ks (Simulation.processPassengerInAisle s k).
Proof.
  intros HI Hk HC.
  destruct (processPassengerInAisle_turn s k HI)
    as [[-> Hidle]|(ps & ps' & a' & evs & Hget & Hid & Hh & ->)].
  - intros k1 ps1 Hget1. destruct (HC k1 ps1 Hget1) as [Hpend Hdone]. split.
    + intros Hin. apply Hpend. by right.
    + intros Hnin. destruct (decide (k1 = k)) as [->|Hne].
      * apply clocked_later; [by apply Hidle|]. apply Hpend. by left.
      * apply Hdone. by apply not_elem_of_cons.
  - destruct (handles_aisle _ _ _ _ _ Hh) as (Hp & _).
    intros k1 ps1. unfold updated.
    cbn [Simulation.passengerStates Simulation.currentStep].
    rewrite Hp, Hid, assoc_get_set.
    destruct (decide (k1 = k)) as [->|Hne]; intros Hget1.
    + injection Hget1 as <-. split; [done|]. intros _.
      apply (handles_clocked _ _ _ _ _ Hh). apply (HC k ps Hget). by left.
    + destruct (HC k1 ps1 Hget1) as [Hpend Hdone]. split.
      * intros Hin. apply Hpend. by right.
      * intros Hnin. apply Hdone. by apply not_elem_of_cons.
Qed.

Lemma Clocked_handling ks s :
  Inv s -> NoDup ks -> Clocked ks s ->
  Clocked [] (foldl Simulation.processPassengerInAisle s ks).
Proof.
  revert s. induction ks as [|k ks IH]; intros s HI Hnd HC; cbn [foldl];
    [done|].
  apply NoDup_cons in Hnd as [Hk Hnd].
  apply IH; [by apply Inv_processPassengerInAisle|done|].
  by apply Clocked_processPassengerInAisle.
Qed.

Lemma Clocked_step s s' :
  Reachable s -> queueWaiting s ->
  0 <= Simulation.currentStep s ->
  Clocked [] s ->
  Simulation.step s = Some s' -> Clocked [] s'.
Proof.
  intros HR HQ Hcs HC Hstep.
  destruct (Simulation.isComplete s) eqn:Hic.
  { unfold Simulation.step in Hstep. rewrite Hic in Hstep. by injection Hstep as <-. }
  destruct (step_split s s' HR Hic Hstep) as (_ & Hev & _).
  destruct (step_through s s' HR HQ Hic Hstep) as (HI2 & HQ2 & Hcases).
  cbn zeta in *.
  set (s1 := Simulation.set_currentStep (Simulation.currentStep s + 1) s) in *.
  assert (HR1 : Reachable s1) by (by apply Reachable_tick).
  assert (HC1 : Clocked (Simulation.getAislePassengersSorted s1) s1).
  { intros k ps Hget. destruct (HC k ps Hget) as [_ Hnow].
    specialize (Hnow ltac:(by intros ?%elem_of_nil)).
    change (Simulation.currentStep s1) with (Simulation.currentStep s + 1).
    replace (Simulation.currentStep s + 1 - 1) with (Simulation.currentStep s)
      by lia.
    split; [done|]. intros Hnin. apply clocked_later.
    - destruct (occupiesAisle ps) eqn:Hocc; [|done]. destruct Hnin.
      destruct (sorted_aisle_list s1 HR1) as (L & -> & Hperm & _).
      apply list_elem_of_fmap. exists (k, ps). split; [done|].
      rewrite Hperm. apply list_elem_of_filter. split; [done|].
      by apply assoc_get_elem_of.
    - by replace (Simulation.currentStep s + 1 - 1)
        with (Simulation.currentStep s) by lia. }
  set (s2 := foldl Simulation.processPassengerInAisle s1
               (Simulation.getAislePassengersSorted s1)) in *.
  assert (HC2 : Clocked [] s2).
  { apply Clocked_handling; [by apply Reachable_Inv| |done].
    by apply getAislePassengersSorted_NoDup. }
  destruct Hev as (_ & _ & Hcs2 & _).
  change (Simulation.currentStep s1) with (Simulation.currentStep s + 1)
    in Hcs2.
  assert (Hsame : forall x y,
            Simulation.currentStep y = Simulation.currentStep x ->
            Simulation.passengerStates y = Simulation.passengerStates x ->
            Clocked [] x -> Clocked [] y).
  { intros x y Hc Hm Hx k ps. rewrite Hc, Hm. apply Hx. }
  destruct Hcases as [[-> _]|(k & rest & ps & Hq & Hfree & Hget & Hw & ->)].
  - destruct (checkCompletion_fields s2) as (_ & Hm & _ & Hc & _).
    by apply (Hsame s2).
  - destruct (checkCompletion_fields (afterAdmission s2 k ps rest))
      as (_ & Hm & _ & Hc & _).
    apply (Hsame (afterAdmission s2 k ps rest)); [done|done|].
    intros k1 ps1. unfold afterAdmission.
    cbn [Simulation.passengerStates Simulation.currentStep].
    rewrite assoc_get_set. destruct (decide (k1 = k)) as [->|Hne].
    + intros [= <-]. split; [by intros ?%elem_of_nil|]. intros _.
      destruct (HC2 k ps Hget) as [_ Hnow].
      specialize (Hnow ltac:(by intros ?%elem_of_nil)).
      destruct Hnow as [Hwt Hnow]. rewrite Hw in Hnow.
      destruct Hnow as (_ & Hs & Hw0).
      rewrite Hcs2. unfold clocked, admitted, stage. cbn.
      repeat split; try lia. intros; congruence.
    + apply HC2.
Qed.

Lemma Clocked_start passengers aircraft orderedIds :
  Clocked [] (Simulation.setBoardingOrder orderedIds
                (Simulation.new passengers aircraft)).
Proof.
  intros k ps Hget.
  destruct (initial_store _ _ _ _ _ Hget) as (p & Hp & <- & ->).
  split; [by intros ?%elem_of_nil|]. intros _. by repeat split.
Qed.

Lemma Clocked_steps n s s' :
  Reachable s -> queueWaiting s ->
  0 <= Simulation.currentStep s ->
  Clocked [] s ->
  Simulation.steps n s = Some s' -> Clocked [] s'.
Proof.
  revert s. induction n as [|n IH]; intros s HR HQ Hcs HC;
    cbn [Simulation.steps].
  - by intros [= <-].
  - destruct (Simulation.step s) as [s1|] eqn:Hstep; [|done]. cbn.
    apply IH; [by eapply Reachable_step|by eapply queueWaiting_step| |].
    + destruct (Simulation.isComplete s) eqn:Hic.
      * unfold Simulation.step in Hstep. rewrite Hic in Hstep.
        by injection Hstep as <-.
      * rewrite (step_currentStep s s1 HR Hic Hstep). lia.
    + by eapply Clocked_step.
Qed.

(** X23: when the boarding order names nobody twice, the clocks of every
    run-state add up after any number of ticks: each tick since the
    passenger entered either got it on, by a cell of the aisle, by the
    arrival at its row, by the end of the stowing or by sitting down, or
    counts in its [waitTime].  A seated passenger has spent
    [row + 2 + waitTime] ticks in the cabin, one more with a bag; a
    waiting one has the clocks of the start. *)
Theorem clocks_add_up (passengers : list Passenger.t)
    (aircraft : Aircraft.t) (orderedIds : list nat) (n : nat)
    (s : Simulation.t) (k : nat) (ps : Simulation.RunState) :
  NoDup orderedIds ->
  Simulation.steps n
    (Simulation.setBoardingOrder orderedIds (Simulation.new passengers aircraft))
  = Some s ->
  assoc_get k (Simulation.passengerStates s) = Some ps ->
  clocked (Simulation.currentStep s) ps
  /\ (Simulation.state ps = PassengerState.WAITING ->
      Simulation.enteredAt ps = -1 /\ Simulation.seatedAt ps = -1
      /\ Simulation.waitTime ps = 0)
  /\ (occupiesAisle ps = true ->
      1 <= Simulation.enteredAt ps <= Simulation.currentStep s
      /\ Simulation.seatedAt ps = -1)
  /\ (Simulation.state ps = PassengerState.WALKING ->
      Simulation.currentStep s - Simulation.enteredAt ps
      = Simulation.aisleRow ps + Simulation.waitTime ps)
  /\ (Simulation.state ps = PassengerState.SEATED ->
      1 <= Simulation.enteredAt ps
      /\ Simulation.seatedAt ps <= Simulation.currentStep s
      /\ Simulation.seatedAt ps - Simulation.enteredAt ps
         = Passenger.row (Simulation.passenger ps) + 2
           + bag (Simulation.passenger ps) + Simulation.waitTime ps).
Proof.
  intros Hnd Hsteps Hget.
  assert (HC : Clocked [] s).
  { eapply Clocked_steps; [apply Reachable_start| | | |exact Hsteps].
    - by apply queueWaiting_start.
    - done.
    - apply Clocked_start. }
  destruct (HC k ps Hget) as [_ Hnow].
  specialize (Hnow ltac:(by intros ?%elem_of_nil)).
  split; [done|]. destruct Hnow as [Hw Hnow].
  unfold occupiesAisle, stage in *.
  destruct (Simulation.state ps); repeat split; try done; try lia;
    intros; try congruence; try lia.
Qed.

Lemma clocks_add_up_witness :
  exists s ps,
    Simulation.steps 9 Scenario.initial = Some s
    /\ assoc_get 1%nat (Simulation.passengerStates s) = Some ps
    /\ clocked (Simulation.currentStep s) ps.
Proof.
  destruct (Simulation.steps 9 Scenario.initial) as [s|] eqn:Hs;
    [|vm_compute in Hs; discriminate].
  destruct (assoc_get 1%nat (Simulation.passengerStates s)) as [ps|] eqn:Hps;
    [|revert Hps; vm_compute in Hs; injection Hs as <-; vm_compute;
      discriminate].
  exists s, ps. split; [reflexivity|]. split; [exact Hps|].
  assert (Hnd : NoDup [1; 2]%nat) by (by apply (bool_decide_unpack _)).
  exact (proj1 (clocks_add_up [Scenario.P1; Scenario.P2]
                  (Aircraft.new Scenario.layout) [1; 2]%nat 9 s 1%nat ps
                  Hnd Hs Hps)).
Defined.

(** ** The snapshots of a run *)

Lemma recordLoop_spec (n : nat) s s' acc :
  Simulation.steps (S n) s = Some s' ->
  Simulation.isComplete s' = true ->
  (forall m sm, (m <= n)%nat -> Simulation.steps m s = Some sm ->
     Simulation.isComplete sm = false) ->
  forall fuel, (n < fuel)%nat ->
    exists snaps,
      recordLoop fuel s acc = Recorded s' (acc ++ snaps)
      /\ length snaps = n
      /\ forall i, (i < n)%nat ->
           snaps !! i = Simulation.getSnapshot <$> Simulation.steps (S i) s.
Proof.
  revert s acc. induction n as [|n IH]; intros s acc Hsteps Hic Hnever fuel Hf;
    (destruct fuel as [|fuel]; [lia|]); cbn [recordLoop];
    unfold Simulation.stepReturn;
    rewrite (Hnever 0%nat s) by (done || lia);
    cbn [Simulation.steps] in Hsteps;
    destruct (Simulation.step s) as [s1|] eqn:Hstep; try done;
    cbn [mbind option_bind] in Hsteps |- *.
  - injection Hsteps as ->. rewrite Hic. cbn [negb].
    exists []. rewrite app_nil_r. split; [done|]. split; [done|]. intros; lia.
  - rewrite (Hnever 1%nat s1); [|lia|cbn [Simulation.steps]; by rewrite Hstep].
    cbn [negb].
    destruct (IH s1 (acc ++ [Simulation.getSnapshot s1]) Hsteps Hic) with fuel
      as (snaps & Hloop & Hlen & Hidx); [|lia|].
    { intros m sm Hm Hsm. apply (Hnever (S m)); [lia|].
      cbn [Simulation.steps]. by rewrite Hstep. }
    exists (Simulation.getSnapshot s1 :: snaps).
    split; [by rewrite Hloop, <- app_assoc|]. split; [cbn; lia|].
    intros [|i] Hi; cbn [lookup list_lookup Simulation.steps];
      rewrite Hstep; cbn [mbind option_bind]; [done|].
    apply Hidx. lia.
Qed.

Lemma queueValid_steps n s s' :
  Reachable s -> queueValid s -> Simulation.steps n s = Some s' ->
  queueValid s'.
Proof.
  revert s. induction n as [|n IH]; intros s HR HV; cbn [Simulation.steps].
  - by intros [= <-].
  - destruct (step_total s HR HV) as (s1 & Hstep & HV1). rewrite Hstep. cbn.
    apply IH; [by eapply Reachable_step|done].
Qed.

Lemma roster_steps n s s' :
  Reachable s -> Simulation.steps n s = Some s' -> roster s' = roster s.
Proof.
  revert s. induction n as [|n IH]; intros s HR; cbn [Simulation.steps].
  - by intros [= <-].
  - destruct (Simulation.step s) as [s1|] eqn:Hstep; [|done]. cbn.
    intros H. rewrite (IH s1 (Reachable_step s s1 HR Hstep) H).
    destruct (Simulation.isComplete s) eqn:Hc.
    + unfold Simulation.step in Hstep. rewrite Hc in Hstep.
      by injection Hstep as <-.
    + destruct (step_phases s s1 Hc Hstep) as (s3 & Hadd & ->).
      destruct (roster_checkCompletion s3) as [-> _].
      set (s0 := Simulation.set_currentStep (Simulation.currentStep s + 1) s)
        in *.
      assert (H0 : Reachable s0) by (by apply Reachable_tick).
      destruct (handled_all s0 (Simulation.getAislePassengersSorted s0)
                  (Reachable_Inv _ H0)) as [HI2 (_ & _ & _ & _ & _ & Hr & _)].
      destruct (roster_tryAddFromQueue _ _ HI2 Hadd) as [-> _]. by rewrite Hr.
Qed.

Lemma filter_all {A} (P : A -> Prop) `{!forall x, Decision (P x)} (l : list A) :
  Forall P l -> filter P l = l.
Proof.
  induction 1 as [|x l Hx _ IH]; [done|].
  by rewrite filter_cons, decide_True, IH.
Qed.

Lemma filter_none {A} (P : A -> Prop) `{!forall x, Decision (P x)} (l : list A) :
  Forall (fun x => ~ P x) l -> filter P l = [].
Proof.
  induction 1 as [|x l Hx _ IH]; [done|].
  by rewrite filter_cons, decide_False.
Qed.

(** X24: when the passengers have ids of their own and rows the aisle
    leads to, and the boarding order names each of them once, the loop
    of the application that records the snapshots ends, though it has no
    cap: it leaves one snapshot per tick and one of the start, the
    snapshot at index [i] showing the cabin after [i] ticks.  The last
    one shows everybody seated and an empty queue, and the timeline
    loaded with the snapshots has as many steps as the boarding took
    ticks and shows, on [goToStep], the cabin after that many ticks,
    brought into the range of the run. *)
Theorem snapshots_show_every_tick (passengers : list Passenger.t)
    (aircraft : Aircraft.t) (orderedIds : list nat) :
  NoDup (Passenger.id <$> passengers) ->
  Forall (fun p => 0 <= Passenger.row p <= Aircraft.rows aircraft) passengers ->
  orderedIds ≡ₚ Passenger.id <$> passengers ->
  let start :=
    Simulation.setBoardingOrder orderedIds (Simulation.new passengers aircraft) in
  exists (T : nat) (s : Simulation.t) (snapshots : list Simulation.Snapshot),
    Simulation.steps T start = Some s
    /\ (forall fuel, (T <= fuel)%nat ->
          recordSnapshots fuel start = Recorded s snapshots)
    /\ length snapshots = S T
    /\ (forall i, (i <= T)%nat ->
          exists si,
            Simulation.steps i start = Some si
            /\ snapshots !! i = Some (Simulation.getSnapshot si)
            /\ Simulation.snap_step (Simulation.getSnapshot si) = Z.of_nat i
            /\ Simulation.totalPassengers (Simulation.getSnapshot si)
               = length passengers
            /\ Simulation.snap_isComplete (Simulation.getSnapshot si)
               = bool_decide (i = T))
    /\ Simulation.seatedCount (Simulation.getSnapshot s) = length passengers
    /\ Simulation.passengersInAisle (Simulation.getSnapshot s) = []
    /\ Simulation.passengersWaiting (Simulation.getSnapshot s) = []
    /\ Simulation.queueLength (Simulation.getSnapshot s) = 0%nat
    /\ Timeline.totalSteps (Timeline.loadSnapshots snapshots).1 = Z.of_nat T
    /\ forall step,
         let shown := Z.max 0 (Z.min step (Z.of_nat T)) in
         exists si,
           Simulation.steps (Z.to_nat shown) start = Some si
           /\ (Timeline.goToStep step (Timeline.loadSnapshots snapshots).1).2
              = (shown, Some (Simulation.getSnapshot si)).
Proof.
  intros Hids Hrows Hperm start.
  destruct (completes_from_start passengers aircraft orderedIds
              Hids Hrows Hperm)
    as (T & s & _ & Hsteps & Hic & Hall & Hmin & _).
  fold start in Hsteps, Hmin.
  assert (HR0 : Reachable start) by apply Reachable_start.
  assert (HR : Reachable s) by (by eapply Reachable_steps).
  assert (Hnd : NoDup orderedIds) by (by rewrite Hperm).
  assert (Hknown : Forall (fun id => exists p, p ∈ passengers
                                               /\ Passenger.id p = id) orderedIds).
  { apply Forall_forall. intros id Hid.
    rewrite Hperm in Hid. apply list_elem_of_fmap in Hid as (p & -> & Hp).
    by exists p. }
  assert (HV0 : queueValid start) by (by apply queueValid_start).
  assert (HQ0 : queueWaiting start) by (by apply queueWaiting_start).
  destruct T as [|n]; [cbn in Hsteps; by injection Hsteps as <-|].
  destruct (recordLoop_spec n start s [Simulation.getSnapshot start]
              Hsteps Hic) with (S n) as (snaps & _ & Hlen & Hidx); [|lia|].
  { intros m sm Hm. apply Hmin. lia. }
  set (snapshots := [Simulation.getSnapshot start] ++ snaps
                    ++ [Simulation.getSnapshot s]).
  assert (Hlength : length snapshots = S (S n)).
  { subst snapshots. rewrite !length_app. cbn. lia. }
  assert (Hcount : forall i si, Simulation.steps i start = Some si ->
            length (Simulation.passengerStates si) = length passengers).
  { intros i si Hi.
    assert (Hl : forall x, length (Simulation.passengerStates x)
                           = length (roster x))
      by (intros x; unfold roster; by rewrite length_fmap).
    rewrite Hl, (roster_steps i start si HR0 Hi), <- Hl.
    unfold start. rewrite initial_store_map by done. by rewrite length_fmap. }
  assert (Hshow : forall i, (i <= S n)%nat ->
            exists si,
              Simulation.steps i start = Some si
              /\ snapshots !! i = Some (Simulation.getSnapshot si)
              /\ Simulation.snap_step (Simulation.getSnapshot si) = Z.of_nat i
              /\ Simulation.totalPassengers (Simulation.getSnapshot si)
                 = length passengers
              /\ Simulation.snap_isComplete (Simulation.getSnapshot si)
                 = bool_decide (i = S n)).
  { intros i Hi.
    destruct (run_never_fails passengers aircraft orderedIds i Hknown)
      as [si Hsi].
    fold start in Hsi. exists si. split; [done|].
    assert (Hnever : forall m sm, (m < i)%nat ->
              Simulation.steps m start = Some sm ->
              Simulation.isComplete sm = false)
      by (intros m sm Hm; apply Hmin; lia).
    split; [|split; [|split]].
    - subst snapshots. destruct i as [|i]; [by injection Hsi as <-|].
      rewrite lookup_app_r by (cbn; lia). cbn [length].
      replace (S i - 1)%nat with i by lia.
      destruct (decide (i < n)%nat) as [Hlt|Hge].
      + rewrite lookup_app_l by lia. rewrite (Hidx i Hlt), Hsi. done.
      + assert (i = n) as -> by lia.
        rewrite lookup_app_r by lia. rewrite Hlen, Nat.sub_diag.
        rewrite Hsteps in Hsi. by injection Hsi as <-.
    - cbn. rewrite (steps_currentStep i start si HR0 Hnever Hsi).
      change (Simulation.currentStep start) with 0. lia.
    - cbn. by apply (Hcount i).
    - cbn. destruct (decide (i = S n)) as [->|Hne].
      + rewrite Hsteps in Hsi. injection Hsi as <-.
        by rewrite bool_decide_eq_true_2.
      + rewrite bool_decide_eq_false_2 by done.
        apply (Hmin i si); [lia|done]. }
  assert (Hseated : Forall (fun ps => PassengerState.eqb (Simulation.state ps)
                                        PassengerState.SEATED = true)
                      (Simulation.passengerStates s).*2).
  { apply Forall_forall. intros ps Hin.
    apply list_elem_of_fmap in Hin as ([k ps'] & -> & Hin).
    cbn [snd]. by rewrite (Hall k ps' (Reachable_lookup s k ps' HR Hin)). }
  exists (S n), s, snapshots. split; [done|]. split.
  { intros fuel Hf. unfold recordSnapshots.
    destruct (recordLoop_spec n start s [Simulation.getSnapshot start]
                Hsteps Hic) with fuel as (snaps' & Hloop' & Hlen' & Hidx');
      [|lia|].
    { intros m sm Hm. apply Hmin. lia. }
    rewrite Hloop'. subst snapshots. rewrite <- app_assoc. do 3 f_equal.
    apply list_eq. intros i.
    destruct (decide (i < n)%nat) as [Hlt|Hge].
    - by rewrite Hidx', Hidx.
    - rewrite !lookup_ge_None_2 by lia. done. }
  split; [done|]. split; [exact Hshow|].
  split; [|split; [|split; [|split; [|split]]]].
  - cbn. rewrite filter_all by done. rewrite length_fmap. by apply (Hcount (S n)).
  - cbn. rewrite filter_none; [done|].
    eapply Forall_impl; [exact Hseated|]. cbn. intros ps Hs [Hns _]. congruence.
  - cbn. rewrite filter_none; [done|].
    eapply Forall_impl; [exact Hseated|]. cbn. intros ps Hs Hw.
    by destruct (Simulation.state ps).
  - cbn.
    pose proof (queueValid_steps (S n) start s HR0 HV0 Hsteps) as HV.
    pose proof (queueWaiting_steps (S n) start s HR0 HQ0 Hsteps) as [_ HQ].
    destruct (Simulation.queue s) as [|r rest] eqn:Hq; [done|]. exfalso.
    unfold queueValid in HV. rewrite Hq in HV.
    apply Forall_cons in HV as [(k & -> & ps & Hget) _].
    pose proof (HQ k ps ltac:(by left) Hget) as Hw.
    by rewrite (Hall k ps Hget) in Hw.
  - unfold Timeline.loadSnapshots. cbn [fst Timeline.totalSteps].
    rewrite Hlength. lia.
  - intros step shown.
    destruct (Hshow (Z.to_nat shown) ltac:(lia)) as (si & Hsi & Hlook & _).
    exists si. split; [done|].
    unfold Timeline.goToStep, Timeline.loadSnapshots.
    cbn [fst snd Timeline.totalSteps Timeline.snapshots].
    rewrite Hlength.
    replace (Z.of_nat (S (S n)) - 1) with (Z.of_nat (S n)) by lia.
    fold shown. f_equal. unfold RandomGenerator.array_get.
    destruct (shown <? 0) eqn:E; [lia|]. exact Hlook.
Qed.

Lemma snapshots_show_every_tick_witness :
  exists (T : nat) (s : Simulation.t) (snapshots : list Simulation.Snapshot),
    Simulation.steps T Scenario.initial = Some s
    /\ (forall fuel, (T <= fuel)%nat ->
          recordSnapshots fuel Scenario.initial = Recorded s snapshots)
    /\ length snapshots = S T.
Proof.
  assert (Hids : NoDup (Passenger.id <$> [Scenario.P1; Scenario.P2]))
    by (by apply (bool_decide_unpack _)).
  assert (Hrows : Forall (fun p => 0 <= Passenger.row p
                                   <= Aircraft.rows (Aircraft.new Scenario.layout))
                    [Scenario.P1; Scenario.P2])
    by (repeat constructor; cbn; lia).
  pose proof (snapshots_show_every_tick [Scenario.P1; Scenario.P2]
                (Aircraft.new Scenario.layout) [1; 2]%nat Hids Hrows
                (Permutation_refl _)) as T.
  destruct T as (T & s & snapshots & Hsteps & Hrec & Hlen & _).
  exists T, s, snapshots. split; [exact Hsteps|]. split; [exact Hrec|exact Hlen].
Defined.

(** ** Rewinding a run *)

Lemma gridOK_steps n s s' :
  Reachable s -> gridOK s -> Simulation.steps n s = Some s' -> gridOK s'.
Proof.
  revert s. induction n as [|n IH]; intros s HR Hok; cbn [Simulation.steps].
  - by intros [= <-].
  - destruct (Simulation.step s) as [s1|] eqn:Hstep; [|done]. cbn.
    apply IH; [by eapply Reachable_step|by eapply gridOK_step].
Qed.

(** X25: [reset()] rewinds a run.  On a layout that holds nothing
    outside its grid, with passengers whose seats are seats of the grid,
    a reset after any number of ticks leaves the simulation as the
    constructor left it, the layout as constructed and the queue empty:
    once the boarding order is set again, the run starts over from the
    same state. *)
Theorem reset_rewinds_the_run (passengers : list Passenger.t)
    (aircraft : Aircraft.t) (orderedIds : list nat) (n : nat)
    (s : Simulation.t) :
  withinGrid aircraft ->
  Forall (seatInGrid (Aircraft.config aircraft)) passengers ->
  Simulation.steps n
    (Simulation.setBoardingOrder orderedIds (Simulation.new passengers aircraft))
  = Some s ->
  Simulation.reset s = Simulation.new passengers aircraft
  /\ Simulation.aircraft (Simulation.reset s)
     = Aircraft.new (Aircraft.config aircraft)
  /\ Simulation.queue (Simulation.reset s) = []
  /\ Simulation.setBoardingOrder orderedIds (Simulation.reset s)
     = Simulation.setBoardingOrder orderedIds
         (Simulation.new passengers aircraft).
Proof.
  intros Hgrid Hseats Hsteps.
  set (start := Simulation.setBoardingOrder orderedIds
                  (Simulation.new passengers aircraft)) in *.
  assert (HR0 : Reachable start) by apply Reachable_start.
  assert (Hok0 : gridOK start).
  { split.
    - change (Simulation.aircraft start) with (Aircraft.reset aircraft).
      rewrite (reset_fresh aircraft Hgrid). apply new_withinGrid.
    - exact Hseats. }
  destruct (gridOK_steps n start s HR0 Hok0 Hsteps) as [Hgrid' _].
  pose proof (rows_steps n start s HR0 Hsteps) as Hcfg.
  change (Aircraft.config (Simulation.aircraft start))
    with (Aircraft.config aircraft) in Hcfg.
  pose proof (originalPassengers_steps n start s HR0 Hsteps) as Horig.
  change (Simulation.originalPassengers start) with passengers in Horig.
  assert (Hreset : Simulation.reset s = Simulation.new passengers aircraft).
  { unfold Simulation.new, Simulation.reset.
    cbn [Simulation.aircraft Simulation.originalPassengers].
    rewrite Horig, (reset_fresh _ Hgrid'), Hcfg.
    by rewrite (reset_fresh aircraft Hgrid). }
  split; [done|]. rewrite Hreset. split; [|by split].
  change (Simulation.aircraft (Simulation.new passengers aircraft))
    with (Aircraft.reset aircraft).
  by apply reset_fresh.
Qed.

Lemma reset_rewinds_the_run_witness :
  exists s,
    Simulation.steps 5 Scenario.initial = Some s
    /\ Simulation.reset s
       = Simulation.new [Scenario.P1; Scenario.P2]
           (Aircraft.new Scenario.layout).
Proof.
  destruct (Simulation.steps 5 Scenario.initial) as [s|] eqn:Hs;
    [|vm_compute in Hs; discriminate].
  exists s. split; [reflexivity|].
  assert (Hseats : Forall (seatInGrid (Aircraft.config
                                         (Aircraft.new Scenario.layout)))
                     [Scenario.P1; Scenario.P2]).
  { repeat constructor; cbn; try lia; apply (bool_decide_unpack _);
      vm_compute; reflexivity. }
  exact (proj1 (reset_rewinds_the_run [Scenario.P1; Scenario.P2]
                  (Aircraft.new Scenario.layout) [1; 2]%nat 5 s
                  (new_withinGrid Scenario.layout) Hseats Hs)).
Defined.

(** ** Nobody overtakes *)

Lemma earlier_irrefl order k : NoDup order -> ~ earlier order k k.
Proof.
  intros Hnd (i & j & Hij & Hi & Hj).
  pose proof (NoDup_lookup _ _ _ _ Hnd Hi Hj). lia.
Qed.

Lemma earlier_total order k1 k2 :
  k1 ∈ order -> k2 ∈ order -> k1 <> k2 ->
  earlier order k1 k2 \/ earlier order k2 k1.
Proof.
  intros [i Hi]%list_elem_of_lookup [j Hj]%list_elem_of_lookup Hne.
  destruct (lt_eq_lt_dec i j) as [[Hlt| ->]|Hgt].
  - left. by exists i, j.
  - congruence.
  - right. by exists j, i.
Qed.

Lemma earlier_served served k rest k1 :
  NoDup (served ++ k :: rest) ->
  earlier (served ++ k :: rest) k1 k -> k1 ∈ served.
Proof.
  intros Hnd (i & j & Hij & Hi & Hj).
  assert (Hk : (served ++ k :: rest) !! length served = Some k)
    by (by rewrite lookup_app_r, Nat.sub_diag).
  pose proof (NoDup_lookup _ _ _ _ Hnd Hj Hk) as ->.
  rewrite lookup_app_l in Hi by lia. by eapply list_elem_of_lookup_2.
Qed.

Lemma earlier_rest served k rest k2 :
  NoDup (served ++ k :: rest) ->
  earlier (served ++ k :: rest) k k2 -> k2 ∈ rest.
Proof.
  intros Hnd (i & j & Hij & Hi & Hj).
  assert (Hk : (served ++ k :: rest) !! length served = Some k)
    by (by rewrite lookup_app_r, Nat.sub_diag).
  pose proof (NoDup_lookup _ _ _ _ Hnd Hi Hk) as ->.
  rewrite lookup_app_r in Hj by lia.
  destruct (j - length served)%nat as [|m] eqn:E; [lia|].
  cbn in Hj. by eapply list_elem_of_lookup_2.
Qed.

(** How a handling moves the passenger along the line. *)
Ltac no_shuffle :=
  repeat first [by apply Forall_nil
               | apply Forall_cons; split; [by intros ?|]].

Lemma handles_line s ps ps' a' evs :
  handles s ps ps' a' evs ->
  let p := Simulation.passenger ps in
  (Simulation.state ps' = PassengerState.SEATED \/ occupiesAisle ps' = true)
  /\ (Simulation.aisleRow ps' = Simulation.aisleRow ps
      \/ (Simulation.aisleRow ps' = Simulation.aisleRow ps + 1
          /\ Aircraft.isAisleOccupied (Simulation.aircraft s)
               (Simulation.aisleRow ps + 1) = false))
  /\ ((Simulation.state ps <> PassengerState.WALKING ->
       Simulation.aisleRow ps = Passenger.row p) ->
      Simulation.state ps' <> PassengerState.WALKING ->
      Simulation.aisleRow ps' = Passenger.row p)
  /\ ((Simulation.state ps <> PassengerState.WALKING ->
       Simulation.aisleRow ps = Passenger.row p) ->
      Forall (fun e =>
                Simulation.type e = EventType.SHUFFLE_START ->
                Simulation.aisleRow ps = Passenger.row p
                /\ Simulation.passengerId e = Passenger.id p
                /\ Simulation.passengerRow e = Passenger.row p
                /\ Simulation.passengerColumn e = Passenger.column p
                /\ exists blocking,
                     Simulation.data e
                     = Simulation.Shuffle (Passenger.row p) blocking
                     /\ blocking <> []
                     /\ blocking
                        = Aircraft.getBlockingSeats (Simulation.aircraft s)
                            (Passenger.row p) (Passenger.column p)) evs).
Proof.
  intros H p. subst p.
  destruct H as [p row Hst Hrow Hsize|ps1 evs1 p Hst Hrow Hsize Hss
                |p row Hst Hrow Hle Hfree|p row Hst Hrow Hblocked
                |Hst Hk|ps1 evs1 p a1 Hst Hk Hss|Hst Hk|Hst Hk|p Hst];
    try subst p; try subst row.
  - split; [by right|]. split; [by left|]. split; [done|]. intros _.
    destruct (Aircraft.hasBinCapacity _ _ _); no_shuffle.
  - destruct Hss as [blocking Hb Hne|Hb].
    + split; [by right|]. split; [by left|]. split; [done|]. intros _.
      constructor; [|constructor]. intros _. cbn. repeat split; try done.
      exists blocking. by rewrite Hrow.
    + split; [by right|]. split; [by left|]. split; [done|]. intros _.
      constructor.
  - split; [right; unfold occupiesAisle; cbn; by rewrite Hst|].
    split; [by right|]. split; [cbn; by rewrite Hst|]. intros _.
    no_shuffle.
  - split; [right; unfold occupiesAisle; cbn; by rewrite Hst|].
    split; [by left|]. split; [cbn; by rewrite Hst|]. intros _.
    no_shuffle.
  - split; [right; unfold occupiesAisle; cbn; by rewrite Hst|].
    split; [by left|]. split; [|intros _; constructor].
    intros Hr _. apply Hr. by rewrite Hst.
  - assert (Hext : forall row column,
              Aircraft.getBlockingSeats
                (Aircraft.useBinCapacity (Simulation.aisleRow ps)
                   (Passenger.carryOnSize (Simulation.passenger ps))
                   (Simulation.aircraft s)).2 row column
              = Aircraft.getBlockingSeats (Simulation.aircraft s) row column).
    { intros row column. apply getBlockingSeats_ext;
        [apply useBinCapacity_seats|apply useBinCapacity_config]. }
    destruct Hss as [blocking Hb Hne|Hb].
    + split; [by right|]. split; [by left|].
      split; [intros Hr _; apply Hr; by rewrite Hst|]. intros Hr.
      assert (Hrow : Simulation.aisleRow ps
                     = Passenger.row (Simulation.passenger ps))
        by (apply Hr; by rewrite Hst).
      constructor; [done|]. constructor; [|constructor]. intros _. cbn.
      repeat split; try done. exists blocking. rewrite Hrow.
      split; [done|]. split; [done|]. by rewrite Hb, Hext.
    + split; [by right|]. split; [by left|].
      split; [intros Hr _; apply Hr; by rewrite Hst|]. intros _.
      no_shuffle.
  - split; [right; unfold occupiesAisle; cbn; by rewrite Hst|].
    split; [by left|]. split; [|intros _; constructor].
    intros Hr _. apply Hr. by rewrite Hst.
  - split; [by right|]. split; [by left|].
    split; [intros Hr _; apply Hr; by rewrite Hst|]. intros _.
    no_shuffle.
  - split; [by left|]. split; [by left|].
    split; [intros Hr _; apply Hr; by rewrite Hst|]. intros _.
    no_shuffle.
Qed.

Lemma handles_shuffling s ps ps' a' evs :
  handles s ps ps' a' evs ->
  Simulation.state ps' = PassengerState.SHUFFLING ->
  Simulation.state ps = PassengerState.SHUFFLING
  \/ exists e, e ∈ evs /\ Simulation.type e = EventType.SHUFFLE_START.
Proof.
  intros H.
  destruct H as [p row Hst Hrow Hsize|ps1 evs1 p Hst Hrow Hsize Hss
                |p row Hst Hrow Hle Hfree|p row Hst Hrow Hblocked
                |Hst Hk|ps1 evs1 p a1 Hst Hk Hss|Hst Hk|Hst Hk|p Hst];
    try (destruct Hss as [blocking Hb Hne|Hb]); cbn; rewrite ?Hst;
    try done; try (by left); intros _; right;
    first [ eexists; split; [by left|reflexivity]
          | eexists; split; [right; by left|reflexivity] ].
Qed.

Lemma Orderly_updated order cfg passengers s ps ps' a' evs :
  NoDup order -> Inv s -> Mirrors s ->
  Orderly order cfg passengers s ->
  assoc_get (Passenger.id (Simulation.passenger ps))
    (Simulation.passengerStates s) = Some ps ->
  handles s ps ps' a' evs ->
  Orderly order cfg passengers (updated s ps' a' evs).
Proof.
  intros Hnd HI HM HO Hget Hh.
  destruct (handles_aisle _ _ _ _ _ Hh) as (Hp & Hcfg & Hocc & _).
  destruct (handles_state _ _ _ _ _ Hh) as (Hnw & _ & Hns).
  destruct (handles_line _ _ _ _ _ Hh) as (Hstill & Hmove & Hrow & Hlog).
  cbn zeta in *.
  set (k0 := Passenger.id (Simulation.passenger ps)) in *.
  assert (Hnw0 : Simulation.state ps <> PassengerState.WAITING).
  { intros Hs. unfold occupiesAisle in Hocc. by rewrite Hs in Hocc. }
  assert (Hrow0 : Simulation.state ps <> PassengerState.WALKING ->
                  Simulation.aisleRow ps
                  = Passenger.row (Simulation.passenger ps))
    by (intros; by apply (ord_row _ _ _ s HO k0 ps)).
  assert (Hlook : forall k ps1,
            assoc_get k (Simulation.passengerStates (updated s ps' a' evs))
            = Some ps1 ->
            (k = k0 /\ ps1 = ps')
            \/ (k <> k0
                /\ assoc_get k (Simulation.passengerStates s) = Some ps1)).
  { intros k ps1. unfold updated. cbn [Simulation.passengerStates].
    rewrite Hp, assoc_get_set. fold k0.
    destruct (decide (k = k0)); [intros [= <-]; by left|by right]. }
  destruct (ord_known _ _ _ s HO k0 ps Hget) as (Hin & Hk0 & [Hr Hcols]).
  split.
  - cbn. rewrite Hcfg. apply (ord_config _ _ _ s HO).
  - intros k ps1 [[-> ->]|[Hne H1]]%Hlook.
    + by rewrite Hp.
    + by apply (ord_known _ _ _ s HO k ps1).
  - exact (ord_queue _ _ _ s HO).
  - intros k ps1 [[-> ->]|[Hne H1]]%Hlook Hw1 Hwk1.
    + rewrite Hp. by apply Hrow.
    + by apply (ord_row _ _ _ s HO k ps1).
  - intros k1 k2 ps1 ps2 He [[-> ->]|[Hne1 H1]]%Hlook
      [[-> ->]|[Hne2 H2]]%Hlook.
    + by destruct (earlier_irrefl order k0 Hnd).
    + destruct (ord_line _ _ _ s HO k0 k2 ps ps2 He Hget H2)
        as [Hw|[Hs|[Ho Hlt]]].
      * by left.
      * by destruct Hns.
      * destruct Hstill as [Hs'|Ho']; [right; by left|].
        right. right. split; [done|]. destruct Hmove as [->|[-> _]]; lia.
    + destruct (ord_line _ _ _ s HO k1 k0 ps1 ps He H1 Hget)
        as [Hw|[Hs|[Ho Hlt]]].
      * done.
      * right. by left.
      * right. right. split; [done|].
        destruct Hmove as [->|[-> Hfree]]; [done|].
        pose proof (inv_cell s HI _ _ H1 Ho) as Hcell.
        apply isAisleOccupied_false in Hfree.
        assert (Simulation.aisleRow ps1 <> Simulation.aisleRow ps + 1)
          by (intros E; rewrite E, Hfree in Hcell; done).
        lia.
    + by apply (ord_line _ _ _ s HO k1 k2).
  - unfold updated. cbn [Simulation.events]. apply Forall_app.
    split; [apply (ord_log _ _ _ s HO)|].
    specialize (Hlog Hrow0). eapply Forall_impl; [exact Hlog|].
    cbn beta. intros e He Hty.
    destruct (He Hty) as (Har & Hid & Her & Hec & blocking & Hdata & Hne & Hb).
    exists (Simulation.passenger ps), blocking.
    split; [done|]. split; [done|].
    split; [unfold Passenger.seat; by rewrite Her, Hec|].
    split; [by rewrite Her|]. split; [done|].
    intros c Hc. rewrite Hb in Hc. unfold Aircraft.getBlockingSeats in Hc.
    apply list_elem_of_filter in Hc as [Hoccupied Hbetween].
    unfold Aircraft.aislePosition in Hbetween.
    rewrite (ord_config _ _ _ s HO) in Hbetween.
    split; [unfold columnsBetween; by rewrite Hec|].
    destruct (mir_seats s HM (Passenger.row (Simulation.passenger ps)) c)
      as [Hnone|(kq & psq & Hq' & Hsq & Hseatq)].
    { unfold Aircraft.rows. by rewrite (ord_config _ _ _ s HO). }
    { unfold Aircraft.columns. rewrite (ord_config _ _ _ s HO).
      by apply Hcols. }
    { unfold Aircraft.isSeatOccupied in Hoccupied.
      by rewrite Hnone in Hoccupied. }
    destruct (ord_known _ _ _ s HO kq psq Hq') as (Hinq & Hkq & _).
    pose proof (inv_keys s HI _ _ Hq') as Hidq.
    exists (Simulation.passenger psq). split; [done|].
    split; [by rewrite Her|]. rewrite Hidq, Hid. fold k0.
    assert (Hneq : kq <> k0).
    { intros ->. rewrite Hget in Hq'. injection Hq' as <-. by destruct Hns. }
    destruct (earlier_total order kq k0 Hkq Hk0 Hneq) as [|Hwrong]; [done|].
    exfalso.
    destruct (ord_line _ _ _ s HO k0 kq ps psq Hwrong Hget Hq')
      as [Hw|[Hs|[_ Hlt]]].
    + congruence.
    + by destruct Hns.
    + rewrite (ord_row _ _ _ s HO kq psq Hq') in Hlt by congruence.
      assert (Passenger.row (Simulation.passenger psq)
              = Passenger.row (Simulation.passenger ps))
        by (unfold Passenger.seat in Hseatq; congruence).
      lia.
  - unfold updated at 2. cbn [Simulation.events].
    intros k ps1 [[-> ->]|[Hne H1]]%Hlook Hs1.
    + destruct (handles_shuffling _ _ _ _ _ Hh Hs1) as [Hs0|(e & He & Hty)].
      * destruct (ord_shuffling _ _ _ s HO k0 ps Hget Hs0) as (e & He & Hty).
        exists e. split; [|done]. apply elem_of_app. by left.
      * exists e. split; [|done]. apply elem_of_app. by right.
    + destruct (ord_shuffling _ _ _ s HO k ps1 H1 Hs1) as (e & He & Hty).
      exists e. split; [|done]. apply elem_of_app. by left.
Qed.

Lemma Orderly_same order cfg passengers s s' :
  Simulation.aircraft s' = Simulation.aircraft s ->
  Simulation.passengerStates s' = Simulation.passengerStates s ->
  Simulation.queue s' = Simulation.queue s ->
  Simulation.events s' = Simulation.events s ->
  Orderly order cfg passengers s -> Orderly order cfg passengers s'.
Proof.
  intros Ha Hm Hq He [H1 H2 H3 H4 H5 H6 H7].
  split; rewrite ?Ha, ?Hm, ?Hq, ?He; done.
Qed.

Lemma Orderly_processPassengerInAisle order cfg passengers s k :
  NoDup order -> Inv s -> Mirrors s ->
  Orderly order cfg passengers s ->
  Orderly order cfg passengers (Simulation.processPassengerInAisle s k).
Proof.
  intros Hnd HI HM HO.
  destruct (processPassengerInAisle_cases s k HI)
    as [->|(ps & ps' & a' & evs & Hget & <- & Hh & ->)]; [done|].
  by eapply Orderly_updated.
Qed.

Lemma Orderly_handling order cfg passengers ks s :
  NoDup order -> Inv s -> Mirrors s ->
  Orderly order cfg passengers s ->
  Orderly order cfg passengers (foldl Simulation.processPassengerInAisle s ks).
Proof.
  intros Hnd. revert s. induction ks as [|k ks IH]; intros s HI HM HO;
    cbn [foldl]; [done|].
  apply IH; [by apply Inv_processPassengerInAisle
            |by apply Mirrors_processPassengerInAisle|].
  by apply Orderly_processPassengerInAisle.
Qed.

Lemma Orderly_afterAdmission order cfg passengers s k ps rest :
  NoDup order -> Inv s -> Advances s -> queueWaiting s ->
  Orderly order cfg passengers s ->
  Simulation.queue s = Some k :: rest ->
  Aircraft.isAisleOccupied (Simulation.aircraft s) 0 = false ->
  assoc_get k (Simulation.passengerStates s) = Some ps ->
  Simulation.state ps = PassengerState.WAITING ->
  Orderly order cfg passengers (afterAdmission s k ps rest).
Proof.
  intros Hnd HI HA [_ HQ] HO Hq Hfree Hget Hw.
  destruct (ord_queue _ _ _ s HO) as (served & rest0 & Horder & Hqueue).
  rewrite Hq in Hqueue. destruct rest0 as [|k' rest0]; [done|].
  rewrite fmap_cons in Hqueue. injection Hqueue as <- ->.
  subst order.
  apply isAisleOccupied_false in Hfree.
  assert (Hlook : forall k1 ps1,
            assoc_get k1 (Simulation.passengerStates
                            (afterAdmission s k ps (Some <$> rest0)))
            = Some ps1 ->
            (k1 = k /\ ps1 = admitted (Simulation.currentStep s) ps)
            \/ (k1 <> k
                /\ assoc_get k1 (Simulation.passengerStates s) = Some ps1)).
  { intros k1 ps1. unfold afterAdmission. cbn [Simulation.passengerStates].
    rewrite assoc_get_set.
    destruct (decide (k1 = k)); [intros [= <-]; by left|by right]. }
  split.
  - exact (ord_config _ _ _ s HO).
  - intros k1 ps1 [[-> ->]|[Hne H1]]%Hlook.
    + by apply (ord_known _ _ _ s HO k ps).
    + by apply (ord_known _ _ _ s HO k1 ps1).
  - exists (served ++ [k]), rest0. by rewrite <- app_assoc.
  - intros k1 ps1 [[-> ->]|[Hne H1]]%Hlook Hw1 Hwk1.
    + done.
    + by apply (ord_row _ _ _ s HO k1 ps1).
  - intros k1 k2 ps1 ps2 He [[-> ->]|[Hne1 H1]]%Hlook
      [[-> ->]|[Hne2 H2]]%Hlook.
    + by destruct (earlier_irrefl _ k Hnd).
    + left. apply (HQ k2 ps2); [|done]. rewrite Hq. right.
      apply list_elem_of_fmap. exists k2. split; [done|].
      by apply (earlier_rest served k rest0).
    + pose proof (earlier_served served k rest0 k1 Hnd He) as Hserved.
      assert (Hnw : Simulation.state ps1 <> PassengerState.WAITING).
      { intros Hs. pose proof (adv_queue s HA k1 ps1 H1 Hs) as Hin.
        rewrite Hq in Hin. change (Some k :: (Some <$> rest0))
          with (Some <$> k :: rest0) in Hin.
        apply list_elem_of_fmap in Hin as (k3 & [= <-] & Hin).
        apply NoDup_app in Hnd as (_ & Hdisj & _).
        by apply (Hdisj k1). }
      destruct (occupiesAisle ps1) eqn:Ho.
      * right. right. split; [done|]. cbn.
        pose proof (inv_cell s HI _ _ H1 Ho) as Hcell.
        pose proof (inv_row s HI _ _ H1 Ho) as Hrow.
        assert (Simulation.aisleRow ps1 <> 0)
          by (intros E; rewrite E, Hfree in Hcell; done).
        lia.
      * right. left. unfold occupiesAisle in Ho.
        by destruct (Simulation.state ps1).
    + by apply (ord_line _ _ _ s HO k1 k2).
  - unfold afterAdmission. cbn [Simulation.events]. apply Forall_app.
    split; [apply (ord_log _ _ _ s HO)|].
    constructor; [|constructor]. by intros ?.
  - unfold afterAdmission at 2. cbn [Simulation.events].
    intros k1 ps1 [[-> ->]|[Hne H1]]%Hlook Hs1; [done|].
    destruct (ord_shuffling _ _ _ s HO k1 ps1 H1 Hs1) as (e & He & Hty).
    exists e. split; [|done]. apply elem_of_app. by left.
Qed.

Lemma Orderly_start passengers aircraft orderedIds :
  orderedIds ≡ₚ Passenger.id <$> passengers ->
  Forall (seatsReachable (Aircraft.config aircraft)) passengers ->
  Orderly orderedIds (Aircraft.config aircraft) passengers
    (Simulation.setBoardingOrder orderedIds
       (Simulation.new passengers aircraft)).
Proof.
  intros Hperm Hseats.
  destruct (start_fields passengers aircraft orderedIds)
    as (Ha & _ & _ & _ & He & Hq).
  split.
  - by rewrite Ha.
  - intros k ps Hget.
    destruct (initial_store _ _ _ _ _ Hget) as (p & Hp & <- & ->).
    split; [done|]. split.
    + rewrite Hperm. apply list_elem_of_fmap. by exists p.
    + by apply (proj1 (Forall_forall _ _) Hseats).
  - exists [], orderedIds. split; [done|]. rewrite Hq.
    apply list_fmap_ext. intros i id Hid.
    assert (Hin : id ∈ Passenger.id <$> passengers)
      by (rewrite <- Hperm; by eapply list_elem_of_lookup_2).
    apply list_elem_of_fmap in Hin as (p & -> & Hp).
    destruct (proj2 (initial_store_keys passengers aircraft orderedIds
                       (Passenger.id p))) as [ps ->]; [by exists p|done].
  - intros k ps Hget Hw.
    by destruct (initial_store _ _ _ _ _ Hget) as (p & Hp & <- & ->).
  - intros k1 k2 ps1 ps2 _ _ Hget. left.
    by destruct (initial_store _ _ _ _ _ Hget) as (p & Hp & <- & ->).
  - rewrite He. constructor.
  - intros k ps Hget.
    by destruct (initial_store _ _ _ _ _ Hget) as (p & Hp & <- & ->).
Qed.

Lemma Orderly_step order cfg passengers s s' :
  NoDup order ->
  Reachable s -> queueWaiting s -> Mirrors s -> Advances s ->
  Orderly order cfg passengers s ->
  Simulation.step s = Some s' -> Orderly order cfg passengers s'.
Proof.
  intros Hnd HR HQ HM HA HO Hstep.
  destruct (Simulation.isComplete s) eqn:Hic.
  { unfold Simulation.step in Hstep. rewrite Hic in Hstep. by injection Hstep as <-. }
  destruct (step_through s s' HR HQ Hic Hstep) as (HI2 & HQ2 & Hcases).
  cbn zeta in *.
  set (s1 := Simulation.set_currentStep (Simulation.currentStep s + 1) s) in *.
  assert (HI1 : Inv s1) by (by apply Reachable_Inv, Reachable_tick).
  assert (HM1 : Mirrors s1) by (by apply (Mirrors_same s)).
  assert (HA1 : Advances s1) by (by apply (Advances_same s)).
  assert (HO1 : Orderly order cfg passengers s1) by (by apply (Orderly_same _ _ _ s)).
  set (s2 := foldl Simulation.processPassengerInAisle s1
               (Simulation.getAislePassengersSorted s1)) in *.
  assert (HA2 : Advances s2) by (by apply Advances_handling).
  assert (HO2 : Orderly order cfg passengers s2) by (by apply Orderly_handling).
  destruct Hcases as [[-> _]|(k & rest & ps & Hq & Hfree & Hget & Hw & ->)].
  - destruct (checkCompletion_fields s2) as (Ha & Hm & Hq & _ & He).
    by apply (Orderly_same _ _ _ s2).
  - destruct (checkCompletion_fields (afterAdmission s2 k ps rest))
      as (Ha & Hm & Hq' & _ & He).
    apply (Orderly_same _ _ _ (afterAdmission s2 k ps rest)); try done.
    by apply Orderly_afterAdmission.
Qed.

Lemma Orderly_steps order cfg passengers n s s' :
  NoDup order ->
  Reachable s -> queueWaiting s -> Mirrors s -> Advances s ->
  Orderly order cfg passengers s ->
  Simulation.steps n s = Some s' -> Orderly order cfg passengers s'.
Proof.
  intros Hnd. revert s. induction n as [|n IH]; intros s HR HQ HM HA HO;
    cbn [Simulation.steps].
  - by intros [= <-].
  - destruct (Simulation.step s) as [s1|] eqn:Hstep; [|done]. cbn.
    apply IH; [by eapply Reachable_step|by eapply queueWaiting_step
              |by eapply Mirrors_step|by eapply Advances_step|].
    by eapply Orderly_step.
Qed.

Lemma Orderly_run passengers aircraft orderedIds n s :
  NoDup (Passenger.id <$> passengers) ->
  orderedIds ≡ₚ Passenger.id <$> passengers ->
  Forall (seatsReachable (Aircraft.config aircraft)) passengers ->
  Simulation.steps n
    (Simulation.setBoardingOrder orderedIds (Simulation.new passengers aircraft))
  = Some s ->
  Orderly orderedIds (Aircraft.config aircraft) passengers s.
Proof.
  intros Hids Hperm Hseats Hsteps.
  assert (Hnd : NoDup orderedIds) by (by rewrite Hperm).
  eapply Orderly_steps; [done|apply Reachable_start| | | | |exact Hsteps].
  - by apply queueWaiting_start.
  - apply Mirrors_start.
  - apply Advances_start.
    + eapply Forall_impl; [exact Hseats|]. cbn. intros p [Hr _].
      unfold Aircraft.rows. lia.
    + intros p Hp. rewrite Hperm. apply list_elem_of_fmap. by exists p.
  - by apply Orderly_start.
Qed.

(** X26: nobody overtakes, and a shuffle is the doing of an earlier
    boarder.  When the boarding order names each passenger once and the
    seats between each passenger and the aisle are seats of the layout,
    then of two passengers the one that boards later waits, or the
    earlier one is seated, or the earlier one stands in the aisle beyond
    the row the later one has reached; and every SHUFFLE_START event of
    the log reports seats that lie between the aisle and the seat of its
    passenger, each of them the seat of a passenger that stands earlier
    in the boarding order. *)
Theorem nobody_overtakes (passengers : list Passenger.t)
    (aircraft : Aircraft.t) (orderedIds : list nat) (n : nat)
    (s : Simulation.t) :
  NoDup (Passenger.id <$> passengers) ->
  orderedIds ≡ₚ Passenger.id <$> passengers ->
  Forall (seatsReachable (Aircraft.config aircraft)) passengers ->
  Simulation.steps n
    (Simulation.setBoardingOrder orderedIds (Simulation.new passengers aircraft))
  = Some s ->
  (forall k1 k2 ps1 ps2,
     earlier orderedIds k1 k2 ->
     assoc_get k1 (Simulation.passengerStates s) = Some ps1 ->
     assoc_get k2 (Simulation.passengerStates s) = Some ps2 ->
     Simulation.state ps2 = PassengerState.WAITING
     \/ Simulation.state ps1 = PassengerState.SEATED
     \/ (occupiesAisle ps1 = true
         /\ Simulation.aisleRow ps2 < Simulation.aisleRow ps1))
  /\ Forall (shuffleExplained orderedIds passengers
               (Aircraft.aislePosition aircraft))
       (Simulation.getEvents s).
Proof.
  intros Hids Hperm Hseats Hsteps.
  pose proof (Orderly_run passengers aircraft orderedIds n s
                Hids Hperm Hseats Hsteps) as HO.
  split; [exact (ord_line _ _ _ s HO)|exact (ord_log _ _ _ s HO)].
Qed.

Lemma seatInGrid_reachable cfg p :
  Aircraft.cfg_columns cfg = Aircraft.cfg_columns Aircraft.DEFAULT_CONFIG ->
  Aircraft.cfg_aislePosition cfg = 3 ->
  seatInGrid cfg p -> seatsReachable cfg p.
Proof.
  intros Hc Ha [Hr Hcol]. split; [done|]. rewrite Ha, Hc. rewrite Hc in Hcol.
  cbn in Hcol |- *.
  repeat (apply elem_of_cons in Hcol as [->|Hcol]);
    [..|by apply elem_of_nil in Hcol];
    intros c Hin;
    match type of Hin with
    | _ ∈ ?l => let l' := eval vm_compute in l in change l with l' in Hin
    end;
    repeat (apply elem_of_cons in Hin as [->|Hin]);
    try (by apply elem_of_nil in Hin);
    repeat first [by left|right].
Qed.

Lemma nobody_overtakes_witness :
  exists s,
    Simulation.steps 9 Scenario.initial = Some s
    /\ Forall (shuffleExplained [1; 2]%nat [Scenario.P1; Scenario.P2] 3)
         (Simulation.getEvents s).
Proof.
  destruct (Simulation.steps 9 Scenario.initial) as [s|] eqn:Hs;
    [|vm_compute in Hs; discriminate].
  exists s. split; [reflexivity|].
  assert (Hids : NoDup (Passenger.id <$> [Scenario.P1; Scenario.P2]))
    by (by apply (bool_decide_unpack _)).
  assert (Hseats : Forall (seatsReachable
                             (Aircraft.config (Aircraft.new Scenario.layout)))
                     [Scenario.P1; Scenario.P2]).
  { apply Forall_cons_2; [|apply Forall_cons_2; [|apply Forall_nil_2]];
      apply seatInGrid_reachable; try reflexivity;
      (split; [cbn; lia|]); cbn; repeat first [by left|right]. }
  exact (proj2 (nobody_overtakes [Scenario.P1; Scenario.P2]
                  (Aircraft.new Scenario.layout) [1; 2]%nat 9 s
                  Hids (Permutation_refl _) Hseats Hs)).
Defined.

(** ** Orders that need no shuffle *)

Lemma StronglySorted_lookup {A} (R : relation A) (l : list A) i j x y :
  StronglySorted R l -> (i < j)%nat ->
  l !! i = Some x -> l !! j = Some y -> R x y.
Proof.
  intros Hl. revert i j. induction Hl as [|x0 l Hl IH Hx]; intros i j Hij;
    [done|].
  destruct j as [|j]; [lia|]. destruct i as [|i]; cbn.
  - intros [= <-] Hy. apply (proj1 (Forall_forall _ _) Hx).
    by eapply list_elem_of_lookup_2.
  - apply IH. lia.
Qed.

Lemma same_id (passengers : list Passenger.t) a b :
  NoDup (Passenger.id <$> passengers) ->
  a ∈ passengers -> b ∈ passengers ->
  Passenger.id a = Passenger.id b -> a = b.
Proof.
  intros Hnd [i Hi]%list_elem_of_lookup [j Hj]%list_elem_of_lookup Hid.
  assert (Hi' : (Passenger.id <$> passengers) !! i = Some (Passenger.id a))
    by (by rewrite list_lookup_fmap, Hi).
  assert (Hj' : (Passenger.id <$> passengers) !! j = Some (Passenger.id a))
    by (by rewrite list_lookup_fmap, Hj, Hid).
  pose proof (NoDup_lookup _ _ _ _ Hnd Hi' Hj') as ->. congruence.
Qed.

(** A seat between a seat and the aisle is of a lesser class. *)
Lemma class_between p q :
  Passenger.column p ∈ Aircraft.cfg_columns Aircraft.DEFAULT_CONFIG ->
  Passenger.column q ∈ columnsBetween 3 (Passenger.column p) ->
  classRank (Passenger.seatClass q) < classRank (Passenger.seatClass p).
Proof.
  intros Hp Hq. unfold Passenger.seatClass.
  change (Aircraft.cfg_columns Aircraft.DEFAULT_CONFIG)
    with ["A"; "B"; "C"; "D"; "E"; "F"]%string in Hp.
  revert Hq.
  repeat (apply elem_of_cons in Hp as [->|Hp]);
    [..|by apply elem_of_nil in Hp];
    intros Hq;
    match type of Hq with
    | _ ∈ ?l => let l' := eval vm_compute in l in change l with l' in Hq
    end;
    repeat (apply elem_of_cons in Hq as [->|Hq]);
    try (by apply elem_of_nil in Hq); by vm_compute.
Qed.

Lemma sorted_by_class_shuffleFree (R : relation Passenger.t)
    (passengers sorted : list Passenger.t) (aircraft : Aircraft.t)
    (n : nat) (s : Simulation.t) :
  (forall a b, R a b ->
     classRank (Passenger.seatClass b) <= classRank (Passenger.seatClass a)) ->
  NoDup (Passenger.id <$> passengers) ->
  sorted ≡ₚ passengers ->
  StronglySorted R sorted ->
  Aircraft.columns aircraft = Aircraft.cfg_columns Aircraft.DEFAULT_CONFIG ->
  Aircraft.aislePosition aircraft = 3 ->
  Forall (seatInGrid (Aircraft.config aircraft)) passengers ->
  Simulation.steps n
    (Simulation.setBoardingOrder (Passenger.id <$> sorted)
       (Simulation.new passengers aircraft)) = Some s ->
  shuffleFree s.
Proof.
  intros HR Hids Hperm Hsorted Hcols Hpos Hgrid Hsteps.
  assert (HO : Orderly (Passenger.id <$> sorted) (Aircraft.config aircraft)
                 passengers s).
  { apply (Orderly_run passengers aircraft _ n s Hids); [by rewrite Hperm| |done].
    eapply Forall_impl; [exact Hgrid|]. intros p.
    by apply seatInGrid_reachable. }
  assert (Hlog : Forall (fun e => Simulation.type e <> EventType.SHUFFLE_START)
                   (Simulation.events s)).
  { eapply Forall_impl; [exact (ord_log _ _ _ s HO)|]. cbn beta.
    intros e He Hty.
    destruct (He Hty) as (p & blocking & Hp & Hid & Hseat & _ & Hne & Hcause).
    destruct blocking as [|c blocking]; [done|].
    destruct (Hcause c ltac:(by left))
      as (Hbetween & q & Hq & Hseatq & Hearlier).
    rewrite <- Hid in Hearlier.
    destruct Hearlier as (i & j & Hij & Hi & Hj).
    rewrite list_lookup_fmap in Hi, Hj.
    destruct (sorted !! i) as [q0|] eqn:Eq; [|done].
    destruct (sorted !! j) as [p0|] eqn:Ep; [|done].
    cbn in Hi, Hj. injection Hi as Hi. injection Hj as Hj.
    assert (q0 = q) as ->.
    { apply (same_id passengers); try done.
      rewrite <- Hperm. by eapply list_elem_of_lookup_2. }
    assert (p0 = p) as ->.
    { apply (same_id passengers); try done.
      rewrite <- Hperm. by eapply list_elem_of_lookup_2. }
    pose proof (HR q p (StronglySorted_lookup R sorted i j q p
                          Hsorted Hij Eq Ep)) as Hrank.
    assert (Hless : classRank (Passenger.seatClass q)
                    < classRank (Passenger.seatClass p)); [|lia].
    unfold Passenger.seat in Hseat, Hseatq.
    injection Hseat as _ Hcolp. injection Hseatq as _ Hcolq.
    apply class_between.
    - rewrite <- Hcols.
      apply (proj1 (Forall_forall _ _) Hgrid p Hp).
    - rewrite Hcolq, Hcolp.
      change (Aircraft.cfg_aislePosition (Aircraft.config aircraft))
        with (Aircraft.aislePosition aircraft) in Hbetween.
      by rewrite Hpos in Hbetween. }
  split; [exact Hlog|]. intros k ps Hget Hs.
  destruct (ord_shuffling _ _ _ s HO k ps Hget Hs) as (e & He & Hty).
  by apply (proj1 (Forall_forall _ _) Hlog e He).
Qed.

(** X27: the orders of the window-middle-aisle preset and of the Steffen
    preset need no seat shuffle.  On a cabin of at most 100 rows of the
    seats A to F, the aisle between C and D, with passengers numbered
    from 1 whose seats are seats of the cabin, a boarding in either
    order never logs a SHUFFLE_START event and never has a passenger
    SHUFFLING, at any tick. *)
Theorem seat_class_orders_board_without_shuffles
    (context : AlgorithmRunner.Context) (passengers : list Passenger.t)
    (aircraft : Aircraft.t) :
  Passenger.id <$> passengers = seq 1 (length passengers) ->
  Aircraft.columns aircraft = Aircraft.cfg_columns Aircraft.DEFAULT_CONFIG ->
  Aircraft.aislePosition aircraft = 3 ->
  Aircraft.rows aircraft <= 100 ->
  Forall (seatInGrid (Aircraft.config aircraft)) passengers ->
  (forall n s,
     Simulation.steps n
       (Simulation.setBoardingOrder
          (AlgorithmRunner.runAlgorithm Presets.windowMiddleAisle passengers
             context)
          (Simulation.new passengers aircraft)) = Some s ->
     shuffleFree s)
  /\ (forall n s,
        Simulation.steps n
          (Simulation.setBoardingOrder
             (AlgorithmRunner.runAlgorithm Presets.steffen passengers context)
             (Simulation.new passengers aircraft)) = Some s ->
        shuffleFree s).
Proof.
  intros Hids Hcols Hpos Hrows Hgrid.
  assert (Hnd : NoDup (Passenger.id <$> passengers))
    by (rewrite Hids; apply NoDup_ListNoDup, seq_NoDup).
  assert (Hrange : forall m, 100 <= m ->
            Forall (fun p => 1 <= Passenger.row p <= m) passengers).
  { intros m Hm. eapply Forall_impl; [exact Hgrid|]. cbn.
    intros p [Hr _]. unfold Aircraft.rows in Hrows. lia. }
  split; intros n s.
  - destruct (windowMiddleAisle_sorted context passengers Hids
                (Hrange 100 ltac:(lia))) as (sorted & -> & Hperm & Hsorted).
    apply (sorted_by_class_shuffleFree classThenBackFirst); try done.
    intros a b [Hlt|[Heq _]]; [lia|by rewrite Heq].
  - destruct (steffen_sorted context passengers Hids
                (Hrange 500 ltac:(lia))) as (sorted & -> & Hperm & Hsorted).
    apply (sorted_by_class_shuffleFree steffenStages); try done.
    intros a b [Hlt|[Heq _]]; [lia|by rewrite Heq].
Qed.

Lemma seat_class_orders_board_without_shuffles_witness :
  exists s,
    Simulation.steps 9
      (Simulation.setBoardingOrder
         (AlgorithmRunner.runAlgorithm Presets.windowMiddleAisle
            [Scenario.P1; Scenario.P2] sampleContext)
         (Simulation.new [Scenario.P1; Scenario.P2]
            (Aircraft.new Scenario.layout))) = Some s
    /\ shuffleFree s.
Proof.
  destruct (Simulation.steps 9
              (Simulation.setBoardingOrder
                 (AlgorithmRunner.runAlgorithm Presets.windowMiddleAisle
                    [Scenario.P1; Scenario.P2] sampleContext)
                 (Simulation.new [Scenario.P1; Scenario.P2]
                    (Aircraft.new Scenario.layout)))) as [s|] eqn:Hs;
    [|vm_compute in Hs; discriminate].
  exists s. split; [reflexivity|].
  assert (Hgrid : Forall (seatInGrid (Aircraft.config
                                        (Aircraft.new Scenario.layout)))
                    [Scenario.P1; Scenario.P2]).
  { apply Forall_cons_2; [|apply Forall_cons_2; [|apply Forall_nil_2]];
      (split; [cbn; lia|]); cbn; repeat first [by left|right]. }
  assert (Hrows : Aircraft.rows (Aircraft.new Scenario.layout) <= 100)
    by (vm_compute; discriminate).
  exact (proj1 (seat_class_orders_board_without_shuffles sampleContext
                  [Scenario.P1; Scenario.P2] (Aircraft.new Scenario.layout)
                  eq_refl eq_refl eq_refl Hrows Hgrid) 9%nat s Hs).
Defined.

(** ** One admission per tick *)

Lemma Paced_updated order t s ps ps' a' evs :
  Paced order t s ->
  assoc_get (Passenger.id (Simulation.passenger ps))
    (Simulation.passengerStates s) = Some ps ->
  handles s ps ps' a' evs ->
  Paced order t (updated s ps' a' evs).
Proof.
  intros [Hq He] Hget Hh.
  destruct (handles_aisle _ _ _ _ _ Hh) as (Hp & _ & Hocc & _).
  destruct (handles_log _ _ _ _ _ Hh) as (_ & _ & _ & Hentered & _).
  split; [exact Hq|].
  intros i k ps1 Hi. unfold updated. cbn [Simulation.passengerStates].
  rewrite Hp, assoc_get_set.
  destruct (decide (k = Passenger.id (Simulation.passenger ps))) as [->|Hne].
  - intros [= <-] _. rewrite Hentered. apply (He i _ ps Hi Hget).
    intros Hs. unfold occupiesAisle in Hocc. by rewrite Hs in Hocc.
  - by apply He.
Qed.

Lemma Paced_handling order t ks s :
  Inv s -> Paced order t s ->
  Paced order t (foldl Simulation.processPassengerInAisle s ks).
Proof.
  revert s. induction ks as [|k ks IH]; intros s HI HP; cbn [foldl]; [done|].
  apply IH; [by apply Inv_processPassengerInAisle|].
  destruct (processPassengerInAisle_cases s k HI)
    as [->|(ps & ps' & a' & evs & Hget & <- & Hh & ->)]; [done|].
  by eapply Paced_updated.
Qed.

Lemma Paced_step order s s' :
  NoDup order -> Reachable s ->
  Paced order (Simulation.currentStep s) s ->
  Simulation.step s = Some s' ->
  Paced order (Simulation.currentStep s') s'.
Proof.
  intros Hnd HR HP Hstep.
  destruct (Simulation.isComplete s) eqn:Hic.
  { unfold Simulation.step in Hstep. rewrite Hic in Hstep. by injection Hstep as <-. }
  pose proof (step_currentStep s s' HR Hic Hstep) as Hcs.
  destruct (step_split s s' HR Hic Hstep) as (HI2 & Hev & Hcases).
  cbn zeta in *. destruct Hev as (_ & _ & Hcs2 & _).
  cbn [Simulation.currentStep Simulation.set_currentStep] in Hcs2.
  set (s1 := Simulation.set_currentStep (Simulation.currentStep s + 1) s) in *.
  assert (HP1 : Paced order (Simulation.currentStep s) s1)
    by (destruct HP as [Hq He]; by split).
  set (s2 := foldl Simulation.processPassengerInAisle s1
               (Simulation.getAislePassengersSorted s1)) in *.
  assert (HP2 : Paced order (Simulation.currentStep s) s2)
    by (apply Paced_handling; [by apply Reachable_Inv, Reachable_tick|done]).
  rewrite Hcs.
  destruct HP2 as [(served & rest0 & Horder & Hqueue & Hlen) He].
  destruct Hcases as [[-> _]|(k & rest & ps & Hq & Hfree & Hget & ->)].
  - destruct (checkCompletion_fields s2) as (_ & Hm & Hq & _).
    split; rewrite ?Hm, ?Hq.
    + exists served, rest0. repeat split; try done. lia.
    + exact He.
  - destruct (checkCompletion_fields (afterAdmission s2 k ps rest))
      as (_ & Hm & Hq' & _).
    rewrite Hq in Hqueue. destruct rest0 as [|k' rest0]; [done|].
    rewrite fmap_cons in Hqueue. injection Hqueue as <- ->.
    split; rewrite ?Hm, ?Hq'; unfold afterAdmission;
      cbn [Simulation.queue Simulation.passengerStates].
    + exists (served ++ [k]), rest0. rewrite <- app_assoc.
      repeat split; try done. rewrite length_app. cbn. lia.
    + intros i k1 ps1 Hi. rewrite assoc_get_set.
      destruct (decide (k1 = k)) as [->|Hne]; [|by apply He].
      intros [= <-] _. unfold admitted.
      cbn [Simulation.enteredAt Simulation.set_enteredAt].
      assert (Hk : order !! length served = Some k)
        by (rewrite Horder; by rewrite lookup_app_r, Nat.sub_diag).
      pose proof (NoDup_lookup _ _ _ _ Hnd Hi Hk) as ->.
      rewrite Hcs2. lia.
Qed.

Lemma start_queue passengers aircraft orderedIds :
  orderedIds ≡ₚ Passenger.id <$> passengers ->
  Simulation.queue
    (Simulation.setBoardingOrder orderedIds (Simulation.new passengers aircraft))
  = Some <$> orderedIds.
Proof.
  intros Hperm.
  destruct (start_fields passengers aircraft orderedIds)
    as (_ & _ & _ & _ & _ & Hq).
  rewrite Hq. apply list_fmap_ext. intros i id Hid.
  assert (Hin : id ∈ Passenger.id <$> passengers)
    by (rewrite <- Hperm; by eapply list_elem_of_lookup_2).
  apply list_elem_of_fmap in Hin as (p & -> & Hp).
  destruct (proj2 (initial_store_keys passengers aircraft orderedIds
                     (Passenger.id p))) as [ps ->]; [by exists p|done].
Qed.

Lemma Paced_steps order n s s' :
  NoDup order -> Reachable s ->
  Paced order (Simulation.currentStep s) s ->
  Simulation.steps n s = Some s' ->
  Paced order (Simulation.currentStep s') s'.
Proof.
  intros Hnd. revert s. induction n as [|n IH]; intros s HR HP;
    cbn [Simulation.steps].
  - by intros [= <-].
  - destruct (Simulation.step s) as [s1|] eqn:Hstep; [|done]. cbn.
    apply IH; [by eapply Reachable_step|by eapply Paced_step].
Qed.

(** X28: a tick admits one passenger at most, so a boarding cannot be
    fast.  When the boarding order names each passenger once, the
    passenger at index [i] of the order does not enter before tick
    [i + 1] and does not sit before tick [i + row + 3], one tick later
    with a bag: the tick that finds the boarding complete is not before
    any of these. *)
Theorem boarding_takes_at_least (passengers : list Passenger.t)
    (aircraft : Aircraft.t) (orderedIds : list nat) (n : nat)
    (s : Simulation.t) (i : nat) (k : nat) (ps : Simulation.RunState) :
  NoDup (Passenger.id <$> passengers) ->
  orderedIds ≡ₚ Passenger.id <$> passengers ->
  Simulation.steps n
    (Simulation.setBoardingOrder orderedIds (Simulation.new passengers aircraft))
  = Some s ->
  orderedIds !! i = Some k ->
  assoc_get k (Simulation.passengerStates s) = Some ps ->
  (Simulation.state ps <> PassengerState.WAITING ->
   Z.of_nat i + 1 <= Simulation.enteredAt ps <= Simulation.currentStep s)
  /\ (Simulation.state ps = PassengerState.SEATED ->
      Z.of_nat i + Passenger.row (Simulation.passenger ps) + 3
      + bag (Simulation.passenger ps) <= Simulation.seatedAt ps
      /\ Simulation.seatedAt ps <= Simulation.currentStep s
      /\ Z.of_nat i + Passenger.row (Simulation.passenger ps) + 3
         + bag (Simulation.passenger ps) <= Z.of_nat n).
Proof.
  intros Hids Hperm Hsteps Hi Hget.
  set (start := Simulation.setBoardingOrder orderedIds
                  (Simulation.new passengers aircraft)) in *.
  assert (Hnd : NoDup orderedIds) by (by rewrite Hperm).
  assert (HR0 : Reachable start) by apply Reachable_start.
  assert (HR : Reachable s) by (by eapply Reachable_steps).
  assert (HP : Paced orderedIds (Simulation.currentStep s) s).
  { apply (Paced_steps orderedIds n start s Hnd HR0); [|done]. split.
    - exists [], orderedIds. split; [done|].
      split; [by apply start_queue|done].
    - intros j k0 ps0 _ Hget0 Hw.
      by destruct (initial_store _ _ _ _ _ Hget0) as (p & Hp & <- & ->). }
  assert (HC : Clocked [] s).
  { eapply Clocked_steps; [apply Reachable_start| | | |exact Hsteps].
    - by apply queueWaiting_start.
    - done.
    - apply Clocked_start. }
  destruct (HC k ps Hget) as [_ Hnow].
  specialize (Hnow ltac:(by intros ?%elem_of_nil)).
  destruct Hnow as [Hw Hnow].
  pose proof (pac_entered _ _ s HP i k ps Hi Hget) as Hentered.
  assert (Hn : Simulation.currentStep s <= Z.of_nat n).
  { pose proof (steps_currentStep_le n start s HR0 Hsteps) as H.
    by change (Simulation.currentStep start) with 0 in H. }
  unfold stage in Hnow. split.
  - intros Hnw. specialize (Hentered Hnw). split; [done|].
    destruct (Simulation.state ps); try done; lia.
  - intros Hs. rewrite Hs in Hnow.
    specialize (Hentered ltac:(congruence)). lia.
Qed.

Lemma boarding_takes_at_least_witness :
  exists s ps,
    Simulation.steps 9 Scenario.initial = Some s
    /\ assoc_get 2%nat (Simulation.passengerStates s) = Some ps
    /\ (Simulation.state ps <> PassengerState.WAITING ->
        2 <= Simulation.enteredAt ps <= Simulation.currentStep s).
Proof.
  destruct (Simulation.steps 9 Scenario.initial) as [s|] eqn:Hs;
    [|vm_compute in Hs; discriminate].
  destruct (assoc_get 2%nat (Simulation.passengerStates s)) as [ps|] eqn:Hps;
    [|revert Hps; vm_compute in Hs; injection Hs as <-; vm_compute;
      discriminate].
  exists s, ps. split; [reflexivity|]. split; [exact Hps|].
  assert (Hids : NoDup (Passenger.id <$> [Scenario.P1; Scenario.P2]))
    by (by apply (bool_decide_unpack _)).
  exact (proj1 (boarding_takes_at_least [Scenario.P1; Scenario.P2]
                  (Aircraft.new Scenario.layout) [1; 2]%nat 9 s 1%nat 2%nat ps
                  Hids (Permutation_refl _) Hs eq_refl Hps)).
Defined.
